(* ===== verification/_CoqProject ===== *)
-Q . S2P
Prelude.v
Memory.v
Utils.v
Buffer.v
Streambuf.v
Constants.v
Integer.v
Huffman.v
Bitstream.v
HString.v
EncoderStream.v
StaticTable.v
HeaderField.v
DynamicTable.v
IndexedDynamicTable.v
HpackTable.v
Encoder.v
Decoder.v
HpackSync.v
HpackCodec.v
Protocol.v
Frame.v
FrameBuilder.v
ErrorCategory.v
Window.v
SettingsManager.v
Method.v
Request.v
Response.v
Stream.v
StreamHeaders.v
Reassembly.v
StreamRegistry.v
BaseClient.v
ClientReading.v
ClientWindow.v
ClientSafety.v
ClientSending.v
ClientUpload.v
ClientUploads.v
ClientReceiving.v
ResponseReading.v
ClientMultiplex.v
ClientSession.v
SessionExchange.v
SessionMultiplex.v
Calls.v
Connection.v
ExampleClient.v
