(* ===== verification/Prelude.v ===== *)
(** * h2pp: an HTTP/2 client library, verified

    The repository is a C++20 library: an HTTP/2 client (src/lib) over Boost.Asio, with its own
    HPACK codec (src/lib/hpack) and small utilities (src/lib/utils). A request becomes a
    stream; the stream's header fields go through the HPACK encoder into HEADERS and
    CONTINUATION frames, its body into DATA frames; received bytes are cut into frames, whose
    header blocks go through the HPACK decoder and whose data are collected in a response.
    This library models these parts as executable functions and proves what they guarantee.

    ** Files and sources

    - Prelude: this header; outcomes of C++ code, w-bit integers, bits and bytes, tactics.
      Memory: spans over memory (a span carries the memory it points into).
    - Utils (utils/utils.h, endianess.h), Buffer (utils/buffer.h), Streambuf
      (utils/streambuf): masks and byte swaps, the fixed buffer, the growing list of buffers.
    - HPACK: Constants (constants.h), Integer (integer), Huffman (huffman), Bitstream and
      HString (bitstream, string), EncoderStream (encoder_stream), StaticTable
      (static_table), HeaderField (header_field), DynamicTable and IndexedDynamicTable
      (dynamic_table, indexed_dynamic_table), HpackTable (hpack_table.h), Encoder
      (encoder), Decoder (decoder). HpackSync relates the tables of the two ends, HpackCodec
      has the theorems about encoder and decoder together.
    - Frames: Protocol (protocol.h, error.h), Frame (frame), FrameBuilder (frame_builder),
      ErrorCategory (error.h, error.cpp: the texts of the error codes).
    - Client: Window (dummy_window), SettingsManager (settings_manager), Method (method),
      Request (request), Response (response), Stream (stream) with StreamHeaders (what the
      peer decodes from a stream's HEADERS frames), Reassembly (base_client::on_read and
      client_session::on_data_read over an interface of frame handlers), StreamRegistry
      (stream_registry), BaseClient (base_client: frame handlers, command queue, requests,
      pings, settings, disconnecting), ClientReading (reading with these handlers), ClientWindow (the receive window of the
      connection), ClientSafety (frames of any content, and what is read of them), ClientSending, ClientUpload and ClientUploads (what the peer gets of
      requests: in one turn, over several, and side by side), ClientReceiving, ResponseReading
      and ClientMultiplex (what the user gets of responses: frame by frame, read by read, and
      interleaved), ClientSession (client_session.h: the life of a connection), SessionExchange
      and SessionMultiplex (a request and its response over a session, and many at once).
    - Around the client: Calls (programs as trees of library calls), Connection (connection.h:
      the TLS transport) and ExampleClient (examples/client.cpp).

    (A source without extension stands for its .h and .cpp files.)

    A definition has the name of the function it translates; the members of a class are the
    fields of a record; a member function takes the record and returns the new one.

    ** How the code is modelled

    Unsigned integers are [Z] with the wrap-around written out ([u8] ... [u64]); the modelled
    target is little-endian with 64-bit [size_t]. Exceptions, undefined behaviour (an over-wide
    shift, an access past an array or a list) and exhausted fuel are values of [outcome].
    Loops that are not structural have fuel, bounded by a length the code cannot exceed (the
    bytes of the input, the entries of a table, the slices of a body); the theorems show
    results, so the fuel never runs out. Bytes of new memory, and bytes around a span, come from
    functions the theorems quantify over. Completion handlers are elements of an abstract type;
    calls of a handler and requests to a timer are emitted as effects in order, and a timer's
    callback is an event, so that theorems about histories quantify over all interleavings of
    frames, timers, cancellations and turns to send.

    Reads behind a span give what the memory there holds, for any contents of it; they are not
    counted as undefined. Where that matters the theorems say that spans lie inside their frame
    ([Frame.padded_spans]) or that a result does not depend on the memory outside
    ([ClientSafety.client_frame_safe]). [Reassembly.on_read] is generic in the frame handlers and leaves the
    call of init_write at its end to its caller [ClientSession.on_data_read].

    Streams are shared objects: the registry's map and queue hold indices into one store, and
    an erased entry of the queue is a null pointer. The client appends what it does to its
    surroundings (calls of handlers, timer requests, calls of the virtual init_write) to a log.
    A session carries the log out; its asynchronous operations are a list of pending tasks, and
    the step relation of ClientSession lets the transport complete any of them, in any
    order, with any error and any bytes. The member functions of the TLS transport and the example
    program are finite trees of library calls ([Calls.free]), run against an environment that
    answers them.

    Interfaces: [SetSearch] (the search of std::set), [DynTable] and its laws (the template
    parameter of hpack_table), [FrameSink] and [SinkLaws] (the frame handlers on_read calls,
    which simulate what an abstract state does with the frames; the client is an instance with three
    simulations: by what connection frames do to it, by the progress of a response, and by
    the phases of several responses).
    Code of other libraries is an argument: what a URL's accessors return, what a handler
    leaves of a moved response.

    ** What the theorems show

    - HPACK: integers, Huffman strings, header blocks and whole sessions are read back as they
      were written, with the tables in agreement, when the fields to be indexed have static names
      (any other such field breaks the agreement); lookups agree with linear searches; the
      decoder is safe on every input but for named undefined shifts; sizes keep to the limits
      as far as the code counts them; the dynamic tables keep exact accounting; and the places
      where the code leaves RFC 7541.
    - Frames: the bytes of built frames, which are those of RFC 7540 but for the error code of
      RST_STREAM, the last stream id of GOAWAY, short PING frames and padding; frames are parsed
      back; padding that fits and padding that does not.
    - Streams: reading does not depend on how the bytes arrive; a stream's headers reach the peer's
      decoder unchanged; a body of one slice is sent completely and in order; response
      bodies are the data of their frames; flow-control credit is conserved by the
      receive windows; handlers of settings and requests are called at most once; and where
      the code fails: bodies after a completed slice, DATA frames that are not counted,
      the order of the two settings frames.
    - Client: requests that are sent leave in the next turn, and the peer's decoder gets their
      fields and bodies back; bodies of any size, uploaded side by side, are sent completely in
      as many turns as the largest takes; responses, their frames interleaved and cut into reads
      in any way, reach the handlers of their requests, each once, with its own fields and body;
      the window of the connection gives back exactly the credit the peer has used; a
      whole frame that holds its fields is handled with a result or an exception, depending on its
      bytes only, while the queue of the registry has no null entry; in every reachable state identifiers lead to the
      streams of earlier requests and the queue of the registry holds exactly the streams with
      something to send; a request
      gets the next odd identifier; the command queue is sent first, in order and within the
      peer's window; the end of the settings exchange opens the receive window; connection
      frames have the same effect however they are cut into reads; broken frame headers lead
      to GOAWAY with the right error.
    - Session: any number of requests and their responses end to end, from the user's calls over
      the frames written and read to the calls of the user's handlers; when the user disconnects only
      a connected session, at most one write at a time, on memory that stays alive, and the
      connection preface first, in any order of events; an orderly disconnection completes every
      open request and ends with both handlers called once; and where the
      code fails: a lost connection that is not reported, a session that cannot be reused, a
      disconnection during the connection, null entries in the registry's queue, frames
      shorter than the fields read from them. Connecting sets up TLS completely before the
      handshake and stops at the first failure; but every certificate is accepted. The
      example program does what it says, but exits successfully after a failure and hangs on a
      URL that cannot be parsed.

    ** Not modelled

    Mutexes, strands and threads: one handler runs at a time, as it does on the strand of a
    connection; what several threads of an I/O context would do to a session is not described. Of
    the sources, declarations without behaviour (forward declarations, defaulted and deleted
    members, type aliases, include lines) have no definition of their own. Boost.Asio, OpenSSL, Boost.URL,
    the search of std::set and the memory allocator are arguments. The theorems on complete
    exchanges ask for header blocks in one frame and bodies of one slice; what happens otherwise is
    in StreamHeaders (blocks over several frames), in ClientReceiving (blocks received in parts) and in
    Stream (bodies of several slices, where the code fails). *)
From stdpp Require Export list numbers strings.
From Stdlib Require Export ZArith Lia.

Open Scope Z_scope.

#[global] Arguments Nat.div : simpl never.
#[global] Arguments Nat.modulo : simpl never.
#[global] Arguments Nat.mul : simpl never.
#[global] Arguments Z.mul : simpl never.
#[global] Arguments Z.pow : simpl never.
#[global] Arguments Z.of_nat : simpl never.

(** ** Outcomes of C++ code *)

(** [boost::system::error_code]: no error, an error of the HTTP/2 category with its value,
    one of the [boost::asio::error] codes the sources name, or one of the transport. *)
Inductive asio_error : Type := in_progress | not_connected | timed_out | operation_aborted | already_connected.
Inductive boost_error : Type :=
| NoError
| Http2Error (value : Z)
| AsioError (e : asio_error)
| TransportError (value : Z).

Global Instance asio_error_eq_dec : EqDecision asio_error.
Proof. solve_decision. Defined.
Global Instance boost_error_eq_dec : EqDecision boost_error.
Proof. solve_decision. Defined.

(** The exceptions the sources throw, with their [what()] text. *)
Inductive exn : Type :=
| overflow_error (what : string)
| invalid_argument (what : string)
| runtime_error (what : string)
| length_error (what : string)
| system_error (code : boost_error) (what : string).

(** The outcome of a computation: a value, a thrown exception, undefined
    behaviour of the C++ abstract machine (an over-wide shift, an access past an
    array), or a loop whose fuel ran out (every such loop is proved never to
    reach this case). *)
Inductive outcome (A : Type) : Type :=
| Ok (a : A)
| Throw (e : exn)
| Undefined
| OutOfFuel.
Arguments Ok {A} _.
Arguments Throw {A} _.
Arguments Undefined {A}.
Arguments OutOfFuel {A}.

Global Instance outcome_ret : MRet outcome := fun A a => Ok a.
Global Instance outcome_bind : MBind outcome := fun A B f m =>
  match m with
  | Ok a => f a
  | Throw e => Throw e
  | Undefined => Undefined
  | OutOfFuel => OutOfFuel
  end.
Global Instance outcome_fmap : FMap outcome := fun A B f m =>
  match m with
  | Ok a => Ok (f a)
  | Throw e => Throw e
  | Undefined => Undefined
  | OutOfFuel => OutOfFuel
  end.

Global Instance Ok_inj {A} : Inj (=) (=) (@Ok A).
Proof. by intros a b [= ->]. Qed.

Definition is_ok {A} (m : outcome A) : Prop := exists a, m = Ok a.
Definition is_throw {A} (m : outcome A) : Prop := exists e, m = Throw e.

Lemma outcome_bind_ok {A B} (m : outcome A) (f : A -> outcome B) b :
  m ≫= f = Ok b -> exists a, m = Ok a /\ f a = Ok b.
Proof. destruct m; simpl; try discriminate. eauto. Qed.

(** [post U m P]: [m] ends, with a value in [P], with an exception, or with undefined
    behaviour, the latter only if [U] holds. *)
Definition post {A} (U : Prop) (m : outcome A) (P : A -> Prop) : Prop :=
  match m with
  | Ok a => P a
  | Throw _ => True
  | Undefined => U
  | OutOfFuel => False
  end.

Lemma post_bind {A B} U (m : outcome A) (f : A -> outcome B) P Q :
  post U m P -> (forall a, P a -> post U (f a) Q) -> post U (m ≫= f) Q.
Proof. destruct m; simpl; auto. Qed.

Lemma post_weaken {A} (U U' : Prop) (m : outcome A) (P P' : A -> Prop) :
  post U m P -> (U -> U') -> (forall a, P a -> P' a) -> post U' m P'.
Proof. destruct m; simpl; auto. Qed.

Lemma post_ok {A} (U : Prop) (m : outcome A) (P : A -> Prop) a : post U m P -> m = Ok a -> P a.
Proof. by intros H ->. Qed.

(** ** Machine integers *)

(** The value of a [w]-bit unsigned integer after wrap-around. *)
Definition wrap (w x : Z) : Z := x mod 2 ^ w.
Definition u8 : Z -> Z := wrap 8.
Definition u16 : Z -> Z := wrap 16.
Definition u32 : Z -> Z := wrap 32.
Definition u64 : Z -> Z := wrap 64.

Definition fits (w x : Z) : Prop := 0 <= x < 2 ^ w.
Abbreviation is_byte := (fits 8).
Abbreviation bytes_ok := (Forall (fits 8)).

Create HintDb h2pp.
Create Rewrite HintDb zbits.

Lemma wrap_small w x : fits w x -> wrap w x = x.
Proof. apply Z.mod_small. Qed.

Lemma wrap_fits w x : 0 <= w -> fits w (wrap w x).
Proof. intros. apply Z.mod_pos_bound, Z.pow_pos_nonneg; lia. Qed.

Lemma wrap_testbit w x i :
  0 <= w -> Z.testbit (wrap w x) i = (i <? w) && Z.testbit x i.
Proof.
  intros Hw. unfold wrap. destruct (Z.ltb_spec i w).
  - destruct (Z.ltb_spec i 0); [by rewrite !Z.testbit_neg_r|].
    by rewrite Z.mod_pow2_bits_low.
  - by rewrite Z.mod_pow2_bits_high by lia.
Qed.

Lemma fits_testbit w x i : fits w x -> 0 <= w -> w <= i -> Z.testbit x i = false.
Proof.
  intros Hx ??. rewrite <- (wrap_small w x Hx), wrap_testbit by lia.
  by destruct (Z.ltb_spec i w); [lia|].
Qed.

Lemma fits_of_testbit w x :
  0 <= x -> 0 <= w -> (forall i, w <= i -> Z.testbit x i = false) -> fits w x.
Proof.
  intros Hx Hw Hi. split; [done|]. destruct (decide (x = 0)) as [->|].
  - apply Z.pow_pos_nonneg; lia.
  - apply Z.log2_lt_pow2; [lia|]. destruct (Z.lt_ge_cases (Z.log2 x) w); [done|].
    pose proof (Z.bit_log2 x ltac:(lia)) as Hb. rewrite Hi in Hb; done.
Qed.

(** Decides an equation between integers bit by bit: every operator is
    rewritten to its [testbit] equation and the boolean comparisons are split. *)
#[global] Hint Rewrite Z.lor_spec Z.land_spec Z.lxor_spec Z.testbit_0_l : zbits.
#[global] Hint Rewrite Z.shiftl_spec Z.shiftr_spec Z.testbit_ones_nonneg wrap_testbit
  using lia : zbits.

Ltac split_ltb :=
  repeat match goal with
  | |- context [Z.ltb ?a ?b] => destruct (Z.ltb_spec a b)
  | |- context [Z.leb ?a ?b] => destruct (Z.leb_spec a b)
  end.

Ltac zbits :=
  autorewrite with zbits; split_ltb; simpl; try done; try (exfalso; lia);
  rewrite ?andb_true_r, ?andb_false_r, ?orb_false_r; try done; try (f_equal; lia).

Lemma lor_add a b : Z.land a b = 0 -> Z.lor a b = a + b.
Proof. intros H. rewrite <- Z.lxor_lor by done. symmetry. by apply Z.add_nocarry_lxor. Qed.

Lemma fits_lor w a b : 0 <= w -> fits w a -> fits w b -> fits w (Z.lor a b).
Proof.
  intros Hw [??] [??]. apply fits_of_testbit; [by apply Z.lor_nonneg|done|].
  intros i Hi. rewrite Z.lor_spec, !(fits_testbit w) by (done || lia). done.
Qed.

Lemma fits_land_r w a b : 0 <= w -> 0 <= a -> fits w b -> fits w (Z.land a b).
Proof.
  intros Hw Ha [??]. apply fits_of_testbit; [apply Z.land_nonneg; by left|done|].
  intros i Hi. rewrite Z.land_spec, (fits_testbit w b) by (done || lia). apply andb_false_r.
Qed.

Lemma fits_weaken w w' x : 0 <= w <= w' -> fits w x -> fits w' x.
Proof.
  intros Hw [??]. split; [done|]. apply Z.lt_le_trans with (2 ^ w); [done|].
  apply Z.pow_le_mono_r; lia.
Qed.

(** ** Bits and bytes *)

(** The [n] low bits of [x], most significant first. *)
Definition low_bits (n : nat) (x : Z) : list bool :=
  (fun i => Z.testbit x (Z.of_nat n - 1 - Z.of_nat i)) <$> seq 0 n.

(** The bits of a byte string in transmission order. *)
Definition bytes_bits (l : list Z) : list bool := l ≫= low_bits 8.

(** Big-endian value of a byte string, and the [n] big-endian bytes of a value. *)
Definition be_combine (l : list Z) : Z := fold_left (fun acc b => 256 * acc + b) l 0.
Definition be_split (n : nat) (x : Z) : list Z :=
  (fun i => u8 (Z.shiftr x (8 * (Z.of_nat n - 1 - Z.of_nat i)))) <$> seq 0 n.

(** The same in little-endian order, the native order of the modelled target. *)
Definition le_combine (l : list Z) : Z := be_combine (reverse l).
Definition le_split (n : nat) (x : Z) : list Z := reverse (be_split n x).

Lemma length_low_bits n x : length (low_bits n x) = n.
Proof. unfold low_bits. by rewrite length_fmap, length_seq. Qed.

Lemma low_bits_lookup n x i :
  (i < n)%nat -> low_bits n x !! i = Some (Z.testbit x (Z.of_nat n - 1 - Z.of_nat i)).
Proof.
  intros. unfold low_bits. rewrite list_lookup_fmap, lookup_seq_lt by done. done.
Qed.

Lemma list_eq_bits (l k : list bool) n :
  length l = n -> length k = n -> (forall i, (i < n)%nat -> l !! i = k !! i) -> l = k.
Proof.
  intros Hl Hk H. apply list_eq_same_length with n; [done..|].
  intros i x y Hi Hx Hy. specialize (H i Hi). congruence.
Qed.

Lemma low_bits_ext n x y :
  (forall k, 0 <= k < Z.of_nat n -> Z.testbit x k = Z.testbit y k) ->
  low_bits n x = low_bits n y.
Proof.
  intros H. apply list_eq_bits with n; [apply length_low_bits..|]. intros i Hi.
  rewrite !low_bits_lookup by done. f_equal. apply H. lia.
Qed.

Lemma low_bits_inj n x y :
  low_bits n x = low_bits n y ->
  forall k, 0 <= k < Z.of_nat n -> Z.testbit x k = Z.testbit y k.
Proof.
  intros H k Hk. pose (i := (n - 1 - Z.to_nat k)%nat).
  assert (Hi : low_bits n x !! i = low_bits n y !! i) by congruence.
  rewrite !low_bits_lookup in Hi by lia. injection Hi as Hi.
  by replace (Z.of_nat n - 1 - Z.of_nat i) with k in Hi by lia.
Qed.

Lemma low_bits_app a b x :
  low_bits (a + b) x = low_bits a (Z.shiftr x (Z.of_nat b)) ++ low_bits b x.
Proof.
  apply list_eq_bits with (a + b)%nat;
    [apply length_low_bits|by rewrite length_app, !length_low_bits|].
  intros i Hi. rewrite low_bits_lookup by done. destruct (decide (i < a)%nat).
  - rewrite lookup_app_l by (rewrite length_low_bits; lia).
    rewrite low_bits_lookup by lia. f_equal.
    rewrite Z.shiftr_spec by lia. f_equal. lia.
  - rewrite lookup_app_r by (rewrite length_low_bits; lia).
    rewrite length_low_bits, low_bits_lookup by lia. f_equal. f_equal. lia.
Qed.

Lemma bytes_bits_app l k : bytes_bits (l ++ k) = bytes_bits l ++ bytes_bits k.
Proof. apply bind_app. Qed.

Lemma bytes_bits_cons b l : bytes_bits (b :: l) = low_bits 8 b ++ bytes_bits l.
Proof. done. Qed.

Lemma length_bytes_bits l : length (bytes_bits l) = (8 * length l)%nat.
Proof.
  induction l as [|b l IH]; [done|].
  rewrite bytes_bits_cons, length_app, length_low_bits, IH. simpl. lia.
Qed.

Lemma bytes_bits_lookup l i :
  bytes_bits l !! i = (fun b => Z.testbit b (7 - Z.of_nat i mod 8)) <$> l !! (i / 8)%nat.
Proof.
  revert i. induction l as [|b l IH]; intros i; [done|].
  rewrite bytes_bits_cons. destruct (decide (i < 8)%nat).
  - rewrite lookup_app_l by (rewrite length_low_bits; lia).
    rewrite low_bits_lookup, Nat.div_small by lia. simpl. f_equal. f_equal. rewrite Z.mod_small; lia.
  - rewrite lookup_app_r by (rewrite length_low_bits; lia).
    rewrite length_low_bits, IH.
    assert ((i / 8)%nat = S ((i - 8) / 8)) as ->
      by (replace i with (i - 8 + 1 * 8)%nat at 1 by lia; rewrite Nat.div_add; lia).
    simpl. replace (Z.of_nat (i - 8)) with (Z.of_nat i - 8) by lia.
    by replace ((Z.of_nat i - 8) mod 8) with (Z.of_nat i mod 8) by (Z.div_mod_to_equations; lia).
Qed.

Lemma length_be_split n x : length (be_split n x) = n.
Proof. unfold be_split. by rewrite length_fmap, length_seq. Qed.

Lemma be_split_lookup n x i :
  (i < n)%nat ->
  be_split n x !! i = Some (u8 (Z.shiftr x (8 * (Z.of_nat n - 1 - Z.of_nat i)))).
Proof.
  intros. unfold be_split. rewrite list_lookup_fmap, lookup_seq_lt by done. done.
Qed.

Lemma be_split_bytes_ok n x : bytes_ok (be_split n x).
Proof.
  apply Forall_fmap, Forall_true. intros i. apply wrap_fits. lia.
Qed.

Lemma bytes_bits_be_split n x : bytes_bits (be_split n x) = low_bits (8 * n) x.
Proof.
  apply list_eq_bits with (8 * n)%nat;
    [by rewrite length_bytes_bits, length_be_split|apply length_low_bits|].
  intros i Hi. rewrite bytes_bits_lookup, low_bits_lookup by done.
  assert (i / 8 < n)%nat by (apply Nat.Div0.div_lt_upper_bound; lia).
  rewrite be_split_lookup by done. simpl. f_equal. unfold u8.
  pose proof (Nat.div_mod_eq i 8). pose proof (Nat.mod_upper_bound i 8 ltac:(lia)).
  replace (Z.of_nat i mod 8) with (Z.of_nat (i mod 8)) by (by rewrite Nat2Z.inj_mod).
  rewrite wrap_testbit by lia.
  destruct (Z.ltb_spec (7 - Z.of_nat (i mod 8)) 8); [|lia]. simpl.
  rewrite Z.shiftr_spec by lia. f_equal. lia.
Qed.

Lemma low_bits_cut n m x :
  fits (Z.of_nat m) x -> low_bits (n + m) x = replicate n false ++ low_bits m x.
Proof.
  intros Hx. rewrite low_bits_app. f_equal. apply list_eq_bits with n;
    [apply length_low_bits|apply length_replicate|]. intros i Hi.
  rewrite low_bits_lookup, lookup_replicate_2 by done. f_equal.
  rewrite Z.shiftr_spec by lia. apply fits_testbit with (Z.of_nat m); [done|lia..].
Qed.

Lemma be_combine_snoc l b : be_combine (l ++ [b]) = 256 * be_combine l + b.
Proof. unfold be_combine. by rewrite fold_left_app. Qed.

Lemma be_combine_fits l : bytes_ok l -> fits (8 * Z.of_nat (length l)) (be_combine l).
Proof.
  induction l as [|b l IH] using rev_ind; [by (intros; split)|].
  rewrite Forall_app, Forall_singleton. intros [Hl Hb].
  rewrite be_combine_snoc, length_app. destruct (IH Hl) as [??], Hb as [??]. simpl.
  replace (8 * Z.of_nat (length l + 1)) with (8 + 8 * Z.of_nat (length l)) by lia.
  split; [lia|]. rewrite Z.pow_add_r by lia. change (2 ^ 8) with 256 in *. lia.
Qed.

Lemma low_bits_shift_add n c b :
  is_byte b -> low_bits (n + 8) (256 * c + b) = low_bits n c ++ low_bits 8 b.
Proof.
  intros [??]. rewrite low_bits_app. change (2 ^ 8) with 256 in *. f_equal.
  - apply low_bits_ext. intros k Hk. rewrite Z.shiftr_div_pow2 by lia. f_equal.
    change (2 ^ Z.of_nat 8) with 256. rewrite Z.add_comm, Z.mul_comm, Z.div_add, Z.div_small; lia.
  - apply low_bits_ext. intros k Hk. replace (256 * c + b) with (b + c * 2 ^ 8) by lia.
    rewrite <- (Z.mod_pow2_bits_low _ 8 k), Z.mod_add by lia.
    by rewrite Z.mod_pow2_bits_low by lia.
Qed.

Lemma low_bits_be_combine l :
  bytes_ok l -> low_bits (8 * length l) (be_combine l) = bytes_bits l.
Proof.
  induction l as [|b l IH] using rev_ind; [done|].
  rewrite Forall_app, Forall_singleton. intros [Hl Hb].
  rewrite be_combine_snoc, length_app, bytes_bits_app. simpl.
  replace (8 * (length l + 1))%nat with (8 * length l + 8)%nat by lia.
  by rewrite low_bits_shift_add, IH.
Qed.

(** Two values of the same width with the same bits are equal. *)
Lemma low_bits_fits_eq n x y :
  fits (Z.of_nat n) x -> fits (Z.of_nat n) y -> low_bits n x = low_bits n y -> x = y.
Proof.
  intros Hx Hy H. apply Z.bits_inj'. intros k Hk. destruct (Z.lt_ge_cases k (Z.of_nat n)).
  - by apply (low_bits_inj n).
  - rewrite !(fits_testbit (Z.of_nat n)) by (done || lia). done.
Qed.

Lemma bytes_bits_inj l k :
  bytes_ok l -> bytes_ok k -> bytes_bits l = bytes_bits k -> l = k.
Proof.
  intros Hl Hk. revert k Hk. induction Hl as [|b l Hb Hl IH]; intros [|c k] Hk Heq; try done.
  inversion_clear Hk. rewrite !bytes_bits_cons in Heq.
  apply app_inj_1 in Heq as [H1 H2]; [|by rewrite !length_low_bits].
  f_equal; [by apply (low_bits_fits_eq 8)|by apply IH].
Qed.

Lemma be_combine_split n x : be_combine (be_split n x) = wrap (8 * Z.of_nat n) x.
Proof.
  apply (low_bits_fits_eq (8 * n)).
  - rewrite <- (length_be_split n x) at 1. replace (Z.of_nat (8 * length (be_split n x)))
      with (8 * Z.of_nat (length (be_split n x))) by lia.
    apply be_combine_fits, be_split_bytes_ok.
  - rewrite Nat2Z.inj_mul. apply wrap_fits. lia.
  - rewrite <- (length_be_split n x) at 1.
    rewrite low_bits_be_combine, bytes_bits_be_split by apply be_split_bytes_ok.
    apply low_bits_ext. intros k Hk. rewrite wrap_testbit by lia.
    by destruct (Z.ltb_spec k (8 * Z.of_nat n)); [|lia].
Qed.

Lemma be_split_combine l : bytes_ok l -> be_split (length l) (be_combine l) = l.
Proof.
  intros Hl. apply bytes_bits_inj; [apply be_split_bytes_ok|done|].
  by rewrite bytes_bits_be_split, low_bits_be_combine.
Qed.

Lemma le_combine_split n x : le_combine (le_split n x) = wrap (8 * Z.of_nat n) x.
Proof. unfold le_combine, le_split. by rewrite reverse_involutive, be_combine_split. Qed.

Lemma length_le_split n x : length (le_split n x) = n.
Proof. unfold le_split. by rewrite length_reverse, length_be_split. Qed.

Lemma le_split_bytes_ok n x : bytes_ok (le_split n x).
Proof. unfold le_split. apply Forall_reverse, be_split_bytes_ok. Qed.

#[export] Hint Resolve be_split_bytes_ok le_split_bytes_ok : h2pp.

(** Checking a boolean property of every byte by evaluation. *)
Lemma byte_forall (P : Z -> bool) :
  forallb P (seqZ 0 256) = true -> forall b, 0 <= b < 256 -> P b = true.
Proof.
  intros H b Hb. rewrite forallb_forall in H. apply H, list_elem_of_In, elem_of_seqZ. lia.
Qed.

(** ** Bit strings under shifts *)

Lemma low_bits_wrap n w x :
  Z.of_nat n <= w -> low_bits n (wrap w x) = low_bits n x.
Proof.
  intros Hn. apply low_bits_ext. intros k Hk. rewrite wrap_testbit by lia.
  by destruct (Z.ltb_spec k w); [|lia].
Qed.

(** Shifting left by [b] and filling with the [b]-bit value [c] appends its bits. *)
Lemma low_bits_shiftl_lor a b x c :
  fits (Z.of_nat b) c ->
  low_bits (a + b) (Z.lor (Z.shiftl x (Z.of_nat b)) c) = low_bits a x ++ low_bits b c.
Proof.
  intros Hc. rewrite low_bits_app. f_equal; apply low_bits_ext; intros k Hk.
  - rewrite Z.shiftr_spec, Z.lor_spec, Z.shiftl_spec by lia.
    rewrite (fits_testbit (Z.of_nat b) c) by (done || lia). rewrite orb_false_r. f_equal. lia.
  - rewrite Z.lor_spec, Z.shiftl_spec_low by lia. done.
Qed.

Lemma low_bits_ones n : low_bits n (Z.ones (Z.of_nat n)) = replicate n true.
Proof.
  apply list_eq_bits with n; [apply length_low_bits|apply length_replicate|]. intros i Hi.
  rewrite low_bits_lookup, lookup_replicate_2 by done. f_equal. apply Z.ones_spec_low. lia.
Qed.

Lemma low_bits_zero n : low_bits n 0 = replicate n false.
Proof.
  apply list_eq_bits with n; [apply length_low_bits|apply length_replicate|]. intros i Hi.
  rewrite low_bits_lookup, lookup_replicate_2 by done. f_equal. apply Z.testbit_0_l.
Qed.

Lemma bytes_bits_take n l : bytes_bits (take n l) = take (8 * n) (bytes_bits l).
Proof.
  revert l. induction n as [|n IH]; intros [|b l]; try done.
  rewrite firstn_cons, !bytes_bits_cons, IH. replace (8 * S n)%nat with (8 + 8 * n)%nat by lia.
  rewrite take_app. rewrite length_low_bits.
  rewrite (take_ge (low_bits 8 b)) by (rewrite length_low_bits; lia). do 2 f_equal. lia.
Qed.

Lemma take_replicate_le {A} n m (x : A) : (n <= m)%nat -> take n (replicate m x) = replicate n x.
Proof. intros. rewrite take_replicate. f_equal. lia. Qed.

(** The bytes of a string literal. *)
Definition str (s : string) : list Z :=
  (fun c => Z.of_N (Ascii.N_of_ascii c)) <$> String.list_ascii_of_string s.
