(* ===== verification/Memory.v ===== *)
(** * Memory and spans

    A [std::span<const uint8_t>] is a pointer and a length. Most of the sources
    read a span only inside its bounds, and those reads are modelled on the list of
    its bytes ([sp_bytes]); [ibitstream::take_bits] however loads a whole 64-bit word
    around the bits it wants, so that it also reads bytes before and after the span.
    A span therefore carries the memory it points into: a total function from
    addresses to bytes. Theorems quantify over that function, so a result that is
    proved does not depend on the bytes outside the span. *)
From S2P Require Import Prelude.

Record span := Span { sp_mem : Z -> Z; sp_base : Z; sp_len : Z }.

(** [data()[i]], for any offset [i] (also one outside the span). *)
Definition sp_get (s : span) (i : Z) : Z := sp_mem s (sp_base s + i).

(** The bytes of the span. *)
Definition sp_bytes (s : span) : list Z :=
  (fun i => sp_get s (Z.of_nat i)) <$> seq 0 (Z.to_nat (sp_len s)).

(** [subspan(n)] and [subspan(n, count)]; past the end they are undefined. *)
Definition subspan (n : Z) (s : span) : outcome span :=
  if n <=? sp_len s then Ok (Span (sp_mem s) (sp_base s + n) (sp_len s - n)) else Undefined.
Definition subspan_count (n count : Z) (s : span) : outcome span :=
  if (n <=? sp_len s) && (count <=? sp_len s - n)
  then Ok (Span (sp_mem s) (sp_base s + n) count) else Undefined.

(** Bit [p] of the memory from [data()] on, most significant bit of a byte first. *)
Definition sp_bit (s : span) (p : Z) : bool := Z.testbit (sp_get s (p / 8)) (7 - p mod 8).

(** Memory holds bytes and the length is a length. *)
Definition span_ok (s : span) : Prop := 0 <= sp_len s /\ forall a, is_byte (sp_mem s a).

(** The span over a byte list placed at address [a] of a memory [m]. *)
Definition place (m : Z -> Z) (a : Z) (l : list Z) : Z -> Z :=
  fun x => if (a <=? x) && (x <? a + Z.of_nat (length l))
           then default 0 (l !! Z.to_nat (x - a)) else m x.
Definition span_of (m : Z -> Z) (a : Z) (l : list Z) : span :=
  Span (place m a l) a (Z.of_nat (length l)).

Section lemmas.
Implicit Types s : span.

Lemma length_sp_bytes s : length (sp_bytes s) = Z.to_nat (sp_len s).
Proof. unfold sp_bytes. by rewrite length_fmap, length_seq. Qed.

Lemma sp_bytes_lookup s i :
  (i < Z.to_nat (sp_len s))%nat -> sp_bytes s !! i = Some (sp_get s (Z.of_nat i)).
Proof. intros. unfold sp_bytes. by rewrite list_lookup_fmap, lookup_seq_lt. Qed.

Lemma sp_bytes_ok s : span_ok s -> bytes_ok (sp_bytes s).
Proof. intros [? H]. apply Forall_fmap, Forall_true. intros. apply H. Qed.

Lemma sp_bytes_sub m b l n :
  0 <= n <= l ->
  sp_bytes (Span m (b + n) (l - n)) = drop (Z.to_nat n) (sp_bytes (Span m b l)).
Proof.
  intros Hn. apply list_eq. intros i. rewrite lookup_drop.
  destruct (decide (i < Z.to_nat (l - n))%nat).
  - rewrite !sp_bytes_lookup by (simpl; lia). unfold sp_get. simpl. do 2 f_equal. lia.
  - rewrite !lookup_ge_None_2; [done|rewrite length_sp_bytes; simpl; lia..].
Qed.

Lemma sp_bytes_take m b l n :
  0 <= n <= l -> sp_bytes (Span m b n) = take (Z.to_nat n) (sp_bytes (Span m b l)).
Proof.
  intros Hn. apply list_eq. intros i. destruct (decide (i < Z.to_nat n)%nat).
  - rewrite lookup_take_lt by done. by rewrite !sp_bytes_lookup by (simpl; lia).
  - rewrite lookup_take_ge by lia. by rewrite lookup_ge_None_2
      by (rewrite length_sp_bytes; simpl; lia).
Qed.

Lemma subspan_ok n s s' : span_ok s -> 0 <= n -> subspan n s = Ok s' -> span_ok s'.
Proof.
  intros [H1 H2] Hn. unfold subspan. destruct (Z.leb_spec n (sp_len s)); [|done].
  intros [= <-]. split; simpl; [lia|done].
Qed.

Lemma subspan_bytes n s :
  0 <= n <= sp_len s ->
  exists s', subspan n s = Ok s' /\ sp_bytes s' = drop (Z.to_nat n) (sp_bytes s) /\
    sp_len s' = sp_len s - n /\ sp_mem s' = sp_mem s /\ sp_base s' = sp_base s + n.
Proof.
  intros Hn. unfold subspan. destruct (Z.leb_spec n (sp_len s)); [|lia].
  destruct s as [m b l]. eexists. split; [done|]. simpl in *.
  by rewrite sp_bytes_sub by lia.
Qed.

(** Dropping a prefix of the bytes. *)
Lemma subspan_app s w rest :
  span_ok s -> sp_bytes s = w ++ rest ->
  exists s', subspan (Z.of_nat (length w)) s = Ok s' /\ span_ok s' /\ sp_bytes s' = rest /\
    sp_len s' = sp_len s - Z.of_nat (length w).
Proof.
  intros Hs Hb. assert (Hlen : Z.of_nat (length w) <= sp_len s).
  { apply (f_equal length) in Hb. rewrite length_sp_bytes, length_app in Hb. destruct Hs. lia. }
  destruct (subspan_bytes (Z.of_nat (length w)) s) as (s' & Hsub & Hb' & Hl & _); [lia|].
  exists s'. split_and!; [done| |..|done].
  - by apply (subspan_ok (Z.of_nat (length w)) s); [|lia|].
  - by rewrite Hb', Hb, Nat2Z.id, drop_app_length.
Qed.

Lemma sp_bytes_head s b l : sp_bytes s = b :: l -> sp_get s 0 = b /\ sp_len s <> 0.
Proof.
  intros H. assert (0 < Z.to_nat (sp_len s))%nat
    by (rewrite <- length_sp_bytes, H; simpl; lia).
  split; [|lia]. pose proof (sp_bytes_lookup s 0) as Hl. rewrite H in Hl. specialize (Hl ltac:(done)).
  by injection Hl as ->.
Qed.

(** Inside the span, its bits are the bits of its bytes. *)
Lemma sp_bit_bytes s p :
  0 <= p < 8 * sp_len s -> bytes_bits (sp_bytes s) !! Z.to_nat p = Some (sp_bit s p).
Proof.
  intros Hp. rewrite bytes_bits_lookup, Z2Nat.id by lia.
  replace (Z.to_nat p / 8)%nat with (Z.to_nat (p / 8)) by (by rewrite Z2Nat.inj_div by lia).
  assert (0 <= p / 8 < sp_len s) by (Z.div_mod_to_equations; lia).
  rewrite sp_bytes_lookup by lia. simpl. unfold sp_bit. by rewrite Z2Nat.id by lia.
Qed.

Lemma sp_bytes_place m a l : sp_bytes (span_of m a l) = l.
Proof.
  apply list_eq. intros i. destruct (decide (i < length l)%nat) as [Hi|Hi].
  - rewrite sp_bytes_lookup by (simpl; lia). unfold sp_get. simpl. unfold place.
    destruct (Z.leb_spec a (a + Z.of_nat i)); [|lia].
    destruct (Z.ltb_spec (a + Z.of_nat i) (a + Z.of_nat (length l))); [|lia]. simpl.
    replace (Z.to_nat (a + Z.of_nat i - a)) with i by lia.
    by destruct (lookup_lt_is_Some_2 l i Hi) as [x ->].
  - rewrite !lookup_ge_None_2; [done|lia|rewrite length_sp_bytes; simpl; lia].
Qed.

Lemma span_of_ok m a l : (forall x, is_byte (m x)) -> bytes_ok l -> span_ok (span_of m a l).
Proof.
  intros Hm Hl. split; simpl; [lia|]. intros x. unfold place.
  destruct (_ && _); [|done]. destruct (l !! _) eqn:E; simpl; [|by split].
  rewrite Forall_lookup in Hl. eauto.
Qed.
End lemmas.

#[export] Hint Resolve sp_bytes_ok subspan_ok : h2pp.
