(* ===== verification/Utils.v ===== *)
(** * Free functions of lib/utils: masks, alignment and byte order

    [make_mask] and [ceil_order2] (utils.h), and the compile-time byte swaps of
    endianess.h. The modelled target is little-endian with 64-bit [size_t]. *)
From S2P Require Import Prelude.

(** [make_mask<T>(n)] for an unsigned [T] of [w] bits. The C++ shift is by [n];
    every call in the library has [n < max(w, 32)], where it is defined. *)
Definition make_mask (w n : Z) : Z :=
  let init_mask := if w - 1 <? n then 0 else 1 in
  wrap w (Z.shiftl init_mask n - 1).

Definition ceil_order2 (value order : Z) : Z :=
  Z.land (u64 (value + make_mask 64 order)) (u64 (Z.lnot (make_mask 64 order))).

(** [native_to_big] on [uint32_t] and [uint16_t], little-endian branch. *)
Definition native_to_big (x : Z) : Z :=
  let step16 := Z.lor (u32 (Z.shiftl x 16)) (Z.shiftr x 16) in
  Z.lor (Z.land (u32 (Z.shiftl step16 8)) 0xff00ff00) (Z.land (Z.shiftr step16 8) 0x00ff00ff).
Definition native_to_big16 (x : Z) : Z :=
  u16 (Z.lor (Z.shiftl x 8) (Z.shiftr x 8)).

Lemma make_mask_ones w n : 0 <= n < w -> make_mask w n = Z.ones n.
Proof.
  intros Hn. unfold make_mask. destruct (Z.ltb_spec (w - 1) n); [lia|].
  rewrite Z.shiftl_1_l, Z.ones_equiv, <- Z.sub_1_r. apply wrap_small.
  pose proof (Z.pow_pos_nonneg 2 n). pose proof (Z.pow_lt_mono_r 2 n w).
  unfold fits. lia.
Qed.

Lemma make_mask_full w n : 0 < w <= n -> make_mask w n = Z.ones w.
Proof.
  intros Hn. unfold make_mask. destruct (Z.ltb_spec (w - 1) n); [|lia].
  rewrite Z.shiftl_0_l, Z.ones_equiv. unfold wrap.
  pose proof (Z.pow_pos_nonneg 2 w). symmetry. apply (Z.mod_unique_pos _ _ (-1)); lia.
Qed.

Lemma make_mask_testbit w n i :
  0 <= n < w -> Z.testbit (make_mask w n) i = (0 <=? i) && (i <? n).
Proof.
  intros Hn. rewrite make_mask_ones by done. destruct (Z.leb_spec 0 i).
  - by rewrite Z.testbit_ones_nonneg by lia.
  - by rewrite Z.testbit_neg_r by lia.
Qed.

(** [x & ~(2^k - 1)] clears the low [k] bits of a 64-bit value. *)
Lemma land_lnot_mask x k :
  fits 64 x -> 0 <= k < 64 -> Z.land x (u64 (Z.lnot (Z.ones k))) = x / 2 ^ k * 2 ^ k.
Proof.
  intros Hx Hk. rewrite <- Z.shiftr_div_pow2, <- Z.shiftl_mul_pow2 by lia.
  apply Z.bits_inj'. intros i Hi. unfold u64. rewrite Z.land_spec, wrap_testbit by lia.
  rewrite Z.lnot_spec, Z.testbit_ones_nonneg, Z.shiftl_spec by lia.
  destruct (Z.ltb_spec i k).
  - rewrite (Z.testbit_neg_r _ (i - k)) by lia. rewrite !andb_false_r. done.
  - rewrite Z.shiftr_spec by lia. replace (i - k + k) with i by lia.
    destruct (Z.ltb_spec i 64); simpl; [by rewrite andb_true_r|].
    rewrite (fits_testbit 64 x) by (done || lia). done.
Qed.

Lemma ceil_order2_spec value order :
  0 <= order < 64 -> 0 <= value -> value + 2 ^ order <= 2 ^ 64 ->
  ceil_order2 value order = (value + 2 ^ order - 1) / 2 ^ order * 2 ^ order.
Proof.
  intros Ho Hv Hb. unfold ceil_order2. rewrite make_mask_ones by done.
  pose proof (Z.pow_pos_nonneg 2 order).
  unfold u64 at 1. rewrite wrap_small; rewrite Z.ones_equiv.
  - rewrite <- Z.ones_equiv at 2. rewrite land_lnot_mask; [f_equal; f_equal; lia|split; lia|lia].
  - split; lia.
Qed.

(** [ceil_order2] is the least multiple of 2^order that is not less than the value. *)
Lemma ceil_order2_least_multiple value order :
  0 <= order < 64 -> 0 <= value -> value + 2 ^ order <= 2 ^ 64 ->
  let r := ceil_order2 value order in
  (2 ^ order | r) /\ value <= r < value + 2 ^ order.
Proof.
  intros Ho Hv Hb r. pose proof (Z.pow_pos_nonneg 2 order). unfold r.
  rewrite ceil_order2_spec by done. split; [by eexists|].
  pose proof (Z.div_mod (value + 2 ^ order - 1) (2 ^ order)).
  pose proof (Z.mod_pos_bound (value + 2 ^ order - 1) (2 ^ order)). nia.
Qed.

Lemma below_4 j : 0 <= j < 4 -> j = 0 \/ j = 1 \/ j = 2 \/ j = 3.
Proof. lia. Qed.

Lemma below_8 k :
  0 <= k < 8 -> k = 0 \/ k = 1 \/ k = 2 \/ k = 3 \/ k = 4 \/ k = 5 \/ k = 6 \/ k = 7.
Proof. lia. Qed.

Lemma swap_masks j k :
  0 <= j < 4 -> 0 <= k < 8 ->
  Z.testbit 0xff00ff00 (k + 8 * j) = Z.odd j /\ Z.testbit 0x00ff00ff (k + 8 * j) = Z.even j.
Proof.
  intros Hj%below_4 Hk%below_8.
  destruct Hj as [->|[->|[->| ->]]], Hk as [->|[->|[->|[->|[->|[->|[->| ->]]]]]]]; by split.
Qed.

(** Byte [j] of the swapped value is byte [3 - j] of the value. *)
Lemma native_to_big_byte x j :
  fits 32 x -> 0 <= j < 4 ->
  u8 (Z.shiftr (native_to_big x) (8 * j)) = u8 (Z.shiftr x (8 * (3 - j))).
Proof.
  intros Hx Hj. apply Z.bits_inj'. intros k Hk. unfold native_to_big, u8, u32.
  rewrite !wrap_testbit by lia. destruct (Z.ltb_spec k 8); [simpl|done].
  rewrite !Z.shiftr_spec, Z.lor_spec, !Z.land_spec by lia.
  destruct (swap_masks j k) as [-> ->]; [lia..|].
  assert (Hhi : forall i, 32 <= i -> Z.testbit x i = false)
    by (intros; apply fits_testbit with 32; (done || lia)).
  apply below_4 in Hj as [->|[->|[->| ->]]]; cbn [Z.odd Z.even];
    rewrite ?andb_true_r, ?andb_false_r, ?orb_false_r, ?orb_false_l, ?wrap_testbit by lia;
    rewrite ?Z.shiftl_spec, ?Z.shiftr_spec, !Z.lor_spec, ?wrap_testbit by lia;
    rewrite ?Z.shiftl_spec, ?Z.shiftr_spec by lia;
    repeat match goal with |- context [Z.testbit x ?i] =>
      first [rewrite (Z.testbit_neg_r x i) by lia | rewrite (Hhi i) by lia] end;
    split_ltb; try lia; rewrite ?andb_true_l, ?orb_false_l, ?orb_false_r; f_equal; lia.
Qed.

(** Storing the swapped value in native order writes the big-endian bytes. *)
Lemma native_to_big_bytes x : fits 32 x -> le_split 4 (native_to_big x) = be_split 4 x.
Proof.
  intros Hx. unfold le_split. apply list_eq. intros i. destruct (decide (i < 4)%nat).
  - rewrite reverse_lookup by (rewrite length_be_split; lia).
    rewrite length_be_split, !be_split_lookup by lia. f_equal.
    replace (Z.of_nat 4 - 1 - Z.of_nat (4 - S i)) with (Z.of_nat i) by lia.
    rewrite native_to_big_byte by (done || lia). f_equal.
  - rewrite !lookup_ge_None_2; [done|rewrite ?length_reverse, length_be_split; lia..].
Qed.

Lemma native_to_big_fits x : fits 32 x -> fits 32 (native_to_big x).
Proof.
  intros Hx. unfold native_to_big. apply fits_lor; [lia|..].
  - apply fits_land_r; [lia| |by split]. apply wrap_fits. lia.
  - apply fits_land_r; [lia| |by split]. apply Z.shiftr_nonneg, Z.lor_nonneg. split.
    + apply wrap_fits. lia.
    + apply Z.shiftr_nonneg, Hx.
Qed.

(** Two 32-bit values with the same native bytes are equal. *)
Lemma le_split_4_inj x y : fits 32 x -> fits 32 y -> le_split 4 x = le_split 4 y -> x = y.
Proof.
  intros Hx Hy H. apply (f_equal le_combine) in H. rewrite !le_combine_split in H.
  by rewrite !wrap_small in H.
Qed.

Lemma native_to_big_involutive x : fits 32 x -> native_to_big (native_to_big x) = x.
Proof.
  intros Hx. apply le_split_4_inj; [by repeat apply native_to_big_fits|done|].
  rewrite native_to_big_bytes by (by apply native_to_big_fits).
  unfold le_split. rewrite <- (native_to_big_bytes x Hx). unfold le_split.
  by rewrite reverse_involutive.
Qed.

(** The same for 16-bit values. *)
Lemma native_to_big16_testbit x k :
  fits 16 x -> 0 <= k < 16 ->
  Z.testbit (native_to_big16 x) k = Z.testbit x (if k <? 8 then k + 8 else k - 8).
Proof.
  intros Hx Hk. unfold native_to_big16, u16. rewrite wrap_testbit by lia.
  rewrite Z.lor_spec, Z.shiftl_spec, Z.shiftr_spec by lia.
  destruct (Z.ltb_spec k 16); [simpl|lia]. destruct (Z.ltb_spec k 8).
  - by rewrite (Z.testbit_neg_r x (k - 8)) by lia.
  - rewrite (fits_testbit 16 x (k + 8)) by (done || lia). by rewrite orb_false_r.
Qed.

Lemma native_to_big16_fits x : fits 16 (native_to_big16 x).
Proof. apply wrap_fits. lia. Qed.

Lemma native_to_big16_byte x j :
  fits 16 x -> 0 <= j < 2 ->
  u8 (Z.shiftr (native_to_big16 x) (8 * j)) = u8 (Z.shiftr x (8 * (1 - j))).
Proof.
  intros Hx Hj. apply Z.bits_inj'. intros k Hk. unfold u8. rewrite !wrap_testbit by lia.
  destruct (Z.ltb_spec k 8); [simpl|done]. rewrite !Z.shiftr_spec by lia.
  rewrite native_to_big16_testbit by (done || lia). f_equal. destruct (Z.ltb_spec (k + 8 * j) 8); lia.
Qed.

Lemma native_to_big16_bytes x : fits 16 x -> le_split 2 (native_to_big16 x) = be_split 2 x.
Proof.
  intros Hx. unfold le_split. apply list_eq. intros i. destruct (decide (i < 2)%nat).
  - rewrite reverse_lookup by (rewrite length_be_split; lia).
    rewrite length_be_split, !be_split_lookup by lia. f_equal.
    replace (Z.of_nat 2 - 1 - Z.of_nat (2 - S i)) with (Z.of_nat i) by lia.
    rewrite native_to_big16_byte by (done || lia). f_equal.
  - rewrite !lookup_ge_None_2; [done|rewrite ?length_reverse, length_be_split; lia..].
Qed.

Lemma native_to_big16_eqb x y :
  fits 16 x -> fits 16 y -> (native_to_big16 x =? native_to_big16 y) = (x =? y).
Proof.
  intros Hx Hy. destruct (Z.eqb_spec x y) as [->|Hne]; [apply Z.eqb_refl|].
  apply Z.eqb_neq. intros H. apply Hne. apply (f_equal (fun z => be_combine (le_split 2 z))) in H.
  rewrite !native_to_big16_bytes, !be_combine_split in H by done. by rewrite !wrap_small in H.
Qed.
