(* ===== verification/Buffer.v ===== *)
(** * Fixed-size buffer (utils/buffer.h)

    A memory slice of fixed size with a write offset. [new uint8_t[n]] leaves its
    bytes indeterminate: a new buffer takes them from a function [fresh], over which
    the theorems quantify. *)
From S2P Require Import Prelude Memory.

Record buffer := Buffer { b_offset : Z; b_maxsize : Z; b_memory : list Z }.

Definition buffer_ok (b : buffer) : Prop :=
  0 <= b_offset b <= b_maxsize b /\ Z.of_nat (length (b_memory b)) = b_maxsize b /\
  bytes_ok (b_memory b).

Definition buffer_new (fresh : Z -> Z) (size : Z) : buffer :=
  Buffer 0 size (fresh <$> seqZ 0 size).

(** Move construction and assignment: the source is left with no memory. *)
Definition moved_from : buffer := Buffer 0 0 [].
Definition buffer_move (rhs : buffer) : buffer * buffer :=
  (Buffer (b_offset rhs) (b_maxsize rhs) (b_memory rhs), moved_from).

(** The number of bytes of the span [prepare()] returns; the span starts at
    [memory + offset]. *)
Definition prepare_size (b : buffer) : Z := b_maxsize b - b_offset b.

(** Bytes written through a pointer into the buffer's memory. *)
Definition write_at (pos : Z) (bytes : list Z) (b : buffer) : buffer :=
  Buffer (b_offset b) (b_maxsize b)
    (take (Z.to_nat pos) (b_memory b) ++ bytes ++
     drop (Z.to_nat pos + length bytes) (b_memory b)).

Definition commit (count : Z) (b : buffer) : buffer * Z :=
  let delta := Z.min (prepare_size b) count in
  (Buffer (b_offset b + delta) (b_maxsize b) (b_memory b), delta).

Definition commit_span (span : list Z) (b : buffer) : buffer * Z :=
  let to_copy := Z.min (prepare_size b) (Z.of_nat (length span)) in
  let b := write_at (b_offset b) (take (Z.to_nat to_copy) span) b in
  (Buffer (b_offset b + to_copy) (b_maxsize b) (b_memory b), to_copy).

Definition data_view (b : buffer) : list Z := take (Z.to_nat (b_offset b)) (b_memory b).

Definition consume (count : Z) (b : buffer) : buffer :=
  let count := Z.min (b_offset b) count in
  let memory :=
    if negb (count =? 0) && (count <? b_offset b)
    then take (Z.to_nat (b_offset b - count)) (drop (Z.to_nat count) (b_memory b)) ++
         drop (Z.to_nat (b_offset b - count)) (b_memory b)
    else b_memory b in
  Buffer (b_offset b - count) (b_maxsize b) memory.

Definition max_size (b : buffer) : Z := b_maxsize b.

(** [data_view()] as a span: the buffer's memory lies at the address [addr] of a heap. *)
Definition data_span (heap : Z -> Z) (addr : Z) (b : buffer) : span :=
  Span (place heap addr (b_memory b)) addr (b_offset b).

(** ** Lemmas *)

Lemma buffer_new_ok fresh size :
  (forall i, is_byte (fresh i)) -> 0 <= size -> buffer_ok (buffer_new fresh size).
Proof.
  intros Hf Hs. split; simpl; [lia|]. rewrite length_fmap, length_seqZ. split; [lia|].
  apply Forall_fmap, Forall_true. done.
Qed.

Lemma data_view_new fresh size : data_view (buffer_new fresh size) = [].
Proof. done. Qed.

Lemma length_data_view b : buffer_ok b -> Z.of_nat (length (data_view b)) = b_offset b.
Proof. intros (? & ? & ?). unfold data_view. rewrite length_take. lia. Qed.

Lemma data_view_bytes_ok b : buffer_ok b -> bytes_ok (data_view b).
Proof. intros (_ & _ & H). by apply Forall_take. Qed.

Lemma data_span_bytes heap addr b : buffer_ok b -> sp_bytes (data_span heap addr b) = data_view b.
Proof.
  intros (Ho & Hm & _). unfold data_span, data_view.
  rewrite (sp_bytes_take _ _ (Z.of_nat (length (b_memory b)))) by lia.
  fold (span_of heap addr (b_memory b)). by rewrite sp_bytes_place.
Qed.

Lemma data_span_ok heap addr b :
  (forall x, is_byte (heap x)) -> buffer_ok b -> span_ok (data_span heap addr b).
Proof.
  intros Hh (Ho & Hm & Hb). split; [apply Ho|]. by apply (span_of_ok heap addr (b_memory b)).
Qed.

Lemma length_write_at pos bytes b :
  0 <= pos -> pos + Z.of_nat (length bytes) <= Z.of_nat (length (b_memory b)) ->
  length (b_memory (write_at pos bytes b)) = length (b_memory b).
Proof. intros. simpl. rewrite !length_app, length_take, length_drop. lia. Qed.

Lemma write_at_ok pos bytes b :
  buffer_ok b -> bytes_ok bytes -> 0 <= pos -> pos + Z.of_nat (length bytes) <= b_maxsize b ->
  buffer_ok (write_at pos bytes b).
Proof.
  intros (Ho & Hm & Hb) Hok Hp Hfit. split; [done|].
  rewrite length_write_at by lia. split; [done|]. simpl.
  rewrite !Forall_app. split_and!; [by apply Forall_take|done|by apply Forall_drop].
Qed.

(** Writing [bytes] at the offset and committing them appends them to the data. *)
Lemma data_view_append bytes b :
  buffer_ok b -> Z.of_nat (length bytes) <= prepare_size b ->
  data_view (commit (Z.of_nat (length bytes)) (write_at (b_offset b) bytes b)).1
    = data_view b ++ bytes.
Proof.
  intros (Ho & Hm & _) Hfit. unfold commit, prepare_size, data_view in *. simpl.
  rewrite Z.min_r by lia. rewrite app_assoc.
  rewrite take_app_length'; [done|]. rewrite length_app, length_take. lia.
Qed.

Lemma commit_ok count b : buffer_ok b -> 0 <= count -> buffer_ok (commit count b).1.
Proof.
  intros (Ho & Hm & Hb) Hc. unfold commit, prepare_size. split; simpl; [lia|done].
Qed.

(** Producer side of the buffer. [commit(span)] appends as many bytes of the span
    as there is room for, returns that number, keeps the capacity and leaves the
    buffer well formed. *)
Lemma buffer_commit_span span b :
  buffer_ok b -> bytes_ok span ->
  let n := Z.min (prepare_size b) (Z.of_nat (length span)) in
  let '(b', ret) := commit_span span b in
  buffer_ok b' /\ ret = n /\ data_view b' = data_view b ++ take (Z.to_nat n) span /\
  max_size b' = max_size b /\ prepare_size b' = prepare_size b - n.
Proof.
  intros Hb Hs n. assert (0 <= n <= prepare_size b) by (destruct Hb; unfold n, prepare_size; lia).
  set (w := take (Z.to_nat n) span).
  assert (Hw : Z.of_nat (length w) = n) by (unfold w; rewrite length_take; lia).
  pose proof (data_view_append w b Hb ltac:(lia)) as Hdv.
  assert (Hok : buffer_ok (commit n (write_at (b_offset b) w b)).1).
  { apply commit_ok; [|lia]. apply write_at_ok; [done|by apply Forall_take|destruct Hb; lia|].
    unfold prepare_size in *. lia. }
  rewrite Hw in Hdv. revert Hdv Hok. unfold commit, commit_span, prepare_size in *. simpl.
  fold n. fold w. rewrite Z.min_r by lia. intros Hdv Hok. split_and!; try done. lia.
Qed.

(** Consumer side of the buffer. [consume(count)] removes the first [count] bytes
    of the data (all of them when there are fewer), moving the rest to the front, and
    leaves the buffer well formed with the same capacity. *)
Lemma buffer_consume count b :
  buffer_ok b -> 0 <= count ->
  buffer_ok (consume count b) /\
  data_view (consume count b) = drop (Z.to_nat count) (data_view b) /\
  max_size (consume count b) = max_size b.
Proof.
  intros (Ho & Hm & Hok) Hc. unfold consume, data_view.
  set (c := Z.min (b_offset b) count).
  destruct (negb (c =? 0) && (c <? b_offset b)) eqn:E; simpl.
  - split_and!; [|rewrite take_app_le, take_take, Nat.min_id|done].
    + split; simpl; [lia|]. rewrite length_app, length_take, !length_drop.
      split; [lia|]. rewrite Forall_app. split; [by apply Forall_take, Forall_drop|by apply Forall_drop].
    + rewrite take_drop_commute. f_equal; [lia|f_equal; lia].
    + rewrite length_take, length_drop. lia.
  - split_and!; [split; simpl; [lia|done]| |done].
    assert (c = 0 \/ c = b_offset b) as [Hz|Hz] by lia.
    + rewrite Hz, Z.sub_0_r. destruct (Z.eq_dec count 0) as [->|]; [done|].
      replace (Z.to_nat (b_offset b)) with 0%nat by lia. by rewrite take_0, drop_nil.
    + rewrite Hz, Z.sub_diag. rewrite drop_ge; [done|]. rewrite length_take. lia.
Qed.
