(* ===== verification/Streambuf.v ===== *)
(** * Growing byte store (utils/streambuf.h, utils/streambuf.cpp)

    A deque of buffers that [push_back] fills from the back, allocating a new buffer
    when the last one is full, and [flush] hands out. *)
From S2P Require Import Prelude Utils Buffer.

Definition MinBufferSize : Z := 64.
Definition MaxBufferSize : Z := 4096.

Definition align_size (size : Z) : Z :=
  if MaxBufferSize <? size then ceil_order2 size 12 else ceil_order2 size 6.

Abbreviation streambuf := (list buffer).

Section streambuf.
Context (fresh : Z -> Z).

(** [check_size(sz)]: make sure the last buffer has room. *)
Definition check_size (sz : Z) (buffers : streambuf) : streambuf :=
  match last buffers with
  | None => [buffer_new fresh (Z.max (align_size sz) MinBufferSize)]
  | Some last_buffer =>
      if prepare_size last_buffer =? 0 then
        let next_size := Z.min (u64 (max_size last_buffer * 2)) MaxBufferSize in
        buffers ++ [buffer_new fresh (Z.max (align_size sz) next_size)]
      else buffers
  end.

(** The [memcpy] into [prepare()] of the last buffer and the [commit] of it. *)
Definition fill_back (bytes : list Z) (buffers : streambuf) : streambuf :=
  match last buffers with
  | None => buffers
  | Some b => removelast buffers ++
      [(commit (Z.of_nat (length bytes)) (write_at (b_offset b) bytes b)).1]
  end.

(** The [while (count > 0)] loop of [push_back] over the bytes still to store. *)
Fixpoint push_loop (fuel : nat) (src : list Z) (buffers : streambuf) : outcome streambuf :=
  match src with
  | [] => Ok buffers
  | _ =>
      match fuel with
      | O => OutOfFuel
      | S fuel =>
          let count := Z.of_nat (length src) in
          let buffers := check_size count buffers in
          match last buffers with
          | None => Undefined
          | Some b =>
              let n := Z.to_nat (Z.min count (prepare_size b)) in
              push_loop fuel (drop n src) (fill_back (take n src) buffers)
          end
      end
  end.

Definition push_back (src : list Z) (buffers : streambuf) : outcome streambuf :=
  push_loop (length src) src buffers.
End streambuf.

Definition flush (buffers : streambuf) : list buffer * streambuf := (buffers, []).

(** ** Abstract view: the bytes stored, in order *)

Definition contents (buffers : streambuf) : list Z := buffers ≫= data_view.

Definition streambuf_ok (buffers : streambuf) : Prop :=
  Forall (fun b => buffer_ok b /\ 0 < max_size b) buffers.

Lemma contents_app l k : contents (l ++ k) = contents l ++ contents k.
Proof. apply bind_app. Qed.

Lemma contents_snoc l b : contents (l ++ [b]) = contents l ++ data_view b.
Proof. rewrite contents_app. unfold contents. simpl. by rewrite app_nil_r. Qed.

Lemma align_size_bounds size :
  0 < size < 2 ^ 63 -> size <= align_size size /\ 64 <= align_size size.
Proof.
  intros Hs. unfold align_size. destruct (Z.ltb_spec MaxBufferSize size).
  all: rewrite ceil_order2_spec by lia.
  - change (2 ^ 12) with 4096. unfold MaxBufferSize in *. Z.div_mod_to_equations; lia.
  - change (2 ^ 6) with 64. Z.div_mod_to_equations; lia.
Qed.

Section push.
Context (fresh : Z -> Z) (Hfresh : forall i, is_byte (fresh i)).

Lemma new_buffer_snoc size l :
  0 < size -> streambuf_ok l ->
  exists b, l ++ [buffer_new fresh size] = l ++ [b] /\ streambuf_ok (l ++ [b]) /\
    contents (l ++ [b]) = contents l /\ 0 < prepare_size b.
Proof.
  intros Hs Hl. eexists. split; [done|]. split; [|split].
  - apply Forall_app. split; [done|]. constructor; [|done]. split; [|done].
    apply buffer_new_ok; [done|lia].
  - rewrite contents_snoc, data_view_new. apply app_nil_r.
  - unfold prepare_size. simpl. lia.
Qed.

(** After [check_size] the last buffer has room and the stored bytes are the same. *)
Lemma check_size_room sz bufs :
  streambuf_ok bufs -> 0 < sz < 2 ^ 63 ->
  exists l b, check_size fresh sz bufs = l ++ [b] /\ streambuf_ok (l ++ [b]) /\
    contents (l ++ [b]) = contents bufs /\ 0 < prepare_size b.
Proof.
  intros Hok Hsz. pose proof (align_size_bounds sz Hsz). unfold check_size.
  destruct (last bufs) as [b|] eqn:E.
  - apply last_Some in E as [l ->].
    apply Forall_app in Hok as Hok'. destruct Hok' as [_ Hb]. inversion_clear Hb as [|? ? [Hbo Hm] _].
    destruct (Z.eqb_spec (prepare_size b) 0).
    + destruct (new_buffer_snoc (Z.max (align_size sz) (Z.min (u64 (max_size b * 2)) MaxBufferSize))
        (l ++ [b])) as (b' & H1 & H2 & H3 & H4); [lia|done|]. by exists (l ++ [b]), b'.
    + exists l, b. split_and!; try done. destruct Hbo. unfold prepare_size in *. lia.
  - apply last_None in E as ->. destruct (new_buffer_snoc (Z.max (align_size sz) MinBufferSize) [])
      as (b' & H1 & H2 & H3 & H4); [lia|done|]. by exists [], b'.
Qed.

Lemma fill_back_snoc bytes l b :
  streambuf_ok (l ++ [b]) -> bytes_ok bytes -> Z.of_nat (length bytes) <= prepare_size b ->
  streambuf_ok (fill_back bytes (l ++ [b])) /\
  contents (fill_back bytes (l ++ [b])) = contents (l ++ [b]) ++ bytes.
Proof.
  intros [Hl Hb]%Forall_app Hbytes Hfit. inversion_clear Hb as [|? ? [Hbo Hm] _].
  unfold fill_back. rewrite last_snoc, removelast_last. split.
  - apply Forall_app. split; [done|]. constructor; [|done]. split; [|done].
    apply commit_ok; [|lia]. apply write_at_ok; [done|done|destruct Hbo; lia|].
    unfold prepare_size in Hfit. lia.
  - rewrite !contents_snoc, data_view_append by done. by rewrite app_assoc.
Qed.

Lemma push_loop_contents fuel : forall src bufs,
  streambuf_ok bufs -> bytes_ok src -> Z.of_nat (length src) < 2 ^ 63 -> (length src <= fuel)%nat ->
  exists bufs', push_loop fresh fuel src bufs = Ok bufs' /\ streambuf_ok bufs' /\
    contents bufs' = contents bufs ++ src.
Proof.
  induction fuel as [|fuel IH]; intros src bufs Hok Hsrc Hlen Hf.
  all: destruct src as [|x src']; [by exists bufs; rewrite app_nil_r|].
  { simpl in Hf. lia. }
  cbn [push_loop]. set (src := x :: src') in *.
  assert (0 < Z.of_nat (length src)) by (unfold src; simpl; lia).
  destruct (check_size_room (Z.of_nat (length src)) bufs) as (l & b & -> & Hok' & Hc & Hroom); [done|lia|].
  rewrite last_snoc. set (n := Z.to_nat (Z.min (Z.of_nat (length src)) (prepare_size b))).
  destruct (fill_back_snoc (take n src) l b) as [Hok'' Hc'']; [done|by apply Forall_take|rewrite length_take; lia|].
  destruct (IH (drop n src) (fill_back (take n src) (l ++ [b]))) as (bufs' & Hp & Hb & Hc3);
    [done|by apply Forall_drop|rewrite length_drop; lia|rewrite length_drop; lia|].
  exists bufs'. split_and!; [done..|]. rewrite Hc3, Hc'', Hc, <- app_assoc. by rewrite take_drop.
Qed.
End push.

(** [push_back] as its callers use it: it succeeds and appends. *)
Lemma push_back_spec fresh src bufs :
  (forall i, is_byte (fresh i)) -> streambuf_ok bufs -> bytes_ok src ->
  Z.of_nat (length src) < 2 ^ 63 ->
  exists bufs', push_back fresh src bufs = Ok bufs' /\ streambuf_ok bufs' /\
    contents bufs' = contents bufs ++ src.
Proof. intros. by apply push_loop_contents. Qed.

(** [streambuf] refines an append-only byte string. Whatever the buffers it has
    and whatever new memory contains, [push_back] terminates, keeps every buffer well
    formed and appends exactly the given bytes to the stored ones; [flush] then hands
    out all of them in order and leaves the store empty. *)
Theorem streambuf_append fresh src bufs :
  (forall i, is_byte (fresh i)) -> streambuf_ok bufs -> bytes_ok src ->
  Z.of_nat (length src) < 2 ^ 63 ->
  exists bufs', push_back fresh src bufs = Ok bufs' /\ streambuf_ok bufs' /\
    contents (flush bufs').1 = contents bufs ++ src /\ contents (flush bufs').2 = [].
Proof.
  intros Hf Hb Hs Hl. destruct (push_back_spec fresh src bufs Hf Hb Hs Hl) as (bufs' & ? & ? & ?).
  by exists bufs'.
Qed.

Lemma streambuf_append_witness :
  exists bufs', push_back (fun _ => 0xcc) (replicate 100 7) [] = Ok bufs' /\ streambuf_ok bufs' /\
    contents (flush bufs').1 = contents [] ++ replicate 100 7 /\ contents (flush bufs').2 = [].
Proof.
  apply (streambuf_append (fun _ => 0xcc) (replicate 100 7) []).
  - by split.
  - constructor.
  - apply Forall_replicate. by split.
  - rewrite length_replicate. lia.
Defined.
