(* ===== verification/Constants.v ===== *)
(** * HPACK constants (hpack/constants.h): string flags and representation commands *)
From S2P Require Import Prelude.

Inductive string_flag := INPLACE | ENCODED.
Definition string_flag_value (f : string_flag) : Z :=
  match f with INPLACE => 0 | ENCODED => 0x80 end.

Inductive command :=
| INDEX
| LITERAL_INCREMENTAL_INDEX
| CHANGE_TABLE_SIZE
| LITERAL_WITHOUT_INDEX
| LITERAL_NEVER_INDEX.

Global Instance string_flag_eq_dec : EqDecision string_flag.
Proof. solve_decision. Defined.
Global Instance command_eq_dec : EqDecision command.
Proof. solve_decision. Defined.

Record info := Info { cmd_value : Z; cmd_bitlen : Z; cmd_mask : Z }.

(** [cmd_info::get]: the row of [infos] of a command. *)
Definition cmd_info (c : command) : info :=
  match c with
  | INDEX => Info 0x80 1 0x80
  | LITERAL_INCREMENTAL_INDEX => Info 0x40 2 0xc0
  | CHANGE_TABLE_SIZE => Info 0x20 3 0xe0
  | LITERAL_WITHOUT_INDEX => Info 0x00 4 0xf0
  | LITERAL_NEVER_INDEX => Info 0x10 4 0xf0
  end.
