(* ===== verification/Integer.v ===== *)
(** * HPACK integers (hpack/integer.h, hpack/integer.cpp)

    [encode] and [decode] of the prefixed variable-length integers of RFC 7541,
    section 5.1, with their overflow checks, the five-byte output array and the
    64-bit accumulator of the decoder. *)
From S2P Require Import Prelude Utils Constants.

Definition MAX_HPACK_INT : Z := 2 ^ 24 - 16.

(** [encoded_result]: the bytes written so far to [value[5]]; [length] is their
    number and [as_span] the bytes themselves. *)
Record encoded_result := EncodedResult { as_span : list Z }.
Definition er_length (r : encoded_result) : Z := Z.of_nat (length (as_span r)).

(** [result.value[result.length++] = b]; past the array it is undefined. *)
Definition er_push (r : encoded_result) (b : Z) : outcome encoded_result :=
  if er_length r <? 5 then Ok (EncodedResult (as_span r ++ [b])) else Undefined.

(** [while (src_value >= 0x80) ...] and the final byte. Each round divides
    [src_value] by 128, so five rounds are enough for 32 bits. *)
Fixpoint encode_loop (fuel : nat) (src_value : Z) (r : encoded_result) : outcome encoded_result :=
  match fuel with
  | O => OutOfFuel
  | S fuel =>
      if 0x80 <=? src_value then
        r ← er_push r (Z.lor (Z.land (u8 src_value) 0x7f) 0x80);
        encode_loop fuel (src_value / 128) r
      else er_push r (Z.land (u8 src_value) 0x7f)
  end.

Definition encode (init bitlen src_value : Z) : outcome encoded_result :=
  if MAX_HPACK_INT <? src_value then
    Throw (overflow_error "A value must be less than 2^24-1")
  else
    let mask := make_mask 8 (8 - bitlen) in
    if src_value <? mask then
      Ok (EncodedResult [Z.lor init (Z.land (u8 src_value) mask)])
    else encode_loop 5 (src_value - mask) (EncodedResult [Z.lor init mask]).

Definition encode_cmd (cmd : command) (src_value : Z) : outcome encoded_result :=
  encode (cmd_value (cmd_info cmd)) (cmd_bitlen (cmd_info cmd)) src_value.
Definition encode_flag (f : string_flag) (src_value : Z) : outcome encoded_result :=
  encode (string_flag_value f) 1 src_value.

Record decoded_result := DecodedResult { used_bytes : Z; decoded : Z }.

(** The [do ... while (b & 0x80)] loop: [src] is what follows the current byte,
    [n] the number of bytes before [src]. A shift of the 64-bit operand by 64 or
    more is undefined. *)
Fixpoint decode_loop (src : list Z) (m value n : Z) : outcome decoded_result :=
  match src with
  | [] => Throw (invalid_argument "A src has not enough data")
  | b :: src =>
      if m <? 64 then
        let value := u64 (value + u64 (Z.shiftl (Z.land b 0x7f) m)) in
        if MAX_HPACK_INT <? value then
          Throw (overflow_error "An overflow in HPACK int decoding")
        else if Z.land b 0x80 =? 0 then Ok (DecodedResult (n + 1) (u32 value))
        else decode_loop src (u32 (m + 7)) value (n + 1)
      else Undefined
  end.

Definition decode (bit_suffix_len : Z) (init_src : list Z) : outcome decoded_result :=
  match init_src with
  | [] => Throw (invalid_argument "A source can't be empty. A suffix len can't be greater 4")
  | front :: src =>
      if (4 <? bit_suffix_len) || (bit_suffix_len =? 0) then
        Throw (invalid_argument "A source can't be empty. A suffix len can't be greater 4")
      else
        let mask := make_mask 8 (8 - bit_suffix_len) in
        let value := Z.land front mask in
        if value <? mask then Ok (DecodedResult 1 (u32 value))
        else decode_loop src 0 value 1
  end.

(** ** Arithmetic of seven-bit groups *)

Lemma land_127 x : Z.land x 0x7f = x mod 128.
Proof. apply (Z.land_ones x 7). lia. Qed.

Lemma land_127_u8 x : Z.land (u8 x) 0x7f = x mod 128.
Proof.
  rewrite land_127. unfold u8, wrap. change (2 ^ 8) with 256. Z.div_mod_to_equations. lia.
Qed.

Lemma lor_128 r : 0 <= r < 128 -> Z.lor r 0x80 = r + 128.
Proof.
  intros Hr. apply lor_add. apply Z.bits_inj'. intros i Hi.
  rewrite Z.land_spec, Z.testbit_0_l. change 0x80 with (2 ^ 7).
  rewrite Z.pow2_bits_eqb by lia. destruct (Z.eqb_spec 7 i) as [<-|]; [|apply andb_false_r].
  rewrite (fits_testbit 7 r); [done|unfold fits; lia|lia..].
Qed.

Lemma land_128 b : 0 <= b < 256 -> (Z.land b 0x80 =? 0) = (b <? 128).
Proof.
  intros Hb. apply Bool.eqb_prop. revert b Hb. by apply byte_forall.
Qed.

Lemma mask_value bl : 1 <= bl <= 4 -> make_mask 8 (8 - bl) = 2 ^ (8 - bl) - 1.
Proof. intros. rewrite make_mask_ones, Z.ones_equiv by lia. lia. Qed.

Lemma mask_bounds bl : 1 <= bl <= 4 -> 15 <= make_mask 8 (8 - bl) <= 127.
Proof.
  intros. rewrite mask_value by lia. assert (bl = 1 \/ bl = 2 \/ bl = 3 \/ bl = 4) as H' by lia.
  destruct H' as [->|[->|[->| ->]]]; vm_compute; split; discriminate.
Qed.

(** ** The loops *)

Lemma er_push_ok acc b :
  (length acc < 5)%nat -> er_push (EncodedResult acc) b = Ok (EncodedResult (acc ++ [b])).
Proof. intros. unfold er_push, er_length. simpl. by destruct (Z.ltb_spec (Z.of_nat (length acc)) 5); [|lia]. Qed.

(** One round of the encoder's loop. *)
Lemma encode_loop_last n v acc :
  0 <= v < 128 -> (length acc < 5)%nat ->
  encode_loop (S n) v (EncodedResult acc) = Ok (EncodedResult (acc ++ [v])).
Proof.
  intros. cbn [encode_loop]. destruct (Z.leb_spec 0x80 v); [lia|].
  by rewrite land_127_u8, Z.mod_small, er_push_ok.
Qed.

Lemma encode_loop_more n v acc :
  128 <= v -> (length acc < 5)%nat ->
  encode_loop (S n) v (EncodedResult acc) =
    encode_loop n (v / 128) (EncodedResult (acc ++ [v mod 128 + 128])).
Proof.
  intros. cbn [encode_loop]. destruct (Z.leb_spec 0x80 v); [|lia].
  pose proof (Z.mod_pos_bound v 128 ltac:(lia)).
  by rewrite land_127_u8, lor_128, er_push_ok by lia.
Qed.

(** More fuel does not change a result. *)
Lemma encode_loop_fuel n v r r' : encode_loop n v r = Ok r' -> encode_loop (S n) v r = Ok r'.
Proof.
  revert v r. induction n as [|n IH]; intros v r; [done|].
  cbn [encode_loop]. destruct (0x80 <=? v); [|done].
  intros (r1 & H1 & H2)%outcome_bind_ok. rewrite H1. by apply IH in H2.
Qed.

(** One round of the decoder's loop, while the accumulator stays in range. *)
Lemma decode_loop_cons b src m value k :
  is_byte b -> 0 <= m <= 56 -> 0 <= value -> value + b mod 128 * 2 ^ m <= MAX_HPACK_INT ->
  decode_loop (b :: src) m value k =
    if b <? 128 then Ok (DecodedResult (k + 1) (value + b mod 128 * 2 ^ m))
    else decode_loop src (m + 7) (value + b mod 128 * 2 ^ m) (k + 1).
Proof.
  intros Hb Hm Hv Hmax. cbn [decode_loop]. destruct (Z.ltb_spec m 64); [|lia].
  rewrite land_127, Z.shiftl_mul_pow2, land_128 by (unfold fits in *; lia).
  pose proof (Z.mod_pos_bound b 128 ltac:(lia)). pose proof (Z.pow_pos_nonneg 2 m ltac:(lia) ltac:(lia)).
  assert (value + b mod 128 * 2 ^ m < 2 ^ 24) by (unfold MAX_HPACK_INT in Hmax; lia).
  assert (0 <= b mod 128 * 2 ^ m) by nia.
  unfold u64, u32. rewrite (wrap_small 64 (b mod 128 * 2 ^ m)) by (unfold fits; lia).
  rewrite !wrap_small by (unfold fits; lia).
  destruct (Z.ltb_spec MAX_HPACK_INT (value + b mod 128 * 2 ^ m)); [lia|]. done.
Qed.

(** The bytes of the groups of [v], and that decoding reads them back whatever
    follows them. *)
Lemma loops_inverse n v acc :
  0 <= v < 2 ^ (7 * Z.of_nat (S n)) -> (length acc + S n <= 5)%nat ->
  exists g, encode_loop (S n) v (EncodedResult acc) = Ok (EncodedResult (acc ++ g)) /\
    (1 <= length g <= S n)%nat /\ bytes_ok g /\
    forall rest m value k, 0 <= m -> m + 7 * Z.of_nat (S n) <= 56 -> 0 <= value ->
      value + v * 2 ^ m <= MAX_HPACK_INT ->
      decode_loop (g ++ rest) m value k =
        Ok (DecodedResult (k + Z.of_nat (length g)) (value + v * 2 ^ m)).
Proof.
  revert v acc. induction n as [|n IH]; intros v acc Hv Hacc.
  all: pose proof (Z.mod_pos_bound v 128 ltac:(lia)) as Hmod.
  all: pose proof (Z.div_mod v 128 ltac:(lia)) as Hdm.
  all: destruct (Z.lt_ge_cases v 128) as [Hlt|Hge].
  2: { change (2 ^ (7 * Z.of_nat 1)) with 128 in Hv. lia. }
  1, 2: exists [v]; rewrite encode_loop_last by lia; split; [done|];
    split; [simpl; lia|]; split; [repeat constructor; lia|];
    intros rest m value k Hm Hm' Hval Hmax; simpl app;
    rewrite decode_loop_cons; rewrite ?(Z.mod_small v 128) by lia; try done; try (unfold fits; lia);
    by destruct (Z.ltb_spec v 128); [|lia].
  destruct (IH (v / 128) (acc ++ [v mod 128 + 128])) as (g & Hg & Hlen & Hok & Hdec).
  { rewrite Nat2Z.inj_succ, Z.mul_succ_r, Z.pow_add_r in Hv by lia.
    change (2 ^ 7) with 128 in Hv. split; [apply Z.div_pos; lia|].
    apply Z.div_lt_upper_bound; lia. }
  { rewrite length_app. simpl. lia. }
  exists (v mod 128 + 128 :: g). rewrite encode_loop_more, Hg by lia.
  split; [by rewrite <- app_assoc|].
  split; [simpl; lia|]. split; [constructor; [unfold fits; lia|done]|].
  intros rest m value k Hm Hm' Hval Hmax. simpl app.
  assert (Hb : (v mod 128 + 128) mod 128 = v mod 128) by (Z.div_mod_to_equations; lia).
  assert (Hpow : 2 ^ (m + 7) = 2 ^ m * 128) by (rewrite Z.pow_add_r by lia; lia).
  pose proof (Z.pow_pos_nonneg 2 m ltac:(lia) ltac:(lia)).
  pose proof (Z.div_pos v 128 ltac:(lia) ltac:(lia)).
  rewrite decode_loop_cons, Hb; [|unfold fits; lia|lia|lia|rewrite Hb; nia].
  destruct (Z.ltb_spec (v mod 128 + 128) 128); [lia|].
  rewrite Hdec by (rewrite ?Hpow; nia). simpl length. rewrite Hpow. do 2 f_equal; nia.
Qed.

(** ** Encoding *)

(** The shape of an encoding: a first byte made of [init] and a prefix [p], then
    the groups; and decoding the bytes again. *)
Lemma encode_spec init bl v :
  1 <= bl <= 4 -> is_byte init -> Z.land init (make_mask 8 (8 - bl)) = 0 ->
  0 <= v <= MAX_HPACK_INT ->
  exists p g, encode init bl v = Ok (EncodedResult (Z.lor init p :: g)) /\
    0 <= p <= make_mask 8 (8 - bl) /\ bytes_ok (Z.lor init p :: g) /\
    (length g <= 4)%nat /\
    forall rest, decode bl (Z.lor init p :: g ++ rest) =
      Ok (DecodedResult (1 + Z.of_nat (length g)) v).
Proof.
  intros Hbl Hinit Hlow Hv. pose proof (mask_bounds bl Hbl) as Hm.
  assert (Hdec : forall p, 0 <= p <= make_mask 8 (8 - bl) ->
    Z.land (Z.lor init p) (make_mask 8 (8 - bl)) = p).
  { intros p Hp. rewrite Z.land_lor_distr_l, Hlow, Z.lor_0_l.
    rewrite make_mask_ones, Z.land_ones by lia. apply Z.mod_small.
    rewrite mask_value in Hp by lia. lia. }
  assert (Hor : forall p, 0 <= p <= make_mask 8 (8 - bl) -> is_byte (Z.lor init p)).
  { intros p Hp. apply fits_lor; [lia|done|]. unfold fits. lia. }
  unfold encode. destruct (Z.ltb_spec MAX_HPACK_INT v); [lia|].
  assert (Hbad : (4 <? bl) || (bl =? 0) = false) by lia.
  destruct (Z.ltb_spec v (make_mask 8 (8 - bl))).
  - exists v, []. unfold u8. rewrite (wrap_small 8 v) by (unfold fits; lia).
    replace (Z.land v (make_mask 8 (8 - bl))) with v.
    2: { rewrite make_mask_ones, Z.land_ones, Z.mod_small; [done| |lia|lia].
         rewrite mask_value in * by lia. lia. }
    split; [done|]. split; [lia|]. split; [constructor; [apply Hor; lia|done]|].
    split; [simpl; lia|]. intros rest. cbn [decode app]. rewrite Hbad, Hdec by lia.
    destruct (Z.ltb_spec v (make_mask 8 (8 - bl))); [|lia].
    unfold u32. rewrite wrap_small by (unfold fits; lia). done.
  - destruct (loops_inverse 3 (v - make_mask 8 (8 - bl)) [Z.lor init (make_mask 8 (8 - bl))])
      as (g & Henc & Hlen & Hok & Hg).
    { unfold MAX_HPACK_INT in Hv. change (2 ^ (7 * Z.of_nat 4)) with 268435456. lia. }
    { simpl. lia. }
    exists (make_mask 8 (8 - bl)), g.
    split; [revert Henc; apply encode_loop_fuel|]. split; [lia|].
    split; [constructor; [apply Hor; lia|done]|]. split; [lia|].
    intros rest. cbn [decode app]. rewrite Hbad, Hdec by lia.
    destruct (Z.ltb_spec (make_mask 8 (8 - bl)) (make_mask 8 (8 - bl))); [lia|].
    rewrite Hg; rewrite ?Z.mul_1_r; try lia. do 2 f_equal; lia.
Qed.

(** The two callers' forms: a command's integer and a string length. *)
Lemma encode_cmd_spec cmd v :
  0 <= v <= MAX_HPACK_INT ->
  exists p g, encode_cmd cmd v = Ok (EncodedResult (Z.lor (cmd_value (cmd_info cmd)) p :: g)) /\
    0 <= p <= make_mask 8 (8 - cmd_bitlen (cmd_info cmd)) /\
    bytes_ok (Z.lor (cmd_value (cmd_info cmd)) p :: g) /\ (length g <= 4)%nat /\
    forall rest, decode (cmd_bitlen (cmd_info cmd)) (Z.lor (cmd_value (cmd_info cmd)) p :: g ++ rest) =
      Ok (DecodedResult (1 + Z.of_nat (length g)) v).
Proof. intros. apply encode_spec; [by destruct cmd..|done]. Qed.

Lemma encode_flag_spec f v :
  0 <= v <= MAX_HPACK_INT ->
  exists p g, encode_flag f v = Ok (EncodedResult (Z.lor (string_flag_value f) p :: g)) /\
    0 <= p <= 127 /\ bytes_ok (Z.lor (string_flag_value f) p :: g) /\ (length g <= 4)%nat /\
    forall rest, decode 1 (Z.lor (string_flag_value f) p :: g ++ rest) =
      Ok (DecodedResult (1 + Z.of_nat (length g)) v).
Proof. intros. apply (encode_spec _ 1); [lia|by destruct f..|done]. Qed.

(** C32: Integer round trip. For every prefix width the library uses, every first
    byte whose prefix bits are clear and every value up to [MAX_HPACK_INT],
    [integer::encode] returns between one and five bytes (it never writes past
    [value[5]]), and [integer::decode] of these bytes followed by anything returns
    the value and the number of bytes. *)
Theorem integer_roundtrip init bl v :
  1 <= bl <= 4 -> is_byte init -> Z.land init (make_mask 8 (8 - bl)) = 0 ->
  0 <= v <= MAX_HPACK_INT ->
  exists r, encode init bl v = Ok r /\ 1 <= er_length r <= 5 /\ bytes_ok (as_span r) /\
    forall rest, decode bl (as_span r ++ rest) = Ok (DecodedResult (er_length r) v).
Proof.
  intros Hbl Hi Hl Hv. destruct (encode_spec init bl v Hbl Hi Hl Hv) as (p & g & He & _ & Hok & Hlen & Hd).
  eexists. split; [exact He|]. unfold er_length. cbn [as_span length].
  split; [lia|]. split; [done|]. intros rest.
  replace (Z.of_nat (S (length g))) with (1 + Z.of_nat (length g)) by lia. apply Hd.
Qed.

Lemma integer_roundtrip_witness :
  exists r, encode 0x40 2 1337 = Ok r /\ 1 <= er_length r <= 5 /\ bytes_ok (as_span r) /\
    forall rest, decode 2 (as_span r ++ rest) = Ok (DecodedResult (er_length r) 1337).
Proof. apply (integer_roundtrip 0x40 2 1337); by vm_compute. Defined.

(** ** Decoding against the RFC's integer *)

(** RFC 7541 5.1: the value of the continuation groups, on unbounded integers,
    and their number; [None] when the last byte still has its top bit set. *)
Fixpoint rfc_groups (src : list Z) : option (Z * Z) :=
  match src with
  | [] => None
  | b :: src =>
      if b <? 128 then Some (b, 1)
      else '(v, n) ← rfc_groups src; Some (b - 128 + 128 * v, n + 1)
  end.

Lemma rfc_groups_bounds src v n :
  bytes_ok src -> rfc_groups src = Some (v, n) -> 0 <= v /\ 1 <= n.
Proof.
  intros Hok. revert v n. induction Hok as [|b src [??] _ IH]; intros v n; simpl; [done|].
  destruct (Z.ltb_spec b 128); [intros [= <- <-]; lia|].
  destruct (rfc_groups src) as [[v' n']|]; simpl; [|done]. intros [= <- <-].
  specialize (IH v' n' eq_refl). lia.
Qed.

Lemma decode_loop_overflow b src m value k :
  is_byte b -> 0 <= m <= 56 -> 0 <= value <= MAX_HPACK_INT ->
  MAX_HPACK_INT < value + b mod 128 * 2 ^ m ->
  decode_loop (b :: src) m value k = Throw (overflow_error "An overflow in HPACK int decoding").
Proof.
  intros Hb Hm Hv Hmax. cbn [decode_loop]. destruct (Z.ltb_spec m 64); [|lia].
  rewrite land_127, Z.shiftl_mul_pow2 by lia.
  pose proof (Z.mod_pos_bound b 128 ltac:(lia)).
  assert (2 ^ m <= 2 ^ 56) by (apply Z.pow_le_mono_r; lia).
  pose proof (Z.pow_pos_nonneg 2 m ltac:(lia) ltac:(lia)).
  assert (0 <= b mod 128 * 2 ^ m < 2 ^ 63) by nia.
  unfold MAX_HPACK_INT, u64 in *. rewrite (wrap_small 64 (b mod 128 * 2 ^ m)) by (unfold fits; lia).
  rewrite wrap_small by (unfold fits; lia). by destruct (Z.ltb_spec (2 ^ 24 - 16) (value + b mod 128 * 2 ^ m)); [|lia].
Qed.

Lemma decode_loop_rfc src v n m value k :
  bytes_ok src -> rfc_groups src = Some (v, n) -> 0 <= m -> m + 7 * n <= 63 ->
  0 <= value <= MAX_HPACK_INT ->
  decode_loop src m value k =
    if value + v * 2 ^ m <=? MAX_HPACK_INT then Ok (DecodedResult (k + n) (value + v * 2 ^ m))
    else Throw (overflow_error "An overflow in HPACK int decoding").
Proof.
  intros Hok. revert v n m value k. induction Hok as [|b src Hb Hsrc IH];
    intros v n m value k Hg Hm Hmn Hval; simpl in Hg; [done|].
  pose proof (Z.pow_pos_nonneg 2 m ltac:(lia) ltac:(lia)).
  pose proof (Z.mod_pos_bound b 128 ltac:(lia)).
  assert (Hb' : b = b mod 128 + (if b <? 128 then 0 else 128)).
  { destruct Hb. destruct (Z.ltb_spec b 128); Z.div_mod_to_equations; lia. }
  destruct (Z.lt_ge_cases MAX_HPACK_INT (value + b mod 128 * 2 ^ m)) as [Hov|Hin].
  - rewrite decode_loop_overflow; [|done| |lia..].
    2: { destruct (b <? 128); [by simplify_eq; lia|]. destruct (rfc_groups src) as [[v' n']|] eqn:E; simpl in Hg; [|done].
         apply rfc_groups_bounds in E; [|done]. simplify_eq. lia. }
    destruct (b <? 128) eqn:Eb.
    + simplify_eq. destruct (Z.leb_spec (value + v * 2 ^ m) MAX_HPACK_INT); [nia|done].
    + destruct (rfc_groups src) as [[v' n']|] eqn:E; simpl in Hg; [|done].
      apply rfc_groups_bounds in E; [|done]. simplify_eq.
      destruct (Z.leb_spec (value + (b - 128 + 128 * v') * 2 ^ m) MAX_HPACK_INT); [nia|done].
  - destruct (b <? 128) eqn:Eb.
    + simplify_eq. rewrite decode_loop_cons, Eb by (done || lia).
      replace (v mod 128) with v by lia.
      destruct (Z.leb_spec (value + v * 2 ^ m) MAX_HPACK_INT); [done|nia].
    + destruct (rfc_groups src) as [[v' n']|] eqn:E; simpl in Hg; [|done].
      pose proof (rfc_groups_bounds _ _ _ Hsrc E). simplify_eq.
      rewrite decode_loop_cons, Eb by (done || lia).
      rewrite (IH _ _ (m + 7) _ (k + 1) eq_refl) by lia.
      replace (2 ^ (m + 7)) with (128 * 2 ^ m) by (rewrite Z.pow_add_r by lia; lia).
      replace (value + b mod 128 * 2 ^ m + v' * (128 * 2 ^ m))
        with (value + (b - 128 + 128 * v') * 2 ^ m) by nia.
      by replace (k + 1 + n') with (k + (n' + 1)) by lia.
Qed.

(** RFC 7541 5.1 with a prefix of [8 - bl] bits: the value and the bytes used. *)
Definition rfc_integer (bl : Z) (src : list Z) : option (Z * Z) :=
  match src with
  | [] => None
  | front :: src =>
      let top := 2 ^ (8 - bl) - 1 in
      if front mod 2 ^ (8 - bl) <? top then Some (front mod 2 ^ (8 - bl), 1)
      else '(v, n) ← rfc_groups src; Some (top + v, n + 1)
  end.

(** C33: The decoder implements RFC 7541 5.1. On any input whose integer takes at
    most ten bytes, [integer::decode] returns the RFC's value and byte count when
    the value is at most [MAX_HPACK_INT] and throws [overflow_error] otherwise. *)
Theorem integer_decode_rfc bl src v n :
  1 <= bl <= 4 -> bytes_ok src -> rfc_integer bl src = Some (v, n) -> n <= 10 ->
  decode bl src =
    if v <=? MAX_HPACK_INT then Ok (DecodedResult n v)
    else Throw (overflow_error "An overflow in HPACK int decoding").
Proof.
  intros Hbl Hok Hrfc Hn. destruct Hok as [|front src Hf Hsrc]; [done|].
  pose proof (mask_bounds bl Hbl) as Hm. unfold rfc_integer in Hrfc. cbn [decode].
  replace ((4 <? bl) || (bl =? 0)) with false by lia.
  assert (Hland : Z.land front (make_mask 8 (8 - bl)) = front mod 2 ^ (8 - bl))
    by (rewrite make_mask_ones, Z.land_ones by lia; done).
  rewrite Hland. rewrite mask_value in * by lia.
  pose proof (Z.mod_pos_bound front (2 ^ (8 - bl)) ltac:(apply Z.pow_pos_nonneg; lia)).
  destruct (Z.ltb_spec (front mod 2 ^ (8 - bl)) (2 ^ (8 - bl) - 1)).
  - simplify_eq. destruct (Z.leb_spec (front mod 2 ^ (8 - bl)) MAX_HPACK_INT).
    + unfold u32. rewrite wrap_small by (unfold fits; lia). done.
    + unfold MAX_HPACK_INT in *. lia.
  - destruct (rfc_groups src) as [[v' n']|] eqn:E; simpl in Hrfc; [|done]. simplify_eq.
    rewrite (decode_loop_rfc _ _ _ 0 _ _ Hsrc E); [|lia|lia|unfold MAX_HPACK_INT; lia].
    rewrite Z.mul_1_r. replace (front mod 2 ^ (8 - bl)) with (2 ^ (8 - bl) - 1) by lia.
    by replace (1 + n') with (n' + 1) by lia.
Qed.

Lemma integer_decode_rfc_witness :
  decode 1 [0x7f; 0x80; 0x80; 0x80; 0x80; 0x00] = Ok (DecodedResult 6 0x7f) /\
  decode 1 [0x7f; 0x80; 0x80; 0x80; 0x80; 0x80; 0x01] =
    Throw (overflow_error "An overflow in HPACK int decoding").
Proof.
  split.
  - apply (integer_decode_rfc 1 _ 127 6); [lia|by repeat constructor|done|lia].
  - apply (integer_decode_rfc 1 _ (127 + 2 ^ 35) 7); [lia|by repeat constructor|done|lia].
Defined.

(** Beyond ten bytes the decoder's 64-bit shift leaves the integer it was
    given: with nine empty continuation bytes the tenth is shifted by 63 and its
    bits are lost, so that a huge integer decodes as 127, and an eleventh is
    shifted by 70, which is undefined. *)
Theorem integer_decode_long_input b tail :
  decode 1 (0x7f :: replicate 9 0x80 ++ [0x02]) = Ok (DecodedResult 11 127) /\
  rfc_integer 1 (0x7f :: replicate 9 0x80 ++ [0x02]) = Some (127 + 2 ^ 64, 11) /\
  decode 1 (0x7f :: replicate 10 0x80 ++ b :: tail) = Undefined.
Proof. by split_and!. Qed.

(** Values above the library's limit are refused: [integer::encode] throws
    [overflow_error] exactly for values above [MAX_HPACK_INT]. *)
Theorem integer_encode_overflow init bl v :
  1 <= bl <= 4 -> is_byte init -> Z.land init (make_mask 8 (8 - bl)) = 0 -> 0 <= v ->
  (encode init bl v = Throw (overflow_error "A value must be less than 2^24-1") <->
   MAX_HPACK_INT < v).
Proof.
  intros Hbl Hi Hl Hv. split.
  - intros H. destruct (Z.lt_ge_cases MAX_HPACK_INT v) as [|Hle]; [done|].
    destruct (encode_spec init bl v) as (p & g & He & _); [done..|lia|]. congruence.
  - intros H. unfold encode. by destruct (Z.ltb_spec MAX_HPACK_INT v); [|lia].
Qed.

Lemma integer_encode_overflow_witness :
  (encode 0x80 1 (2 ^ 24) = Throw (overflow_error "A value must be less than 2^24-1") <->
   MAX_HPACK_INT < 2 ^ 24).
Proof. apply (integer_encode_overflow 0x80 1 (2 ^ 24)); by vm_compute. Defined.

(** ** The decoder on any input *)

Lemma decode_loop_post src m value n :
  post True (decode_loop src m value n)
    (fun r => n + 1 <= used_bytes r <= n + Z.of_nat (length src) /\
              0 <= decoded r <= MAX_HPACK_INT).
Proof.
  revert m value n. induction src as [|b src IH]; intros m value n; [done|]. cbn [decode_loop].
  destruct (m <? 64); [|done]. set (x := u64 (value + _)).
  assert (0 <= x) by (by apply wrap_fits). destruct (Z.ltb_spec MAX_HPACK_INT x); [done|].
  destruct (_ =? 0).
  - cbn [post used_bytes decoded length]. unfold u32.
    rewrite wrap_small by (unfold fits, MAX_HPACK_INT in *; lia). lia.
  - eapply post_weaken; [apply IH|done|]. intros r Hr. cbn beta in Hr |- *. cbn [length]. lia.
Qed.

Lemma decode_post b src :
  1 <= b <= 4 -> bytes_ok src ->
  post True (decode b src)
    (fun r => 1 <= used_bytes r <= Z.of_nat (length src) /\ 0 <= decoded r <= MAX_HPACK_INT).
Proof.
  intros Hb Hok. destruct Hok as [|front src Hf _]; [done|]. cbn [decode].
  destruct (_ || _); [done|]. pose proof (mask_bounds b Hb). set (x := Z.land _ _).
  assert (fits 8 x) as Hx by (unfold x; rewrite Z.land_comm; apply fits_land_r; [lia..|done]).
  unfold fits in Hx. destruct (x <? _).
  - cbn [post used_bytes decoded length]. unfold u32.
    rewrite wrap_small by (unfold fits; lia). unfold MAX_HPACK_INT. lia.
  - eapply post_weaken; [apply decode_loop_post|done|]. intros r Hr. cbn beta in Hr |- *. cbn [length]. lia.
Qed.
