(* ===== verification/Huffman.v ===== *)
(** * Static Huffman code (hpack/huffman.h, hpack/huffman.cpp)

    The code table of RFC 7541, appendix B, with each code left-aligned in 32 bits,
    the gperf hash that finds a symbol by its code, and the lookups built on them. *)
From S2P Require Import Prelude.

Definition EOS : Z := 256.

Record huffman_code := HuffmanCode { huffmanCode : Z; bitLength : Z }.
Declare Scope huffman_scope.
Notation "c # n" := (HuffmanCode c n) (at level 40, only parsing) : huffman_scope.
Open Scope huffman_scope.

(** The codes of the bytes up to 127, and the others with that of EOS. *)
Definition huffman_table_low : list huffman_code := [
  0xffc00000#13; 0xffffb000#23; 0xfffffe20#28; 0xfffffe30#28;
  0xfffffe40#28; 0xfffffe50#28; 0xfffffe60#28; 0xfffffe70#28;
  0xfffffe80#28; 0xffffea00#24; 0xfffffff0#30; 0xfffffe90#28;
  0xfffffea0#28; 0xfffffff4#30; 0xfffffeb0#28; 0xfffffec0#28;
  0xfffffed0#28; 0xfffffee0#28; 0xfffffef0#28; 0xffffff00#28;
  0xffffff10#28; 0xffffff20#28; 0xfffffff8#30; 0xffffff30#28;
  0xffffff40#28; 0xffffff50#28; 0xffffff60#28; 0xffffff70#28;
  0xffffff80#28; 0xffffff90#28; 0xffffffa0#28; 0xffffffb0#28;
  0x50000000#6; 0xfe000000#10; 0xfe400000#10; 0xffa00000#12;
  0xffc80000#13; 0x54000000#6; 0xf8000000#8; 0xff400000#11;
  0xfe800000#10; 0xfec00000#10; 0xf9000000#8; 0xff600000#11;
  0xfa000000#8; 0x58000000#6; 0x5c000000#6; 0x60000000#6;
  0x00000000#5; 0x08000000#5; 0x10000000#5; 0x64000000#6;
  0x68000000#6; 0x6c000000#6; 0x70000000#6; 0x74000000#6;
  0x78000000#6; 0x7c000000#6; 0xb8000000#7; 0xfb000000#8;
  0xfff80000#15; 0x80000000#6; 0xffb00000#12; 0xff000000#10;
  0xffd00000#13; 0x84000000#6; 0xba000000#7; 0xbc000000#7;
  0xbe000000#7; 0xc0000000#7; 0xc2000000#7; 0xc4000000#7;
  0xc6000000#7; 0xc8000000#7; 0xca000000#7; 0xcc000000#7;
  0xce000000#7; 0xd0000000#7; 0xd2000000#7; 0xd4000000#7;
  0xd6000000#7; 0xd8000000#7; 0xda000000#7; 0xdc000000#7;
  0xde000000#7; 0xe0000000#7; 0xe2000000#7; 0xe4000000#7;
  0xfc000000#8; 0xe6000000#7; 0xfd000000#8; 0xffd80000#13;
  0xfffe0000#19; 0xffe00000#13; 0xfff00000#14; 0x88000000#6;
  0xfffa0000#15; 0x18000000#5; 0x8c000000#6; 0x20000000#5;
  0x90000000#6; 0x28000000#5; 0x94000000#6; 0x98000000#6;
  0x9c000000#6; 0x30000000#5; 0xe8000000#7; 0xea000000#7;
  0xa0000000#6; 0xa4000000#6; 0xa8000000#6; 0x38000000#5;
  0xac000000#6; 0xec000000#7; 0xb0000000#6; 0x40000000#5;
  0x48000000#5; 0xb4000000#6; 0xee000000#7; 0xf0000000#7;
  0xf2000000#7; 0xf4000000#7; 0xf6000000#7; 0xfffc0000#15;
  0xff800000#11; 0xfff40000#14; 0xffe80000#13; 0xffffffc0#28].
Definition huffman_table_high : list huffman_code := [
  0xfffe6000#20; 0xffff4800#22; 0xfffe7000#20; 0xfffe8000#20;
  0xffff4c00#22; 0xffff5000#22; 0xffff5400#22; 0xffffb200#23;
  0xffff5800#22; 0xffffb400#23; 0xffffb600#23; 0xffffb800#23;
  0xffffba00#23; 0xffffbc00#23; 0xffffeb00#24; 0xffffbe00#23;
  0xffffec00#24; 0xffffed00#24; 0xffff5c00#22; 0xffffc000#23;
  0xffffee00#24; 0xffffc200#23; 0xffffc400#23; 0xffffc600#23;
  0xffffc800#23; 0xfffee000#21; 0xffff6000#22; 0xffffca00#23;
  0xffff6400#22; 0xffffcc00#23; 0xffffce00#23; 0xffffef00#24;
  0xffff6800#22; 0xfffee800#21; 0xfffe9000#20; 0xffff6c00#22;
  0xffff7000#22; 0xffffd000#23; 0xffffd200#23; 0xfffef000#21;
  0xffffd400#23; 0xffff7400#22; 0xffff7800#22; 0xfffff000#24;
  0xfffef800#21; 0xffff7c00#22; 0xffffd600#23; 0xffffd800#23;
  0xffff0000#21; 0xffff0800#21; 0xffff8000#22; 0xffff1000#21;
  0xffffda00#23; 0xffff8400#22; 0xffffdc00#23; 0xffffde00#23;
  0xfffea000#20; 0xffff8800#22; 0xffff8c00#22; 0xffff9000#22;
  0xffffe000#23; 0xffff9400#22; 0xffff9800#22; 0xffffe200#23;
  0xfffff800#26; 0xfffff840#26; 0xfffeb000#20; 0xfffe2000#19;
  0xffff9c00#22; 0xffffe400#23; 0xffffa000#22; 0xfffff600#25;
  0xfffff880#26; 0xfffff8c0#26; 0xfffff900#26; 0xfffffbc0#27;
  0xfffffbe0#27; 0xfffff940#26; 0xfffff100#24; 0xfffff680#25;
  0xfffe4000#19; 0xffff1800#21; 0xfffff980#26; 0xfffffc00#27;
  0xfffffc20#27; 0xfffff9c0#26; 0xfffffc40#27; 0xfffff200#24;
  0xffff2000#21; 0xffff2800#21; 0xfffffa00#26; 0xfffffa40#26;
  0xffffffd0#28; 0xfffffc60#27; 0xfffffc80#27; 0xfffffca0#27;
  0xfffec000#20; 0xfffff300#24; 0xfffed000#20; 0xffff3000#21;
  0xffffa400#22; 0xffff3800#21; 0xffff4000#21; 0xffffe600#23;
  0xffffa800#22; 0xffffac00#22; 0xfffff700#25; 0xfffff780#25;
  0xfffff400#24; 0xfffff500#24; 0xfffffa80#26; 0xffffe800#23;
  0xfffffac0#26; 0xfffffcc0#27; 0xfffffb00#26; 0xfffffb40#26;
  0xfffffce0#27; 0xfffffd00#27; 0xfffffd20#27; 0xfffffd40#27;
  0xfffffd60#27; 0xffffffe0#28; 0xfffffd80#27; 0xfffffda0#27;
  0xfffffdc0#27; 0xfffffde0#27; 0xfffffe00#27; 0xfffffb80#26;
  0xfffffffc#30].
Definition huffman_table : list huffman_code := huffman_table_low ++ huffman_table_high.

Definition code_len_array : list Z := [
  5; 6; 7; 8; 10; 11; 12; 13; 14; 15; 19; 20; 21; 22; 23; 24; 25; 26; 27; 28; 30].

Definition asso_values : list Z := [
  1; 267; 267; 267; 267; 267; 267; 267; 263; 267; 267; 267; 267; 267; 267; 267;
  42; 267; 267; 267; 267; 267; 267; 267; 262; 267; 267; 267; 267; 267; 267; 267;
  86; 267; 267; 267; 267; 267; 267; 267; 259; 267; 267; 267; 267; 267; 267; 267;
  170; 267; 267; 267; 267; 267; 267; 267; 258; 267; 267; 267; 267; 267; 267; 267;
  22; 267; 267; 267; 267; 267; 267; 267; 255; 267; 267; 267; 114; 267; 267; 267;
  118; 267; 267; 267; 254; 267; 267; 267; 251; 267; 267; 267; 250; 267; 267; 267;
  75; 267; 267; 267; 247; 267; 267; 267; 246; 267; 267; 267; 243; 267; 267; 267;
  159; 267; 267; 267; 242; 267; 267; 267; 239; 267; 267; 267; 238; 267; 267; 267;
  8; 267; 267; 267; 235; 267; 267; 267; 234; 267; 267; 267; 231; 267; 267; 267;
  144; 267; 267; 267; 230; 267; 267; 267; 227; 267; 267; 267; 226; 267; 267; 267;
  61; 267; 267; 267; 223; 267; 267; 267; 222; 267; 267; 267; 219; 267; 267; 267;
  153; 267; 111; 267; 218; 267; 110; 267; 215; 267; 214; 267; 211; 267; 210; 267;
  15; 267; 207; 267; 206; 267; 203; 267; 81; 267; 202; 267; 199; 267; 198; 267;
  134; 267; 195; 267; 194; 267; 191; 267; 69; 267; 190; 267; 187; 267; 186; 267;
  54; 267; 183; 267; 182; 267; 178; 267; 164; 267; 175; 104; 139; 84; 105; 72;
  128; 67; 32; 51; 47; 35; 174; 93; 29; 101; 95; 92; 38; 66; 4; 0].

Definition wordlist : list Z := [
  (-1); 19; 176; 63; 48; 254; 92; 33; 28; 178; 124; 61; 8; 131; 40; 127;
  147; 0; 69; 15; 224; 41; 24; 230; 39; 115; 4; 208; 34; 22; 192; 60;
  38; 215; 172; 120; 237; 200; 256; 211; 123; 88; 20; 179; 201; 50; 222; 13;
  236; 125; 121; 193; 225; 241; 249; 188; 93; 85; 17; 153; 214; 30; 198; 35;
  108; 12; 184; 245; 206; 90; 175; 91; 81; 159; 250; 26; 154; 43; 47; 6;
  128; 252; 152; 36; 73; 145; 21; 216; 247; 99; 2; 195; 244; 242; 234; 59;
  218; 96; 44; 223; 255; 235; 202; 238; 42; 142; 148; 203; 118; 210; 240; 138;
  135; 221; 243; 132; 213; 219; 25; 133; 253; 32; 5; 205; 212; (-1); (-1); 251;
  10; 171; 94; 119; 18; 167; 220; 165; 64; 77; 16; 226; 144; 248; 113; (-1);
  29; 187; 204; 100; 11; 162; (-1); (-1); 246; 31; 1; 62; 114; 14; 194; 27;
  164; (-1); 54; 7; 130; 239; 126; 106; (-1); 161; 23; 227; (-1); 105; 3; 199;
  9; 122; 107; 231; (-1); 89; 207; 197; 191; 87; 86; 183; 182; 84; 83; 180;
  174; 82; 80; 168; 166; 79; 78; 158; 157; 76; 75; 155; 151; 74; 72; 150;
  149; 71; 70; 143; 141; 68; 67; 140; 139; 66; 58; 137; 233; 117; 112; 232;
  228; 110; 109; 196; 190; 104; 103; 189; 186; 102; 98; 185; 181; 95; 65; 173;
  170; 57; 56; 169; 163; 55; 53; 160; 156; 52; 51; 146; 136; 46; 45; 134;
  129; 37; 116; 229; 217; 111; 101; 209; 177; 97; 49].

(** [find]: the gperf hash of the four bytes of a code (its little-endian memory
    bytes [str[3]] down to [str[0]]) and the word list slot it selects. *)
Definition find (code : Z) : Z :=
  let str k := Z.to_nat (Z.land (Z.shiftr code (8 * k)) 0xff) in
  let asso k := nth (str k) asso_values 0 in
  let key := asso 3 + asso 2 + asso 1 + asso 0 in
  if key <=? 266 then nth (Z.to_nat key) wordlist 0 else -1.

Definition encode (value : Z) : huffman_code :=
  nth (Z.to_nat value) huffman_table (HuffmanCode 0 0).

Definition decode (code : huffman_code) : option Z :=
  let index := find (huffmanCode code) in
  if (0 <=? index) && (huffmanCode (encode index) =? huffmanCode code)
     && (bitLength code =? bitLength (encode index))
  then Some index else None.

Definition allowed_code_lengths : list Z := code_len_array.

Definition estimate_len (data : list Z) : Z :=
  fold_left (fun sum byte => u64 (sum + bitLength (encode byte))) data 0.

(** The bits of a code, in transmission order. *)
Definition code_bits (c : huffman_code) : list bool :=
  low_bits (Z.to_nat (bitLength c)) (Z.shiftr (huffmanCode c) (32 - bitLength c)).

(** ** Facts of the table, by evaluation *)

(** All symbols, the end-of-string symbol included. *)
Lemma symbol_forall (P : Z -> bool) :
  forallb P (seqZ 0 257) = true -> forall v, 0 <= v <= 256 -> P v = true.
Proof.
  intros H v Hv. rewrite forallb_forall in H. apply H, list_elem_of_In, elem_of_seqZ. lia.
Qed.

Definition code_wf (c : huffman_code) : bool :=
  (5 <=? bitLength c) && (bitLength c <=? 30) && (0 <=? huffmanCode c) &&
  (huffmanCode c <? 2 ^ 32) && (huffmanCode c mod 2 ^ (32 - bitLength c) =? 0) &&
  existsb (Z.eqb (bitLength c)) code_len_array.

Lemma encode_wf v : 0 <= v <= 256 -> code_wf (encode v) = true.
Proof. revert v. apply symbol_forall. vm_compute. reflexivity. Qed.

Lemma decode_encode v : 0 <= v <= 256 -> decode (encode v) = Some v.
Proof.
  intros Hv. assert (H : bool_decide (decode (encode v) = Some v) = true).
  { revert v Hv. apply symbol_forall. vm_compute. reflexivity. }
  by apply bool_decide_eq_true in H.
Qed.

(** [c] starts with the bits of [d]. *)
Definition starts_with (c d : huffman_code) : bool :=
  (bitLength d <=? bitLength c) &&
  (Z.shiftr (huffmanCode c) (32 - bitLength d) =? Z.shiftr (huffmanCode d) (32 - bitLength d)).

Lemma prefix_free v w :
  0 <= v <= 256 -> 0 <= w <= 256 -> starts_with (encode v) (encode w) = true -> v = w.
Proof.
  intros Hv Hw H.
  assert (Hall : forallb (fun w => negb (starts_with (encode v) (encode w)) || (v =? w))
    (seqZ 0 257) = true).
  { clear w Hw H. revert v Hv. apply symbol_forall. vm_compute. reflexivity. }
  pose proof (symbol_forall _ Hall w Hw) as H'. simpl in H'. rewrite H in H'. lia.
Qed.

(** No code of at most seven bits is all ones. *)
Lemma short_code_not_ones v :
  0 <= v <= 256 -> bitLength (encode v) <= 7 ->
  Z.shiftr (huffmanCode (encode v)) (32 - bitLength (encode v)) <> Z.ones (bitLength (encode v)).
Proof.
  intros Hv Hl E.
  assert (H : (7 <? bitLength (encode v)) || negb (Z.shiftr (huffmanCode (encode v))
    (32 - bitLength (encode v)) =? Z.ones (bitLength (encode v))) = true).
  { clear Hl E. revert v Hv. apply symbol_forall. vm_compute. reflexivity. }
  rewrite E, Z.eqb_refl in H. lia.
Qed.

(** ** Consequences *)

Lemma encode_bounds v :
  0 <= v <= 256 ->
  5 <= bitLength (encode v) <= 30 /\ fits 32 (huffmanCode (encode v)) /\
  huffmanCode (encode v) mod 2 ^ (32 - bitLength (encode v)) = 0 /\
  In (bitLength (encode v)) code_len_array.
Proof.
  intros Hv. pose proof (encode_wf v Hv) as H. unfold code_wf in H.
  apply andb_true_iff in H as [H (l & Hl & Heq%Z.eqb_eq)%existsb_exists].
  rewrite <- Heq in Hl.
  unfold fits. split_and!; (lia || done).
Qed.

Lemma find_range code : -1 <= find code <= 256.
Proof.
  unfold find. destruct (_ <=? 266); [|lia].
  assert (H : forallb (fun x => (-1 <=? x) && (x <=? 256)) (0 :: wordlist) = true) by (vm_compute; done).
  rewrite forallb_forall in H.
  destruct (nth_in_or_default (Z.to_nat (nth (Z.to_nat (Z.land (Z.shiftr code (8 * 3)) 255)) asso_values 0
    + nth (Z.to_nat (Z.land (Z.shiftr code (8 * 2)) 255)) asso_values 0
    + nth (Z.to_nat (Z.land (Z.shiftr code (8 * 1)) 255)) asso_values 0
    + nth (Z.to_nat (Z.land (Z.shiftr code (8 * 0)) 255)) asso_values 0)) wordlist 0) as [Hin| ->]; [|lia].
  specialize (H _ (or_intror Hin)). lia.
Qed.

(** What a successful lookup means: the symbol's code is the one looked up. *)
Lemma decode_Some c v : decode c = Some v -> 0 <= v <= 256 /\ encode v = c.
Proof.
  unfold decode. pose proof (find_range (huffmanCode c)).
  destruct (_ && _) eqn:E; [|done]. intros [= <-].
  rewrite !andb_true_iff, Z.leb_le, !Z.eqb_eq in E. destruct E as [[? Hc] Hl].
  split; [lia|]. destruct c, (encode _); simpl in *. congruence.
Qed.

(** The perfect hash is exact. [huffman::decode] returns a symbol for a code
    and length exactly when [huffman::encode] maps that symbol (a byte or EOS) to
    them; for every other 32-bit code and length it returns nothing. *)
Theorem huffman_lookup_exact c v :
  decode c = Some v <-> 0 <= v <= 256 /\ encode v = c.
Proof. split; [apply decode_Some|]. intros [Hv <-]. by apply decode_encode. Qed.

Lemma length_code_bits v :
  0 <= v <= 256 -> length (code_bits (encode v)) = Z.to_nat (bitLength (encode v)).
Proof. intros. apply length_low_bits. Qed.

(** Bit [31 - i] of the code word is bit [i] of the code. *)
Lemma code_bits_lookup v i :
  0 <= v <= 256 -> (i < Z.to_nat (bitLength (encode v)))%nat ->
  code_bits (encode v) !! i = Some (Z.testbit (huffmanCode (encode v)) (31 - Z.of_nat i)).
Proof.
  intros Hv Hi. pose proof (encode_bounds v Hv). unfold code_bits.
  rewrite low_bits_lookup by done. f_equal. rewrite Z.shiftr_spec by lia. f_equal. lia.
Qed.

Lemma code_low_zero v k :
  0 <= v <= 256 -> 0 <= k < 32 - bitLength (encode v) ->
  Z.testbit (huffmanCode (encode v)) k = false.
Proof.
  intros Hv Hk. pose proof (encode_bounds v Hv) as (Hl & Hf & Hz & _).
  rewrite <- (Z.mod_pow2_bits_low _ (32 - bitLength (encode v)) k) by lia.
  by rewrite Hz, Z.testbit_0_l.
Qed.

Lemma starts_with_prefix v w :
  0 <= v <= 256 -> 0 <= w <= 256 ->
  code_bits (encode w) `prefix_of` code_bits (encode v) ->
  starts_with (encode v) (encode w) = true.
Proof.
  intros Hv Hw Hpre. pose proof (encode_bounds v Hv) as (Hlv & Hfv & _).
  pose proof (encode_bounds w Hw) as (Hlw & Hfw & _).
  pose proof (prefix_length _ _ Hpre) as Hlen. rewrite !length_code_bits in Hlen by done.
  unfold starts_with. apply andb_true_iff. split; [lia|].
  apply Z.eqb_eq, Z.bits_inj'. intros k Hk. rewrite !Z.shiftr_spec by lia.
  destruct (Z.lt_ge_cases k (bitLength (encode w))).
  - destruct Hpre as [rest Hpre]. pose (i := Z.to_nat (bitLength (encode w) - 1 - k)).
    assert (Hi : code_bits (encode v) !! i = code_bits (encode w) !! i).
    { rewrite Hpre. apply lookup_app_l. rewrite length_code_bits by done. lia. }
    rewrite !code_bits_lookup in Hi by (done || lia). injection Hi as Hi.
    replace (31 - Z.of_nat i) with (k + (32 - bitLength (encode w))) in Hi by lia. done.
  - by rewrite !(fits_testbit 32) by (done || lia).
Qed.

(** The code is prefix-free: when the bits of one symbol's code begin the bits
    of another's, the two symbols are the same. *)
Theorem huffman_prefix_free v w :
  0 <= v <= 256 -> 0 <= w <= 256 ->
  code_bits (encode w) `prefix_of` code_bits (encode v) -> v = w.
Proof. intros Hv Hw Hp. apply prefix_free; [done..|]. by apply starts_with_prefix. Qed.

Lemma huffman_prefix_free_witness :
  0 <= 97 <= 256 /\ code_bits (encode 97) `prefix_of` code_bits (encode 97) /\ 97 = 97.
Proof.
  split; [lia|]. split; [done|]. apply (huffman_prefix_free 97 97); [lia|lia|done].
Defined.

(** The bits of a string's encoding, and their number without wrap-around. *)
Definition string_bits (data : list Z) : list bool := data ≫= (fun b => code_bits (encode b)).
Definition total_bits (data : list Z) : Z :=
  foldr (fun b n => bitLength (encode b) + n) 0 data.

Lemma total_bits_bounds data :
  bytes_ok data -> 5 * Z.of_nat (length data) <= total_bits data <= 30 * Z.of_nat (length data).
Proof.
  induction 1 as [|b data [??] _ IH]; simpl; [lia|].
  pose proof (encode_bounds b ltac:(lia)). lia.
Qed.

Lemma string_bits_cons b data :
  string_bits (b :: data) = code_bits (encode b) ++ string_bits data.
Proof. done. Qed.

Lemma length_string_bits data :
  bytes_ok data -> Z.of_nat (length (string_bits data)) = total_bits data.
Proof.
  induction 1 as [|b data [??] _ IH]; [done|].
  rewrite string_bits_cons, length_app, length_code_bits by lia. simpl.
  pose proof (encode_bounds b ltac:(lia)). lia.
Qed.

Lemma estimate_len_total data :
  bytes_ok data -> Z.of_nat (length data) < 2 ^ 58 -> estimate_len data = total_bits data.
Proof.
  intros Hok Hlen. unfold estimate_len.
  enough (forall acc, 0 <= acc -> acc + total_bits data < 2 ^ 64 ->
    fold_left (fun sum byte => u64 (sum + bitLength (encode byte))) data acc
      = acc + total_bits data) as H.
  { rewrite H; [done|lia|]. pose proof (total_bits_bounds data Hok). lia. }
  clear Hlen. induction Hok as [|b data [??] Hok IH]; intros acc Hacc Hb; simpl in *; [lia|].
  pose proof (encode_bounds b ltac:(lia)). pose proof (total_bits_bounds data Hok).
  unfold u64 at 2. rewrite wrap_small by (unfold fits; lia). rewrite IH; lia.
Qed.

(** ** Completeness *)

(** Following the codes upwards from [start], each beginning where the previous
    one's range of 32-bit words ends, [n] codes reach [2^32]. *)
Fixpoint chain (n : nat) (start : Z) : bool :=
  match n with
  | O => start =? 2 ^ 32
  | S n =>
      match List.find (fun v => huffmanCode (encode v) =? start) (seqZ 0 257) with
      | Some v => chain n (start + 2 ^ (32 - bitLength (encode v)))
      | None => false
      end
  end.

Lemma chain_covers n start x :
  chain n start = true -> start <= x < 2 ^ 32 ->
  exists v, 0 <= v <= 256 /\
    huffmanCode (encode v) <= x < huffmanCode (encode v) + 2 ^ (32 - bitLength (encode v)).
Proof.
  revert start. induction n as [|n IH]; intros start; cbn [chain]; [intros; lia|].
  destruct (List.find (fun v => huffmanCode (encode v) =? start) (seqZ 0 257)) as [v|] eqn:E; [|done]. apply find_some in E as [Hin Heq].
  apply list_elem_of_In, elem_of_seqZ in Hin. apply Z.eqb_eq in Heq. intros Hc Hx.
  destruct (Z.lt_ge_cases x (start + 2 ^ (32 - bitLength (encode v)))).
  - exists v. split; [lia|]. lia.
  - apply (IH _ Hc). lia.
Qed.

(** Every 32-bit word begins with the code of a symbol. *)
Lemma code_complete x :
  fits 32 x -> exists v, 0 <= v <= 256 /\
    forall k, 32 - bitLength (encode v) <= k -> Z.testbit (huffmanCode (encode v)) k = Z.testbit x k.
Proof.
  intros [Hx0 Hx1]. destruct (chain_covers 257 0 x) as (v & Hv & Hc); [vm_compute; done|lia|].
  exists v. split; [done|]. intros k Hk.
  pose proof (encode_bounds v Hv) as (Hl & Hf & Hz & _).
  pose proof (Z.pow_pos_nonneg 2 (32 - bitLength (encode v)) ltac:(lia) ltac:(lia)).
  replace k with (k - (32 - bitLength (encode v)) + (32 - bitLength (encode v))) by lia.
  rewrite <- !Z.div_pow2_bits by lia. f_equal.
  pose proof (Z.div_mod (huffmanCode (encode v)) (2 ^ (32 - bitLength (encode v))) ltac:(lia)).
  apply Z.div_unique_pos with (x - huffmanCode (encode v)); lia.
Qed.
