(* ===== verification/Bitstream.v ===== *)
(** * Bit reader (hpack/bitstream.h, hpack/bitstream.cpp) *)
From S2P Require Import Prelude Memory Utils.

Record ibitstream := IBitstream { data : span; offset : Z }.

Definition pos (s : ibitstream) : Z := offset s.
Definition empty (s : ibitstream) : bool := offset s =? sp_len (data s) * 8.

(** The 64-bit big-endian word whose last byte is [data()[last_ind]]: an
    unchecked load of [data()[last_ind - 7 .. last_ind]]. *)
Definition load_word (d : span) (last_ind : Z) : Z :=
  be_combine ((fun i => sp_get d (last_ind - 7 + Z.of_nat i)) <$> seq 0 8).

(** [take_bits(len)]. The last shift is by the 64-bit value of
    [32 - bytes_len * 8 + first_gap]; at 64 or more it is undefined. *)
Definition take_bits (len : Z) (s : ibitstream) : outcome Z :=
  let last_ind := (offset s + len) / 8 in
  let last_gap := 8 - (offset s + len) mod 8 in
  let bytes_len := last_ind - offset s / 8 + 1 in
  let first_gap := offset s mod 8 in
  let bits := load_word (data s) last_ind in
  let bits := Z.land bits (u64 (Z.shiftl (make_mask 64 len) last_gap)) in
  let shift := u64 (32 - bytes_len * 8 + first_gap) in
  if shift <? 64 then Ok (u32 (u64 (Z.shiftl bits shift))) else Undefined.

Definition commit_bits (bit_len : Z) (s : ibitstream) : ibitstream :=
  IBitstream (data s) (Z.min (offset s + bit_len) (sp_len (data s) * 8)).

(** The number of unused bits after the field in its last byte, one to eight. *)
Definition last_gap (len off : Z) : Z := 8 - (off + len) mod 8.

(** The final shift is defined exactly when the field and its gap fit 32 bits. *)
Definition aligned (len off : Z) : bool := len + last_gap len off <=? 32.

Lemma load_word_testbit d i j :
  span_ok d -> 0 <= j < 64 ->
  Z.testbit (load_word d i) j = sp_bit d (8 * i + 7 - j).
Proof.
  intros [_ Hm] Hj. unfold load_word.
  set (l := (fun k => sp_get d (i - 7 + Z.of_nat k)) <$> seq 0 8).
  assert (Hl : bytes_ok l) by (apply Forall_fmap, Forall_true; intros; apply Hm).
  pose proof (low_bits_be_combine l Hl) as Hbits.
  assert (Hi : low_bits (8 * length l) (be_combine l) !! Z.to_nat (63 - j)
    = bytes_bits l !! Z.to_nat (63 - j)) by congruence.
  change (8 * length l)%nat with 64%nat in Hi.
  rewrite low_bits_lookup, bytes_bits_lookup in Hi by lia.
  replace (Z.of_nat 64 - 1 - Z.of_nat (Z.to_nat (63 - j))) with j in Hi by lia.
  replace (Z.to_nat (63 - j) / 8)%nat with (Z.to_nat (7 - j / 8)) in Hi.
  2: { replace (7 - j / 8) with ((63 - j) / 8) by (Z.div_mod_to_equations; lia).
       by rewrite Z2Nat.inj_div by lia. }
  assert (0 <= j / 8 <= 7) by (Z.div_mod_to_equations; lia).
  assert (Hlk : l !! Z.to_nat (7 - j / 8) = Some (sp_get d (i - 7 + Z.of_nat (Z.to_nat (7 - j / 8)))))
    by (unfold l; by rewrite list_lookup_fmap, lookup_seq_lt by lia).
  rewrite Hlk in Hi. apply (inj Some) in Hi. rewrite Hi.
  unfold sp_bit. rewrite Z2Nat.id by lia. f_equal; [f_equal|f_equal]; Z.div_mod_to_equations; lia.
Qed.

Lemma take_shift len off :
  32 - ((off + len) / 8 - off / 8 + 1) * 8 + off mod 8 = 32 - len - last_gap len off.
Proof. unfold last_gap. Z.div_mod_to_equations. lia. Qed.

Lemma last_gap_bounds len off : 1 <= last_gap len off <= 8.
Proof. unfold last_gap. pose proof (Z.mod_pos_bound (off + len) 8). lia. Qed.

(** What [take_bits] reads: when the shift is defined, the field left-aligned in
    32 bits, and nothing of the memory around it. *)
Lemma take_bits_aligned len d off :
  span_ok d -> 0 <= len <= 30 -> aligned len off = true ->
  exists x, take_bits len (IBitstream d off) = Ok x /\ fits 32 x /\
    forall k, 0 <= k < 32 ->
      Z.testbit x k = (32 - len <=? k) && sp_bit d (off + 31 - k).
Proof.
  intros Hd Hlen Hal. unfold aligned in Hal. apply Z.leb_le in Hal.
  pose proof (last_gap_bounds len off) as Hg. unfold take_bits. simpl.
  rewrite take_shift. fold (last_gap len off).
  assert (u64 (32 - len - last_gap len off) = 32 - len - last_gap len off) as ->
    by (apply wrap_small; unfold fits; lia).
  destruct (Z.ltb_spec (32 - len - last_gap len off) 64); [|lia].
  eexists. split; [done|]. split; [apply wrap_fits; lia|]. intros k Hk.
  unfold u32, u64. rewrite !wrap_testbit, Z.shiftl_spec by lia.
  destruct (Z.ltb_spec k 32); [|lia]. destruct (Z.ltb_spec k 64); [simpl|lia].
  destruct (Z.lt_ge_cases (k - (32 - len - last_gap len off)) 0) as [Hneg|Hpos].
  { rewrite Z.testbit_neg_r by done. destruct (Z.leb_spec (32 - len) k); [lia|done]. }
  rewrite Z.land_spec, wrap_testbit, Z.shiftl_spec, make_mask_testbit by lia.
  rewrite load_word_testbit by (done || lia).
  destruct (Z.ltb_spec (k - (32 - len - last_gap len off)) 64); [|lia].
  destruct (Z.leb_spec (32 - len) k).
  - destruct (Z.leb_spec 0 (k - (32 - len - last_gap len off) - last_gap len off)); [|lia].
    destruct (Z.ltb_spec (k - (32 - len - last_gap len off) - last_gap len off) len); [|lia].
    simpl. rewrite andb_true_r. f_equal. unfold last_gap. Z.div_mod_to_equations. lia.
  - destruct (Z.leb_spec 0 (k - (32 - len - last_gap len off) - last_gap len off)); [lia|].
    simpl. apply andb_false_r.
Qed.

(** Otherwise the shift count is negative, that is close to [2^64]. *)
Lemma take_bits_unaligned len d off :
  0 <= len <= 30 -> aligned len off = false -> take_bits len (IBitstream d off) = Undefined.
Proof.
  intros Hlen Hal. unfold aligned in Hal. apply Z.leb_gt in Hal.
  pose proof (last_gap_bounds len off) as Hg. unfold take_bits. simpl.
  rewrite take_shift.
  assert (u64 (32 - len - last_gap len off) = 2 ^ 64 + 32 - len - last_gap len off) as ->
    by (symmetry; apply (Z.mod_unique_pos _ _ (-1)); lia).
  by destruct (Z.ltb_spec (2 ^ 64 + 32 - len - last_gap len off) 64); [lia|].
Qed.

Lemma short_aligned len off : len <= 24 -> aligned len off = true.
Proof. intros. pose proof (last_gap_bounds len off). unfold aligned. lia. Qed.

(** [take_bits] returns exactly the requested bits. For a field of up to 30 bits
    inside the span, the result is the field's bits followed by zeros, whatever the
    memory before and after the span holds, when the field and its gap in the last
    byte fit 32 bits; otherwise the final shift is by a wrapped negative count,
    which is undefined. *)
Theorem take_bits_reads_field len d off :
  span_ok d -> 0 <= len <= 30 -> 0 <= off -> off + len <= 8 * sp_len d ->
  if aligned len off then
    exists x, take_bits len (IBitstream d off) = Ok x /\
      low_bits 32 x = take (Z.to_nat len) (drop (Z.to_nat off) (bytes_bits (sp_bytes d)))
                        ++ replicate (Z.to_nat (32 - len)) false
  else take_bits len (IBitstream d off) = Undefined.
Proof.
  intros Hd Hlen Hoff Hin. destruct (aligned len off) eqn:Ha; [|by apply take_bits_unaligned].
  destruct (take_bits_aligned len d off Hd Hlen Ha) as (x & Hx & _ & Hbits).
  exists x. split; [done|].
  assert (Hl : length (take (Z.to_nat len) (drop (Z.to_nat off) (bytes_bits (sp_bytes d))))
    = Z.to_nat len).
  { rewrite length_take, length_drop, length_bytes_bits, length_sp_bytes. lia. }
  apply list_eq_bits with 32%nat; [apply length_low_bits|rewrite length_app, length_replicate; lia|].
  intros i Hi. rewrite low_bits_lookup, Hbits by lia.
  destruct (decide (i < Z.to_nat len)%nat).
  - rewrite lookup_app_l, lookup_take_lt, lookup_drop by lia.
    replace (Z.to_nat off + i)%nat with (Z.to_nat (off + Z.of_nat i)) by lia.
    rewrite sp_bit_bytes by lia. destruct (Z.leb_spec (32 - len) (Z.of_nat 32 - 1 - Z.of_nat i)); [|lia].
    simpl. do 2 f_equal. lia.
  - rewrite lookup_app_r, lookup_replicate_2 by lia.
    by destruct (Z.leb_spec (32 - len) (Z.of_nat 32 - 1 - Z.of_nat i)); [lia|].
Qed.

Lemma take_bits_reads_field_witness :
  exists x, take_bits 6 (IBitstream (span_of (fun _ => 0xa5) 9 [0xf1; 0xe3; 0xc2]) 7) = Ok x /\
    low_bits 32 x = take 6 (drop 7 (bytes_bits [0xf1; 0xe3; 0xc2])) ++ replicate 26 false.
Proof.
  rewrite <- (sp_bytes_place (fun _ => 0xa5) 9 [0xf1; 0xe3; 0xc2]).
  apply (take_bits_reads_field 6 (span_of (fun _ => 0xa5) 9 [0xf1; 0xe3; 0xc2]) 7).
  - apply span_of_ok; [by split|by repeat constructor].
  - lia.
  - lia.
  - simpl. lia.
Defined.
