(* ===== verification/HString.v ===== *)
(** * HPACK strings, decoding side (hpack/string.h, hpack/string.cpp)

    [decode] reads a length-prefixed string, plain or Huffman-coded;
    [read_huffman_str] walks the coded bits with an [ibitstream]. *)
From Stdlib Require Import Sorted.
From S2P Require Import Prelude Memory Utils Constants Bitstream.
From S2P Require Integer Huffman.
Import Huffman (huffman_code, HuffmanCode, huffmanCode, bitLength, EOS).

(** The [for (auto bit_len : codeLengths)] loop: the first length whose bits are a
    code, with the symbol; [None] when no length matches. *)
Fixpoint match_code (codeLengths : list Z) (stream : ibitstream) : outcome (option (Z * Z)) :=
  match codeLengths with
  | [] => Ok None
  | bit_len :: codeLengths =>
      hcode ← take_bits bit_len stream;
      match Huffman.decode (HuffmanCode hcode bit_len) with
      | Some index => Ok (Some (index, bit_len))
      | None => match_code codeLengths stream
      end
  end.

(** The end-of-string padding test: fewer than eight bits are left and they are
    all ones in the last byte. *)
Definition is_padding (src : span) (stream : ibitstream) : bool :=
  let left := sp_len src * 8 - pos stream in
  (left <? 8) &&
  (let mask := make_mask 8 left in mask =? Z.land (sp_get src (sp_len src - 1)) mask).

(** The [while (!stream.empty())] loop. Every round consumes the bits of one code,
    so the number of bits of the string is enough fuel. *)
Fixpoint read_loop (fuel : nat) (src : span) (stream : ibitstream) (result : list Z)
  : outcome (list Z) :=
  match fuel with
  | O => OutOfFuel
  | S fuel =>
      if empty stream then Ok result
      else if is_padding src stream then Ok result
      else
        m ← match_code Huffman.allowed_code_lengths stream;
        match m with
        | None => Throw (invalid_argument "Can't decode huffman code")
        | Some (index, code_len) =>
            if index =? EOS then Ok result
            else read_loop fuel src (commit_bits code_len stream) (result ++ [u8 index])
        end
  end.

Definition read_huffman_str (src : span) : outcome (list Z) :=
  read_loop (S (Z.to_nat (8 * sp_len src))) src (IBitstream src 0) [].

Record decoded_string := DecodedString { used_bytes : Z; str_value : list Z }.

Definition decode (src : span) : outcome decoded_string :=
  if sp_len src =? 0 then Throw (invalid_argument "A source can't be empty")
  else
    let is_huffman := negb (Z.land (sp_get src 0) (string_flag_value ENCODED) =? 0) in
    str_length ← Integer.decode 1 (sp_bytes src);
    src ← subspan (Integer.used_bytes str_length) src;
    if sp_len src <? Integer.decoded str_length then
      Throw (invalid_argument "Not enough input data for string")
    else
      body ← subspan_count 0 (Integer.decoded str_length) src;
      v ← (if is_huffman then read_huffman_str body else Ok (sp_bytes body));
      Ok (DecodedString (u32 (Integer.used_bytes str_length + Integer.decoded str_length)) v).

(** ** One code *)

(** The memory bits from [off] on begin with the code of symbol [v]. *)
Definition at_code (d : span) (off v : Z) : Prop :=
  forall k, 32 - bitLength (Huffman.encode v) <= k < 32 ->
    Z.testbit (huffmanCode (Huffman.encode v)) k = sp_bit d (off + 31 - k).

(** A field of [l] bits read where the code of [v] stands has the code's top bits. *)
Lemma field_bits d off v l x k :
  at_code d off v -> 0 <= v <= 256 -> l <= bitLength (Huffman.encode v) ->
  (forall k, 0 <= k < 32 -> Z.testbit x k = (32 - l <=? k) && sp_bit d (off + 31 - k)) ->
  32 - l <= k < 32 -> Z.testbit x k = Z.testbit (huffmanCode (Huffman.encode v)) k.
Proof.
  intros Hat Hv Hl Hx Hk. pose proof (Huffman.encode_bounds v Hv).
  rewrite Hx, Hat by lia. by destruct (Z.leb_spec (32 - l) k); [|lia].
Qed.

Lemma field_not_shorter d off v l x :
  at_code d off v -> 0 <= v <= 256 -> l < bitLength (Huffman.encode v) -> fits 32 x ->
  (forall k, 0 <= k < 32 -> Z.testbit x k = (32 - l <=? k) && sp_bit d (off + 31 - k)) ->
  Huffman.decode (HuffmanCode x l) = None.
Proof.
  intros Hat Hv Hl Hfx Hx. destruct (Huffman.decode _) as [w|] eqn:E; [|done].
  apply Huffman.decode_Some in E as [Hw Ew]. exfalso.
  pose proof (Huffman.encode_bounds v Hv) as (? & Hfv & _).
  pose proof (Huffman.encode_bounds w Hw) as (? & _).
  assert (v = w) as <-; [|rewrite Ew in Hl; simpl in Hl; lia].
  apply Huffman.prefix_free; [done..|]. unfold Huffman.starts_with. rewrite Ew in *. simpl in *.
  apply andb_true_iff. split; [lia|]. apply Z.eqb_eq, Z.bits_inj'. intros k Hk.
  rewrite !Z.shiftr_spec by lia. destruct (Z.lt_ge_cases (k + (32 - l)) 32).
  - symmetry. apply (field_bits d off v l); (done || lia).
  - by rewrite !(fits_testbit 32) by (done || lia).
Qed.

Lemma field_exact d off v x :
  at_code d off v -> 0 <= v <= 256 -> fits 32 x ->
  (forall k, 0 <= k < 32 ->
     Z.testbit x k = (32 - bitLength (Huffman.encode v) <=? k) && sp_bit d (off + 31 - k)) ->
  x = huffmanCode (Huffman.encode v).
Proof.
  intros Hat Hv Hfx Hx. pose proof (Huffman.encode_bounds v Hv) as (? & Hfv & _).
  apply Z.bits_inj'. intros k Hk. destruct (Z.lt_ge_cases k (32 - bitLength (Huffman.encode v))).
  - rewrite Huffman.code_low_zero, Hx by lia.
    by destruct (Z.leb_spec (32 - bitLength (Huffman.encode v)) k); [lia|].
  - destruct (Z.lt_ge_cases k 32); [apply (field_bits d off v (bitLength (Huffman.encode v))); (done || lia)|].
    by rewrite !(fits_testbit 32) by (done || lia).
Qed.

(** The lengths up to that of [v]'s code are all read with a defined shift. *)
Definition readable_code (lens : list Z) (off v : Z) : bool :=
  forallb (fun l => (bitLength (Huffman.encode v) <? l) || aligned l off) lens.

(** The length loop finds the symbol whose code stands at the offset, or runs into
    an undefined shift before it. *)
Lemma match_code_found lens d off v :
  span_ok d -> at_code d off v -> 0 <= v <= 256 ->
  In (bitLength (Huffman.encode v)) lens -> StronglySorted Z.lt lens ->
  Forall (fun l => 0 <= l <= 30) lens ->
  match_code lens (IBitstream d off) =
    if readable_code lens off v then Ok (Some (v, bitLength (Huffman.encode v))) else Undefined.
Proof.
  intros Hd Hat Hv Hin Hsort Hb. induction Hsort as [|l lens Hsort IH Hall]; [done|].
  inversion_clear Hb as [|? ? Hl Hb']. cbn [match_code readable_code forallb].
  assert (Hle : l <= bitLength (Huffman.encode v)).
  { destruct Hin as [->|Hin]; [lia|]. rewrite Forall_forall in Hall.
    apply list_elem_of_In, Hall in Hin. lia. }
  destruct (Z.ltb_spec (bitLength (Huffman.encode v)) l); [lia|]. cbn [orb].
  destruct (aligned l off) eqn:Ha; [|by rewrite take_bits_unaligned]. cbn [andb].
  destruct (take_bits_aligned l d off Hd Hl Ha) as (x & -> & Hfx & Hx).
  cbn [mbind outcome_bind]. destruct (decide (l = bitLength (Huffman.encode v))) as [->|Hne].
  - rewrite (field_exact d off v x) by done.
    replace (HuffmanCode _ _) with (Huffman.encode v) by (by destruct (Huffman.encode v)).
    rewrite Huffman.decode_encode by done.
    replace (forallb _ lens) with true; [done|]. symmetry. apply forallb_forall.
    intros l' Hl'. rewrite Forall_forall in Hall. apply list_elem_of_In, Hall in Hl'. lia.
  - rewrite (field_not_shorter d off v l x) by (done || lia).
    apply IH; [by destruct Hin; congruence|done].
Qed.

Lemma code_lengths_sorted : StronglySorted Z.lt Huffman.allowed_code_lengths.
Proof.
  unfold Huffman.allowed_code_lengths, Huffman.code_len_array.
  repeat (constructor; [|repeat (constructor; [lia|]); constructor]). constructor.
Qed.

Lemma code_lengths_bounds : Forall (fun l => 0 <= l <= 30) Huffman.allowed_code_lengths.
Proof. repeat (constructor; [lia|]). constructor. Qed.

(** ** The string loop *)

Lemma sp_bit_last d q :
  span_ok d -> 8 * sp_len d - 8 <= q < 8 * sp_len d ->
  sp_bit d q = Z.testbit (sp_get d (sp_len d - 1)) (8 * sp_len d - 1 - q).
Proof. intros _ Hq. unfold sp_bit. f_equal; [f_equal|]; Z.div_mod_to_equations; lia. Qed.

Lemma is_padding_spec d off :
  span_ok d -> 0 <= off -> 1 <= 8 * sp_len d - off <= 7 ->
  is_padding d (IBitstream d off) = true <->
  (forall q, off <= q < 8 * sp_len d -> sp_bit d q = true).
Proof.
  intros Hd Hoff Hleft. unfold is_padding, pos. simpl offset.
  replace (sp_len d * 8 - off) with (8 * sp_len d - off) by lia.
  destruct (Z.ltb_spec (8 * sp_len d - off) 8); [|lia]. simpl.
  rewrite make_mask_ones, Z.eqb_eq by lia. split.
  - intros Heq q Hq. rewrite sp_bit_last by (done || lia).
    pose proof (f_equal (fun x => Z.testbit x (8 * sp_len d - 1 - q)) Heq) as Hb.
    simpl in Hb. rewrite Z.land_spec, Z.ones_spec_low, andb_true_r in Hb by lia. done.
  - intros Hall. apply Z.bits_inj'. intros k Hk. rewrite Z.land_spec.
    destruct (Z.lt_ge_cases k (8 * sp_len d - off)).
    + rewrite Z.ones_spec_low, andb_true_r by lia.
      pose proof (Hall (8 * sp_len d - 1 - k) ltac:(lia)) as Hq.
      rewrite sp_bit_last in Hq by (done || lia).
      by replace (8 * sp_len d - 1 - (8 * sp_len d - 1 - k)) with k in Hq by lia.
    + by rewrite Z.ones_spec_high, andb_false_r by lia.
Qed.

Lemma sp_bit_app d pre mid post i :
  span_ok d -> bytes_bits (sp_bytes d) = pre ++ mid ++ post -> (i < length mid)%nat ->
  mid !! i = Some (sp_bit d (Z.of_nat (length pre + i))).
Proof.
  intros [Hd _] Hb Hi. pose proof (f_equal length Hb) as Hlen.
  rewrite length_bytes_bits, length_sp_bytes, !length_app in Hlen.
  rewrite <- sp_bit_bytes, Hb, Nat2Z.id by lia.
  rewrite lookup_app_r by lia. replace (length pre + i - length pre)%nat with i by lia.
  by rewrite lookup_app_l.
Qed.

Lemma at_code_bits d pre v post :
  span_ok d -> 0 <= v <= 256 ->
  bytes_bits (sp_bytes d) = pre ++ Huffman.code_bits (Huffman.encode v) ++ post ->
  at_code d (Z.of_nat (length pre)) v.
Proof.
  intros Hd Hv Hb k Hk. pose proof (Huffman.encode_bounds v Hv).
  pose proof (sp_bit_app d pre _ post (Z.to_nat (31 - k)) Hd Hb) as H'.
  rewrite Huffman.length_code_bits, Huffman.code_bits_lookup in H' by (done || lia).
  specialize (H' ltac:(lia)). apply (inj Some) in H'.
  replace (31 - Z.of_nat (Z.to_nat (31 - k))) with k in H' by lia.
  rewrite H'. f_equal. lia.
Qed.

(** A short tail that still begins with a code is not taken for padding. *)
Lemma code_not_padding d pre v post :
  span_ok d -> 0 <= v <= 256 ->
  bytes_bits (sp_bytes d) = pre ++ Huffman.code_bits (Huffman.encode v) ++ post ->
  is_padding d (IBitstream d (Z.of_nat (length pre))) = false.
Proof.
  intros Hd Hv Hb. pose proof (Huffman.encode_bounds v Hv) as (? & Hf & _).
  pose proof (f_equal length Hb) as Hlen.
  rewrite length_bytes_bits, length_sp_bytes, !length_app, Huffman.length_code_bits in Hlen by done.
  destruct (is_padding _ _) eqn:E; [exfalso|done].
  assert (Hleft : 8 * sp_len d - Z.of_nat (length pre) <= 7).
  { unfold is_padding, pos in E. simpl offset in E. lia. }
  pose proof E as E'. rewrite is_padding_spec in E' by (done || lia).
  apply (Huffman.short_code_not_ones v Hv); [lia|]. apply Z.bits_inj'. intros k Hk.
  rewrite Z.shiftr_spec by lia. destruct (Z.lt_ge_cases k (bitLength (Huffman.encode v))).
  - rewrite Z.ones_spec_low by lia.
    rewrite (at_code_bits d pre v post Hd Hv Hb) by lia. apply E'. lia.
  - rewrite Z.ones_spec_high by lia. apply fits_testbit with 32; (done || lia).
Qed.

(** Whether every code of a string that starts at bit [off] is read with defined
    shifts; symbols with codes of at most 24 bits always are. *)
Fixpoint readable (off : Z) (str : list Z) : bool :=
  match str with
  | [] => true
  | b :: str => readable_code Huffman.allowed_code_lengths off b
                && readable (off + bitLength (Huffman.encode b)) str
  end.
Definition short_code (b : Z) : bool := bitLength (Huffman.encode b) <=? 24.

Lemma short_readable str off : forallb short_code str = true -> readable off str = true.
Proof.
  revert off. induction str as [|b str IH]; intros off H; [done|]. cbn [forallb readable] in *.
  apply andb_true_iff in H as [Hb Hs]. apply andb_true_iff. split; [|by apply IH].
  apply forallb_forall. intros l _. destruct (Z.ltb_spec (bitLength (Huffman.encode b)) l); [done|].
  apply short_aligned. unfold short_code in Hb. lia.
Qed.

Lemma read_loop_string str : forall fuel d pre p acc,
  span_ok d -> bytes_ok str -> (p < 8)%nat ->
  bytes_bits (sp_bytes d) = pre ++ Huffman.string_bits str ++ replicate p true ->
  (length str < fuel)%nat ->
  read_loop fuel d (IBitstream d (Z.of_nat (length pre))) acc =
    if readable (Z.of_nat (length pre)) str then Ok (acc ++ str) else Undefined.
Proof.
  induction str as [|b str IH]; intros fuel d pre p acc Hd Hok Hp Hb Hfuel.
  all: destruct fuel as [|fuel]; [simpl in Hfuel; lia|]; cbn [read_loop readable].
  all: pose proof (f_equal length Hb) as Hlen; pose proof (proj1 Hd) as Hlen0.
  all: rewrite length_bytes_bits, length_sp_bytes, !length_app, length_replicate in Hlen.
  - rewrite app_nil_r. simpl in Hlen. unfold empty. cbn [data offset].
    destruct (Z.eqb_spec (Z.of_nat (length pre)) (sp_len d * 8)); [done|].
    replace (is_padding d _) with true; [done|]. symmetry.
    apply is_padding_spec; [done|lia|simpl; lia|]. intros q Hq.
    pose proof (sp_bit_app d pre (replicate p true) [] (Z.to_nat q - length pre)) as H'.
    rewrite lookup_replicate_2, length_replicate in H' by lia.
    replace (Z.of_nat (length pre + (Z.to_nat q - length pre))) with q in H' by lia.
    rewrite app_nil_r in H'. specialize (H' Hd Hb ltac:(lia)). congruence.
  - inversion_clear Hok as [|? ? [Hb0 Hb1] Hok'].
    rewrite Huffman.string_bits_cons, <- app_assoc in Hb.
    rewrite Huffman.string_bits_cons, length_app, Huffman.length_code_bits in Hlen by lia.
    pose proof (Huffman.encode_bounds b ltac:(lia)) as (Hbl & _ & _ & Hin).
    unfold empty. cbn [data offset]. destruct (Z.eqb_spec (Z.of_nat (length pre)) (sp_len d * 8)); [lia|].
    rewrite (code_not_padding d pre b _ Hd ltac:(lia) Hb).
    rewrite (match_code_found _ d _ b); [|done|by apply (at_code_bits d pre b _ Hd ltac:(lia) Hb)|lia|done|
      apply code_lengths_sorted|apply code_lengths_bounds].
    destruct (readable_code _ _ b); [cbn [mbind outcome_bind andb]|done].
    destruct (Z.eqb_spec b EOS); [unfold EOS in *; lia|].
    unfold commit_bits. cbn [data offset]. rewrite Z.min_l by lia.
    assert (Hnext : Z.of_nat (length pre) + bitLength (Huffman.encode b)
      = Z.of_nat (length (pre ++ Huffman.code_bits (Huffman.encode b))))
      by (rewrite length_app, Huffman.length_code_bits by lia; lia).
    rewrite Hnext, (IH fuel d _ p); [|done|done|done|by rewrite <- app_assoc|simpl in Hfuel; lia].
    unfold u8. rewrite wrap_small by (split; lia). by rewrite <- app_assoc.
Qed.

(** ** Every input *)

Lemma match_code_cases lens d off :
  span_ok d -> Forall (fun l => 0 <= l <= 30) lens ->
  match match_code lens (IBitstream d off) with
  | Ok None => forall l, In l lens -> aligned l off = true
  | Ok (Some (v, l)) => In l lens /\ 0 <= v <= 256
  | Throw _ | OutOfFuel => False
  | Undefined => True
  end.
Proof.
  intros Hd Hb. induction Hb as [|l lens Hl Hb IH]; cbn [match_code]; [by intros|].
  destruct (aligned l off) eqn:Ha; [|by rewrite take_bits_unaligned].
  destruct (take_bits_aligned l d off Hd Hl Ha) as (x & -> & _). cbn [mbind outcome_bind].
  destruct (Huffman.decode _) as [v|] eqn:E.
  - apply Huffman.decode_Some in E as [Hv _]. by split; [left|].
  - destruct (match_code lens _) as [[[v l']|]| | |]; try done.
    + destruct IH. by split; [right|].
    + intros l' [<-|Hin]; auto.
Qed.

(** The loop over the code lengths cannot fall through: the code is complete, and
    the 30 bits it looks at are read from memory whether or not they belong to the
    string. *)
Lemma match_code_never_none d off :
  span_ok d -> match_code Huffman.allowed_code_lengths (IBitstream d off) <> Ok None.
Proof.
  intros Hd E. pose proof (match_code_cases _ d off Hd code_lengths_bounds) as Hal.
  rewrite E in Hal.
  destruct (take_bits_aligned 30 d off Hd ltac:(lia)) as (x & _ & Hfx & Hx).
  { apply Hal. unfold Huffman.allowed_code_lengths, Huffman.code_len_array. simpl. tauto. }
  destruct (Huffman.code_complete x Hfx) as (v & Hv & Hcode).
  pose proof (Huffman.encode_bounds v Hv) as (? & _ & _ & Hin).
  rewrite (match_code_found _ d off v) in E; [by destruct (readable_code _ _ _)|done| |done|done|
    apply code_lengths_sorted|apply code_lengths_bounds].
  intros k Hk. rewrite Hcode, Hx by lia. by destruct (Z.leb_spec (32 - 30) k); [|lia].
Qed.

Lemma read_loop_cases fuel : forall d off acc,
  span_ok d -> 0 <= off -> (Z.to_nat (8 * sp_len d - off) < fuel)%nat -> off <= 8 * sp_len d ->
  is_ok (read_loop fuel d (IBitstream d off) acc) \/
  read_loop fuel d (IBitstream d off) acc = Undefined.
Proof.
  induction fuel as [|fuel IH]; intros d off acc Hd Hoff Hf Hle; [lia|]. cbn [read_loop].
  unfold empty. cbn [data offset]. destruct (Z.eqb_spec off (sp_len d * 8)); [left; by eexists|].
  destruct (is_padding _ _); [left; by eexists|].
  pose proof (match_code_cases _ d off Hd code_lengths_bounds) as Hc.
  pose proof (match_code_never_none d off Hd) as Hn.
  destruct (match_code _ _) as [[[v l]|]| | |]; [|done|done|by right|done].
  destruct Hc as [Hin Hv]. cbn [mbind outcome_bind].
  destruct (v =? EOS); [left; by eexists|]. unfold commit_bits. cbn [data offset].
  assert (5 <= l).
  { assert (Hall : Forall (fun l => 5 <= l) Huffman.allowed_code_lengths)
      by (repeat (constructor; [lia|]); constructor).
    rewrite Forall_forall in Hall. by apply Hall, list_elem_of_In. }
  apply IH; [done|lia..].
Qed.

Lemma read_huffman_str_cases src :
  span_ok src -> is_ok (read_huffman_str src) \/ read_huffman_str src = Undefined.
Proof. intros Hd. apply read_loop_cases; [done|lia|lia|destruct Hd; lia]. Qed.

(** Every round adds one byte. *)
Lemma read_loop_bytes fuel : forall d st acc r,
  read_loop fuel d st acc = Ok r -> bytes_ok acc ->
  bytes_ok r /\ (length r <= length acc + fuel)%nat.
Proof.
  induction fuel as [|fuel IH]; intros d st acc r; [done|]. cbn [read_loop].
  intros H Hacc. assert (Hend : Ok acc = Ok r -> bytes_ok r /\ (length r <= length acc + S fuel)%nat)
    by (intros [= ->]; split; [done|lia]).
  destruct (empty st); [auto|]. destruct (is_padding d st); [auto|].
  apply outcome_bind_ok in H as ([[v l]|] & _ & H); [|done].
  destruct (v =? EOS); [auto|]. apply IH in H as [Hr Hl].
  - rewrite length_app in Hl. simpl in Hl. split; [done|lia].
  - apply Forall_app. split; [done|]. apply Forall_singleton. apply wrap_fits. lia.
Qed.

(** C35: Reading a Huffman string terminates and never reports an error: for every
    span, [read_huffman_str] either returns a string or runs into the undefined
    shift of [take_bits]; its [invalid_argument] branch is unreachable, so a string
    with invalid padding is not rejected. *)
Theorem read_huffman_str_total src :
  span_ok src -> is_ok (read_huffman_str src) \/ read_huffman_str src = Undefined.
Proof. apply read_huffman_str_cases. Qed.

Lemma read_huffman_str_total_witness :
  is_ok (read_huffman_str (span_of (fun _ => 0) 9 [0xf1; 0xe3])) \/
  read_huffman_str (span_of (fun _ => 0) 9 [0xf1; 0xe3]) = Undefined.
Proof. apply read_huffman_str_total, span_of_ok; [by split|by repeat constructor]. Defined.

(** The decoder reads past the string: the single byte [0xfe] ends in the middle of
    a code, and what it decodes to ("!" or ")") is decided by the memory after it. *)
Theorem read_huffman_str_overread :
  read_huffman_str (span_of (fun _ => 0x00) 9 [0xfe]) = Ok [33] /\
  read_huffman_str (span_of (fun _ => 0xff) 9 [0xfe]) = Ok [41].
Proof. by split; vm_compute. Qed.

(** ** Length-prefixed strings *)

(** [decode] on a span that holds a length prefix [hd], the announced number of
    bytes [body], and anything after them. *)
Lemma decode_prefixed src h g body rest :
  span_ok src -> sp_bytes src = (h :: g) ++ body ++ rest ->
  Z.of_nat (length g) + 1 + Z.of_nat (length body) < 2 ^ 32 ->
  Integer.decode 1 ((h :: g) ++ body ++ rest) =
    Ok (Integer.DecodedResult (1 + Z.of_nat (length g)) (Z.of_nat (length body))) ->
  exists b, span_ok b /\ sp_bytes b = body /\
    decode src =
      (v ← (if Z.land h 0x80 =? 0 then Ok body else read_huffman_str b);
       Ok (DecodedString (1 + Z.of_nat (length g) + Z.of_nat (length body)) v)).
Proof.
  intros Hsrc Hb H32 Hint. pose proof (f_equal length Hb) as Hlen.
  rewrite length_sp_bytes, length_app, length_app in Hlen. simpl in Hlen.
  pose proof (proj1 Hsrc) as Hlen0.
  destruct (subspan_bytes (1 + Z.of_nat (length g)) src) as (s1 & Hs1 & Hs1b & Hs1l & Hs1m & Hs1a);
    [lia|].
  exists (Span (sp_mem s1) (sp_base s1 + 0) (Z.of_nat (length body))).
  assert (Hbody : sp_bytes (Span (sp_mem s1) (sp_base s1 + 0) (Z.of_nat (length body))) = body).
  { rewrite Z.add_0_r, (sp_bytes_take _ _ (sp_len s1)) by lia.
    replace (Span (sp_mem s1) (sp_base s1) (sp_len s1)) with s1 by (by destruct s1).
    rewrite Hs1b, Hb, drop_app_length' by (simpl; lia).
    by rewrite Nat2Z.id, take_app_length. }
  split; [split; simpl; [lia|]; rewrite Hs1m; apply Hsrc|]. split; [done|].
  unfold decode. destruct (Z.eqb_spec (sp_len src) 0); [lia|].
  assert (Hget : sp_get src 0 = h).
  { pose proof (sp_bytes_lookup src 0 ltac:(lia)) as H0. rewrite Hb in H0. apply (inj Some) in H0. by rewrite H0. }
  rewrite Hget, Hb, Hint. cbn [mbind outcome_bind Integer.used_bytes Integer.decoded].
  rewrite Hs1. cbn [mbind outcome_bind]. destruct (Z.ltb_spec (sp_len s1) (Z.of_nat (length body))); [lia|].
  unfold subspan_count. replace ((0 <=? sp_len s1) && (Z.of_nat (length body) <=? sp_len s1 - 0)) with true by lia.
  cbn [mbind outcome_bind]. unfold u32. rewrite wrap_small by (unfold fits; lia).
  change (string_flag_value ENCODED) with 0x80. destruct (Z.land h 0x80 =? 0); simpl negb; [|done].
  cbn [mbind outcome_bind]. by rewrite Hbody.
Qed.

(** A plain string and a Huffman string, as the encoder writes them. *)
Lemma decode_inplace src p g body rest :
  span_ok src -> sp_bytes src = (Z.lor (string_flag_value INPLACE) p :: g) ++ body ++ rest ->
  0 <= p <= 127 -> (length g <= 4)%nat -> Z.of_nat (length body) < 2 ^ 24 ->
  (forall tl, Integer.decode 1 (Z.lor (string_flag_value INPLACE) p :: g ++ tl) =
    Ok (Integer.DecodedResult (1 + Z.of_nat (length g)) (Z.of_nat (length body)))) ->
  decode src = Ok (DecodedString (1 + Z.of_nat (length g) + Z.of_nat (length body)) body).
Proof.
  intros Hsrc Hb Hp Hg Hbody Hint.
  destruct (decode_prefixed src _ g body rest Hsrc Hb ltac:(lia) (Hint _)) as (b & _ & _ & ->).
  rewrite Integer.land_128; rewrite Z.lor_0_l; [|lia].
  by destruct (Z.ltb_spec p 128); [|lia].
Qed.

Lemma decode_encoded src p g body rest str pad :
  span_ok src -> sp_bytes src = (Z.lor (string_flag_value ENCODED) p :: g) ++ body ++ rest ->
  0 <= p <= 127 -> (length g <= 4)%nat -> Z.of_nat (length body) < 2 ^ 24 ->
  (forall tl, Integer.decode 1 (Z.lor (string_flag_value ENCODED) p :: g ++ tl) =
    Ok (Integer.DecodedResult (1 + Z.of_nat (length g)) (Z.of_nat (length body)))) ->
  bytes_ok str -> readable 0 str = true -> (pad < 8)%nat ->
  bytes_bits body = Huffman.string_bits str ++ replicate pad true ->
  decode src = Ok (DecodedString (1 + Z.of_nat (length g) + Z.of_nat (length body)) str).
Proof.
  intros Hsrc Hb Hp Hg Hbody Hint Hok Hsh Hpad Hbits.
  destruct (decode_prefixed src _ g body rest Hsrc Hb ltac:(lia) (Hint _)) as (b & Hbs & Hbb & ->).
  assert (Hflag : Z.lor (string_flag_value ENCODED) p = p + 128)
    by (rewrite Z.lor_comm; apply Integer.lor_128; lia).
  rewrite Hflag, Integer.land_128 by lia.
  destruct (Z.ltb_spec (p + 128) 128); [lia|]. unfold read_huffman_str.
  rewrite (read_loop_string str _ b [] pad []); [change (Z.of_nat (length [])) with 0; by rewrite Hsh|done..|by rewrite Hbb|].
  pose proof (f_equal length Hbits) as Hlen. rewrite length_bytes_bits, length_app, length_replicate in Hlen.
  pose proof (Huffman.length_string_bits str Hok). pose proof (Huffman.total_bits_bounds str Hok).
  pose proof (f_equal length Hbb) as Hbl. rewrite length_sp_bytes in Hbl. lia.
Qed.

(** Which strings are readable: those of symbols with codes of at most 24 bits
    (all of printable ASCII) are readable at every offset, but the string of "0" and
    a line feed (a 30-bit code), which the encoder packs into five bytes, is not. *)
Theorem huffman_readable_strings :
  (forall str off, forallb short_code str = true -> readable off str = true) /\
  forallb short_code (seqZ 32 95) = true /\
  readable 0 [48; 10] = false.
Proof. split; [apply short_readable|]. by split; vm_compute. Qed.
