(* ===== verification/EncoderStream.v ===== *)
(** * Output stream of the HPACK encoder (hpack/encoder_stream.h, hpack/encoder_stream.cpp)

    Bytes and strings written to a [streambuf]; [encode_string] packs Huffman codes
    through a 64-bit accumulator. *)
From S2P Require Import Prelude Memory Utils Buffer Constants.
From S2P Require Streambuf Integer Huffman HString.
Import Streambuf (contents, streambuf_ok).
Import Huffman (huffmanCode, bitLength, string_bits).

Record encoder_stream := EncoderStream { stream : list buffer; es_max_size : Z; left : Z }.

Definition encoder_stream_new (max : Z) : encoder_stream := EncoderStream [] max max.

Section encoder_stream.
Context (fresh : Z -> Z).

Definition push_back (src : list Z) (es : encoder_stream) : outcome (encoder_stream * bool) :=
  if Z.of_nat (length src) <=? left es then
    s ← Streambuf.push_back fresh src (stream es);
    Ok (EncoderStream s (es_max_size es) (left es - Z.of_nat (length src)), true)
  else Ok (es, false).

(** The accumulator of [encode_string]: [val] holds the last [len] bits not yet
    stored in its low bits. *)
Record packer := Packer { p_stream : list buffer; val : Z; len : Z }.

(** One round of [for (auto byte : src)]. The bytes of [native_to_big(x)] in memory
    are the big-endian bytes of [x]. *)
Definition pack (byte : Z) (p : packer) : outcome packer :=
  let code := Huffman.encode byte in
  let bites_left := 64 - len p in
  p ← (if bites_left <? bitLength code then
         let big := be_split 8 (u64 (Z.shiftl (val p) bites_left)) in
         let ready_bytes := len p / 8 in
         s ← Streambuf.push_back fresh (take (Z.to_nat ready_bytes) big) (p_stream p);
         Ok (Packer s (val p) (len p - ready_bytes * 8))
       else Ok p);
  Ok (Packer (p_stream p)
        (Z.lor (u64 (Z.shiftl (val p) (bitLength code)))
               (Z.shiftr (huffmanCode code) (32 - bitLength code)))
        (len p + bitLength code)).

Fixpoint pack_all (src : list Z) (p : packer) : outcome packer :=
  match src with
  | [] => Ok p
  | byte :: src => p ← pack byte p; pack_all src p
  end.

Definition encode_string (src : list Z) (s : list buffer) : outcome (list buffer) :=
  p ← pack_all src (Packer s 0 0);
  if 0 <? len p then
    let bites_left := 64 - len p in
    let v := Z.lor (u64 (Z.shiftl (val p) bites_left)) (make_mask 64 bites_left) in
    Streambuf.push_back fresh (take (Z.to_nat (ceil_order2 (len p) 3 / 8)) (be_split 8 v)) (p_stream p)
  else Ok (p_stream p).

Definition write_string (estimation : Z * string_flag) (encoded_size : Integer.encoded_result)
    (src : list Z) (es : encoder_stream) : outcome encoder_stream :=
  s ← Streambuf.push_back fresh (Integer.as_span encoded_size) (stream es);
  s ← (if bool_decide (estimation.2 = ENCODED) then encode_string src s
       else Streambuf.push_back fresh src s);
  Ok (EncoderStream s (es_max_size es) (left es)).

Definition flush (es : encoder_stream) : list buffer * encoder_stream :=
  ((Streambuf.flush (stream es)).1,
   EncoderStream (Streambuf.flush (stream es)).2 (es_max_size es) (es_max_size es)).
End encoder_stream.

(** ** Packing *)

Section packing.
Context (fresh : Z -> Z) (Hfresh : forall i, is_byte (fresh i)) (base : list Z).

(** The bytes [F] stored since [base] and the accumulator hold the code bits of
    the bytes processed so far. *)
Definition packed (done : list Z) (p : packer) : Prop :=
  streambuf_ok (p_stream p) /\ 0 <= len p <= 64 /\
  exists F, bytes_ok F /\ contents (p_stream p) = base ++ F /\
    bytes_bits F ++ low_bits (Z.to_nat (len p)) (val p) = string_bits done.

(** The first [n] bytes of the left-aligned accumulator hold its first bits. *)
Lemma aligned_bytes l v fill n :
  0 <= l <= 64 -> fits (64 - l) fill ->
  bytes_bits (take n (be_split 8 (Z.lor (u64 (Z.shiftl v (64 - l))) fill))) =
  take (8 * n) (low_bits (Z.to_nat l) v ++ low_bits (Z.to_nat (64 - l)) fill).
Proof.
  intros Hl Hf. rewrite bytes_bits_take, bytes_bits_be_split. f_equal.
  replace (8 * 8)%nat with (Z.to_nat l + Z.to_nat (64 - l))%nat by lia.
  rewrite <- low_bits_shiftl_lor by (rewrite Z2Nat.id by lia; done). rewrite Z2Nat.id by lia.
  apply low_bits_ext. intros k Hk. rewrite !Z.lor_spec. unfold u64. rewrite wrap_testbit by lia.
  by destruct (Z.ltb_spec k 64); [|lia].
Qed.

Lemma pack_flush p l :
  packed l p ->
  exists s, Streambuf.push_back fresh
      (take (Z.to_nat (len p / 8)) (be_split 8 (u64 (Z.shiftl (val p) (64 - len p))))) (p_stream p) = Ok s /\
    packed l (Packer s (val p) (len p - len p / 8 * 8)).
Proof.
  intros (Hs & Hl & F & HF & Hc & Hbits). set (B := take _ _).
  assert (HB : bytes_ok B) by apply Forall_take, be_split_bytes_ok.
  destruct (Streambuf.push_back_spec fresh B (p_stream p)) as (s & Hp & Hs' & Hc'); [done..| |].
  { unfold B. rewrite length_take, length_be_split. lia. }
  exists s. split; [done|]. split; [done|]. cbn [len val p_stream].
  split; [Z.div_mod_to_equations; lia|].
  exists (F ++ B). split; [by apply Forall_app|]. split; [rewrite Hc', Hc; by rewrite app_assoc|].
  rewrite bytes_bits_app, <- app_assoc, <- Hbits. f_equal. unfold B.
  rewrite <- (Z.lor_0_r (u64 _)), aligned_bytes by (lia || (split; [lia|]; apply Z.pow_pos_nonneg; lia)).
  assert (0 <= len p / 8 /\ len p / 8 * 8 <= len p) by (Z.div_mod_to_equations; lia).
  rewrite take_app_le by (rewrite length_low_bits; lia).
  replace (Z.to_nat (len p)) with (8 * Z.to_nat (len p / 8) + Z.to_nat (len p - len p / 8 * 8))%nat by lia.
  rewrite low_bits_app. rewrite take_app_length' by (rewrite length_low_bits; lia). done.
Qed.

Lemma pack_append p l b :
  packed l p -> is_byte b -> len p + bitLength (Huffman.encode b) <= 64 ->
  packed (l ++ [b]) (Packer (p_stream p)
    (Z.lor (u64 (Z.shiftl (val p) (bitLength (Huffman.encode b))))
           (Z.shiftr (huffmanCode (Huffman.encode b)) (32 - bitLength (Huffman.encode b))))
    (len p + bitLength (Huffman.encode b))).
Proof.
  intros (Hs & Hl & F & HF & Hc & Hbits) Hb Hfit.
  pose proof (Huffman.encode_bounds b ltac:(unfold fits in Hb; lia)) as (Hbl & Hcode & _).
  split; [done|]. cbn [len val p_stream]. split; [lia|]. exists F. split; [done|]. split; [done|].
  unfold string_bits. rewrite bind_app. fold (string_bits l). rewrite <- Hbits, <- app_assoc. f_equal.
  simpl. rewrite app_nil_r. unfold Huffman.code_bits.
  set (bl := bitLength (Huffman.encode b)) in *.
  replace (Z.to_nat (len p + bl)) with (Z.to_nat (len p) + Z.to_nat bl)%nat by lia.
  rewrite <- low_bits_shiftl_lor; [rewrite Z2Nat.id by lia|].
  - apply low_bits_ext. intros k Hk. rewrite !Z.lor_spec. unfold u64. rewrite wrap_testbit by lia.
    by destruct (Z.ltb_spec k 64); [|lia].
  - rewrite Z2Nat.id by lia. split; [apply Z.shiftr_nonneg, Hcode|].
    rewrite Z.shiftr_div_pow2 by lia. apply Z.div_lt_upper_bound; [apply Z.pow_pos_nonneg; lia|].
    rewrite <- Z.pow_add_r by lia. replace (32 - bl + bl) with 32 by lia. apply Hcode.
Qed.

Lemma pack_packed p l b :
  packed l p -> is_byte b -> exists p', pack fresh b p = Ok p' /\ packed (l ++ [b]) p'.
Proof.
  intros Hp Hb. pose proof (Huffman.encode_bounds b ltac:(unfold fits in Hb; lia)) as (Hbl & _).
  pose proof (proj1 (proj2 Hp)) as Hl. unfold pack.
  destruct (Z.ltb_spec (64 - len p) (bitLength (Huffman.encode b))).
  - destruct (pack_flush p l Hp) as (s & -> & Hp'). cbn [mbind outcome_bind].
    eexists. split; [done|]. apply (pack_append _ l b Hp' Hb). cbn [len].
    Z.div_mod_to_equations; lia.
  - cbn [mbind outcome_bind]. eexists. split; [done|]. apply pack_append; (done || lia).
Qed.

Lemma pack_all_packed src : forall p l,
  packed l p -> bytes_ok src -> exists p', pack_all fresh src p = Ok p' /\ packed (l ++ src) p'.
Proof.
  induction src as [|b src IH]; intros p l Hp Hok.
  - exists p. by rewrite app_nil_r.
  - inversion_clear Hok. cbn [pack_all]. destruct (pack_packed p l b) as (p' & -> & Hp'); [done..|].
    cbn [mbind outcome_bind]. destruct (IH p' (l ++ [b])) as (p'' & ? & ?); [done..|].
    exists p''. by rewrite <- app_assoc in *.
Qed.
End packing.

(** The string encoder's output: the code bits of the string and fewer than eight
    one bits. *)
Lemma encode_string_spec fresh src s :
  (forall i, is_byte (fresh i)) -> streambuf_ok s -> bytes_ok src ->
  exists s' out pad, encode_string fresh src s = Ok s' /\ streambuf_ok s' /\
    contents s' = contents s ++ out /\ bytes_ok out /\ (pad < 8)%nat /\
    bytes_bits out = string_bits src ++ replicate pad true.
Proof.
  intros Hf Hs Hsrc. unfold encode_string.
  destruct (pack_all_packed fresh Hf (contents s) src (Packer s 0 0) []) as (p & -> & Hp); [|done|].
  { split; [done|]. cbn [len]. split; [lia|]. exists []. by rewrite app_nil_r. }
  cbn [mbind outcome_bind]. destruct Hp as (Hps & Hl & F & HF & Hc & Hbits).
  destruct (Z.ltb_spec 0 (len p)) as [Hpos|Hz].
  2: { exists (p_stream p), F, 0%nat. replace (len p) with 0 in Hbits by lia.
       rewrite app_nil_r in Hbits. split_and!; try done; [lia|]. by rewrite app_nil_r. }
  assert (Hceil : ceil_order2 (len p) 3 = (len p + 7) / 8 * 8) 
    by (rewrite ceil_order2_spec by lia; change (2 ^ 3) with 8; do 2 f_equal; lia).
  rewrite Hceil, Z.div_mul by lia.
  set (n := Z.to_nat ((len p + 7) / 8)).
  assert (Hn : (Z.to_nat (len p) <= 8 * n < Z.to_nat (len p) + 8)%nat /\ (n <= 8)%nat)
    by (unfold n; Z.div_mod_to_equations; lia).
  rewrite make_mask_ones by lia. set (B := take n _).
  assert (HB : bytes_ok B) by apply Forall_take, be_split_bytes_ok.
  destruct (Streambuf.push_back_spec fresh B (p_stream p)) as (s' & Hp' & Hs' & Hc'); [done..| |].
  { unfold B. rewrite length_take, length_be_split. lia. }
  exists s', (F ++ B), (8 * n - Z.to_nat (len p))%nat.
  split_and!; [done|done|rewrite Hc', Hc; by rewrite app_assoc|by apply Forall_app|lia|].
  rewrite bytes_bits_app. rewrite app_nil_l in Hbits. rewrite <- Hbits, <- app_assoc. f_equal.
  unfold B. rewrite aligned_bytes; [|lia|].
  2: { rewrite Z.ones_equiv. pose proof (Z.pow_pos_nonneg 2 (64 - len p)). unfold fits. lia. }
  replace (64 - len p) with (Z.of_nat (Z.to_nat (64 - len p))) at 2 by lia.
  rewrite low_bits_ones, take_app, length_low_bits, take_ge by (rewrite length_low_bits; lia).
  f_equal. apply take_replicate_le. lia.
Qed.

(** The output has the estimated length. *)
Lemma encoded_length src out pad :
  bytes_ok src -> Z.of_nat (length src) < 2 ^ 58 -> (pad < 8)%nat ->
  bytes_bits out = string_bits src ++ replicate pad true ->
  8 * Z.of_nat (length out) = ceil_order2 (Huffman.estimate_len src) 3.
Proof.
  intros Hok Hlen Hpad Hbits. pose proof (f_equal length Hbits) as Hl.
  rewrite length_bytes_bits, length_app, length_replicate in Hl.
  pose proof (Huffman.length_string_bits src Hok). pose proof (Huffman.total_bits_bounds src Hok).
  rewrite Huffman.estimate_len_total, ceil_order2_spec by (done || lia).
  change (2 ^ 3) with 8. Z.div_mod_to_equations; lia.
Qed.

(** Huffman round trip. The string encoder, which packs the codes through a
    64-bit accumulator into as many buffers as it needs, writes exactly
    [estimate_len] bits rounded up to whole bytes, and the string decoder reads the
    same string back from them at any address of any memory, exactly when every code
    starts at a bit offset at which the bit reader's shifts are defined. *)
Theorem huffman_string_roundtrip fresh str m a :
  (forall i, is_byte (fresh i)) -> (forall x, is_byte (m x)) -> bytes_ok str ->
  Z.of_nat (length str) < 2 ^ 58 ->
  exists bufs, encode_string fresh str [] = Ok bufs /\
    8 * Z.of_nat (length (contents bufs)) = ceil_order2 (Huffman.estimate_len str) 3 /\
    HString.read_huffman_str (span_of m a (contents bufs)) =
      if HString.readable 0 str then Ok str else Undefined.
Proof.
  intros Hf Hm Hok Hlen.
  destruct (encode_string_spec fresh str []) as (s & out & pad & He & _ & Hc & Hout & Hpad & Hbits);
    [done|constructor|done|].
  exists s. split; [done|]. simpl in Hc. rewrite Hc.
  split; [by apply (encoded_length str out pad)|]. unfold HString.read_huffman_str.
  rewrite (HString.read_loop_string str _ _ [] pad []); [done|by apply span_of_ok|done..| |].
  - by rewrite sp_bytes_place.
  - pose proof (f_equal length Hbits) as Hl. rewrite length_bytes_bits, length_app, length_replicate in Hl.
    pose proof (Huffman.length_string_bits str Hok). pose proof (Huffman.total_bits_bounds str Hok).
    simpl. lia.
Qed.

Lemma huffman_string_roundtrip_witness :
  exists bufs, encode_string (fun _ => 0) [119; 119; 119; 46; 104; 50] [] = Ok bufs /\
    8 * Z.of_nat (length (contents bufs)) = ceil_order2 (Huffman.estimate_len [119; 119; 119; 46; 104; 50]) 3 /\
    HString.read_huffman_str (span_of (fun _ => 255) 9 (contents bufs)) =
      if HString.readable 0 [119; 119; 119; 46; 104; 50] then Ok [119; 119; 119; 46; 104; 50] else Undefined.
Proof.
  apply (huffman_string_roundtrip (fun _ => 0) [119; 119; 119; 46; 104; 50] (fun _ => 255) 9).
  - by split.
  - by split.
  - by repeat constructor.
  - simpl. lia.
Defined.
