(* ===== verification/StaticTable.v ===== *)
(** * Static header table (hpack/static_table.h, hpack/static_table.cpp)

    The 61 entries of RFC 7541, appendix A, and the gperf hash that finds the entries
    of a name. *)
From S2P Require Import Prelude.

Definition field_table : list (list Z * list Z) := [
  (str ":authority", str ""); (str ":method", str "GET");
  (str ":method", str "POST"); (str ":path", str "/");
  (str ":path", str "/index.html"); (str ":scheme", str "http");
  (str ":scheme", str "https"); (str ":status", str "200");
  (str ":status", str "204"); (str ":status", str "206");
  (str ":status", str "304"); (str ":status", str "400");
  (str ":status", str "404"); (str ":status", str "500");
  (str "accept-charset", str ""); (str "accept-encoding", str "gzip, deflate");
  (str "accept-language", str ""); (str "accept-ranges", str "");
  (str "accept", str ""); (str "access-control-allow-origin", str "");
  (str "age", str ""); (str "allow", str "");
  (str "authorization", str ""); (str "cache-control", str "");
  (str "content-disposition", str ""); (str "content-encoding", str "");
  (str "content-language", str ""); (str "content-length", str "");
  (str "content-location", str ""); (str "content-range", str "");
  (str "content-type", str ""); (str "cookie", str "");
  (str "date", str ""); (str "etag", str "");
  (str "expect", str ""); (str "expires", str "");
  (str "from", str ""); (str "host", str "");
  (str "if-match", str ""); (str "if-modified-since", str "");
  (str "if-none-match", str ""); (str "if-range", str "");
  (str "if-unmodified-since", str ""); (str "last-modified", str "");
  (str "link", str ""); (str "location", str "");
  (str "max-forwards", str ""); (str "proxy-authenticate", str "");
  (str "proxy-authorization", str ""); (str "range", str "");
  (str "referer", str ""); (str "refresh", str "");
  (str "retry-after", str ""); (str "server", str "");
  (str "set-cookie", str ""); (str "strict-transport-security", str "");
  (str "transfer-encoding", str ""); (str "user-agent", str "");
  (str "vary", str ""); (str "via", str "");
  (str "www-authenticate", str "")].

Definition asso_values : list Z := [
  66; 66; 66; 66; 66; 66; 66; 66; 66; 66; 66; 66; 66; 66; 66; 66; 66; 66; 66; 66; 66; 66; 66; 66;
  66; 66; 66; 66; 66; 66; 66; 66; 66; 66; 66; 66; 66; 66; 66; 66; 66; 66; 66; 66; 66; 10; 66; 66;
  66; 66; 66; 66; 66; 66; 66; 66; 66; 66; 15; 66; 66; 66; 66; 66; 66; 66; 66; 66; 66; 66; 66; 66;
  66; 66; 66; 66; 66; 66; 66; 66; 66; 66; 66; 66; 66; 66; 66; 66; 66; 66; 66; 66; 66; 66; 66; 66;
  66; 1; 66; 8; 13; 2; 41; 15; 5; 19; 66; 23; 2; 4; 12; 32; 20; 66; 3; 21; 1; 23; 17; 32;
  20; 14; 66; 66; 66; 66; 66; 66; 66; 66; 66; 66; 66; 66; 66; 66; 66; 66; 66; 66; 66; 66; 66; 66;
  66; 66; 66; 66; 66; 66; 66; 66; 66; 66; 66; 66; 66; 66; 66; 66; 66; 66; 66; 66; 66; 66; 66; 66;
  66; 66; 66; 66; 66; 66; 66; 66; 66; 66; 66; 66; 66; 66; 66; 66; 66; 66; 66; 66; 66; 66; 66; 66;
  66; 66; 66; 66; 66; 66; 66; 66; 66; 66; 66; 66; 66; 66; 66; 66; 66; 66; 66; 66; 66; 66; 66; 66;
  66; 66; 66; 66; 66; 66; 66; 66; 66; 66; 66; 66; 66; 66; 66; 66; 66; 66; 66; 66; 66; 66; 66; 66;
  66; 66; 66; 66; 66; 66; 66; 66; 66; 66; 66; 66; 66; 66; 66; 66].

Definition lengthtable : list Z := [
  0; 0; 0; 3; 6; 6; 15; 4; 7; 14; 11; 7; 12; 16; 13; 8; 14; 4; 3; 13; 5; 5; 7; 16;
  8; 13; 16; 13; 8; 7; 15; 10; 4; 6; 19; 13; 12; 7; 17; 10; 13; 6; 7; 18; 17; 4; 16; 27;
  4; 4; 0; 0; 10; 19; 0; 0; 0; 25; 0; 0; 0; 0; 0; 19; 0; 5].

(** [wordlist]: the first and last table position of the name hashed to a slot. *)
Definition wordlist : list (Z * Z) := [
  (-1, -1); (-1, -1); (-1, -1); (20, 20); (18, 18); (34, 34); (16, 16); (37, 37); (50, 50); (14, 14);
  (52, 52); (51, 51); (30, 30); (26, 26); (29, 29); (45, 45); (27, 27); (32, 32); (59, 59); (22, 22);
  (49, 49); (3, 4); (5, 6); (28, 28); (41, 41); (17, 17); (25, 25); (23, 23); (38, 38); (1, 2);
  (15, 15); (0, 0); (33, 33); (31, 31); (24, 24); (43, 43); (46, 46); (7, 13); (56, 56); (57, 57);
  (40, 40); (53, 53); (35, 35); (47, 47); (39, 39); (58, 58); (60, 60); (19, 19); (44, 44); (36, 36);
  (-1, -1); (-1, -1); (54, 54); (48, 48); (-1, -1); (-1, -1); (-1, -1); (55, 55); (-1, -1); (-1, -1);
  (-1, -1); (-1, -1); (-1, -1); (42, 42); (-1, -1); (21, 21)].

(** ** Operations *)

(** [operator==(span<const char>, span<const uint8_t>)]: [memcmp] of [rhs.size_bytes()]
    bytes, undefined when the left span is shorter than that. *)
Definition mem_equal (lhs rhs : list Z) : outcome bool :=
  if decide (length rhs <= length lhs)%nat
  then Ok (bool_decide (take (length rhs) lhs = rhs))
  else Undefined.

Definition MIN_WORD_LENGTH : Z := 3.
Definition MAX_WORD_LENGTH : Z := 27.
Definition MAX_HASH_VALUE : Z := 65.

(** [asso_values[str[k]]]. *)
Definition asso (name : list Z) (k : nat) : Z :=
  nth (Z.to_nat (nth k name 0)) asso_values 0.

(** The hash of a name: the cases of the [switch] fall through. *)
Definition hash (name : list Z) : Z :=
  let n := length name in
  let hval := 0 in
  let hval := if decide (8 < n)%nat then hval + asso name 8 else hval in
  let hval := if decide (3 < n)%nat then hval + asso name 3 else hval in
  let hval := hval + asso name 0 in
  hval + asso name (n - 1).

Definition index (name : list Z) : Z * Z :=
  let size := Z.of_nat (length name) in
  if (size <? MIN_WORD_LENGTH) || (MAX_WORD_LENGTH <? size) then (-1, -1)
  else
    let key := hash name in
    if (key <=? MAX_HASH_VALUE) && (size =? nth (Z.to_nat key) lengthtable 0)
    then nth (Z.to_nat key) wordlist (-1, -1) else (-1, -1).

Definition size : Z := Z.of_nat (length field_table).

(** [field_table[i]], undefined past the array. *)
Definition field_at (i : Z) : outcome (list Z * list Z) :=
  if 0 <=? i then
    match field_table !! Z.to_nat i with Some f => Ok f | None => Undefined end
  else Undefined.

Definition at_ (i : Z) : outcome (list Z * list Z) := field_at (i - 1).

Definition name_index (name : list Z) : outcome Z :=
  let '(start, _) := index name in
  if start <? 0 then Ok (-1)
  else f ← field_at start; same ← mem_equal f.1 name;
    if (same : bool) then Ok (start + 1) else Ok (-1).

(** [std::find_if] over the positions [i, i + 1, ...], [n] of them. *)
Fixpoint find_value (value : list Z) (i : Z) (n : nat) : outcome (option Z) :=
  match n with
  | O => Ok None
  | S n =>
      f ← field_at i;
      same ← (if decide (length f.2 = length value) then mem_equal f.2 value else Ok false);
      if (same : bool) then Ok (Some i) else find_value value (i + 1) n
  end.

Definition field_index (name value : list Z) : outcome (Z * bool) :=
  let '(start, last) := index name in
  if start <? 0 then Ok (-1, false)
  else f ← field_at start; same ← mem_equal f.1 name;
    if (same : bool) then
      it ← find_value value start (Z.to_nat (last + 1 - start));
      match it with
      | Some i => Ok (1 + i, true)
      | None => Ok (start + 1, false)
      end
    else Ok (-1, false).

(** ** Reference: a linear search of the table *)

(** The position of the first entry that satisfies [P], counted from 1. *)
Definition first_index (P : list Z * list Z -> Prop) `{forall f, Decision (P f)} : option Z :=
  (fun p => 1 + Z.of_nat (fst p)) <$> list_find P field_table.

Definition search (name value : list Z) : Z * bool :=
  match first_index (fun f => f = (name, value)) with
  | Some i => (i, true)
  | None =>
      match first_index (fun f => f.1 = name) with
      | Some i => (i, false)
      | None => (-1, false)
      end
  end.

(** ** The hash agrees with the table *)

(** What a slot of [wordlist] promises: the positions [start..last] are exactly the
    entries of one name, whose length is the slot's [lengthtable] entry. *)
Definition slot_ok (len : Z) (s : Z * Z) : bool :=
  let '(start, last) := s in
  (start <? 0) ||
  ((start <=? last) && (last <? size) &&
   match field_table !! Z.to_nat start with
   | Some f0 =>
       (Z.of_nat (length f0.1) =? len) &&
       forallb (fun i =>
         match field_table !! Z.to_nat i with
         | Some f => Bool.eqb (bool_decide (f.1 = f0.1)) ((start <=? i) && (i <=? last))
         | None => false
         end) (seqZ 0 size)
   | None => false
   end).

Lemma slots_ok :
  forallb (fun p => slot_ok p.1 p.2) (zip lengthtable wordlist) = true.
Proof. vm_compute. reflexivity. Qed.

Lemma names_hashed :
  forallb (fun i =>
    match field_table !! Z.to_nat i with
    | Some f => let '(start, last) := index f.1 in
                (0 <=? start) && (start <=? i) && (i <=? last)
    | None => true
    end) (seqZ 0 size) = true.
Proof. vm_compute. reflexivity. Qed.

Lemma hash_nonneg name : 0 <= hash name.
Proof.
  assert (H : forall k, 0 <= asso name k).
  { intros k. unfold asso. assert (Forall (fun x => 0 <= x) asso_values) as Hf
      by (apply Forall_forall; intros x Hx; revert x Hx; apply Forall_forall;
          vm_compute; repeat constructor; discriminate).
    destruct (nth_in_or_default (Z.to_nat (nth k name 0)) asso_values 0) as [Hi| ->]; [|done].
    rewrite Forall_forall in Hf. by apply Hf, list_elem_of_In. }
  pose proof (H 8%nat). pose proof (H 3%nat). pose proof (H 0%nat).
  pose proof (H (length name - 1)%nat). unfold hash. repeat case_decide; lia.
Qed.

Lemma position_bound i f : field_table !! i = Some f -> In (Z.of_nat i) (seqZ 0 size).
Proof.
  intros Hf%lookup_lt_Some. apply list_elem_of_In, elem_of_seqZ. unfold size. lia.
Qed.

(** The range the hash gives for a name. *)
Lemma index_range name start last :
  index name = (start, last) -> 0 <= start ->
  start <= last < size /\ exists n v, field_table !! Z.to_nat start = Some (n, v) /\
    length n = length name /\
    forall i f, field_table !! i = Some f -> (f.1 = n <-> start <= Z.of_nat i <= last).
Proof.
  unfold index. intros Hi Hs. destruct (_ || _); [simplify_eq; lia|].
  destruct (Z.leb_spec (hash name) MAX_HASH_VALUE) as [Hk|]; [|simplify_eq/=; lia].
  destruct (Z.eqb_spec (Z.of_nat (length name)) (nth (Z.to_nat (hash name)) lengthtable 0))
    as [Hl|]; [|simplify_eq/=; lia].
  simpl in Hi. pose proof (hash_nonneg name) as Hn. set (k := Z.to_nat (hash name)) in *.
  assert (k < 66)%nat as Hk66 by (unfold MAX_HASH_VALUE in Hk; lia).
  pose proof slots_ok as Hok. rewrite forallb_forall in Hok.
  assert (slot_ok (nth k lengthtable 0) (start, last) = true) as Hslot.
  { rewrite <- Hi. apply (Hok (nth k lengthtable 0, nth k wordlist (-1, -1))).
    rewrite <- combine_nth by done. apply nth_In. simpl length. lia. }
  rewrite <- Hl in Hslot. clear Hok Hl Hi. unfold slot_ok in Hslot.
  destruct (Z.ltb_spec start 0); [lia|]. rewrite orb_false_l, !andb_true_iff in Hslot.
  destruct Hslot as [[H1 H2] H3]. split; [lia|].
  destruct (field_table !! Z.to_nat start) as [[n v]|]; [|done].
  exists n, v. rewrite andb_true_iff, forallb_forall in H3. destruct H3 as [H3 H4].
  simpl in H3, H4. split; [done|]. split; [lia|]. intros i f Hf.
  specialize (H4 (Z.of_nat i) (position_bound _ _ Hf)). rewrite Nat2Z.id, Hf in H4.
  rewrite <- (bool_decide_eq_true (f.1 = n)).
  assert (bool_decide (f.1 = n) = (start <=? Z.of_nat i) && (Z.of_nat i <=? last)) as ->
    by (by apply eqb_prop).
  rewrite andb_true_iff. lia.
Qed.

Lemma index_complete i f start last :
  field_table !! i = Some f -> index f.1 = (start, last) ->
  0 <= start <= Z.of_nat i /\ Z.of_nat i <= last.
Proof.
  intros Hf Hi. pose proof names_hashed as H. rewrite forallb_forall in H.
  specialize (H (Z.of_nat i) (position_bound _ _ Hf)).
  rewrite Nat2Z.id, Hf, Hi, !andb_true_iff in H. destruct H as [[??]?]. lia.
Qed.

Lemma mem_equal_same_length a b :
  length a = length b -> mem_equal a b = Ok (bool_decide (a = b)).
Proof.
  intros H. unfold mem_equal. rewrite decide_True by lia. by rewrite take_ge by lia.
Qed.

(** The name check of both lookups: no byte past the entry is read, and the result tells
    whether the name is in the table. *)
Lemma name_check name start last :
  index name = (start, last) ->
  (start < 0 /\ (forall i f, field_table !! i = Some f -> f.1 <> name)) \/
  (0 <= start /\ exists f, field_at start = Ok f /\
    mem_equal f.1 name = Ok (bool_decide (f.1 = name)) /\
    (f.1 <> name -> forall i f', field_table !! i = Some f' -> f'.1 <> name) /\
    start <= last < size /\
    (forall i f', field_table !! i = Some f' ->
      (f'.1 = f.1 <-> start <= Z.of_nat i <= last))).
Proof.
  intros Hi. destruct (Z.lt_ge_cases start 0).
  - left. split; [done|]. intros i f Hf Hn. subst name.
    destruct (index_complete _ _ _ _ Hf Hi). lia.
  - right. split; [lia|]. destruct (index_range _ _ _ Hi) as (Hr & n & v & Hf & Hl & Hall); [lia|].
    exists (n, v). split_and!; [| | |lia..|done].
    + unfold field_at. by rewrite (proj2 (Z.leb_le _ _)), Hf by lia.
    + by apply mem_equal_same_length.
    + intros Hne j f Hj <-. destruct (index_complete _ _ _ _ Hj Hi).
      apply Hne. symmetry. apply (Hall _ _ Hj). lia.
Qed.

(** The scan of the values of a range finds the first equal one. *)
Lemma find_value_spec value i n :
  0 <= i -> i + Z.of_nat n <= size ->
  match find_value value i n with
  | Ok (Some j) => i <= j < i + Z.of_nat n /\
      (exists m, field_table !! Z.to_nat j = Some (m, value)) /\
      (forall k f, i <= Z.of_nat k < j -> field_table !! k = Some f -> f.2 <> value)
  | Ok None => forall k f, i <= Z.of_nat k < i + Z.of_nat n ->
      field_table !! k = Some f -> f.2 <> value
  | _ => False
  end.
Proof.
  revert i. induction n as [|n IH]; intros i Hi Hn; [simpl; lia|]. cbn [find_value].
  destruct (lookup_lt_is_Some_2 field_table (Z.to_nat i)) as [[m v] Hf]; [unfold size in Hn; lia|].
  assert (field_at i = Ok (m, v)) as -> by
    (unfold field_at; by rewrite (proj2 (Z.leb_le _ _)), Hf by lia).
  cbn [mbind outcome_bind snd].
  replace (if decide (length v = length value) then mem_equal v value else Ok false)
    with (Ok (bool_decide (v = value)))
    by (case_decide; [by rewrite mem_equal_same_length|by rewrite bool_decide_false by congruence]).
  cbn [mbind outcome_bind]. case_bool_decide as Hv.
  - subst v. split; [lia|]. split; [by exists m|]. intros k f Hk. lia.
  - assert (Hskip : forall k f, Z.of_nat k = i -> field_table !! k = Some f -> f.2 <> value)
      by (intros k f Hk Hkf; replace k with (Z.to_nat i) in Hkf by lia; by simplify_eq).
    specialize (IH (i + 1) ltac:(lia) ltac:(lia)).
    destruct (find_value value (i + 1) n) as [[j|]| | |]; try done.
    + destruct IH as (Hj & Hm & Hall). split; [lia|]. split; [done|]. intros k f Hk Hkf.
      destruct (decide (Z.of_nat k = i)); [by apply (Hskip k)|]. apply (Hall k); [lia|done].
    + intros k f Hk Hkf.
      destruct (decide (Z.of_nat k = i)); [by apply (Hskip k)|]. apply (IH k); [lia|done].
Qed.

Lemma first_index_Some (P : list Z * list Z -> Prop) `{forall f, Decision (P f)} i f :
  field_table !! i = Some f -> P f ->
  (forall j f', (j < i)%nat -> field_table !! j = Some f' -> ~ P f') ->
  first_index P = Some (1 + Z.of_nat i).
Proof.
  intros Hf HP Hj. unfold first_index.
  assert (list_find P field_table = Some (i, f)) as -> by (apply list_find_Some; naive_solver).
  done.
Qed.

Lemma first_index_None (P : list Z * list Z -> Prop) `{forall f, Decision (P f)} :
  (forall i f, field_table !! i = Some f -> ~ P f) -> first_index P = None.
Proof.
  intros Hn. unfold first_index. rewrite (proj2 (list_find_None P field_table)); [done|].
  by apply Forall_lookup.
Qed.

Lemma lookup_spec name value :
  field_index name value = Ok (search name value) /\
  name_index name = Ok (default (-1) (first_index (fun f => f.1 = name))).
Proof.
  unfold field_index, name_index, search. destruct (index name) as [start last] eqn:Hi.
  destruct (name_check _ _ _ Hi) as [[Hneg Hno]|(Hs & f & Hf & Hm & Hne & Hrange & Hall)].
  { rewrite (proj2 (Z.ltb_lt _ _)) by done. rewrite (first_index_None (fun f => f.1 = name)) by done.
    rewrite (first_index_None (fun f => f = (name, value))); [done|].
    intros i f Hf ->. by apply (Hno _ _ Hf). }
  rewrite (proj2 (Z.ltb_ge _ _)) by done. rewrite Hf. cbn [mbind outcome_bind]. rewrite Hm.
  cbn [mbind outcome_bind]. case_bool_decide as Hn; cbn [negb].
  2: { rewrite (first_index_None (fun f => f.1 = name)) by (by apply Hne).
    rewrite (first_index_None (fun f => f = (name, value))); [done|].
    intros i g Hg ->. by apply (Hne Hn _ _ Hg). }
  destruct f as [n v]. simpl in Hn. subst n. simpl in Hall.
  assert (Hst : field_table !! Z.to_nat start = Some (name, v))
    by (revert Hf; unfold field_at; rewrite (proj2 (Z.leb_le _ _)) by done;
        destruct (field_table !! _); congruence).
  assert (first_index (fun f => f.1 = name) = Some (start + 1)) as Hname.
  { replace (start + 1) with (1 + Z.of_nat (Z.to_nat start)) by lia.
    apply first_index_Some with (name, v); [done..|].
    intros j g Hj Hg. rewrite (Hall _ _ Hg). lia. }
  rewrite Hname. split; [|done].
  pose proof (find_value_spec value start (Z.to_nat (last + 1 - start))) as Hv.
  destruct (find_value _ _ _) as [[j|]| | |]; try (destruct Hv; lia).
  - destruct Hv as (Hj & [m Hm'] & Hlt); [lia..|].
    assert (m = name) as -> by (apply (Hall _ _ Hm'); lia).
    rewrite (first_index_Some _ (Z.to_nat j) (name, value)); [cbn; do 2 f_equal; lia|done..|].
    intros k g Hk Hg ->. apply (Hlt k (name, value)); [|done..].
    split; [|lia]. by apply (Hall _ _ Hg).
  - rewrite first_index_None; [done|]. intros k g Hg ->.
    apply (Hv ltac:(lia) ltac:(lia) k (name, value)); [|done..].
    destruct (Hall _ _ Hg) as [Hr _]. specialize (Hr eq_refl). lia.
Qed.

Lemma static_field_index name value : field_index name value = Ok (search name value).
Proof. apply lookup_spec. Qed.

Lemma search_result name value i b :
  search name value = (i, b) ->
  (i = -1 /\ b = false /\ ~ (exists v, In (name, v) field_table)) \/
  (1 <= i <= size /\ exists v, at_ i = Ok (name, v) /\ (b = true -> v = value)).
Proof.
  assert (Hat : forall P `{forall f, Decision (P f)} j, first_index P = Some j ->
    1 <= j <= size /\ exists f, at_ j = Ok f /\ P f).
  { intros P ? j Hj. unfold first_index in Hj. apply fmap_Some in Hj as ([k f] & Hk & ->).
    apply list_find_Some in Hk as (Hf & HP & _). simpl.
    pose proof (lookup_lt_Some _ _ _ Hf). split; [unfold size; lia|]. exists f. split; [|done].
    unfold at_, field_at. rewrite (proj2 (Z.leb_le _ _)) by lia.
    replace (Z.to_nat (1 + Z.of_nat k - 1)) with k by lia. by rewrite Hf. }
  unfold search. destruct (first_index (fun f => f = (name, value))) as [j|] eqn:H1.
  { intros [= <- <-]. right. destruct (Hat _ _ _ H1) as (? & f & Hf & ->). naive_solver. }
  destruct (first_index (fun f => f.1 = name)) as [j|] eqn:H2; intros [= <- <-].
  { right. destruct (Hat _ _ _ H2) as (? & [n v] & Hf & Hn). simpl in Hn. subst n. naive_solver. }
  left. split_and!; [done..|]. intros [v Hv]. unfold first_index in H2.
  apply fmap_None, list_find_None in H2. rewrite Forall_forall in H2.
  apply (H2 (name, v)); [by apply list_elem_of_In|done].
Qed.

(** C31: The perfect hash of the static table ([static_table::field_index] and
    [static_table::name_index]) finds exactly what a linear search of RFC 7541's 61
    entries finds: the first entry with this name and value, else the first with this
    name, else -1; and no [memcmp] of it reads past an entry. *)
Theorem static_table_search name value :
  field_index name value = Ok (search name value) /\
  name_index name = Ok (default (-1) (first_index (fun f => f.1 = name))).
Proof. apply lookup_spec. Qed.
