(* ===== verification/HeaderField.v ===== *)
(** * Header fields (hpack/header_field.h, hpack/header_field.cpp) *)
From S2P Require Import Prelude.

Inductive index_type : Type := DEFAULT | WITHOUT_INDEX | NEVER_INDEX.

Global Instance index_type_eq_dec : EqDecision index_type.
Proof. solve_decision. Defined.

Record header_field : Type := HeaderField {
  m_name : list Z;
  m_value : list Z;
  m_type : index_type;
}.

Global Instance header_field_eq_dec : EqDecision header_field.
Proof. solve_decision. Defined.

(** [using header = std::vector<header_field>]. *)
Definition header : Type := list header_field.

(** [check_max_size]: sizes are [size_t], so the product is taken modulo 2^64. *)
Definition check_max_size (t v : list Z) : outcome unit :=
  if (Z.shiftl 1 24 - 1) <=? u64 (u64 (Z.of_nat (length t) + Z.of_nat (length v)) * 8) / 5
  then Throw (overflow_error "Header is to big to be in the frame")
  else Ok tt.

(** The three constructors differ in the argument types only (spans, string views, moved
    vectors). *)
Definition make_header_field (name value : list Z) (type : index_type) : outcome header_field :=
  _ ← check_max_size name value;
  Ok (HeaderField name value type).

(** [header_field::hpack_size]: RFC 7541, section 4.1. *)
Definition hpack_size (f : header_field) : Z :=
  u64 (Z.of_nat (length (m_name f)) + Z.of_nat (length (m_value f)) + 32).

(** [~header_field]: the bytes the destructor leaves in the two vectors before their storage
    is released. *)
Definition destroyed (f : header_field) : list Z * list Z :=
  match m_type f with
  | NEVER_INDEX => (replicate (length (m_name f)) 0, replicate (length (m_value f)) 0)
  | _ => (m_name f, m_value f)
  end.

(** ** Well-formed fields *)

(** The largest total length of a name and a value that the constructors accept. *)
Definition MAX_FIELD_BYTES : Z := 10485759.

Definition field_ok (f : header_field) : Prop :=
  bytes_ok (m_name f) /\ bytes_ok (m_value f) /\
  Z.of_nat (length (m_name f)) + Z.of_nat (length (m_value f)) <= MAX_FIELD_BYTES.

Definition field_okb (f : header_field) : bool :=
  forallb (fun b => (0 <=? b) && (b <? 256)) (m_name f) &&
  forallb (fun b => (0 <=? b) && (b <? 256)) (m_value f) &&
  (Z.of_nat (length (m_name f)) + Z.of_nat (length (m_value f)) <=? MAX_FIELD_BYTES).

Lemma bytes_okb l : forallb (fun b => (0 <=? b) && (b <? 256)) l = true -> bytes_ok l.
Proof.
  rewrite forallb_forall. intros H. apply Forall_forall. intros b Hb.
  apply list_elem_of_In, H in Hb. unfold fits. lia.
Qed.

Lemma field_okb_ok f : field_okb f = true -> field_ok f.
Proof.
  unfold field_okb. rewrite !andb_true_iff. intros [[H1 H2] H3].
  split_and!; [by apply bytes_okb..|lia].
Qed.

Lemma check_max_size_spec t v :
  Z.of_nat (length t) + Z.of_nat (length v) < 2 ^ 61 ->
  check_max_size t v =
    if Z.of_nat (length t) + Z.of_nat (length v) <=? MAX_FIELD_BYTES then Ok tt
    else Throw (overflow_error "Header is to big to be in the frame").
Proof.
  intros H. unfold check_max_size, u64. rewrite (wrap_small 64 (_ + _)) by (unfold fits; lia).
  rewrite wrap_small by (unfold fits; lia).
  change (Z.shiftl 1 24 - 1) with 16777215. unfold MAX_FIELD_BYTES.
  destruct (Z.leb_spec 16777215 ((Z.of_nat (length t) + Z.of_nat (length v)) * 8 / 5));
    destruct (Z.leb_spec (Z.of_nat (length t) + Z.of_nat (length v)) 10485759);
    try done; exfalso; Z.div_mod_to_equations; lia.
Qed.

Lemma make_header_field_ok f :
  field_ok f -> make_header_field (m_name f) (m_value f) (m_type f) = Ok f.
Proof.
  intros (_ & _ & H). unfold make_header_field. rewrite check_max_size_spec.
  - rewrite (proj2 (Z.leb_le _ _)) by done. by destruct f.
  - unfold MAX_FIELD_BYTES in H. lia.
Qed.

Lemma hpack_size_exact f :
  field_ok f -> hpack_size f = Z.of_nat (length (m_name f)) + Z.of_nat (length (m_value f)) + 32.
Proof.
  intros (_ & _ & H). unfold hpack_size, u64, MAX_FIELD_BYTES in *. apply wrap_small. unfold fits. lia.
Qed.
