(* ===== verification/DynamicTable.v ===== *)
(** * Dynamic header table (hpack/dynamic_table.h, hpack/dynamic_table.cpp)

    The deque of records a decoder keeps, newest first, with the size accounting of RFC
    7541, section 4.  Sizes are [size_t]: every sum and difference is taken modulo 2^64,
    as [shrink_to] and [insert] do. *)
From S2P Require Import Prelude.

Record record : Type := Record_ {
  name : list Z;
  value : list Z;
  init_index : Z;
}.

Global Instance record_eq_dec : EqDecision record.
Proof. solve_decision. Defined.

(** [record::hpack_size]. *)
Definition hpack_size (r : record) : Z :=
  u64 (Z.of_nat (length (name r)) + Z.of_nat (length (value r)) + 32).

Record dynamic_table : Type := DynamicTable {
  table_size : Z;
  hpack_max_size : Z;
  table : list record;   (* front first *)
}.

(** [dynamic_table(max_size)]. *)
Definition make_table (max_size : Z) : dynamic_table := DynamicTable 0 max_size [].

Definition max_size (t : dynamic_table) : Z := hpack_max_size t.

(** [at]: [table[i - 1]] for [i <= size], undefined for [i = 0] (the index wraps). *)
Definition at_ (t : dynamic_table) (i : Z) : outcome (list Z * list Z) :=
  if i <=? Z.of_nat (length (table t)) then
    if 1 <=? i then
      match table t !! Z.to_nat (i - 1) with
      | Some r => Ok (name r, value r)
      | None => Undefined
      end
    else Undefined
  else Throw (runtime_error "Invalid index").

(** The [do ... while] of [shrink_to]: [it] is the distance of the iterator from
    [begin()]; moving it before [begin()] is undefined. *)
Fixpoint shrink_loop (l : list record) (it : nat) (eviction_size tsize : Z)
  : outcome (nat * Z) :=
  match it with
  | O => Undefined
  | S it =>
      match l !! it with
      | None => Undefined
      | Some r =>
          let sz := hpack_size r in
          let eviction_size := u64 (eviction_size - sz) in
          let tsize := u64 (tsize - sz) in
          if negb (it =? 0)%nat && (0 <? eviction_size)
          then shrink_loop l it eviction_size tsize
          else Ok (it, tsize)
      end
  end.

(** [shrink_to]: the position of the first record to drop, and the table with its size
    accounting already updated (the records are erased by the caller). *)
Definition shrink_to (t : dynamic_table) (rq_size : Z) : outcome (nat * dynamic_table) :=
  if table_size t <=? rq_size then Ok (length (table t), t)
  else
    '(it, tsize) ← shrink_loop (table t) (length (table t)) (u64 (table_size t - rq_size))
                     (table_size t);
    Ok (it, DynamicTable tsize (hpack_max_size t) (table t)).

(** [table.erase(it, table.end())]. *)
Definition erase_from (t : dynamic_table) (it : nat) : dynamic_table :=
  DynamicTable (table_size t) (hpack_max_size t) (take it (table t)).

Definition insert_impl (t : dynamic_table) (n v : list Z) : dynamic_table :=
  let index := match table t with
               | [] => 0
               | front :: _ => u32 (init_index front + 1)
               end in
  let r := Record_ n v index in
  let hsize := hpack_size r in
  DynamicTable (u64 (table_size t + hsize)) (hpack_max_size t) (r :: table t).

Definition insert (t : dynamic_table) (n v : list Z) : outcome dynamic_table :=
  let hsize := hpack_size (Record_ n v 0) in
  let rq_size := if hpack_max_size t <? u64 (hsize + table_size t)
                 then u64 (hpack_max_size t - hsize) else u64 (hsize + table_size t) in
  '(it, t) ← shrink_to t rq_size;
  Ok (insert_impl (erase_from t it) n v).

Definition update_size (t : dynamic_table) (size : Z) : outcome dynamic_table :=
  '(it, t) ← shrink_to t size;
  let t := erase_from t it in
  Ok (DynamicTable (table_size t) size (table t)).

(** [record_index]: [table.back()] is undefined on an empty table. *)
Definition record_index (t : dynamic_table) (r : record) : outcome Z :=
  match last (table t) with
  | Some back => Ok (u64 (Z.of_nat (length (table t)) + init_index back - init_index r))
  | None => Undefined
  end.

(** ** Specification *)

(** The size of a record and of a list of records, without wrap-around. *)
Definition rsize (r : record) : Z :=
  Z.of_nat (length (name r)) + Z.of_nat (length (value r)) + 32.
Definition total (l : list record) : Z := fold_right (fun r acc => rsize r + acc) 0 l.

(** [init_index] counts up by one, modulo 2^32, from the back to the front. *)
Fixpoint numbered (l : list record) : Prop :=
  match l with
  | [] => True
  | r :: l => fits 32 (init_index r) /\
      match l with [] => True | r' :: _ => init_index r = u32 (init_index r' + 1) end /\
      numbered l
  end.

(** The invariant: the size is the exact total of the records, and the records are numbered. *)
Definition table_ok (t : dynamic_table) : Prop :=
  table_size t = total (table t) /\ fits 64 (total (table t)) /\
  fits 64 (hpack_max_size t) /\ numbered (table t).

(** RFC 7541, section 4.3: the newest entries whose total does not exceed [limit]. *)
Fixpoint rfc_keep (limit : Z) (l : list record) : list record :=
  match l with
  | [] => []
  | r :: l => if rsize r <=? limit then r :: rfc_keep (limit - rsize r) l else []
  end.

(** The number of entries [shrink_to] keeps: the longest proper prefix whose total is
    exactly the requested size, and none when there is no such prefix. *)
Fixpoint exact_prefix (l : list record) (rq_size : Z) (n : nat) : nat :=
  match n with
  | O => O
  | S k => if total (take k l) =? rq_size then k else exact_prefix l rq_size k
  end.

Definition keep_count (l : list record) (rq_size : Z) : nat :=
  if total l <=? rq_size then length l else exact_prefix l rq_size (length l).

(** ** Totals *)

Lemma rsize_pos r : 32 <= rsize r.
Proof. unfold rsize. lia. Qed.

Lemma total_cons r l : total (r :: l) = rsize r + total l.
Proof. done. Qed.

Lemma total_nonneg l : 0 <= total l.
Proof. induction l as [|r l IH]; simpl; [lia|]. pose proof (rsize_pos r). lia. Qed.

Lemma total_app l k : total (l ++ k) = total l + total k.
Proof. induction l as [|r l IH]; simpl; lia. Qed.

Lemma total_take_le l n : total (take n l) <= total l.
Proof.
  rewrite <- (take_drop n l) at 2. rewrite total_app. pose proof (total_nonneg (drop n l)). lia.
Qed.

Lemma total_take_S l n r : l !! n = Some r -> total (take (S n) l) = total (take n l) + rsize r.
Proof. intros H. rewrite (take_S_r _ _ r) by done. rewrite total_app. simpl. lia. Qed.

Lemma record_size_exact r : fits 64 (rsize r) -> hpack_size r = rsize r.
Proof. intros. by apply wrap_small. Qed.

Lemma wrap_zero_iff x : -2 ^ 64 < x < 2 ^ 64 -> (0 < u64 x <-> x <> 0).
Proof. unfold u64, wrap. intros H. Z.div_mod_to_equations. lia. Qed.

(** ** The eviction loop *)

Lemma shrink_loop_spec l rq it :
  (0 < it <= length l)%nat -> fits 64 (total l) -> fits 64 rq ->
  shrink_loop l it (u64 (total (take it l) - rq)) (total (take it l)) =
  Ok (exact_prefix l rq it, total (take (exact_prefix l rq it) l)).
Proof.
  intros Hit Hl Hrq. induction it as [|it IH]; [lia|].
  destruct (lookup_lt_is_Some_2 l it) as [r Hr]; [lia|].
  cbn [shrink_loop exact_prefix]. rewrite Hr.
  pose proof (total_take_S _ _ _ Hr) as Ht. pose proof (total_take_le l (S it)).
  pose proof (total_nonneg (take it l)). pose proof (rsize_pos r). unfold fits in Hl, Hrq.
  rewrite record_size_exact by (unfold fits; lia).
  replace (u64 (u64 (total (take (S it) l) - rq) - rsize r)) with (u64 (total (take it l) - rq))
    by (unfold u64, wrap; rewrite Zminus_mod_idemp_l; f_equal; lia).
  replace (u64 (total (take (S it) l) - rsize r)) with (total (take it l))
    by (unfold u64; rewrite wrap_small; unfold fits; lia).
  destruct (Nat.eqb_spec it 0) as [->|Hz]; cbn [negb andb].
  { cbn. by case_match. }
  destruct (Z.ltb_spec 0 (u64 (total (take it l) - rq))) as [Hp|Hn].
  - apply wrap_zero_iff in Hp; [|lia]. rewrite (proj2 (Z.eqb_neq _ _)) by lia. apply IH. lia.
  - destruct (Z.eqb_spec (total (take it l)) rq); [done|].
    exfalso. apply (Zlt_not_le _ _ (proj2 (wrap_zero_iff (total (take it l) - rq) ltac:(lia))
      ltac:(lia))). done.
Qed.

Lemma exact_prefix_total l rq n :
  total (take (exact_prefix l rq n) l) = rq \/ exact_prefix l rq n = 0%nat.
Proof.
  induction n as [|n IH]; [by right|]. simpl.
  destruct (Z.eqb_spec (total (take n l)) rq); [by left|done].
Qed.

Lemma exact_prefix_lt l rq n : (0 < n)%nat -> (exact_prefix l rq n < n)%nat.
Proof.
  induction n as [|[|n] IH]; intros H; [lia|simpl; by case_match|].
  cbn [exact_prefix]. case_match; [lia|]. cbn [exact_prefix] in IH. specialize (IH ltac:(lia)). lia.
Qed.

Lemma keep_count_le l rq : (keep_count l rq <= length l)%nat.
Proof.
  unfold keep_count. case_match; [lia|]. destruct (length l) as [|n]; [done|].
  pose proof (exact_prefix_lt l rq (S n)). lia.
Qed.

(** Never more than requested stays. *)
Lemma keep_count_bound l rq : 0 <= rq -> total (take (keep_count l rq) l) <= rq.
Proof.
  intros Hrq. unfold keep_count. destruct (Z.leb_spec (total l) rq); [by rewrite firstn_all|].
  destruct (exact_prefix_total l rq (length l)) as [->| ->]; simpl; lia.
Qed.

Lemma shrink_to_spec t rq :
  table_ok t -> fits 64 rq ->
  shrink_to t rq = Ok (keep_count (table t) rq,
    DynamicTable (total (take (keep_count (table t) rq) (table t))) (hpack_max_size t) (table t)).
Proof.
  intros (Hs & Hf & _ & _) Hrq. unfold shrink_to, keep_count. rewrite Hs.
  destruct (Z.leb_spec (total (table t)) rq).
  - rewrite firstn_all, <- Hs. by destruct t.
  - assert (0 < length (table t))%nat
      by (destruct (table t); simpl in *; [unfold fits in Hrq; lia|lia]).
    pose proof (shrink_loop_spec (table t) rq (length (table t))) as Hl.
    rewrite firstn_all in Hl. by rewrite Hl by done.
Qed.

(** ** Numbering *)

Lemma numbered_app l k : numbered (l ++ k) -> numbered l.
Proof.
  induction l as [|r l IH]; [done|]. simpl. intros (H1 & H2 & H3).
  split; [done|]. split; [|by apply IH]. by destruct l.
Qed.

Lemma numbered_take l n : numbered l -> numbered (take n l).
Proof. intros H. apply numbered_app with (drop n l). by rewrite take_drop. Qed.

Lemma numbered_lookup l i r back :
  numbered l -> l !! i = Some r -> last l = Some back ->
  init_index r = u32 (init_index back + Z.of_nat (length l) - 1 - Z.of_nat i).
Proof.
  revert i r. induction l as [|r0 l IH]; intros i r Hn Hi Hb; [done|].
  destruct Hn as (Hf & Hs & Hn). destruct i as [|i].
  - injection Hi as ->. destruct l as [|r1 l].
    + injection Hb as ->. unfold u32. symmetry.
      replace (_ - _) with (init_index back) by (simpl; lia). by apply wrap_small.
    + rewrite Hs, (IH 0%nat r1 Hn eq_refl Hb). unfold u32, wrap. simpl length.
      rewrite Zplus_mod_idemp_l. f_equal. lia.
  - assert (last l = Some back) by (by destruct l). rewrite (IH i r) by done.
    f_equal. simpl length. lia.
Qed.

(** ** The operations, on every table in the invariant *)

Lemma table_ok_erase t rq :
  table_ok t ->
  table_ok (DynamicTable (total (take (keep_count (table t) rq) (table t))) (hpack_max_size t)
              (take (keep_count (table t) rq) (table t))).
Proof.
  intros (Hs & Hf & Hm & Hn). split_and!; [done| |done|by apply numbered_take].
  simpl. pose proof (total_take_le (table t) (keep_count (table t) rq)).
  pose proof (total_nonneg (take (keep_count (table t) rq) (table t))). unfold fits in *. simpl. lia.
Qed.

(** The number a new record gets in front of [l]. *)
Definition next_index (l : list record) : Z :=
  match l with [] => 0 | front :: _ => u32 (init_index front + 1) end.

Lemma insert_impl_ok t n v :
  table_ok t -> rsize (Record_ n v 0) + total (table t) < 2 ^ 64 ->
  let r := Record_ n v (next_index (table t)) in
  insert_impl t n v =
    DynamicTable (rsize r + total (table t)) (hpack_max_size t) (r :: table t) /\
  table_ok (insert_impl t n v).
Proof.
  intros (Hs & Hf & Hm & Hn) Hlt r.
  assert (Heq : insert_impl t n v =
    DynamicTable (rsize r + total (table t)) (hpack_max_size t) (r :: table t)).
  { unfold insert_impl. fold (next_index (table t)). fold r. f_equal.
    pose proof (total_nonneg (table t)). pose proof (rsize_pos r).
    change (rsize (Record_ n v 0)) with (rsize r) in Hlt.
    rewrite record_size_exact by (unfold fits; lia). unfold u64. rewrite wrap_small; unfold fits; lia. }
  split; [done|]. rewrite Heq. pose proof (total_nonneg (table t)). pose proof (rsize_pos r).
  change (rsize (Record_ n v 0)) with (rsize r) in Hlt.
  split_and!; [done|simpl; unfold fits; lia|done|]. cbn [table numbered]. split_and!; [| |done].
  - unfold r, next_index. cbn. destruct (table t); [by split|apply wrap_fits; lia].
  - unfold r, next_index. cbn. by destruct (table t).
Qed.

(** The size [dynamic_table::insert] shrinks the table to. *)
Definition insert_request (t : dynamic_table) (hsize : Z) : Z :=
  if hpack_max_size t <? u64 (hsize + table_size t)
  then u64 (hpack_max_size t - hsize) else u64 (hsize + table_size t).

(** Shrinking and inserting, the common part of both tables' [insert]. *)
Lemma shrink_insert t rq n v :
  table_ok t -> fits 64 rq -> rsize (Record_ n v 0) + total (table t) < 2 ^ 64 ->
  let kept := take (keep_count (table t) rq) (table t) in
  let r := Record_ n v (next_index kept) in
  let t' := DynamicTable (rsize r + total kept) (hpack_max_size t) (r :: kept) in
  ('(it, t) ← shrink_to t rq; Ok (insert_impl (erase_from t it) n v)) = Ok t' /\ table_ok t'.
Proof.
  intros Hok Hrq Hlt kept r t'. rewrite shrink_to_spec by done.
  cbn [mbind outcome_bind]. unfold erase_from. cbn [table_size hpack_max_size table].
  pose proof (table_ok_erase t rq Hok) as Hok'.
  pose proof (total_take_le (table t) (keep_count (table t) rq)).
  destruct (insert_impl_ok _ n v Hok') as [Heq Hins]; [cbn [table]; lia|].
  rewrite Heq in Hins |- *. done.
Qed.

Lemma dynamic_insert_spec t n v :
  table_ok t -> rsize (Record_ n v 0) + total (table t) < 2 ^ 64 ->
  let kept := take (keep_count (table t) (insert_request t (rsize (Record_ n v 0)))) (table t) in
  let r := Record_ n v (next_index kept) in
  let t' := DynamicTable (rsize r + total kept) (hpack_max_size t) (r :: kept) in
  insert t n v = Ok t' /\ table_ok t'.
Proof.
  intros Hok Hlt. pose proof (total_nonneg (table t)). pose proof (rsize_pos (Record_ n v 0)).
  unfold insert. rewrite record_size_exact by (unfold fits; lia).
  apply shrink_insert; [done| |done].
  unfold insert_request. case_match; apply wrap_fits; lia.
Qed.

Lemma dynamic_update_size_spec t size :
  table_ok t -> fits 64 size ->
  let kept := take (keep_count (table t) size) (table t) in
  update_size t size = Ok (DynamicTable (total kept) size kept) /\
  table_ok (DynamicTable (total kept) size kept).
Proof.
  intros Hok Hs kept. unfold update_size. rewrite shrink_to_spec by done.
  split; [done|]. by destruct (table_ok_erase t size Hok) as (H1 & H2 & H3 & H4).
Qed.

(** ** Comparison with the eviction of RFC 7541 *)

Lemma rfc_keep_prefix l rq : rfc_keep rq l `prefix_of` l.
Proof.
  revert rq. induction l as [|r l IH]; intros rq; [done|]. simpl. case_match.
  - by apply prefix_cons.
  - apply prefix_nil.
Qed.

Lemma rfc_keep_greatest p l rq :
  p `prefix_of` l -> total p <= rq -> p `prefix_of` rfc_keep rq l.
Proof.
  revert p rq. induction l as [|r l IH]; intros p rq Hp Ht; [by apply prefix_nil_inv in Hp as ->|].
  destruct p as [|r' p]; [apply prefix_nil|].
  apply prefix_cons_inv_1 in Hp as Hr. apply prefix_cons_inv_2 in Hp. subst r'. simpl in Ht |- *.
  pose proof (total_nonneg p). rewrite (proj2 (Z.leb_le _ _)) by lia.
  apply prefix_cons, IH; [done|lia].
Qed.

Lemma rfc_keep_total l rq : 0 <= rq -> total (rfc_keep rq l) <= rq.
Proof.
  revert rq. induction l as [|r l IH]; intros rq Hrq; [done|]. simpl.
  destruct (Z.leb_spec (rsize r) rq); simpl; [|lia]. specialize (IH (rq - rsize r)). lia.
Qed.

Lemma total_zero l : total l = 0 -> l = [].
Proof.
  destruct l as [|r l]; [done|]. simpl. pose proof (rsize_pos r). pose proof (total_nonneg l). lia.
Qed.

Lemma prefix_same_total p l : p `prefix_of` l -> total p = total l -> p = l.
Proof.
  intros [k ->]. rewrite total_app. intros Ht. rewrite (total_zero k) by lia. by rewrite app_nil_r.
Qed.

Lemma exact_prefix_hit l rq k n :
  (k < n)%nat -> total (take k l) = rq -> total (take (exact_prefix l rq n) l) = rq.
Proof.
  intros Hk Ht. induction n as [|n IH]; [lia|]. simpl.
  destruct (Z.eqb_spec (total (take n l)) rq) as [|Hne]; [done|].
  apply IH. destruct (decide (k = n)); [by subst|lia].
Qed.

Lemma keep_count_rfc l rq :
  0 <= rq ->
  let kept := take (keep_count l rq) l in
  kept `prefix_of` rfc_keep rq l /\
  (kept = rfc_keep rq l <->
     total l <= rq \/ total (rfc_keep rq l) = rq \/ rfc_keep rq l = []).
Proof.
  intros Hrq kept.
  assert (Hp : kept `prefix_of` rfc_keep rq l)
    by (apply rfc_keep_greatest; [apply prefix_take|by apply keep_count_bound]).
  split; [done|]. unfold kept, keep_count in Hp |- *. destruct (Z.leb_spec (total l) rq) as [Hle|Hgt].
  { rewrite firstn_all in Hp |- *. split; [by left|]. intros _.
    apply (anti_symm prefix); [done|apply rfc_keep_prefix]. }
  split.
  - intros Heq. right. destruct (exact_prefix_total l rq (length l)) as [Ht|Hz].
    + left. by rewrite <- Heq.
    + right. by rewrite <- Heq, Hz.
  - intros [?|[Ht|Hn]]; [lia| |by rewrite Hn in Hp |- *; apply prefix_nil_inv].
    apply prefix_same_total; [done|]. rewrite Ht.
    destruct (rfc_keep_prefix l rq) as [k Hk].
    apply (exact_prefix_hit _ _ (length (rfc_keep rq l))).
    + destruct k as [|r k]; [|rewrite Hk at 2; rewrite length_app; simpl; lia].
      exfalso. rewrite app_nil_r in Hk. rewrite <- Hk in Ht. lia.
    + set (K := rfc_keep rq l) in *. clearbody K. subst l. by rewrite take_app_length.
Qed.

(** [dynamic_table::update_size] against RFC 7541, section 4.3: it always succeeds, keeps
    the size accounting exact and leaves at most [size] bytes, all of them entries the RFC
    keeps; it keeps all the entries the RFC keeps exactly when nothing has to be evicted,
    or the kept entries fill the requested size to the byte, or none fits. *)
Theorem update_size_vs_rfc t size :
  table_ok t -> fits 64 size ->
  exists t', update_size t size = Ok t' /\ table_ok t' /\ hpack_max_size t' = size /\
    table_size t' <= size /\ table t' `prefix_of` rfc_keep size (table t) /\
    (table t' = rfc_keep size (table t) <->
       total (table t) <= size \/ total (rfc_keep size (table t)) = size \/
       rfc_keep size (table t) = []).
Proof.
  intros Hok Hs. destruct (dynamic_update_size_spec t size Hok Hs) as [Heq Hok'].
  destruct (keep_count_rfc (table t) size) as [Hp Hiff]; [by destruct Hs|].
  eexists. split_and!; [exact Heq|exact Hok'|done| |exact Hp|exact Hiff].
  apply keep_count_bound. by destruct Hs.
Qed.

(** Three entries of 34 bytes each. *)
Definition three_entries : dynamic_table :=
  DynamicTable 102 4096 [Record_ [99] [67] 2; Record_ [98] [66] 1; Record_ [97] [65] 0].

Lemma three_entries_ok : table_ok three_entries.
Proof. vm_compute. repeat split; try discriminate. Qed.

(** Shrinking to 70 bytes keeps nothing, where the RFC keeps two entries. *)
Lemma update_size_vs_rfc_witness :
  table_ok three_entries /\
  (exists t', update_size three_entries 70 = Ok t' /\ table t' = []) /\
  length (rfc_keep 70 (table three_entries)) = 2%nat /\
  exists t', update_size three_entries 68 = Ok t' /\ table_ok t' /\ table_size t' <= 68.
Proof.
  split; [exact three_entries_ok|]. split; [by eexists|]. split; [reflexivity|].
  destruct (update_size_vs_rfc three_entries 68 three_entries_ok) as (t' & H1 & H2 & _ & H3 & _);
    [by split|]. by exists t'.
Defined.

(** ** Insertion *)

Lemma at_lookup t i r :
  table t !! i = Some r -> at_ t (1 + Z.of_nat i) = Ok (name r, value r).
Proof.
  intros H. pose proof (lookup_lt_Some _ _ _ H). unfold at_.
  rewrite (proj2 (Z.leb_le _ _)), (proj2 (Z.leb_le _ _)) by lia.
  replace (Z.to_nat (1 + Z.of_nat i - 1)) with i by lia. by rewrite H.
Qed.

Lemma at_front s m r l : at_ (DynamicTable s m (r :: l)) 1 = Ok (name r, value r).
Proof. by apply (at_lookup (DynamicTable s m (r :: l)) 0). Qed.

(** An entry that fits makes room for itself; one that does not fit evicts nothing. *)
Lemma insert_request_fits t h :
  table_ok t -> 32 <= h -> h + total (table t) < 2 ^ 64 -> h <= hpack_max_size t ->
  fits 64 (insert_request t h) /\
  (table_size t <= hpack_max_size t ->
   total (take (keep_count (table t) (insert_request t h)) (table t)) <= hpack_max_size t - h).
Proof.
  intros (Hs & Hf & Hm & _) Hh Hlt Hle. pose proof (total_nonneg (table t)).
  unfold insert_request. rewrite Hs. unfold u64, fits in *.
  rewrite (wrap_small 64 (h + _)) by (unfold fits; lia).
  rewrite (wrap_small 64 (_ - _)) by (unfold fits; lia).
  destruct (Z.ltb_spec (hpack_max_size t) (h + total (table t))).
  - split; [lia|]. intros _. apply keep_count_bound. lia.
  - split; [lia|]. intros _. pose proof (total_take_le (table t)
      (keep_count (table t) (h + total (table t)))). lia.
Qed.

Lemma insert_request_oversize t h :
  table_ok t -> 32 <= h -> h + total (table t) < 2 ^ 64 - hpack_max_size t ->
  hpack_max_size t < h ->
  keep_count (table t) (insert_request t h) = length (table t).
Proof.
  intros (Hs & Hf & Hm & _) Hh Hlt Hle. pose proof (total_nonneg (table t)).
  unfold insert_request, keep_count. rewrite Hs. unfold u64, fits in *.
  rewrite (wrap_small 64 (h + _)) by (unfold fits; lia).
  rewrite (proj2 (Z.ltb_lt _ _)) by lia.
  rewrite (proj2 (Z.leb_le _ _)); [done|].
  replace (wrap 64 (hpack_max_size t - h)) with (hpack_max_size t - h + 2 ^ 64); [lia|].
  unfold wrap. Z.div_mod_to_equations. lia.
Qed.

(** [dynamic_table::insert] always succeeds, puts the new record at index 1 (index 62 of
    the decoder), keeps a prefix of the older records shifted by one and keeps the size
    accounting and the numbering exact; when the entry fits the table, the limit is kept,
    while an entry larger than the limit evicts nothing and leaves the table above it. *)
Theorem dynamic_insert t n v :
  table_ok t ->
  let h := rsize (Record_ n v 0) in
  h + total (table t) + hpack_max_size t < 2 ^ 64 ->
  exists t' k, insert t n v = Ok t' /\ table_ok t' /\
    hpack_max_size t' = hpack_max_size t /\
    at_ t' 1 = Ok (n, v) /\
    tail (table t') = take k (table t) /\
    (forall i, 1 <= i <= Z.of_nat k -> i <= Z.of_nat (length (table t)) ->
       at_ t' (1 + i) = at_ t i) /\
    (h <= hpack_max_size t -> table_size t <= hpack_max_size t ->
       table_size t' <= hpack_max_size t) /\
    (hpack_max_size t < h -> tail (table t') = table t /\
       table_size t' = h + table_size t).
Proof.
  intros Hok h Hlt. assert (32 <= h) by apply rsize_pos.
  assert (0 <= hpack_max_size t) by (by destruct Hok as (_ & _ & [? _] & _)).
  destruct (dynamic_insert_spec t n v Hok) as [Heq Hok']; [fold h; lia|].
  fold h in Heq, Hok'. set (k := keep_count _ _) in Heq, Hok'.
  eexists _, k. split_and!; [exact Heq|exact Hok'|done|by rewrite at_front|done| | |].
  - intros i Hi Hi'. destruct (lookup_lt_is_Some_2 (table t) (Z.to_nat (i - 1))) as [r Hr]; [lia|].
    transitivity (Ok (name r, value r)).
    + replace i with (Z.of_nat (Z.to_nat i)) by lia. apply at_lookup.
      replace (Z.to_nat i) with (S (Z.to_nat (i - 1))) by lia. cbn [table].
      rewrite lookup_cons, lookup_take_lt by lia. done.
    + symmetry. replace i with (1 + Z.of_nat (Z.to_nat (i - 1))) by lia. by apply at_lookup.
  - intros Hh Hts. destruct (insert_request_fits t h Hok) as [_ Hb]; [lia..|].
    specialize (Hb Hts). fold k in Hb. cbn [table_size]. change (rsize _) with h. lia.
  - intros Hh. assert (k = length (table t)) as -> by (by apply insert_request_oversize; [|lia..]).
    cbn [table tail table_size]. rewrite firstn_all. split; [done|].
    destruct Hok as (-> & _). done.
Qed.

Lemma dynamic_insert_witness :
  table_ok three_entries /\
  exists t' k, insert three_entries [100] [68] = Ok t' /\ at_ t' 1 = Ok ([100], [68]) /\
    tail (table t') = take k (table three_entries).
Proof.
  split; [exact three_entries_ok|].
  destruct (dynamic_insert three_entries [100] [68] three_entries_ok) as
    (t' & k & H1 & _ & _ & H2 & H3 & _); [vm_compute; reflexivity|].
  exists t', k. auto.
Defined.
