(* ===== verification/IndexedDynamicTable.v ===== *)
(** * Indexed dynamic table (hpack/indexed_dynamic_table.h, hpack/indexed_dynamic_table.cpp)

    The encoder's table: a [dynamic_table] with a [std::set] of pointers to its records,
    ordered by name and value, for the reverse lookup.  A pointer is represented by the
    record it points to: records are not modified while they are in the deque, a deque does
    not move the others when one is added at the front or dropped at the back, and the
    invariant [index_ok] shows that every pointer of the set is to a record still in the
    table, so none dangles. *)
From S2P Require Import Prelude.
From S2P Require Export DynamicTable.

(** [memcmp] of two byte strings of the same length. *)
Fixpoint memcmp (a b : list Z) : comparison :=
  match a, b with
  | x :: a, y :: b => match x ?= y with Eq => memcmp a b | c => c end
  | _, _ => Eq
  end.

(** [std::operator<=>] on spans: the shorter span is the smaller one. *)
Definition span_compare (lhs rhs : list Z) : comparison :=
  match Nat.compare (length lhs) (length rhs) with
  | Eq => memcmp lhs rhs
  | size_cmp => size_cmp
  end.

(** [operator<] of [std::vector<uint8_t>]: lexicographic. *)
Fixpoint vector_lt (a b : list Z) : bool :=
  match a, b with
  | _, [] => false
  | [], _ :: _ => true
  | x :: a, y :: b => (x <? y) || ((x =? y) && vector_lt a b)
  end.

(** [index_comparator(record, record)], the order of the set. *)
Definition record_lt (lhs rhs : record) : bool :=
  vector_lt (name lhs) (name rhs) ||
  (negb (vector_lt (name rhs) (name lhs)) && vector_lt (value lhs) (value rhs)).

(** [index_comparator(record, name_value_t)], the order of the lookup. *)
Definition key_lt (lhs : record) (rhs : list Z * list Z) : bool :=
  match span_compare (name lhs) rhs.1 with
  | Lt => true
  | Gt => false
  | Eq => match span_compare (value lhs) rhs.2 with Lt => true | _ => false end
  end.

(** ** [std::set] of records *)

(** The elements in the order of the set. [insert] keeps an equivalent element, [erase]
    drops the equivalent one. *)
Fixpoint set_insert (r : record) (s : list record) : list record :=
  match s with
  | [] => [r]
  | x :: s' => if record_lt r x then r :: s
               else if record_lt x r then x :: set_insert r s' else s
  end.

Definition set_erase (r : record) (s : list record) : list record :=
  List.filter (fun x => record_lt x r || record_lt r x) s.

(** [lower_bound] with a key of another type searches the set's tree.  Its result is
    specified for a key that partitions the set; [key_lt] is not the order of the set, so
    the key may not partition it, and then the element met depends on the shape of the
    tree.  What the table relies on is stated as an interface. *)
Class SetSearch : Type := {
  lower_bound : list record -> (record -> bool) -> option record;
  lower_bound_member : forall s less r, lower_bound s less = Some r -> In r s;
  lower_bound_partitioned : forall s1 s2 less,
    forallb less s1 = true -> forallb (fun r => negb (less r)) s2 = true ->
    lower_bound (s1 ++ s2) less = head s2;
}.

Lemma lower_bound_all `{SetSearch} s less :
  forallb (fun r => negb (less r)) s = true -> lower_bound s less = head s.
Proof. by apply (lower_bound_partitioned []). Qed.

(** The search that walks the set in order. *)
Definition linear_lower_bound (s : list record) (less : record -> bool) : option record :=
  List.find (fun r => negb (less r)) s.

Lemma linear_partitioned s1 s2 less :
  forallb less s1 = true -> forallb (fun r => negb (less r)) s2 = true ->
  linear_lower_bound (s1 ++ s2) less = head s2.
Proof.
  unfold linear_lower_bound. intros H1 H2. induction s1 as [|r s1 IH]; simpl in *.
  - destruct s2 as [|r s2]; [done|]. simpl in *. apply andb_true_iff in H2 as [-> _]. done.
  - apply andb_true_iff in H1 as [-> H1]. by apply IH.
Qed.

#[global, refine] Instance linear_search : SetSearch := {| lower_bound := linear_lower_bound |}.
Proof.
  - intros s less r H. by apply find_some in H as [H _].
  - exact linear_partitioned.
Defined.

(** ** The table *)

Record indexed_dynamic_table : Type := IndexedTable {
  base : dynamic_table;
  index_set : list record;
}.

Definition make_indexed (max_size : Z) : indexed_dynamic_table :=
  IndexedTable (make_table max_size) [].

(** [std::for_each(it, table.end(), erase)]. *)
Definition erase_all (rs s : list record) : list record :=
  fold_left (fun s r => set_erase r s) rs s.

Definition insert (t : indexed_dynamic_table) (n v : list Z) : outcome indexed_dynamic_table :=
  let hsize := hpack_size (Record_ n v 0) in
  let max := hpack_max_size (base t) in
  let rq_size := if max <? hsize then 0 else u64 (max - hsize) in
  '(it, b) ← shrink_to (base t) rq_size;
  let s := erase_all (drop it (table b)) (index_set t) in
  let b := insert_impl (erase_from b it) n v in
  match head (table b) with
  | Some front => Ok (IndexedTable b (set_insert front s))
  | None => Undefined
  end.

Definition update_size (t : indexed_dynamic_table) (size : Z) : outcome indexed_dynamic_table :=
  '(it, b) ← shrink_to (base t) size;
  let s := erase_all (drop it (table b)) (index_set t) in
  let b := erase_from b it in
  Ok (IndexedTable (DynamicTable (table_size b) size (table b)) s).

(** The conversion of [size_t] to [int]. *)
Definition to_int (x : Z) : Z := let y := u32 x in if y <? 2 ^ 31 then y else y - 2 ^ 32.

Definition field_index `{SetSearch} (t : indexed_dynamic_table) (n v : list Z)
  : outcome (Z * bool) :=
  match lower_bound (index_set t) (fun r => key_lt r (n, v)) with
  | None => Ok (-1, false)
  | Some r =>
      match span_compare (name r) n with
      | Eq =>
          i ← record_index (base t) r;
          Ok (to_int i, match span_compare (value r) v with Eq => true | _ => false end)
      | _ => Ok (-1, false)
      end
  end.

(** ** Invariant *)

Definition index_ok (t : indexed_dynamic_table) : Prop :=
  table_ok (base t) /\ (forall r, In r (index_set t) -> In r (table (base t))).

(** ** Comparisons *)

Lemma memcmp_eq a b : length a = length b -> memcmp a b = Eq -> a = b.
Proof.
  revert b. induction a as [|x a IH]; intros [|y b] Hl H; try done. simpl in *.
  destruct (Z.compare_spec x y); try done. subst. f_equal. apply IH; [lia|done].
Qed.

Lemma span_compare_eq a b : span_compare a b = Eq <-> a = b.
Proof.
  unfold span_compare. split.
  - destruct (Nat.compare_spec (length a) (length b)); try done. by apply memcmp_eq.
  - intros ->. rewrite Nat.compare_refl. induction b as [|y b IH]; [done|]. simpl.
    by rewrite Z.compare_refl.
Qed.

Lemma vector_lt_irrefl a : vector_lt a a = false.
Proof. induction a as [|x a IH]; [done|]. simpl. by rewrite Z.ltb_irrefl, IH, andb_false_r. Qed.

Lemma record_lt_irrefl r : record_lt r r = false.
Proof. unfold record_lt. by rewrite !vector_lt_irrefl. Qed.

Lemma set_insert_In r s x : In x (set_insert r s) -> x = r \/ In x s.
Proof.
  induction s as [|y s IH]; simpl; [intuition congruence|].
  destruct (record_lt r y); simpl; [intuition congruence|].
  destruct (record_lt y r); simpl; intuition.
Qed.

Lemma set_erase_In r s x : In x (set_erase r s) -> In x s /\ x <> r.
Proof.
  unfold set_erase. rewrite List.filter_In. intros [H1 H2]. split; [done|]. intros ->.
  by rewrite !record_lt_irrefl in H2.
Qed.

Lemma erase_all_In rs s x : In x (erase_all rs s) -> In x s /\ ~ In x rs.
Proof.
  revert s. induction rs as [|r rs IH]; intros s H; [by split; [|intros []]|].
  apply IH in H as [H Hn]. apply set_erase_In in H as [H Hr]. simpl. intuition.
Qed.

(** The pointers that stay after the eviction point to records that stay. *)
Lemma erase_all_kept (l s : list record) it x :
  (forall r, In r s -> In r l) -> In x (erase_all (drop it l) s) -> In x (take it l).
Proof.
  intros Hs Hx. apply erase_all_In in Hx as [Hx Hn]. apply Hs in Hx.
  rewrite <- (take_drop it l) in Hx. apply in_app_or in Hx as [|]; done.
Qed.

(** ** Operations *)

(** The size [indexed_dynamic_table::insert] shrinks the table to. *)
Definition insert_request (t : indexed_dynamic_table) (hsize : Z) : Z :=
  if hpack_max_size (base t) <? hsize then 0 else u64 (hpack_max_size (base t) - hsize).

Lemma indexed_insert_spec t n v :
  index_ok t -> rsize (Record_ n v 0) + total (table (base t)) < 2 ^ 64 ->
  let l := table (base t) in
  let kept := take (keep_count l (insert_request t (rsize (Record_ n v 0)))) l in
  let r := Record_ n v (next_index kept) in
  exists s, insert t n v =
    Ok (IndexedTable (DynamicTable (rsize r + total kept) (hpack_max_size (base t)) (r :: kept)) s)
    /\ index_ok (IndexedTable
         (DynamicTable (rsize r + total kept) (hpack_max_size (base t)) (r :: kept)) s).
Proof.
  intros [Hok Hset] Hlt l kept r. pose proof (total_nonneg l). pose proof (rsize_pos (Record_ n v 0)).
  unfold insert. rewrite record_size_exact by (unfold fits; unfold l in *; lia).
  fold (insert_request t (rsize (Record_ n v 0))).
  set (rq := insert_request t (rsize (Record_ n v 0))) in *.
  assert (fits 64 rq) by (unfold rq, insert_request; case_match; [by split|apply wrap_fits; lia]).
  destruct (shrink_insert (base t) rq n v) as [Heq Hok']; [done..|].
  rewrite shrink_to_spec in Heq |- * by done. cbn [mbind outcome_bind] in Heq |- *.
  apply (inj Ok) in Heq. fold l kept r in Heq, Hok' |- *. eexists. rewrite Heq. cbn [table head]. split; [done|]. split; [done|].
  cbn [base table index_set]. intros x Hx. apply set_insert_In in Hx as [->|Hx]; [by left|].
  right. by apply (erase_all_kept l (index_set t)).
Qed.

Lemma indexed_update_size_spec t size :
  index_ok t -> fits 64 size ->
  let kept := take (keep_count (table (base t)) size) (table (base t)) in
  exists s, update_size t size = Ok (IndexedTable (DynamicTable (total kept) size kept) s) /\
    index_ok (IndexedTable (DynamicTable (total kept) size kept) s).
Proof.
  intros [Hok Hset] Hs kept. unfold update_size. rewrite shrink_to_spec by done.
  eexists. split; [done|]. destruct (dynamic_update_size_spec (base t) size Hok Hs) as [_ Hok'].
  split; [done|]. cbn [base table index_set]. intros x Hx.
  by apply (erase_all_kept (table (base t)) (index_set t)).
Qed.

Lemma to_int_small x y : y = x mod 2 ^ 32 -> 0 <= y < 2 ^ 31 -> to_int x = y.
Proof.
  intros -> H. unfold to_int, u32, wrap. by rewrite (proj2 (Z.ltb_lt _ _)) by lia.
Qed.

(** The index of a record of the table, also after [init_index] has wrapped around. *)
Lemma record_index_spec t i r :
  table_ok t -> table t !! i = Some r -> Z.of_nat (length (table t)) < 2 ^ 31 ->
  exists x, record_index t r = Ok x /\ to_int x = 1 + Z.of_nat i.
Proof.
  intros (_ & _ & _ & Hn) Hi Hlen. unfold record_index.
  pose proof (lookup_lt_Some _ _ _ Hi).
  destruct (last (table t)) as [back|] eqn:Hb; [|apply last_None in Hb; by rewrite Hb in Hi].
  eexists. split; [done|]. rewrite (numbered_lookup _ _ _ _ Hn Hi Hb).
  apply to_int_small; [|lia]. unfold u64, u32, wrap.
  set (b := init_index back). set (len := Z.of_nat (length (table t))) in *.
  Z.div_mod_to_equations. lia.
Qed.

(** ** Histories of a table *)

Inductive table_op : Type :=
| op_insert (n v : list Z)
| op_update_size (size : Z).

Definition apply_op (t : indexed_dynamic_table) (op : table_op) : outcome indexed_dynamic_table :=
  match op with
  | op_insert n v => insert t n v
  | op_update_size size => update_size t size
  end.

Fixpoint run (t : indexed_dynamic_table) (ops : list table_op) : outcome indexed_dynamic_table :=
  match ops with
  | [] => Ok t
  | op :: ops => t ← apply_op t op; run t ops
  end.

(** The bytes a history inserts, and that it sets only sizes of type [size_t]. *)
Definition op_weight (op : table_op) : Z :=
  match op with op_insert n v => rsize (Record_ n v 0) | op_update_size _ => 0 end.
Definition weight (ops : list table_op) : Z := fold_right (fun op acc => op_weight op + acc) 0 ops.
Definition op_ok (op : table_op) : Prop :=
  match op with op_insert _ _ => True | op_update_size size => fits 64 size end.

Lemma weight_cons op ops : weight (op :: ops) = op_weight op + weight ops.
Proof. done. Qed.

Lemma weight_nonneg ops : 0 <= weight ops.
Proof.
  induction ops as [|[n v|] ops IH]; simpl; [lia| |lia]. pose proof (rsize_pos (Record_ n v 0)). lia.
Qed.

Lemma length_total l : 32 * Z.of_nat (length l) <= total l.
Proof. induction l as [|r l IH]; simpl; [lia|]. pose proof (rsize_pos r). lia. Qed.

Lemma run_ok t ops :
  index_ok t -> Forall op_ok ops -> total (table (base t)) + weight ops < 2 ^ 64 ->
  exists t', run t ops = Ok t' /\ index_ok t' /\
    total (table (base t')) <= total (table (base t)) + weight ops.
Proof.
  intros Hok Hops. revert t Hok. induction Hops as [|op ops Hop _ IH]; intros t Hok Hlt.
  { exists t. simpl. split_and!; [done..|lia]. }
  pose proof (weight_nonneg ops). rewrite weight_cons in Hlt |- *.
  destruct op as [n v|size]; cbn [run apply_op op_weight] in *.
  - destruct (indexed_insert_spec t n v Hok) as (s & -> & Hok'); [lia|]. cbn [mbind outcome_bind].
    pose proof (total_take_le (table (base t))
      (keep_count (table (base t)) (insert_request t (rsize (Record_ n v 0))))) as Hle.
    edestruct IH as (t' & -> & Hok'' & Hb); [exact Hok'| |];
      cbn [base table] in *; rewrite ?total_cons in *;
      change (rsize (Record_ n v _)) with (rsize (Record_ n v 0)) in *; [lia|].
    exists t'. split_and!; [done..|lia].
  - destruct (indexed_update_size_spec t size Hok Hop) as (s & -> & Hok'). cbn [mbind outcome_bind].
    pose proof (total_take_le (table (base t)) (keep_count (table (base t)) size)).
    edestruct IH as (t' & -> & Hok'' & Hb); [exact Hok'| |]; cbn [base table] in *; [lia|].
    exists t'. split_and!; [done..|lia].
Qed.

Lemma make_indexed_ok m : fits 64 m -> index_ok (make_indexed m).
Proof. intros. split; [|done]. by split_and!. Qed.

Section Lookup.
  Context `{SetSearch}.

Lemma indexed_field_index t n v :
  index_ok t -> Z.of_nat (length (table (base t))) < 2 ^ 31 ->
  exists i b, field_index t n v = Ok (i, b) /\
    ((i = -1 /\ b = false) \/
     (1 <= i <= Z.of_nat (length (table (base t))) /\
      exists v', at_ (base t) i = Ok (n, v') /\ (b = true <-> v' = v))).
Proof.
  intros [Hok Hset] Hlen. unfold field_index.
  destruct (lower_bound _ _) as [r|] eqn:Hl; [|by eexists _, _; split; [done|left]].
  apply lower_bound_member, Hset, list_elem_of_In, list_elem_of_lookup in Hl as [i Hi].
  destruct (span_compare (name r) n) eqn:Hc; try (by eexists _, _; split; [done|left]).
  apply span_compare_eq in Hc. destruct (record_index_spec _ _ _ Hok Hi Hlen) as (x & -> & Hx).
  cbn [mbind outcome_bind]. eexists _, _. split; [done|]. right. rewrite Hx.
  pose proof (lookup_lt_Some _ _ _ Hi). split; [lia|].
  exists (value r). rewrite (at_lookup _ _ _ Hi), Hc. split; [done|].
  rewrite <- span_compare_eq. by destruct (span_compare (value r) v).
Qed.

(** C34: After any history of [insert] and [update_size] on the encoder's table (64 GiB of
    insertions at most), the size accounting is exact, every pointer of the index set is to
    a live record, and [field_index], however the set's tree is searched, is either (-1,
    false) or the index of an entry with this name, the flag telling exactly whether the
    entry has this value too; this holds also when the 32-bit [init_index] has wrapped. *)
Theorem indexed_lookup_sound m ops n v :
  fits 64 m -> Forall op_ok ops -> weight ops < 2 ^ 36 ->
  exists t i b, run (make_indexed m) ops = Ok t /\ index_ok t /\
    field_index t n v = Ok (i, b) /\
    ((i = -1 /\ b = false) \/
     (1 <= i <= Z.of_nat (length (table (base t))) /\
      exists v', at_ (base t) i = Ok (n, v') /\ (b = true <-> v' = v))).
Proof.
  intros Hm Hops Hw. destruct (run_ok (make_indexed m) ops) as (t & Hr & Hok & Hle);
    [by apply make_indexed_ok|done|simpl; lia|].
  cbn in Hle. pose proof (length_total (table (base t))).
  destruct (indexed_field_index t n v Hok) as (i & b & Hf & Hres); [lia|].
  exists t, i, b. auto.
Qed.

(** A stored field is found when its key splits the set: the elements before it in the
    set's order compare less in the lookup's order, the others do not. *)
Theorem indexed_lookup_complete t n v s1 r s2 :
  index_ok t -> Z.of_nat (length (table (base t))) < 2 ^ 31 ->
  index_set t = s1 ++ r :: s2 -> name r = n -> value r = v ->
  forallb (fun x => key_lt x (n, v)) s1 = true ->
  forallb (fun x => negb (key_lt x (n, v))) s2 = true ->
  exists i, field_index t n v = Ok (i, true) /\ at_ (base t) i = Ok (n, v).
Proof.
  intros [Hok Hset] Hlen Hs Hn Hv H1 H2. unfold field_index.
  assert (Hself : forall l, span_compare l l = Eq) by (intros; by apply span_compare_eq).
  rewrite Hs, (lower_bound_partitioned s1 (r :: s2)); [|done|].
  2: { simpl. rewrite H2. unfold key_lt. simpl. by rewrite Hn, Hv, !Hself. }
  assert (In r (table (base t))) as Hin
    by (apply Hset; rewrite Hs; apply in_or_app; right; by left).
  apply list_elem_of_In, list_elem_of_lookup in Hin as [i Hi]. cbn [head].
  destruct (record_index_spec _ _ _ Hok Hi Hlen) as (x & -> & Hx).
  rewrite Hn, Hv, !Hself. cbn [mbind outcome_bind]. rewrite Hx. eexists. split; [done|].
  by rewrite (at_lookup _ _ _ Hi), Hn, Hv.
Qed.

(** The set is ordered lexicographically but searched by length first, so a stored field
    can be missed: after inserting an "accept" and an "age" field, the "age" field is in the
    table and in the set, and [field_index] does not find it, whatever search is used. *)
Theorem indexed_lookup_misses :
  exists t, run (make_indexed 4096)
      [op_insert (str "accept") (str "*/*"); op_insert (str "age") (str "5")] = Ok t /\
    at_ (base t) 1 = Ok (str "age", str "5") /\
    In (Record_ (str "age") (str "5") 1) (index_set t) /\
    field_index t (str "age") (str "5") = Ok (-1, false).
Proof.
  eexists. split; [vm_compute; reflexivity|]. split; [reflexivity|].
  split; [cbn; tauto|]. unfold field_index. cbn [index_set].
  rewrite lower_bound_all by reflexivity. reflexivity.
Qed.

End Lookup.

Lemma indexed_lookup_sound_witness :
  exists t i b, run (make_indexed 100)
      [op_insert (str "age") (str "5"); op_update_size 50; op_insert (str "accept") (str "a")]
      = Ok t /\ index_ok t /\ field_index t (str "accept") (str "a") = Ok (i, b).
Proof.
  destruct (indexed_lookup_sound 100
    [op_insert (str "age") (str "5"); op_update_size 50; op_insert (str "accept") (str "a")]
    (str "accept") (str "a")) as (t & i & b & H1 & H2 & H3 & _).
  - by split.
  - repeat constructor; vm_compute; congruence.
  - vm_compute. reflexivity.
  - by exists t, i, b.
Defined.

Lemma indexed_lookup_complete_witness :
  exists i, field_index
      (IndexedTable (DynamicTable 36 4096 [Record_ (str "age") (str "5") 0])
         [Record_ (str "age") (str "5") 0]) (str "age") (str "5") = Ok (i, true).
Proof.
  destruct (indexed_lookup_complete
    (IndexedTable (DynamicTable 36 4096 [Record_ (str "age") (str "5") 0])
       [Record_ (str "age") (str "5") 0]) (str "age") (str "5")
    [] (Record_ (str "age") (str "5") 0) []) as (i & Hi & _).
  - split; [|by intros r]. vm_compute. repeat split; discriminate.
  - vm_compute. reflexivity.
  - reflexivity.
  - reflexivity.
  - reflexivity.
  - reflexivity.
  - reflexivity.
  - by exists i.
Defined.
