(* ===== verification/HpackTable.v ===== *)
(** * The combined header table (hpack/hpack_table.h)

    [hpack_table<DynTableT>] puts the dynamic table behind the 61 static entries.  The
    template parameter is a type class: what the template uses of its argument, with the
    laws the header codec relies on; both dynamic tables are instances. *)
From S2P Require Import Prelude.
From S2P Require StaticTable DynamicTable IndexedDynamicTable.

(** The members of [DynTableT] that the template calls. *)
Class DynTable (T : Type) : Type := {
  dt_make : Z -> T;
  dt_at : T -> Z -> outcome (list Z * list Z);
  dt_insert : T -> list Z -> list Z -> outcome T;
  dt_update_size : T -> Z -> outcome T;
  dt_max_size : T -> Z;
}.

(** The member only the encoder's instance has. *)
Class DynLookup (T : Type) : Type :=
  dt_field_index : T -> list Z -> list Z -> outcome (Z * bool).

Section template.
Context {T : Type} `{DynTable T}.

Record hpack_table : Type := HpackTable { dyn_table : T }.

Definition make_hpack_table (max_size : Z) : hpack_table := HpackTable (dt_make max_size).

Definition at_ (t : hpack_table) (i : Z) : outcome (list Z * list Z) :=
  if i =? 0 then Throw (runtime_error "Invalid index value 0")
  else if i <=? StaticTable.size then StaticTable.at_ i
  else dt_at (dyn_table t) (i - StaticTable.size).

Definition insert (t : hpack_table) (name value : list Z) : outcome hpack_table :=
  d ← dt_insert (dyn_table t) name value; Ok (HpackTable d).

Definition update_size (t : hpack_table) (size : Z) : outcome hpack_table :=
  d ← dt_update_size (dyn_table t) size; Ok (HpackTable d).

Definition max_size (t : hpack_table) : Z := dt_max_size (dyn_table t).

(** The index of a full dynamic match is offset by the static entries, the index of a
    match of the name alone is not. *)
Definition field_index `{DynLookup T} (t : hpack_table) (name value : list Z)
  : outcome (Z * bool) :=
  '(i, has_value) ← StaticTable.field_index name value;
  if (has_value : bool) then Ok (i, has_value)
  else
    '(dyn_i, dyn_has_value) ← dt_field_index (dyn_table t) name value;
    if (dyn_has_value : bool) then
      Ok (IndexedDynamicTable.to_int (u64 (dyn_i + StaticTable.size)), dyn_has_value)
    else if negb (i =? -1) then Ok (i, has_value)
    else Ok (dyn_i, dyn_has_value).
End template.
Arguments hpack_table T : clear implicits.

(** ** The two instances *)

Global Instance dynamic_table_dyn : DynTable DynamicTable.dynamic_table := {|
  dt_make := DynamicTable.make_table;
  dt_at := DynamicTable.at_;
  dt_insert := DynamicTable.insert;
  dt_update_size := DynamicTable.update_size;
  dt_max_size := DynamicTable.max_size;
|}.

Global Instance indexed_table_dyn : DynTable IndexedDynamicTable.indexed_dynamic_table := {|
  dt_make := IndexedDynamicTable.make_indexed;
  dt_at t := DynamicTable.at_ (IndexedDynamicTable.base t);
  dt_insert := IndexedDynamicTable.insert;
  dt_update_size := IndexedDynamicTable.update_size;
  dt_max_size t := DynamicTable.max_size (IndexedDynamicTable.base t);
|}.

Global Instance indexed_table_lookup `{IndexedDynamicTable.SetSearch} :
  DynLookup IndexedDynamicTable.indexed_dynamic_table := IndexedDynamicTable.field_index.

Definition decoder_table : Type := hpack_table DynamicTable.dynamic_table.
Definition encoder_table : Type := hpack_table IndexedDynamicTable.indexed_dynamic_table.

(** ** What a dynamic table promises *)

(** The size of a field and of a list of fields: RFC 7541, section 4.1. *)
Definition fsize (f : list Z * list Z) : Z :=
  Z.of_nat (length f.1) + Z.of_nat (length f.2) + 32.
Definition ftotal (l : list (list Z * list Z)) : Z := fold_right (fun f acc => fsize f + acc) 0 l.

Lemma ftotal_nonneg l : 0 <= ftotal l.
Proof. induction l as [|f l IH]; simpl; unfold fsize; lia. Qed.

Lemma ftotal_elem l f : f ∈ l -> fsize f <= ftotal l.
Proof.
  induction 1 as [f l|f g l _ IH]; simpl; [pose proof (ftotal_nonneg l)|unfold fsize at 2]; lia.
Qed.

Lemma ftotal_take k l : ftotal (take k l) <= ftotal l.
Proof.
  revert k. induction l as [|f l IH]; intros [|k]; simpl; [lia..| |].
  - pose proof (ftotal_nonneg l). unfold fsize. lia.
  - specialize (IH k). lia.
Qed.

(** Seen from outside, a dynamic table is a list of fields, newest first, and a size limit;
    [dt_inv] is its invariant.  [insert] adds the field in front and may drop the oldest ones,
    [update_size] drops the oldest ones until the rest fits. *)
Class DynTableLaws (T : Type) `{DynTable T} : Type := {
  dt_inv : T -> Prop;
  dt_entries : T -> list (list Z * list Z);
  dt_make_law : forall m, fits 64 m ->
    dt_inv (dt_make m) /\ dt_entries (dt_make m) = [] /\ dt_max_size (dt_make m) = m;
  dt_at_law : forall t i, 1 <= i ->
    dt_at t i = match dt_entries t !! Z.to_nat (i - 1) with
                | Some f => Ok f
                | None => Throw (runtime_error "Invalid index")
                end;
  dt_insert_law : forall t n v, dt_inv t -> fsize (n, v) + ftotal (dt_entries t) < 2 ^ 64 ->
    exists t' k, dt_insert t n v = Ok t' /\ dt_inv t' /\
      dt_entries t' = (n, v) :: take k (dt_entries t) /\ dt_max_size t' = dt_max_size t;
  dt_update_size_law : forall t m, dt_inv t -> fits 64 m ->
    exists t' k, dt_update_size t m = Ok t' /\ dt_inv t' /\
      dt_entries t' = take k (dt_entries t) /\ ftotal (dt_entries t') <= m /\ dt_max_size t' = m;
}.

(** The fields of a list of records. *)
Definition fields (l : list DynamicTable.record) : list (list Z * list Z) :=
  (fun r => (DynamicTable.name r, DynamicTable.value r)) <$> l.

Definition entries (t : DynamicTable.dynamic_table) : list (list Z * list Z) :=
  fields (DynamicTable.table t).

Lemma ftotal_fields l : ftotal (fields l) = DynamicTable.total l.
Proof. induction l as [|r l IH]; [done|]. simpl. by rewrite IH. Qed.

Lemma fields_take l k : fields (take k l) = take k (fields l).
Proof. apply fmap_take. Qed.

Lemma at_entries t i :
  1 <= i ->
  DynamicTable.at_ t i = match entries t !! Z.to_nat (i - 1) with
                         | Some f => Ok f
                         | None => Throw (runtime_error "Invalid index")
                         end.
Proof.
  intros Hi. unfold DynamicTable.at_, entries, fields. rewrite list_lookup_fmap.
  destruct (Z.leb_spec i (Z.of_nat (length (DynamicTable.table t)))).
  - rewrite (proj2 (Z.leb_le _ _)) by done.
    destruct (lookup_lt_is_Some_2 (DynamicTable.table t) (Z.to_nat (i - 1))) as [r ->]; [lia|done].
  - by rewrite lookup_ge_None_2 by lia.
Qed.

#[global, refine] Instance dynamic_table_laws : DynTableLaws DynamicTable.dynamic_table := {|
  dt_inv := DynamicTable.table_ok;
  dt_entries := entries;
|}.
Proof.
  - intros m Hm. by split_and!.
  - exact at_entries.
  - intros t n v Hok. unfold entries. rewrite ftotal_fields. intros Hlt.
    destruct (DynamicTable.dynamic_insert_spec t n v Hok Hlt) as [Heq Hok'].
    eexists _, _. split; [exact Heq|]. split; [exact Hok'|]. cbn. by rewrite fields_take.
  - intros t m Hok Hm. destruct (DynamicTable.dynamic_update_size_spec t m Hok Hm) as [Heq Hok'].
    eexists _, _. split; [exact Heq|]. split; [exact Hok'|]. unfold entries. cbn [DynamicTable.table].
    rewrite ftotal_fields, fields_take. split_and!; [done| |done].
    apply DynamicTable.keep_count_bound. by destruct Hm.
Defined.

#[global, refine] Instance indexed_table_laws :
  DynTableLaws IndexedDynamicTable.indexed_dynamic_table := {|
  dt_inv := IndexedDynamicTable.index_ok;
  dt_entries t := entries (IndexedDynamicTable.base t);
|}.
Proof.
  - intros m Hm. split; [by apply IndexedDynamicTable.make_indexed_ok|done].
  - intros t. apply at_entries.
  - intros t n v Hok. unfold entries. rewrite ftotal_fields. intros Hlt.
    destruct (IndexedDynamicTable.indexed_insert_spec t n v Hok Hlt) as (s & Heq & Hok').
    eexists _, _. split; [exact Heq|]. split; [exact Hok'|]. cbn. by rewrite fields_take.
  - intros t m Hok Hm. destruct (IndexedDynamicTable.indexed_update_size_spec t m Hok Hm) as (s & Heq & Hok').
    eexists _, _. split; [exact Heq|]. split; [exact Hok'|]. unfold entries.
    cbn [DynamicTable.table IndexedDynamicTable.base].
    rewrite ftotal_fields, fields_take. split_and!; [done| |done].
    apply DynamicTable.keep_count_bound. by destruct Hm.
Defined.

Section laws.
Context {T : Type} `{DynTableLaws T}.
Implicit Types t : hpack_table T.

Lemma at_static t i : 1 <= i <= StaticTable.size -> at_ t i = StaticTable.at_ i.
Proof.
  intros Hi. unfold at_. rewrite (proj2 (Z.eqb_neq _ _)) by lia.
  by rewrite (proj2 (Z.leb_le _ _)) by lia.
Qed.

Lemma at_dynamic t i :
  1 <= i -> at_ t (i + StaticTable.size) = dt_at (dyn_table t) i.
Proof.
  intros Hi. assert (0 <= StaticTable.size) by (unfold StaticTable.size; lia). unfold at_.
  rewrite (proj2 (Z.eqb_neq _ _)) by lia. rewrite (proj2 (Z.leb_gt _ _)) by lia.
  f_equal. lia.
Qed.

(** Two tables with the same entries give the same answer for every index. *)
Lemma at_same_entries {T'} `{DynTableLaws T'} t (t' : hpack_table T') i :
  0 <= i -> (forall k, Z.to_nat (i - StaticTable.size - 1) = k ->
    dt_entries (dyn_table t) !! k = dt_entries (dyn_table t') !! k) ->
  at_ t i = at_ t' i.
Proof.
  intros Hi He. unfold at_. case_match; [done|]. destruct (Z.leb_spec i StaticTable.size); [done|].
  rewrite !dt_at_law by lia. by rewrite (He _ eq_refl).
Qed.

Lemma at_spec t i :
  0 <= i ->
  at_ t i =
    if i =? 0 then Throw (runtime_error "Invalid index value 0")
    else match (StaticTable.field_table ++ dt_entries (dyn_table t)) !! Z.to_nat (i - 1) with
         | Some f => Ok f
         | None => Throw (runtime_error "Invalid index")
         end.
Proof.
  intros Hi. destruct (Z.eqb_spec i 0) as [->|]; [done|].
  destruct (Z.leb_spec i StaticTable.size) as [Hs|Hd].
  - rewrite at_static by lia. unfold StaticTable.at_, StaticTable.field_at.
    rewrite (proj2 (Z.leb_le _ _)) by lia. unfold StaticTable.size in Hs.
    rewrite lookup_app_l by lia.
    destruct (lookup_lt_is_Some_2 StaticTable.field_table (Z.to_nat (i - 1))) as [f ->]; [lia|done].
  - replace i with (i - StaticTable.size + StaticTable.size) at 1 by lia.
    rewrite at_dynamic, dt_at_law by lia. unfold StaticTable.size in *.
    rewrite lookup_app_r by lia.
    by replace (Z.to_nat (i - 1) - length StaticTable.field_table)%nat
      with (Z.to_nat (i - Z.of_nat (length StaticTable.field_table) - 1)) by lia.
Qed.

(** [hpack_table::at] on the index space of RFC 7541, section 2.3.3, for either dynamic
    table: index 0 and indices past the last entry throw, 1 to 61 are the static entries and
    the following ones the dynamic entries, newest first; no index reads outside a table. *)
Theorem hpack_table_at t i :
  0 <= i ->
  at_ t i =
    if i =? 0 then Throw (runtime_error "Invalid index value 0")
    else match (StaticTable.field_table ++ dt_entries (dyn_table t)) !! Z.to_nat (i - 1) with
         | Some f => Ok f
         | None => Throw (runtime_error "Invalid index")
         end.
Proof. apply at_spec. Qed.
End laws.

Lemma hpack_table_at_witness :
  at_ (make_hpack_table (T := DynamicTable.dynamic_table) 4096) 62 =
  Throw (runtime_error "Invalid index").
Proof.
  rewrite (hpack_table_at (make_hpack_table (T := DynamicTable.dynamic_table) 4096) 62).
  - vm_compute. reflexivity.
  - discriminate.
Defined.

(** ** The encoder's lookup *)

Section lookup.
Context `{IndexedDynamicTable.SetSearch}.
Implicit Types t : encoder_table.

(** [name] is the name of a static entry. *)
Definition static_name (name : list Z) : Prop := exists v, In (name, v) StaticTable.field_table.

Lemma offset_index i :
  0 <= i < 2 ^ 31 - StaticTable.size ->
  IndexedDynamicTable.to_int (u64 (i + StaticTable.size)) = i + StaticTable.size.
Proof.
  intros Hi. change StaticTable.size with 61 in *.
  apply IndexedDynamicTable.to_int_small; [|lia].
  unfold u64, wrap. Z.div_mod_to_equations. lia.
Qed.

(** What [field_index] returns: a full match is the index of exactly this field; a match of
    a static name is the index of an entry of this name; a match of a dynamic name alone is
    not yet offset by the static entries. *)
Lemma hpack_field_index_spec t n v :
  IndexedDynamicTable.index_ok (dyn_table t) ->
  Z.of_nat (length (dt_entries (dyn_table t))) < 2 ^ 31 - StaticTable.size ->
  exists i b, field_index t n v = Ok (i, b) /\
    ((b = true /\ 1 <= i < 2 ^ 31 /\ at_ t i = Ok (n, v)) \/
     (b = false /\ static_name n /\ 1 <= i <= StaticTable.size /\ exists v', at_ t i = Ok (n, v')) \/
     (b = false /\ ~ static_name n /\
       (i = -1 \/
        (1 <= i <= Z.of_nat (length (dt_entries (dyn_table t))) /\
         exists v', dt_at (dyn_table t) i = Ok (n, v') /\ v' <> v)))).
Proof.
  intros Hok Hlen. unfold field_index. rewrite StaticTable.static_field_index.
  destruct (StaticTable.search n v) as [i b] eqn:Hs. cbn [mbind outcome_bind].
  pose proof (StaticTable.search_result _ _ _ _ Hs) as Hres.
  destruct b.
  { exists i, true. split; [done|]. left. destruct Hres as [(_ & ? & _)|(Hi & v' & Hat & Hv)];
      [done|]. rewrite at_static, Hat, (Hv eq_refl) by done.
    change StaticTable.size with 61 in Hi. by split_and!; [done|lia..|]. }
  unfold dt_field_index, indexed_table_lookup. cbn [dt_entries indexed_table_laws] in Hlen |- *.
  unfold entries, fields in Hlen |- *. rewrite length_fmap in Hlen |- *.
  destruct (IndexedDynamicTable.indexed_field_index (dyn_table t) n v Hok) as (j & c & -> & Hj);
    [change StaticTable.size with 61 in Hlen; lia|]. cbn [mbind outcome_bind].
  destruct c.
  { destruct Hj as [[_ ?]|(Hj & v' & Hat & Hv)]; [done|]. rewrite offset_index by lia.
    eexists _, true. split; [done|]. left. assert (0 <= StaticTable.size) by done.
    split_and!; [done|lia|lia|]. rewrite at_dynamic by lia. by destruct (proj1 Hv eq_refl). }
  destruct Hres as [(-> & _ & Hno)|(Hi & v' & Hat & _)]; cbn [Z.eqb negb Pos.eqb].
  - eexists _, false. split; [done|]. right; right. split_and!; [done..|].
    destruct Hj as [[-> _]|(Hj & v' & Hat & Hv)]; [by left|]. right. split; [done|].
    exists v'. split; [done|]. intros Heq. by apply Hv in Heq.
  - rewrite (proj2 (Z.eqb_neq _ _)) by lia. eexists _, false. split; [done|]. right; left.
    rewrite at_static by done. split_and!; [done| |lia..|by exists v'].
    unfold StaticTable.at_, StaticTable.field_at in Hat. case_match; [|done].
    destruct (_ !! _) as [f|] eqn:Hf in Hat; [|done]. injection Hat as ->.
    exists v'. by eapply list_elem_of_In, list_elem_of_lookup_2.
Qed.

(** [hpack_table::field_index] of the encoder: it always returns, a match flagged as full
    is the index of exactly this field in the peer's index space, and an unflagged match of a
    static name is the index of an entry with this name. *)
Theorem hpack_field_index_sound t n v :
  IndexedDynamicTable.index_ok (dyn_table t) ->
  Z.of_nat (length (dt_entries (dyn_table t))) < 2 ^ 31 - StaticTable.size ->
  exists i b, field_index t n v = Ok (i, b) /\
    (b = true -> at_ t i = Ok (n, v)) /\
    (b = false -> static_name n -> exists v', at_ t i = Ok (n, v')).
Proof.
  intros Hok Hlen. destruct (hpack_field_index_spec t n v Hok Hlen) as (i & b & Hf & Hcase).
  exists i, b. split; [done|].
  destruct Hcase as [(-> & _ & ?)|[(-> & _ & _ & ?)|(-> & ? & _)]]; by split.
Qed.

(** For a name found only in the dynamic table the offset by the 61 static entries is
    missing: with "x-a: 1" as the newest entry, the name "x-a" is at index 62, and
    [field_index] returns 1, the index of ":authority". *)
Theorem hpack_field_index_no_offset :
  exists d, dt_insert (dt_make (T := IndexedDynamicTable.indexed_dynamic_table) 4096)
      (str "x-a") (str "1") = Ok d /\
    field_index (HpackTable d) (str "x-a") (str "0") = Ok (1, false) /\
    at_ (HpackTable d) 1 = Ok (str ":authority", []) /\
    at_ (HpackTable d) 62 = Ok (str "x-a", str "1").
Proof.
  eexists. split; [vm_compute; reflexivity|].
  split; [|split; vm_compute; reflexivity].
  unfold field_index. rewrite StaticTable.static_field_index.
  change (StaticTable.search (str "x-a") (str "0")) with (-1, false).
  cbn [mbind outcome_bind]. unfold dt_field_index, indexed_table_lookup.
  unfold IndexedDynamicTable.field_index. cbn [dyn_table IndexedDynamicTable.index_set].
  rewrite IndexedDynamicTable.lower_bound_all by reflexivity. reflexivity.
Qed.
End lookup.

Lemma hpack_field_index_sound_witness :
  exists i b, field_index (make_hpack_table 4096) (str ":method") (str "GET") = Ok (i, b) /\
    (b = true -> at_ (make_hpack_table (T := IndexedDynamicTable.indexed_dynamic_table) 4096) i
                 = Ok (str ":method", str "GET")).
Proof.
  destruct (hpack_field_index_sound
    (make_hpack_table (T := IndexedDynamicTable.indexed_dynamic_table) 4096)
    (str ":method") (str "GET")) as (i & b & H1 & H2 & _).
  - apply IndexedDynamicTable.make_indexed_ok. by split.
  - vm_compute. reflexivity.
  - by exists i, b.
Defined.
