(* ===== verification/Encoder.v ===== *)
(** * HPACK encoder (hpack/encoder.h, hpack/encoder.cpp)

    [encode] writes a list of header fields as HPACK representations until the size limit
    is reached and returns the buffers and the number of fields written. *)
From S2P Require Import Prelude Utils Buffer Constants HeaderField.
From S2P Require Streambuf Integer Huffman HString EncoderStream.
From S2P Require Import IndexedDynamicTable HpackTable.
Import EncoderStream (encoder_stream, encoder_stream_new).

Record encoder_config : Type := EncoderConfig {
  init_table_size : Z;
  max_table_size : Z;
  max_header_list_size : Z;
  min_huffman_rate : Z;
  min_dyntable_value_rate : Z;
}.

Definition default_config : encoder_config := EncoderConfig 4096 (4096 * 4) 0 90 90.

Record encoder : Type := Encoder {
  config : encoder_config;
  table : encoder_table;
}.

(** [encoder::encoder]. *)
Definition make_encoder : encoder :=
  Encoder default_config (make_hpack_table (init_table_size default_config)).

Definition set_config (e : encoder) (conf : encoder_config) : encoder := Encoder conf (table e).

(** [estimate_string_size]: the Huffman form is taken when it is shorter, and for strings of
    ten bytes or more only when it saves enough. The product is a 32-bit one. *)
Definition estimate_string_size (conf : encoder_config) (src : list Z) : Z * string_flag :=
  let encoded_bit_len := Huffman.estimate_len src in
  let encoded_bytes_len := u32 (ceil_order2 encoded_bit_len 3 / 8) in
  let src_len := Z.of_nat (length src) in
  if (encoded_bytes_len <? src_len) &&
     ((src_len <? 10) || (u32 (100 * encoded_bytes_len) / src_len <=? min_huffman_rate conf))
  then (encoded_bytes_len, ENCODED)
  else (u32 src_len, INPLACE).

(** The variables of the loop of [encode]. *)
Record enc_state : Type := EncState {
  st_table : encoder_table;
  out : encoder_stream;
  bytes_left : Z;
  encoded_fields : Z;
}.

(** How an iteration ends: [continue] or [break]. *)
Inductive flow : Type := Continue | Break.

(** [command cmd = ...] for a field sent as a literal. *)
Definition literal_cmd (type : index_type) : command :=
  match type with
  | DEFAULT => LITERAL_INCREMENTAL_INDEX
  | WITHOUT_INDEX => LITERAL_WITHOUT_INDEX
  | NEVER_INDEX => LITERAL_NEVER_INDEX
  end.

Section encode.
Context `{SetSearch} (fresh : Z -> Z).

(** A field that is in the table. *)
Definition encode_indexed (index : Z) (st : enc_state) : outcome (enc_state * flow) :=
  encoded_index ← Integer.encode_cmd INDEX index;
  let field_size := u32 (0 + Integer.er_length encoded_index) in
  if bytes_left st <? field_size then Ok (st, Break)
  else
    '(o, _) ← EncoderStream.push_back fresh (Integer.as_span encoded_index) (out st);
    Ok (EncState (st_table st) o (u64 (bytes_left st - field_size)) (u64 (encoded_fields st + 1)),
        Continue).

(** A literal whose name is in the table. *)
Definition encode_named (conf : encoder_config) (cmd : command) (index : Z) (f : header_field)
    (st : enc_state) : outcome (enc_state * flow) :=
  name_index ← Integer.encode_cmd cmd index;
  let field_size := u32 (0 + Integer.er_length name_index) in
  if bytes_left st <? field_size then Ok (st, Break) else
  let value_sz := estimate_string_size conf (m_value f) in
  let field_size := u32 (field_size + value_sz.1) in
  if bytes_left st <? field_size then Ok (st, Break) else
  encoded_value_size ← Integer.encode_flag value_sz.2 value_sz.1;
  let field_size := u32 (field_size + Integer.er_length encoded_value_size) in
  if bytes_left st <? field_size then Ok (st, Break) else
  '(o, _) ← EncoderStream.push_back fresh (Integer.as_span name_index) (out st);
  o ← EncoderStream.write_string fresh value_sz encoded_value_size (m_value f) o;
  t ← (if bool_decide (cmd = LITERAL_INCREMENTAL_INDEX)
       then HpackTable.insert (st_table st) (m_name f) (m_value f) else Ok (st_table st));
  Ok (EncState t o (u64 (bytes_left st - field_size)) (u64 (encoded_fields st + 1)), Continue).

(** A literal with both strings. *)
Definition encode_literal (conf : encoder_config) (cmd : command) (f : header_field)
    (st : enc_state) : outcome (enc_state * flow) :=
  let name_sz := estimate_string_size conf (m_name f) in
  let field_size := u32 (0 + name_sz.1) in
  if bytes_left st <? field_size then Ok (st, Break) else
  encoded_name_size ← Integer.encode_flag name_sz.2 name_sz.1;
  let field_size := u32 (field_size + Integer.er_length encoded_name_size) in
  if bytes_left st <? field_size then Ok (st, Break) else
  let value_sz := estimate_string_size conf (m_value f) in
  let field_size := u32 (field_size + value_sz.1) in
  if bytes_left st <? field_size then Ok (st, Break) else
  encoded_value_size ← Integer.encode_flag value_sz.2 value_sz.1;
  let field_size := u32 (field_size + Integer.er_length encoded_value_size) in
  if bytes_left st <? field_size then Ok (st, Break) else
  let v := cmd_value (cmd_info cmd) in
  '(o, _) ← EncoderStream.push_back fresh [v] (out st);
  o ← EncoderStream.write_string fresh name_sz encoded_name_size (m_name f) o;
  o ← EncoderStream.write_string fresh value_sz encoded_value_size (m_value f) o;
  Ok (EncState (st_table st) o (u64 (bytes_left st - field_size)) (u64 (encoded_fields st + 1)),
      Continue).

(** The body of the loop. *)
Definition encode_field (conf : encoder_config) (f : header_field) (st : enc_state)
  : outcome (enc_state * flow) :=
  '(i, has_value) ← field_index (st_table st) (m_name f) (m_value f);
  let has_value := if bool_decide (m_type f = DEFAULT) then has_value else false in
  if negb (i =? -1) && has_value then encode_indexed i st
  else
    let cmd := literal_cmd (m_type f) in
    if negb (i =? -1) then encode_named conf cmd i f st
    else encode_literal conf cmd f st.

(** [for (const auto &f : fields)]. *)
Fixpoint encode_loop (conf : encoder_config) (fields : list header_field) (st : enc_state)
  : outcome enc_state :=
  match fields with
  | [] => Ok st
  | f :: fields =>
      '(st, fl) ← encode_field conf f st;
      match fl with
      | Continue => encode_loop conf fields st
      | Break => Ok st
      end
  end.

Definition encode (e : encoder) (fields : list header_field) (size_limit : Z)
  : outcome (encoder * (list buffer * Z)) :=
  st ← encode_loop (config e) fields
         (EncState (table e) (encoder_stream_new size_limit) size_limit 0);
  Ok (Encoder (config e) (st_table st),
      ((EncoderStream.flush (out st)).1, encoded_fields st)).
End encode.

(** ** A string on the wire *)

(** Whether the decoder can read the string back: always when it is sent as is, and under
    the alignment condition of the bit reader when it is sent as Huffman codes. *)
Definition string_ok (conf : encoder_config) (s : list Z) : Prop :=
  (estimate_string_size conf s).2 = ENCODED -> HString.readable 0 s = true.
