(* ===== verification/Decoder.v ===== *)
(** * HPACK decoder (hpack/decoder.h, hpack/decoder.cpp)

    [decode] reads a header block command by command.  A command takes the remaining span
    and the fields read so far and returns the span after it; the commands that change the
    dynamic table return it too.  An exception ends the block; the fields are lost with it. *)
From S2P Require Import Prelude Memory Constants HeaderField.
From S2P Require Integer HString.
From S2P Require Import HpackTable.

Definition DefaultTableSize : Z := 4096.

Record decoder : Type := Decoder { table : decoder_table }.

Definition make_decoder : decoder := Decoder (make_hpack_table DefaultTableSize).

Definition decode_cmd (byte : Z) : command :=
  if negb (Z.land byte (cmd_value (cmd_info INDEX)) =? 0) then INDEX
  else if Z.land byte (cmd_mask (cmd_info LITERAL_INCREMENTAL_INDEX))
          =? cmd_value (cmd_info LITERAL_INCREMENTAL_INDEX) then LITERAL_INCREMENTAL_INDEX
  else if Z.land byte (cmd_value (cmd_info CHANGE_TABLE_SIZE))
          =? cmd_value (cmd_info CHANGE_TABLE_SIZE) then CHANGE_TABLE_SIZE
  else if Z.land byte (cmd_mask (cmd_info LITERAL_WITHOUT_INDEX))
          =? cmd_value (cmd_info LITERAL_WITHOUT_INDEX) then LITERAL_WITHOUT_INDEX
  else LITERAL_NEVER_INDEX.

Definition index_cmd (d : decoder) (src : span) (h : header) : outcome (decoder * span * header) :=
  index ← Integer.decode (cmd_bitlen (cmd_info INDEX)) (sp_bytes src);
  if Integer.decoded index =? 0 then Throw (runtime_error "Invalid index value")
  else
    '(name, value) ← at_ (table d) (Integer.decoded index);
    f ← make_header_field name value DEFAULT;
    src ← subspan (Integer.used_bytes index) src;
    Ok (d, src, h ++ [f]).

Definition change_table_size_cmd (d : decoder) (src : span) (h : header)
  : outcome (decoder * span * header) :=
  max_size ← Integer.decode (cmd_bitlen (cmd_info CHANGE_TABLE_SIZE)) (sp_bytes src);
  t ← update_size (table d) (Integer.decoded max_size);
  src ← subspan (Integer.used_bytes max_size) src;
  Ok (Decoder t, src, h).

Definition literal_without_index_impl (d : decoder) (src : span) (h : header) (type : index_type)
    (bits : Z) : outcome (span * header) :=
  index ← Integer.decode bits (sp_bytes src);
  src ← subspan (Integer.used_bytes index) src;
  '(src, name) ←
    (if Integer.decoded index =? 0 then
       decoded_name ← HString.decode src;
       src ← subspan (HString.used_bytes decoded_name) src;
       Ok (src, HString.str_value decoded_name)
     else
       '(name_view, _) ← at_ (table d) (Integer.decoded index);
       Ok (src, name_view));
  decoded_value ← HString.decode src;
  src ← subspan (HString.used_bytes decoded_value) src;
  f ← make_header_field name (HString.str_value decoded_value) type;
  Ok (src, h ++ [f]).

Definition literal_without_index_cmd (d : decoder) (src : span) (h : header)
  : outcome (decoder * span * header) :=
  '(src, h) ← literal_without_index_impl d src h WITHOUT_INDEX
                (cmd_bitlen (cmd_info LITERAL_WITHOUT_INDEX));
  Ok (d, src, h).

Definition literal_never_index_cmd (d : decoder) (src : span) (h : header)
  : outcome (decoder * span * header) :=
  '(src, h) ← literal_without_index_impl d src h NEVER_INDEX
                (cmd_bitlen (cmd_info LITERAL_NEVER_INDEX));
  Ok (d, src, h).

(** [h.back()] of an empty vector is undefined. *)
Definition literal_incremental_index_cmd (d : decoder) (src : span) (h : header)
  : outcome (decoder * span * header) :=
  '(src, h) ← literal_without_index_impl d src h DEFAULT
                (cmd_bitlen (cmd_info LITERAL_INCREMENTAL_INDEX));
  match last h with
  | Some f => t ← insert (table d) (m_name f) (m_value f); Ok (Decoder t, src, h)
  | None => Undefined
  end.

(** [commands[static_cast<unsigned>(cmd)]]. *)
Definition run_cmd (c : command) : decoder -> span -> header -> outcome (decoder * span * header) :=
  match c with
  | INDEX => index_cmd
  | LITERAL_INCREMENTAL_INDEX => literal_incremental_index_cmd
  | CHANGE_TABLE_SIZE => change_table_size_cmd
  | LITERAL_WITHOUT_INDEX => literal_without_index_cmd
  | LITERAL_NEVER_INDEX => literal_never_index_cmd
  end.

(** [while (!src.empty())]. *)
Fixpoint decode_loop (fuel : nat) (d : decoder) (src : span) (fields : header)
  : outcome (decoder * header) :=
  if sp_len src =? 0 then Ok (d, fields)
  else match fuel with
       | O => OutOfFuel
       | S fuel =>
           '(d, src, fields) ← run_cmd (decode_cmd (sp_get src 0)) d src fields;
           decode_loop fuel d src fields
       end.

(** Every command takes at least one byte, so the length of the block bounds the rounds. *)
Definition decode (d : decoder) (src : span) : outcome (decoder * header) :=
  decode_loop (Z.to_nat (sp_len src)) d src [].

(** ** Safety *)

(** The only sources of undefined behaviour: the Huffman bit reader and the shifts of the
    integer decoder, on some span of the same memory. *)
Definition prim_undefined (m : Z -> Z) : Prop :=
  exists s, sp_mem s = m /\
    (HString.read_huffman_str s = Undefined \/ exists b, Integer.decode b (sp_bytes s) = Undefined).

(** A span of the memory [m], at most [n] bytes long. *)
Definition within (m : Z -> Z) (n : Z) (s : span) : Prop :=
  sp_mem s = m /\ span_ok s /\ sp_len s <= n.

Section safety.
Context (m : Z -> Z).
Abbreviation U := (prim_undefined m).

Lemma subspan_post s n k :
  within m n s -> 0 <= k <= sp_len s -> post U (subspan k s) (within m (n - k)).
Proof.
  intros (Hm & [Hs1 Hs2] & Hl) Hk. unfold subspan. rewrite (proj2 (Z.leb_le _ _)) by lia. simpl.
  split; [done|]. split; [split; simpl; [lia|done]|simpl; lia].
Qed.

Lemma integer_post b s n :
  1 <= b <= 4 -> within m n s ->
  post U (Integer.decode b (sp_bytes s))
    (fun r => 1 <= Integer.used_bytes r <= sp_len s /\
              0 <= Integer.decoded r <= Integer.MAX_HPACK_INT).
Proof.
  intros Hb (Hm & Hs & Hl). pose proof (Integer.decode_post b _ Hb (sp_bytes_ok _ Hs)) as H.
  rewrite length_sp_bytes, Z2Nat.id in H by (by destruct Hs).
  destruct (Integer.decode b (sp_bytes s)) eqn:E; try done. exists s. split; [done|]. right. by exists b.
Qed.

Lemma huffman_post s :
  within m (sp_len s) s ->
  post U (HString.read_huffman_str s)
    (fun v => bytes_ok v /\ Z.of_nat (length v) <= 8 * sp_len s + 1).
Proof.
  intros (Hm & Hs & _). destruct (HString.read_huffman_str_cases s Hs) as [[v E]|E]; rewrite E; simpl.
  - apply HString.read_loop_bytes in E as [Hv Hl]; [|done]. destruct Hs. simpl in Hl. split; [done|lia].
  - exists s. auto.
Qed.

Lemma string_post s n :
  within m n s -> sp_len s < 2 ^ 32 ->
  post U (HString.decode s) (fun r => 1 <= HString.used_bytes r <= sp_len s /\
    bytes_ok (HString.str_value r) /\ Z.of_nat (length (HString.str_value r)) <= 2 ^ 36).
Proof.
  intros (Hm & Hok & _) H32. assert (Hs : within m (sp_len s) s) by (split_and!; [done..|lia]).
  unfold HString.decode. destruct (Z.eqb_spec (sp_len s) 0); [done|].
  eapply post_bind; [apply (integer_post 1 s (sp_len s)); [lia|done]|]. intros r [Hu Hd]. cbn beta.
  eapply post_bind; [apply (subspan_post s (sp_len s) (Integer.used_bytes r)); [done|lia]|].
  intros s' (Hs' & Hok' & Hl'). destruct (Z.ltb_spec (sp_len s') (Integer.decoded r)) as [|Hfit]; [done|].
  unfold subspan_count. rewrite (proj2 (Z.leb_le 0 _)), (proj2 (Z.leb_le _ (_ - 0))) by lia.
  cbn [andb mbind outcome_bind]. set (body := Span _ _ _).
  assert (Hbody : within m (sp_len body) body).
  { split; [done|]. split; [|simpl; lia]. split; [simpl; lia|]. apply Hok'. }
  eapply (post_bind _ _ _ (fun v => bytes_ok v /\ Z.of_nat (length v) <= 8 * sp_len body + 1)).
  - destruct (negb _); [by apply huffman_post|]. simpl. split; [apply sp_bytes_ok, Hbody|].
    rewrite length_sp_bytes. simpl. lia.
  - intros v [Hv Hlen]. cbn [post HString.used_bytes HString.str_value]. unfold u32.
    simpl in Hlen. rewrite wrap_small by (unfold fits; lia). split_and!; [lia..|done|lia].
Qed.

(** The invariant of the decoder's table, with [room] bytes left below the bound that
    keeps every size computation exact. *)
Definition dec_ok (room : Z) (d : decoder) : Prop :=
  dt_inv (dyn_table (table d)) /\ ftotal (dt_entries (dyn_table (table d))) + room < 2 ^ 60.

(** The size of a decoded field. *)
Definition sized (f : header_field) : Prop :=
  Z.of_nat (length (m_name f)) + Z.of_nat (length (m_value f)) <= MAX_FIELD_BYTES.

Lemma make_header_field_post n v t :
  Z.of_nat (length n) + Z.of_nat (length v) < 2 ^ 61 ->
  post U (make_header_field n v t) sized.
Proof.
  intros H. unfold make_header_field. rewrite check_max_size_spec by done.
  by destruct (Z.leb_spec (Z.of_nat (length n) + Z.of_nat (length v)) MAX_FIELD_BYTES).
Qed.

(** A table read returns a field of the static or of the dynamic table. *)
Lemma at_post d i room :
  dec_ok room d -> 0 <= room -> 0 <= i ->
  post U (at_ (table d) i) (fun f => fsize f < 2 ^ 60).
Proof.
  intros [_ Hr] Hroom Hi0. rewrite at_spec by done. destruct (i =? 0); [done|].
  destruct (_ !! _) as [f|] eqn:Hf; [|done]. apply list_elem_of_lookup_2, elem_of_app in Hf as [Hf|Hf].
  - simpl. assert (forallb (fun f => fsize f <? 100) StaticTable.field_table = true) as Hall
      by (vm_compute; reflexivity).
    rewrite forallb_forall in Hall. apply list_elem_of_In, Hall in Hf. lia.
  - simpl. apply ftotal_elem in Hf. lia.
Qed.

(** What a command does: it takes at least a byte, adds at most one field and keeps the
    table's invariant. *)
Definition FIELD_ROOM : Z := MAX_FIELD_BYTES + 32.

Definition step_ok (room n : Z) (h : header) (r : decoder * span * header) : Prop :=
  let '(d', src', h') := r in
  within m (n - 1) src' /\ dec_ok (room - FIELD_ROOM) d' /\
  exists k, h' = h ++ k /\ (length k <= 1)%nat /\ Forall sized k.

Lemma dec_ok_weaken room room' d : room' <= room -> dec_ok room d -> dec_ok room' d.
Proof. intros Hr [? ?]. split; [done|lia]. Qed.

Lemma within_weaken n n' s : n <= n' -> within m n s -> within m n' s.
Proof. intros Hn (? & ? & ?). split_and!; [done..|lia]. Qed.

Lemma index_cmd_post room n d src h :
  dec_ok room d -> FIELD_ROOM <= room -> within m n src ->
  post U (index_cmd d src h) (step_ok room n h).
Proof.
  intros Hd Hroom Hsrc. unfold FIELD_ROOM, MAX_FIELD_BYTES in *. unfold index_cmd.
  eapply post_bind; [apply (integer_post 1 src n); [lia|done]|]. intros r [Hu Hv]. cbn beta.
  destruct (_ =? 0); [done|].
  eapply post_bind; [apply (at_post d _ room); [done|lia..]|]. intros [nm v] Hf. cbn beta.
  unfold fsize in Hf. simpl in Hf.
  eapply post_bind; [apply make_header_field_post; lia|]. intros f Hs. cbn beta.
  eapply post_bind; [apply (subspan_post src n); [done|lia]|]. intros src' Hsrc'. cbn.
  split_and!; [by eapply within_weaken; [|done]; lia|by eapply dec_ok_weaken; [|done]; unfold FIELD_ROOM, MAX_FIELD_BYTES; lia|].
  exists [f]. split; [done|]. split; [simpl; lia|]. by apply Forall_singleton.
Qed.

Lemma change_table_size_cmd_post room n d src h :
  dec_ok room d -> FIELD_ROOM <= room -> within m n src ->
  post U (change_table_size_cmd d src h) (step_ok room n h).
Proof.
  intros [Hinv Htot] Hroom Hsrc. unfold change_table_size_cmd.
  eapply post_bind; [apply (integer_post 3 src n); [lia|done]|]. intros r [Hu Hv]. cbn beta.
  unfold update_size.
  destruct (dt_update_size_law (dyn_table (table d)) (Integer.decoded r) Hinv)
    as (t' & k & -> & Hinv' & He & _ & _); [unfold fits, Integer.MAX_HPACK_INT in *; lia|].
  cbn [mbind outcome_bind].
  eapply post_bind; [apply (subspan_post src n); [done|lia]|]. intros src' Hsrc'. cbn.
  split_and!; [by eapply within_weaken; [|done]; lia| |].
  - split; [done|]. cbn [dyn_table table]. rewrite He.
    pose proof (ftotal_take k (dt_entries (dyn_table (table d)))).
    unfold FIELD_ROOM, MAX_FIELD_BYTES. lia.
  - exists []. rewrite app_nil_r. split_and!; [done|simpl; lia|constructor].
Qed.

Lemma name_post d src n room index :
  dec_ok room d -> 0 <= room -> within m n src -> n < 2 ^ 32 -> 0 <= index ->
  post U (if index =? 0 then
       decoded_name ← HString.decode src;
       src ← subspan (HString.used_bytes decoded_name) src;
       Ok (src, HString.str_value decoded_name)
     else
       '(name_view, _) ← at_ (table d) index;
       Ok (src, name_view))
    (fun r => within m n r.1 /\ Z.of_nat (length r.2) < 2 ^ 60).
Proof.
  intros Hd Hroom Hsrc Hn Hi. pose proof Hsrc as (_ & _ & Hlen). destruct (index =? 0).
  - eapply post_bind; [apply (string_post src n); [done|lia]|]. intros r (Hu & _ & Hl). cbn beta.
    eapply post_bind; [apply (subspan_post src n); [done|lia]|]. intros src' Hsrc'. cbn.
    split; [by eapply within_weaken; [|done]; lia|lia].
  - eapply post_bind; [apply (at_post d _ room); [done|lia..]|]. intros [nm v] Hf. cbn in Hf |- *.
    unfold fsize in Hf. simpl in Hf. split; [done|lia].
Qed.

Lemma literal_impl_post room n d src h type bits :
  1 <= bits <= 4 -> dec_ok room d -> 0 <= room -> within m n src -> n < 2 ^ 32 ->
  post U (literal_without_index_impl d src h type bits)
    (fun r => within m (n - 1) r.1 /\ exists f, r.2 = h ++ [f] /\ sized f).
Proof.
  intros Hb Hd Hroom Hsrc Hn. unfold literal_without_index_impl.
  eapply post_bind; [by apply (integer_post bits src n)|]. intros r [Hu Hv]. cbn beta.
  eapply post_bind; [apply (subspan_post src n); [done|lia]|]. intros src1 Hsrc1. cbn beta.
  eapply post_bind.
  { apply (name_post d src1 (n - 1) room); [done..| |lia|lia]. by eapply within_weaken; [|done]; lia. }
  intros [src2 nm] [Hsrc2 Hnm]. cbn [fst snd] in Hsrc2, Hnm. pose proof Hsrc2 as (_ & _ & Hlen).
  eapply post_bind; [apply (string_post src2 (n - 1)); [done|lia]|]. intros s (Hu2 & _ & Hl). cbn beta.
  eapply post_bind; [apply (subspan_post src2 (n - 1)); [done|lia]|]. intros src3 Hsrc3. cbn beta.
  eapply post_bind; [apply make_header_field_post; lia|]. intros f Hf. cbn.
  split; [by eapply within_weaken; [|done]; lia|by exists f].
Qed.

Lemma run_cmd_post c room n d src h :
  dec_ok room d -> FIELD_ROOM <= room -> within m n src -> n < 2 ^ 32 ->
  post U (run_cmd c d src h) (step_ok room n h).
Proof.
  intros Hd Hroom Hsrc Hn. pose proof Hroom as Hroom'. unfold FIELD_ROOM, MAX_FIELD_BYTES in Hroom'.
  assert (Hlit : forall type bits, 1 <= bits <= 4 ->
    post U ('(src, h) ← literal_without_index_impl d src h type bits; Ok (d, src, h)) (step_ok room n h)).
  { intros type bits Hb. eapply post_bind; [apply (literal_impl_post room n); [done..|lia|done|done]|].
    intros [src' h'] [Hs' (f & Hh & Hf)]. cbn in Hs', Hh |- *. split_and!; [done| |].
    - eapply dec_ok_weaken; [|done]. unfold FIELD_ROOM, MAX_FIELD_BYTES. lia.
    - exists [f]. split; [done|]. split; [simpl; lia|by apply Forall_singleton]. }
  destruct c; cbn [run_cmd]; [by apply index_cmd_post| |by apply change_table_size_cmd_post|by apply Hlit..].
  unfold literal_incremental_index_cmd.
  eapply post_bind; [apply (literal_impl_post room n); [done..|lia|done|done]|].
  intros [src' h'] [Hs' (f & Hh & Hf)]. cbn [fst snd] in Hs', Hh. subst h'. rewrite last_snoc.
  destruct Hd as [Hinv Htot]. unfold insert. unfold sized, MAX_FIELD_BYTES in Hf.
  destruct (dt_insert_law (dyn_table (table d)) (m_name f) (m_value f) Hinv)
    as (t' & k & -> & Hinv' & He & _); [unfold fsize; simpl fst; simpl snd; lia|].
  cbn [mbind outcome_bind post]. split_and!; [done| |].
  - split; [done|]. cbn [dyn_table table]. rewrite He. cbn [ftotal fold_right].
    fold (ftotal (take k (dt_entries (dyn_table (table d))))).
    pose proof (ftotal_take k (dt_entries (dyn_table (table d)))).
    unfold fsize, FIELD_ROOM, MAX_FIELD_BYTES. simpl fst. simpl snd. lia.
  - exists [f]. split; [done|]. split; [simpl; lia|by apply Forall_singleton].
Qed.

Lemma decode_block_post fuel : forall room n d src h,
  dec_ok room d -> FIELD_ROOM * n <= room -> 0 <= n -> within m n src -> n < 2 ^ 32 ->
  (Z.to_nat n <= fuel)%nat ->
  post U (decode_loop fuel d src h) (fun '(d', h') =>
    dec_ok (room - FIELD_ROOM * n) d' /\
    exists k, h' = h ++ k /\ Z.of_nat (length k) <= n /\ Forall sized k).
Proof.
  unfold FIELD_ROOM, MAX_FIELD_BYTES.
  induction fuel as [|fuel IH]; intros room n d src h Hd Hroom Hn Hsrc H32 Hfuel; cbn [decode_loop];
    pose proof Hsrc as (_ & [Hpos _] & Hlen); destruct (Z.eqb_spec (sp_len src) 0) as [Hz|Hz].
  1, 3: split; [eapply dec_ok_weaken; [|done]; lia|]; exists []; rewrite app_nil_r;
    split_and!; [done|simpl; lia|constructor].
  { lia. }
  eapply post_bind.
  { apply (run_cmd_post _ room n); [done| |done..]. unfold FIELD_ROOM, MAX_FIELD_BYTES. lia. }
  intros [[d1 src1] h1] (Hsrc1 & Hd1 & k1 & -> & Hk1 & Hf1). unfold FIELD_ROOM, MAX_FIELD_BYTES in Hd1.
  eapply post_weaken; [apply (IH _ (n - 1) d1 src1 (h ++ k1) Hd1); [lia..|done|lia|lia]|done|].
  intros [d' h'] (Hd' & k & -> & Hk & Hf). split; [eapply dec_ok_weaken; [|done]; lia|].
  exists (k1 ++ k). rewrite app_assoc, length_app. split_and!; [done|lia|by apply Forall_app].
Qed.
End safety.

(** C7: Decoding any header block is safe: on every input of less than 4 GiB and from every
    table within its invariant, [decoder::decode] ends; it returns at most one field per input
    byte, each within the size limit, and keeps the table's invariant; and the only undefined
    behaviour it can reach is the shift of the Huffman bit reader or of the integer decoder
    (every subspan, table and vector access of the commands is in range). *)
Theorem decode_safe d src :
  span_ok src -> sp_len src < 2 ^ 32 -> dec_ok (FIELD_ROOM * sp_len src) d ->
  post (prim_undefined (sp_mem src)) (decode d src) (fun '(d', h) =>
    dec_ok 0 d' /\ Z.of_nat (length h) <= sp_len src /\ Forall sized h).
Proof.
  intros Hs H32 Hd. eapply post_weaken;
    [apply (decode_block_post (sp_mem src) _ _ (sp_len src) d src [] Hd); [lia|by destruct Hs| |done|lia]|done|].
  - split_and!; [done..|lia].
  - intros [d' h] (Hd' & k & -> & Hk & Hf). split_and!; [|done..].
    eapply dec_ok_weaken; [|done]. lia.
Qed.

Lemma decode_safe_witness :
  post (prim_undefined (sp_mem (span_of (fun _ => 0) 9 [0x82; 0x86; 0x84])))
    (decode make_decoder (span_of (fun _ => 0) 9 [0x82; 0x86; 0x84])) (fun '(d', h) =>
    dec_ok 0 d' /\ Z.of_nat (length h) <= 3 /\ Forall sized h).
Proof.
  apply (decode_safe make_decoder (span_of (fun _ => 0) 9 [0x82; 0x86; 0x84])).
  - apply span_of_ok; [by split|by repeat constructor].
  - reflexivity.
  - split; [by split_and!|reflexivity].
Defined.
