(* ===== verification/HpackSync.v ===== *)
(** * Agreement of the encoder's and the decoder's dynamic tables

    The two tables evict by different rules ([indexed_dynamic_table::insert] and
    [dynamic_table::insert] compute different sizes to shrink to, and they differ for an
    entry above the size limit).  [sync] is the relation that both insertions keep and that
    makes every index the encoder sends mean the same field to the decoder. *)
From S2P Require Import Prelude.
From S2P Require HeaderField Decoder.
From S2P Require Import DynamicTable IndexedDynamicTable HpackTable.

Abbreviation enc_insert := IndexedDynamicTable.insert.
Abbreviation dec_insert := DynamicTable.insert.
Abbreviation FIELD_ROOM := Decoder.FIELD_ROOM.

(** The fields of the encoder's table. *)
Definition enc_entries (te : indexed_dynamic_table) : list (list Z * list Z) := entries (base te).

(** Either the same entries, or the encoder has only an entry above the size limit, behind
    which the decoder still has older ones. *)
Definition same_entries (max : Z) (e d : list (list Z * list Z)) : Prop :=
  e = d \/ exists big rest, e = [big] /\ d = big :: rest /\ max < fsize big.

Record sync (room : Z) (te : indexed_dynamic_table) (td : dynamic_table) : Prop := {
  sync_enc : index_ok te;
  sync_dec : table_ok td;
  sync_room : ftotal (entries td) + room < 2 ^ 60;
  sync_max : hpack_max_size td = hpack_max_size (base te);
  sync_max_le : hpack_max_size td <= 2 ^ 28;
  sync_small : ftotal (enc_entries te) <= hpack_max_size td \/ (length (enc_entries te) <= 1)%nat;
  sync_static : Forall (fun f => static_name f.1) (enc_entries te);
  sync_entries : same_entries (hpack_max_size td) (enc_entries te) (entries td);
}.

(** ** Evictions depend on the fields only *)

Lemma total_take_fields l k : total (take k l) = ftotal (take k (fields l)).
Proof. by rewrite <- fields_take, ftotal_fields. Qed.

Lemma exact_prefix_fields l l' rq n :
  fields l = fields l' -> exact_prefix l rq n = exact_prefix l' rq n.
Proof.
  intros H. induction n as [|n IH]; [done|]. simpl. by rewrite !total_take_fields, H, IH.
Qed.

Lemma keep_count_fields l l' rq : fields l = fields l' -> keep_count l rq = keep_count l' rq.
Proof.
  intros H. unfold keep_count. rewrite <- !ftotal_fields, H, (exact_prefix_fields l l') by done.
  assert (length l = length l') as -> by (apply (f_equal length) in H; revert H;
    unfold fields; by rewrite !length_fmap). done.
Qed.

Lemma exact_prefix_none l rq n :
  (forall k, (0 < k < n)%nat -> total (take k l) <> rq) -> exact_prefix l rq n = 0%nat.
Proof.
  induction n as [|n IH]; intros H; [done|]. simpl. destruct (Z.eqb_spec (total (take n l)) rq).
  - destruct n as [|n]; [done|]. exfalso. by apply (H (S n)); [lia|].
  - apply IH. intros k Hk. apply H. lia.
Qed.

(** Nothing stays when the newest entry alone is above the requested size. *)
Lemma keep_count_front r l rq : rq < rsize r -> keep_count (r :: l) rq = 0%nat.
Proof.
  intros H. unfold keep_count. pose proof (total_nonneg l).
  rewrite (proj2 (Z.leb_gt _ _)) by (simpl; lia). apply exact_prefix_none.
  intros [|k] Hk; [lia|]. simpl. pose proof (total_nonneg (take k l)). lia.
Qed.

Lemma keep_count_zero l : keep_count l 0 = 0%nat.
Proof. destruct l as [|r l]; [done|]. apply keep_count_front. pose proof (rsize_pos r). lia. Qed.

(** The fields after [insert], for both tables. *)
Lemma enc_insert_fields te n v :
  index_ok te -> fsize (n, v) + ftotal (enc_entries te) < 2 ^ 64 ->
  exists te', enc_insert te n v = Ok te' /\ index_ok te' /\
    hpack_max_size (base te') = hpack_max_size (base te) /\
    enc_entries te' = (n, v) :: take (keep_count (table (base te))
      (IndexedDynamicTable.insert_request te (fsize (n, v)))) (enc_entries te).
Proof.
  intros Hok. unfold enc_entries, entries. rewrite ftotal_fields. intros Hlt.
  destruct (IndexedDynamicTable.indexed_insert_spec te n v Hok Hlt) as (s & Heq & Hok').
  eexists. split; [exact Heq|]. split; [exact Hok'|]. split; [done|]. cbn. by rewrite fields_take.
Qed.

Lemma dec_insert_fields td n v :
  table_ok td -> fsize (n, v) + ftotal (entries td) < 2 ^ 64 ->
  exists td', dec_insert td n v = Ok td' /\ table_ok td' /\
    hpack_max_size td' = hpack_max_size td /\
    entries td' = (n, v) :: take (keep_count (table td)
      (DynamicTable.insert_request td (fsize (n, v)))) (entries td).
Proof.
  intros Hok. unfold entries. rewrite ftotal_fields. intros Hlt.
  destruct (DynamicTable.dynamic_insert_spec td n v Hok Hlt) as (Heq & Hok').
  eexists. split; [exact Heq|]. split; [exact Hok'|]. split; [done|]. cbn. by rewrite fields_take.
Qed.

(** The entries kept by both insertions, by the size [h] of the new field. *)
Lemma kept_fits te td h room :
  sync room te td -> 32 <= h -> FIELD_ROOM <= room -> h <= FIELD_ROOM -> h <= hpack_max_size td ->
  let ke := keep_count (table (base te)) (IndexedDynamicTable.insert_request te h) in
  let kd := keep_count (table td) (DynamicTable.insert_request td h) in
  take ke (enc_entries te) = take kd (entries td) /\
  ftotal (take ke (enc_entries te)) <= hpack_max_size td - h.
Proof.
  intros S Hh Hr Hhr Hle. pose proof (sync_max _ _ _ S) as Hmax. pose proof (sync_max_le _ _ _ S).
  assert (Hreq : IndexedDynamicTable.insert_request te h = hpack_max_size td - h).
  { unfold IndexedDynamicTable.insert_request. rewrite <- Hmax, (proj2 (Z.ltb_ge _ _)) by lia.
    unfold u64. apply wrap_small. unfold fits. lia. }
  intros ke kd. assert (Hb : ftotal (take ke (enc_entries te)) <= hpack_max_size td - h).
  { unfold ke, enc_entries, entries. rewrite <- total_take_fields, Hreq.
    apply keep_count_bound. lia. }
  split; [|done]. clear Hb. unfold ke, kd. rewrite Hreq.
  pose proof (sync_dec _ _ _ S) as (Hs & _). pose proof (sync_room _ _ _ S) as Hroom.
  unfold Decoder.FIELD_ROOM, HeaderField.MAX_FIELD_BYTES in *.
  pose proof (total_nonneg (table td)). unfold entries in Hroom. rewrite ftotal_fields in Hroom.
  unfold DynamicTable.insert_request. rewrite Hs.
  unfold u64. rewrite !wrap_small by (unfold fits; lia).
  destruct (sync_entries _ _ _ S) as [Heq|(big & rest & He & Hd & Hbig)].
  - unfold enc_entries, entries in Heq |- *. rewrite Heq, (keep_count_fields _ _ _ Heq).
    destruct (Z.ltb_spec (hpack_max_size td) (h + total (table td))); [done|].
    unfold keep_count. rewrite !(proj2 (Z.leb_le _ _)) by lia. done.
  - unfold enc_entries, entries in He, Hd |- *.
    assert (Hfr : forall l f k rq, fields l = f :: k -> rq < fsize f -> keep_count l rq = 0%nat).
    { intros [|r l] f k rq [= <- <-] Hlt. by apply keep_count_front. }
    rewrite (Hfr _ _ _ _ He) by lia.
    assert (hpack_max_size td < h + total (table td)).
    { rewrite <- ftotal_fields, Hd. simpl. pose proof (ftotal_nonneg rest). lia. }
    rewrite (proj2 (Z.ltb_lt _ _)) by done. by rewrite (Hfr _ _ _ _ Hd) by lia.
Qed.

Lemma kept_oversize te td h room :
  sync room te td -> 32 <= h -> FIELD_ROOM <= room -> h <= FIELD_ROOM -> hpack_max_size td < h ->
  keep_count (table (base te)) (IndexedDynamicTable.insert_request te h) = 0%nat /\
  keep_count (table td) (DynamicTable.insert_request td h) = length (table td).
Proof.
  intros S Hh Hr Hhr Hlt. pose proof (sync_max _ _ _ S) as Hmax. pose proof (sync_max_le _ _ _ S).
  pose proof (sync_room _ _ _ S) as Hroom. unfold entries in Hroom. rewrite ftotal_fields in Hroom.
  unfold Decoder.FIELD_ROOM, HeaderField.MAX_FIELD_BYTES in *. split.
  - unfold IndexedDynamicTable.insert_request. rewrite <- Hmax, (proj2 (Z.ltb_lt _ _)) by lia.
    apply keep_count_zero.
  - apply insert_request_oversize; [by apply S|lia..].
Qed.

(** Inserting the same field on both sides keeps the tables in agreement. *)
Lemma sync_insert room te td n v :
  sync room te td -> FIELD_ROOM <= room -> fsize (n, v) <= FIELD_ROOM -> static_name n ->
  exists te' td', enc_insert te n v = Ok te' /\ dec_insert td n v = Ok td' /\
    sync (room - FIELD_ROOM) te' td'.
Proof.
  intros S Hr Hf Hn. assert (Hh : 32 <= fsize (n, v)) by (unfold fsize; simpl; lia).
  pose proof (sync_room _ _ _ S) as Hroom. pose proof (sync_max _ _ _ S) as Hmax.
  pose proof (ftotal_nonneg (entries td)).
  assert (Hle : ftotal (enc_entries te) <= ftotal (entries td)).
  { destruct (sync_entries _ _ _ S) as [->|(big & rest & -> & -> & _)]; [done|]. simpl.
    pose proof (ftotal_nonneg rest). lia. }
  assert (FIELD_ROOM < 2 ^ 25) by done.
  destruct (enc_insert_fields te n v) as (te' & He & Hok' & Hm' & Hent'); [apply S|lia|].
  destruct (dec_insert_fields td n v) as (td' & Hd & Hdok' & Hdm' & Hdent'); [apply S|lia|].
  exists te', td'. split; [done|]. split; [done|].
  pose proof (ftotal_take (keep_count (table td)
    (DynamicTable.insert_request td (fsize (n, v)))) (entries td)) as Htake.
  constructor; try done.
  - rewrite Hdent'. simpl. fold ftotal. unfold ftotal in Htake, Hroom |- *. lia.
  - by rewrite Hdm', Hm'.
  - rewrite Hdm'. apply S.
  - rewrite Hdm', Hent'. destruct (Z.le_gt_cases (fsize (n, v)) (hpack_max_size td)) as [Hfit|Hbig].
    + left. destruct (kept_fits te td (fsize (n, v)) room) as [_ Hb]; [done..|].
      unfold ftotal in Hb |- *. simpl. lia.
    + right. destruct (kept_oversize te td (fsize (n, v)) room) as [-> _]; [done..|]. simpl. lia.
  - rewrite Hent'. constructor; [done|]. apply Forall_take. apply S.
  - rewrite Hdm', Hent', Hdent'.
    destruct (Z.le_gt_cases (fsize (n, v)) (hpack_max_size td)) as [Hfit|Hbig].
    + left. f_equal. by apply (kept_fits te td (fsize (n, v)) room).
    + right. destruct (kept_oversize te td (fsize (n, v)) room) as [-> ->]; [done..|].
      eexists _, _. split_and!; [done..|lia].
Qed.

(** An index the encoder sends is below the limit of the integer code. *)
Lemma sync_length room te td :
  sync room te td -> Z.of_nat (length (enc_entries te)) <= 2 ^ 23.
Proof.
  intros S. pose proof (sync_max_le _ _ _ S). destruct (sync_small _ _ _ S) as [Ht|Hl]; [|lia].
  unfold enc_entries, entries in *. rewrite ftotal_fields in Ht.
  pose proof (length_total (table (base te))). unfold fields. rewrite length_fmap. lia.
Qed.

(** What the encoder sees at an index, the decoder sees too. *)
Lemma sync_at room te td i f :
  sync room te td -> 0 <= i -> at_ (HpackTable te) i = Ok f -> at_ (HpackTable td) i = Ok f.
Proof.
  intros S Hi. rewrite !at_spec by done. destruct (i =? 0); [done|].
  change (dt_entries (dyn_table (HpackTable te))) with (enc_entries te).
  change (dt_entries (dyn_table (HpackTable td))) with (entries td).
  destruct (sync_entries _ _ _ S) as [He|(big & rest & He & Hd & _)].
  - by rewrite He.
  - rewrite He, Hd. destruct (_ !! Z.to_nat (i - 1)) as [g|] eqn:Hg; [|done]. intros [= ->].
    by rewrite (prefix_lookup_Some _ (StaticTable.field_table ++ big :: rest) _ _ Hg)
      by (exists rest; by rewrite <- app_assoc).
Qed.

Lemma sync_weaken room room' te td : room' <= room -> sync room te td -> sync room' te td.
Proof. intros Hr []. constructor; try done. lia. Qed.

(** The tables of a new encoder and a new decoder. *)
Lemma sync_initial room :
  room < 2 ^ 59 -> sync room (make_indexed 4096) (make_table 4096).
Proof.
  intros Hr. constructor; cbn [make_table hpack_max_size base make_indexed].
  - by apply make_indexed_ok.
  - by split_and!.
  - change (ftotal (entries (make_table 4096))) with 0. lia.
  - done.
  - done.
  - by left.
  - constructor.
  - by left.
Qed.
