(* ===== verification/HpackCodec.v ===== *)
(** * The header codec: encoder and decoder together

    What the encoder of one end writes, the decoder of the other end reads back, block after
    block, while their dynamic tables stay in agreement ([HpackSync.sync]). *)
From S2P Require Import Prelude Memory Utils Buffer Constants HeaderField.
From S2P Require Streambuf Integer Huffman HString EncoderStream StaticTable.
From S2P Require Import IndexedDynamicTable HpackTable HpackSync.
From S2P Require Encoder Decoder.
Import Streambuf (contents, streambuf_ok).
Import Encoder (encoder_config, estimate_string_size, string_ok, enc_state, EncState, st_table,
  out, bytes_left, encoded_fields, flow, Continue, Break, literal_cmd).
Import EncoderStream (encoder_stream, stream, left).

(** ** Commands *)

Lemma decode_cmd_spec c p :
  0 <= p <= make_mask 8 (8 - cmd_bitlen (cmd_info c)) ->
  Decoder.decode_cmd (Z.lor (cmd_value (cmd_info c)) p) = c.
Proof.
  intros Hp. pose proof (Integer.mask_bounds (cmd_bitlen (cmd_info c)) ltac:(by destruct c)) as Hm.
  assert (0 <= p < 256) as Hb by lia.
  pose proof (byte_forall (fun p =>
    implb (p <=? make_mask 8 (8 - cmd_bitlen (cmd_info c)))
          (bool_decide (Decoder.decode_cmd (Z.lor (cmd_value (cmd_info c)) p) = c)))) as H.
  specialize (H ltac:(destruct c; vm_compute; reflexivity) p Hb). cbn beta in H.
  rewrite (proj2 (Z.leb_le _ _)) in H by lia. by apply bool_decide_eq_true in H.
Qed.

(** ** Strings *)

(** [w] is the wire form of the string [s]: whatever follows it and wherever it is. *)
Definition wire_string (s w : list Z) : Prop :=
  bytes_ok w /\ forall src rest, span_ok src -> sp_bytes src = w ++ rest ->
    HString.decode src = Ok (HString.DecodedString (Z.of_nat (length w)) s).

(** The stream holds bytes. *)
Definition stream_ok (o : encoder_stream) : Prop := streambuf_ok (stream o).

Section strings.
Context (fresh : Z -> Z) (Hfresh : forall i, is_byte (fresh i)) (conf : encoder_config).

(** The estimate is the length of the string as it will be written. *)
Lemma estimate_cases s :
  bytes_ok s -> Z.of_nat (length s) <= MAX_FIELD_BYTES ->
  let est := estimate_string_size conf s in
  0 <= est.1 <= Z.of_nat (length s) /\
  match est.2 with
  | ENCODED => est.1 = ceil_order2 (Huffman.estimate_len s) 3 / 8
  | INPLACE => est.1 = Z.of_nat (length s)
  end.
Proof.
  intros Hs Hl. unfold MAX_FIELD_BYTES in Hl. unfold estimate_string_size.
  pose proof (Huffman.total_bits_bounds s Hs).
  rewrite Huffman.estimate_len_total by (done || lia). set (x := ceil_order2 _ 3).
  assert (0 <= x / 8 < 2 ^ 32).
  { unfold x. rewrite ceil_order2_spec by lia. change (2 ^ 3) with 8. Z.div_mod_to_equations; lia. }
  unfold u32. rewrite (wrap_small 32 (x / 8)), (wrap_small 32 (Z.of_nat _)) by (unfold fits; lia).
  destruct (Z.ltb_spec (x / 8) (Z.of_nat (length s))); cbn [andb]; [case_match|]; cbn [fst snd]; lia.
Qed.

Lemma write_body s p g o :
  bytes_ok s -> Z.of_nat (length s) <= MAX_FIELD_BYTES -> string_ok conf s ->
  let est := estimate_string_size conf s in
  let hd := Z.lor (string_flag_value est.2) p :: g in
  0 <= p <= 127 -> bytes_ok hd -> (length g <= 4)%nat ->
  (forall rest, Integer.decode 1 (Z.lor (string_flag_value est.2) p :: g ++ rest) =
    Ok (Integer.DecodedResult (1 + Z.of_nat (length g)) est.1)) ->
  streambuf_ok o ->
  exists o' body,
    (if bool_decide (est.2 = ENCODED) then EncoderStream.encode_string fresh s o
     else Streambuf.push_back fresh s o) = Ok o' /\
    streambuf_ok o' /\ contents o' = contents o ++ body /\
    Z.of_nat (length body) = est.1 /\ wire_string s (hd ++ body).
Proof.
  intros Hs Hl Hok est hd Hp Hhd Hg Hdec Ho. pose proof (estimate_cases s Hs Hl) as [He Hc].
  unfold string_ok in Hok. fold est in He, Hc, Hok. unfold MAX_FIELD_BYTES in Hl.
  assert (Hlen : forall body : list Z, Z.of_nat (length (hd ++ body)) =
    1 + Z.of_nat (length g) + Z.of_nat (length body)) by (intros; rewrite length_app; simpl; lia).
  destruct est.2 eqn:Hflag.
  - rewrite bool_decide_false by done.
    destruct (Streambuf.push_back_spec fresh s o) as (o' & Hw & Ho' & Hcont); [done..|lia|].
    exists o', s. split_and!; [done..|]. split; [by apply Forall_app|]. intros src rest Hsrc Hb.
    rewrite Hlen. rewrite Hc in Hdec.
    apply (HString.decode_inplace src p g s rest); [done|by rewrite app_assoc|done|done|lia|done].
  - rewrite bool_decide_true by done.
    destruct (EncoderStream.encode_string_spec fresh s o) as
      (o' & body & pad & Hw & Ho' & Hcont & Hbody & Hpad & Hbits); [done..|].
    assert (Hbl : Z.of_nat (length body) = est.1).
    { pose proof (EncoderStream.encoded_length s body pad Hs ltac:(lia) Hpad Hbits).
      rewrite Hc. Z.div_mod_to_equations; lia. }
    exists o', body. split_and!; [done..|]. split; [by apply Forall_app|]. intros src rest Hsrc Hb.
    rewrite Hlen. rewrite <- Hbl in Hdec.
    apply (HString.decode_encoded src p g body rest s pad);
      [done|by rewrite app_assoc|done|done|lia|done|done|by apply Hok|done|done].
Qed.

(** A string written with its length is read back, whatever follows it. *)
Lemma write_string_spec s :
  bytes_ok s -> Z.of_nat (length s) <= MAX_FIELD_BYTES -> string_ok conf s ->
  let est := estimate_string_size conf s in
  exists er, Integer.encode_flag est.2 est.1 = Ok er /\ 1 <= Integer.er_length er <= 5 /\
    forall o, stream_ok o ->
      exists o' w, EncoderStream.write_string fresh est er s o = Ok o' /\ stream_ok o' /\
        left o' = left o /\ contents (stream o') = contents (stream o) ++ w /\
        wire_string s w /\ Z.of_nat (length w) = Integer.er_length er + est.1.
Proof.
  intros Hs Hl Hok est. pose proof (estimate_cases s Hs Hl) as [He _]. fold est in He.
  destruct (Integer.encode_flag_spec est.2 est.1) as (p & g & Her & Hp & Hb & Hg & Hdec);
    [unfold Integer.MAX_HPACK_INT, MAX_FIELD_BYTES in *; lia|].
  eexists. split; [exact Her|]. unfold Integer.er_length. cbn [Integer.as_span].
  split; [simpl length; lia|]. intros o Ho. unfold EncoderStream.write_string. cbn [Integer.as_span].
  destruct (Streambuf.push_back_spec fresh (Z.lor (string_flag_value est.2) p :: g) (stream o))
    as (o1 & -> & Ho1 & Hc1); [done..|simpl length; lia|]. cbn [mbind outcome_bind].
  destruct (write_body s p g o1 Hs Hl Hok Hp Hb Hg Hdec Ho1) as (o2 & body & Hw & Ho2 & Hc2 & Hbl & Hwire).
  fold est in Hw, Hbl, Hwire. rewrite Hw. cbn [mbind outcome_bind].
  eexists _, _. split; [done|]. split; [done|]. split; [done|]. split; [|split; [exact Hwire|]].
  - cbn [stream]. by rewrite Hc2, Hc1, app_assoc.
  - rewrite length_app. lia.
Qed.
End strings.

(** ** Representations *)

Abbreviation dec td := (Decoder.Decoder (HpackTable td)).

(** [w] is a representation of the field [f] for a decoder with the table [td], which has
    the table [td'] after it: whatever follows it and wherever it is. *)
Definition represents (td td' : DynamicTable.dynamic_table) (f : header_field) (w : list Z) : Prop :=
  bytes_ok w /\ w <> [] /\ forall src rest h, span_ok src -> sp_bytes src = w ++ rest ->
    exists src', Decoder.run_cmd (Decoder.decode_cmd (sp_get src 0)) (dec td) src h
        = Ok (dec td', src', h ++ [f]) /\ span_ok src' /\ sp_bytes src' = rest.

(** The first byte and the integer of a command. *)
Lemma encode_cmd_reads c i :
  0 <= i <= Integer.MAX_HPACK_INT ->
  exists er, Integer.encode_cmd c i = Ok er /\ 1 <= Integer.er_length er <= 5 /\
    bytes_ok (Integer.as_span er) /\ Integer.as_span er <> [] /\
    forall src rest, span_ok src -> sp_bytes src = Integer.as_span er ++ rest ->
      Decoder.decode_cmd (sp_get src 0) = c /\
      exists src', Integer.decode (cmd_bitlen (cmd_info c)) (sp_bytes src)
          = Ok (Integer.DecodedResult (Integer.er_length er) i) /\
        subspan (Integer.er_length er) src = Ok src' /\ span_ok src' /\ sp_bytes src' = rest.
Proof.
  intros Hi. destruct (Integer.encode_cmd_spec c i Hi) as (p & g & He & Hp & Hb & Hg & Hd).
  eexists. split; [exact He|]. unfold Integer.er_length. cbn [Integer.as_span].
  split_and!; [simpl; lia..|done|done|]. intros src rest Hsrc Hbytes. split.
  - destruct (sp_bytes_head src _ _ Hbytes) as [-> _]. by apply decode_cmd_spec.
  - destruct (subspan_app src _ rest Hsrc Hbytes) as (src' & Hsub & Hok & Hb' & _).
    exists src'. split_and!; [|done..]. rewrite Hbytes. cbn [app]. rewrite Hd. do 2 f_equal.
    simpl length. lia.
Qed.

Lemma represents_index td i f :
  at_ (HpackTable td) i = Ok (m_name f, m_value f) -> m_type f = DEFAULT -> field_ok f ->
  1 <= i <= Integer.MAX_HPACK_INT ->
  exists er, Integer.encode_cmd INDEX i = Ok er /\ 1 <= Integer.er_length er <= 5 /\
    represents td td f (Integer.as_span er).
Proof.
  intros Hat Ht Hf Hi. destruct (encode_cmd_reads INDEX i) as (er & He & Hl & Hb & Hn & Hr); [lia|].
  exists er. split; [done|]. split; [done|]. split; [done|]. split; [done|].
  intros src rest h Hsrc Hbytes. destruct (Hr src rest Hsrc Hbytes) as [-> (src' & Hd & Hs & Hok & Hrest)].
  exists src'. split; [|done]. cbn [Decoder.run_cmd]. unfold Decoder.index_cmd. rewrite Hd.
  cbn [mbind outcome_bind Integer.decoded Integer.used_bytes Decoder.table].
  rewrite (proj2 (Z.eqb_neq _ _)) by lia. rewrite Hat. cbn [mbind outcome_bind].
  rewrite <- Ht, make_header_field_ok by done. cbn [mbind outcome_bind]. by rewrite Hs.
Qed.

(** Running a literal command of the type of the field. *)
Lemma run_literal td td' src src' h f :
  Decoder.literal_without_index_impl (dec td) src h (m_type f)
    (cmd_bitlen (cmd_info (literal_cmd (m_type f)))) = Ok (src', h ++ [f]) ->
  (if bool_decide (m_type f = DEFAULT)
   then DynamicTable.insert td (m_name f) (m_value f) = Ok td' else td' = td) ->
  Decoder.run_cmd (literal_cmd (m_type f)) (dec td) src h = Ok (dec td', src', h ++ [f]).
Proof.
  intros Hi Ht. destruct (m_type f); cbn [literal_cmd Decoder.run_cmd] in *;
    unfold Decoder.literal_incremental_index_cmd, Decoder.literal_without_index_cmd,
      Decoder.literal_never_index_cmd; rewrite Hi; cbn [mbind outcome_bind].
  - rewrite last_snoc. unfold insert. cbn. by rewrite Ht.
  - by rewrite Ht.
  - by rewrite Ht.
Qed.

(** The string of a literal and the field built from it. *)
Lemma literal_tail f v src rest (h : header) :
  wire_string (m_value f) v -> field_ok f -> span_ok src -> sp_bytes src = v ++ rest ->
  exists src', (decoded_value ← HString.decode src;
     src ← subspan (HString.used_bytes decoded_value) src;
     g ← make_header_field (m_name f) (HString.str_value decoded_value) (m_type f);
     Ok (src, h ++ [g])) = Ok (src', h ++ [f]) /\ span_ok src' /\ sp_bytes src' = rest.
Proof.
  intros [Hv Hw] Hf Hsrc Hb. rewrite (Hw src rest) by done.
  cbn [mbind outcome_bind HString.used_bytes HString.str_value].
  destruct (subspan_app src v rest Hsrc Hb) as (src' & -> & Hok & Hb' & _).
  exists src'. cbn [mbind outcome_bind]. rewrite make_header_field_ok by done. done.
Qed.

Lemma represents_named td td' i f v' wv :
  at_ (HpackTable td) i = Ok (m_name f, v') -> field_ok f -> 1 <= i <= Integer.MAX_HPACK_INT ->
  wire_string (m_value f) wv ->
  (if bool_decide (m_type f = DEFAULT)
   then DynamicTable.insert td (m_name f) (m_value f) = Ok td' else td' = td) ->
  exists er, Integer.encode_cmd (literal_cmd (m_type f)) i = Ok er /\
    1 <= Integer.er_length er <= 5 /\ represents td td' f (Integer.as_span er ++ wv).
Proof.
  intros Hat Hf Hi Hwv Ht.
  destruct (encode_cmd_reads (literal_cmd (m_type f)) i) as (er & He & Hl & Hb & Hn & Hr); [lia|].
  exists er. split; [done|]. split; [done|]. split; [apply Forall_app; split; [done|apply Hwv]|].
  split; [by destruct (Integer.as_span er)|].
  intros src rest h Hsrc Hbytes. rewrite <- app_assoc in Hbytes.
  destruct (Hr src (wv ++ rest) Hsrc Hbytes) as [-> (src1 & Hd & Hs & Hok & Hrest)].
  destruct (literal_tail f wv src1 rest h Hwv Hf Hok Hrest) as (src2 & Htail & Hok2 & Hrest2).
  exists src2. split; [|done]. apply run_literal; [|done].
  unfold Decoder.literal_without_index_impl. rewrite Hd.
  cbn [mbind outcome_bind Integer.decoded Integer.used_bytes Decoder.table]. rewrite Hs.
  cbn [mbind outcome_bind]. rewrite (proj2 (Z.eqb_neq _ _)) by lia. rewrite Hat.
  cbn [mbind outcome_bind]. exact Htail.
Qed.

Lemma represents_literal td td' f wn wv :
  field_ok f -> wire_string (m_name f) wn -> wire_string (m_value f) wv ->
  (if bool_decide (m_type f = DEFAULT)
   then DynamicTable.insert td (m_name f) (m_value f) = Ok td' else td' = td) ->
  represents td td' f ([cmd_value (cmd_info (literal_cmd (m_type f)))] ++ wn ++ wv).
Proof.
  intros Hf [Hn Hwn] Hwv Ht.
  destruct (encode_cmd_reads (literal_cmd (m_type f)) 0) as (er & He & Hl & Hb & Hne & Hr);
    [unfold Integer.MAX_HPACK_INT; lia|].
  assert (Integer.as_span er = [cmd_value (cmd_info (literal_cmd (m_type f)))]) as Her
    by (destruct (m_type f); vm_compute in He; by injection He as <-).
  rewrite <- Her. split; [apply Forall_app; split; [done|apply Forall_app; split; [done|apply Hwv]]|].
  split; [by destruct (Integer.as_span er)|].
  intros src rest h Hsrc Hbytes. rewrite <- !app_assoc in Hbytes.
  destruct (Hr src (wn ++ wv ++ rest) Hsrc Hbytes) as [-> (src1 & Hd & Hs & Hok & Hrest)].
  destruct (subspan_app src1 wn (wv ++ rest) Hok Hrest) as (src2 & Hs2 & Hok2 & Hrest2 & _).
  destruct (literal_tail f wv src2 rest h Hwv Hf Hok2 Hrest2) as (src3 & Htail & Hok3 & Hrest3).
  exists src3. split; [|done]. apply run_literal; [|done].
  unfold Decoder.literal_without_index_impl. rewrite Hd.
  cbn [mbind outcome_bind Integer.decoded Integer.used_bytes Decoder.table]. rewrite Hs.
  cbn [mbind outcome_bind]. rewrite Z.eqb_refl, (Hwn src1 _ Hok Hrest).
  cbn [mbind outcome_bind HString.used_bytes HString.str_value]. rewrite Hs2.
  cbn [mbind outcome_bind]. exact Htail.
Qed.

(** ** One field *)

(** The fields the round trip is stated for: built by a constructor, readable, and with a
    static name when they are to be indexed (for other names the encoder asks the peer to
    index the field without indexing it itself). *)
Definition field_wf (conf : encoder_config) (f : header_field) : Prop :=
  field_ok f /\ string_ok conf (m_name f) /\ string_ok conf (m_value f) /\
  (m_type f = DEFAULT -> static_name (m_name f)).

Definition st_ok (st : enc_state) : Prop :=
  stream_ok (out st) /\ 0 <= bytes_left st <= left (out st) /\ bytes_left st < 2 ^ 64.

(** An upper bound of the size of a field on the wire. *)
Definition wire_bound (f : header_field) : Z :=
  16 + Z.of_nat (length (m_name f)) + Z.of_nat (length (m_value f)).

(** The state after a field has been written: [extra] is what the size check does not
    count. *)
Definition wrote (f : header_field) (td td' : DynamicTable.dynamic_table) (extra : Z)
    (st st' : enc_state) : Prop :=
  exists w cost, represents td td' f w /\ st_ok st' /\
    contents (stream (out st')) = contents (stream (out st)) ++ w /\
    0 <= cost <= bytes_left st /\ bytes_left st' = bytes_left st - cost /\
    Z.of_nat (length w) = cost + extra /\ Z.of_nat (length w) <= wire_bound f /\
    encoded_fields st' = u64 (encoded_fields st + 1).

Section fields.
Context `{SetSearch} (fresh : Z -> Z) (Hfresh : forall i, is_byte (fresh i)) (conf : encoder_config).

Lemma push_stream w o :
  stream_ok o -> bytes_ok w -> Z.of_nat (length w) <= left o -> Z.of_nat (length w) < 2 ^ 63 ->
  exists o', EncoderStream.push_back fresh w o = Ok (o', true) /\ stream_ok o' /\
    contents (stream o') = contents (stream o) ++ w /\ left o' = left o - Z.of_nat (length w).
Proof.
  intros Ho Hw Hl H63. unfold EncoderStream.push_back. rewrite (proj2 (Z.leb_le _ _)) by done.
  destruct (Streambuf.push_back_spec fresh w (stream o)) as (s & -> & Hs & Hc); [done..|].
  eexists. split; [done|]. by split_and!.
Qed.

(** One size check of the encoder: the field is dropped, or it fits so far. *)
Ltac size_check :=
  unfold u32; rewrite ?Z.add_0_l;
  rewrite (wrap_small 32) by (unfold fits; lia);
  match goal with |- context [Z.ltb ?a ?b] =>
    destruct (Z.ltb_spec a b); [left; split; [done|lia]|] end.

(** Everything of an iteration that ends in [break]: nothing has been written. *)
Definition breaks (f : header_field) (st : enc_state) (r : outcome (enc_state * flow)) : Prop :=
  r = Ok (st, Break) /\ bytes_left st < wire_bound f.

Lemma encode_indexed_spec i f td st :
  at_ (HpackTable td) i = Ok (m_name f, m_value f) -> m_type f = DEFAULT -> field_ok f ->
  1 <= i <= Integer.MAX_HPACK_INT -> st_ok st ->
  breaks f st (Encoder.encode_indexed fresh i st) \/
  exists st', Encoder.encode_indexed fresh i st = Ok (st', Continue) /\
    st_table st' = st_table st /\ wrote f td td 0 st st'.
Proof.
  intros Hat Ht Hf Hi (Ho & Hleft & H64). unfold breaks, Encoder.encode_indexed, wire_bound.
  destruct (represents_index td i f Hat Ht Hf Hi) as (er & -> & Hl & Hrep). cbn [mbind outcome_bind].
  unfold u32. rewrite wrap_small by (unfold fits; lia). rewrite Z.add_0_l.
  destruct (Z.ltb_spec (bytes_left st) (Integer.er_length er)); [left; split; [done|lia]|right].
  destruct (push_stream (Integer.as_span er) (out st)) as (o' & -> & Ho' & Hc & Hl');
    [done|apply Hrep|unfold Integer.er_length in *; lia..|]. cbn [mbind outcome_bind].
  eexists. split; [done|]. split; [done|]. exists (Integer.as_span er), (Integer.er_length er).
  unfold Integer.er_length, st_ok, wire_bound in *. cbn [out bytes_left encoded_fields].
  unfold u64 at 1 2 3 4. rewrite (wrap_small 64 (_ - _)) by (unfold fits; lia). rewrite Hl'.
  split_and!; [done..|lia|lia|lia|done|lia|lia|lia|lia|lia|done].
Qed.
(** The table after the field: inserted on both sides, or unchanged. *)
Definition table_step (f : header_field) (te te' : indexed_dynamic_table)
    (td td' : DynamicTable.dynamic_table) : Prop :=
  if bool_decide (m_type f = DEFAULT)
  then IndexedDynamicTable.insert te (m_name f) (m_value f) = Ok te' /\
       DynamicTable.insert td (m_name f) (m_value f) = Ok td'
  else te' = te /\ td' = td.

Lemma literal_cmd_incremental t :
  bool_decide (literal_cmd t = LITERAL_INCREMENTAL_INDEX) = bool_decide (t = DEFAULT).
Proof. by destruct t. Qed.

Lemma enc_table_step f te' td td' (t : encoder_table) :
  table_step f (dyn_table t) te' td td' ->
  (if bool_decide (m_type f = DEFAULT) then insert t (m_name f) (m_value f) else Ok t)
  = Ok (HpackTable te').
Proof.
  unfold table_step. case_bool_decide; intros [He _].
  - unfold insert. cbn. by rewrite He.
  - rewrite He. by destruct t.
Qed.

Lemma encode_named_spec i f v' td td' te' st :
  at_ (HpackTable td) i = Ok (m_name f, v') -> field_wf conf f ->
  1 <= i <= Integer.MAX_HPACK_INT -> st_ok st ->
  table_step f (dyn_table (st_table st)) te' td td' ->
  let r := Encoder.encode_named fresh conf (literal_cmd (m_type f)) i f st in
  breaks f st r \/
  exists st', r = Ok (st', Continue) /\ st_table st' = HpackTable te' /\ wrote f td td' 0 st st'.
Proof.
  intros Hat (Hf & _ & Hsv & _) Hi (Ho & Hleft & H64) Hstep r.
  pose proof Hf as (_ & Hvb & Hlen). unfold MAX_FIELD_BYTES in Hlen.
  destruct (write_string_spec fresh Hfresh conf (m_value f)) as (er & Her & Hel & Hwrite);
    [done|unfold MAX_FIELD_BYTES; lia|done|].
  destruct (estimate_cases conf (m_value f)) as [Hest _]; [done|unfold MAX_FIELD_BYTES; lia|].
  assert (Hdec : if bool_decide (m_type f = DEFAULT)
    then DynamicTable.insert td (m_name f) (m_value f) = Ok td' else td' = td)
    by (revert Hstep; unfold table_step; case_bool_decide; by intros [_ ?]).
  destruct (encode_cmd_reads (literal_cmd (m_type f)) i) as (ni & Hni & Hnl & Hnb & _ & _); [lia|].
  unfold breaks, r, Encoder.encode_named, wire_bound. rewrite Hni. cbn [mbind outcome_bind].
  size_check. size_check. rewrite Her. cbn [mbind outcome_bind]. size_check. right.
  destruct (push_stream (Integer.as_span ni) (out st)) as (o1 & -> & Ho1 & Hc1 & Hl1);
    [done|done|unfold Integer.er_length in *; lia..|]. cbn [mbind outcome_bind].
  destruct (Hwrite o1 Ho1) as (o2 & wv & -> & Ho2 & Hl2 & Hc2 & Hwire & Hwl). cbn [mbind outcome_bind].
  rewrite literal_cmd_incremental.
  destruct (represents_named td td' i f v' wv Hat Hf Hi Hwire Hdec) as (ni' & Hni' & _ & Hrep).
  rewrite Hni in Hni'. apply (inj Ok) in Hni' as <-.
  match goal with |- context [if bool_decide ?p then ?a else ?b] =>
    replace (if bool_decide p then a else b) with (Ok (A := encoder_table) (HpackTable te'))
      by (symmetry; exact (enc_table_step _ _ _ _ _ Hstep)) end.
  cbn [mbind outcome_bind]. eexists. split; [done|]. split; [done|].
  exists (Integer.as_span ni ++ wv), (Integer.er_length ni + (estimate_string_size conf (m_value f)).1
    + Integer.er_length er).
  rewrite length_app. unfold Integer.er_length, st_ok, wire_bound in *. cbn [out bytes_left encoded_fields].
  unfold u64 at 1 2 3 4. rewrite (wrap_small 64 (_ - _)) by (unfold fits; lia). rewrite Hl2, Hl1.
  split_and!; [done..|lia|lia|lia|by rewrite Hc2, Hc1, app_assoc|lia|lia|lia|lia|lia|done].
Qed.
(** A literal with both strings; the decoder's table is [td'] after it, the encoder's is unchanged. *)
Lemma encode_literal_spec f td td' st :
  field_ok f -> string_ok conf (m_name f) -> string_ok conf (m_value f) ->
  (if bool_decide (m_type f = DEFAULT) then DynamicTable.insert td (m_name f) (m_value f) = Ok td' else td' = td) ->
  st_ok st ->
  let r := Encoder.encode_literal fresh conf (literal_cmd (m_type f)) f st in
  breaks f st r \/
  exists st', r = Ok (st', Continue) /\ st_table st' = st_table st /\ wrote f td td' 1 st st'.
Proof.
  intros Hf Hsn Hsv Ht (Ho & Hleft & H64) r.
  pose proof Hf as (Hnb & Hvb & Hlen). unfold MAX_FIELD_BYTES in Hlen.
  destruct (write_string_spec fresh Hfresh conf (m_name f)) as (en & Hen & Hnl & Hwn);
    [done|unfold MAX_FIELD_BYTES; lia|done|].
  destruct (write_string_spec fresh Hfresh conf (m_value f)) as (ev & Hev & Hvl & Hwv);
    [done|unfold MAX_FIELD_BYTES; lia|done|].
  destruct (estimate_cases conf (m_name f)) as [Hestn _]; [done|unfold MAX_FIELD_BYTES; lia|].
  destruct (estimate_cases conf (m_value f)) as [Hestv _]; [done|unfold MAX_FIELD_BYTES; lia|].
  unfold breaks, r, Encoder.encode_literal, wire_bound. size_check.
  rewrite Hen. cbn [mbind outcome_bind]. size_check. size_check.
  rewrite Hev. cbn [mbind outcome_bind]. size_check. right.
  destruct (push_stream [cmd_value (cmd_info (literal_cmd (m_type f)))] (out st))
    as (o1 & -> & Ho1 & Hc1 & Hl1);
    [done|by destruct (m_type f); repeat constructor|simpl length; lia..|]. cbn [mbind outcome_bind].
  destruct (Hwn o1 Ho1) as (o2 & wn & -> & Ho2 & Hl2 & Hc2 & Hwiren & Hwln). cbn [mbind outcome_bind].
  destruct (Hwv o2 Ho2) as (o3 & wv & -> & Ho3 & Hl3 & Hc3 & Hwirev & Hwlv). cbn [mbind outcome_bind].
  eexists. split; [done|]. split; [done|]. eexists _, _.
  split; [by apply (represents_literal td td' f wn wv)|].
  rewrite !length_app. simpl length. unfold st_ok, wire_bound. cbn [out bytes_left encoded_fields].
  unfold u64 at 1 2 3 4. rewrite (wrap_small 64 (_ - _)) by (unfold fits; lia). rewrite Hl3, Hl2, Hl1.
  simpl length.
  split_and!; [done|lia|lia|lia|by rewrite Hc3, Hc2, Hc1, <- !app_assoc| | |done|lia|lia|done]; lia.
Qed.
(** An index with an entry is within both tables. *)
Lemma at_bound (t : encoder_table) i f :
  0 <= i -> at_ t i = Ok f -> i <= StaticTable.size + Z.of_nat (length (enc_entries (dyn_table t))).
Proof.
  intros Hi. rewrite at_spec by done. destruct (i =? 0); [done|].
  destruct (_ !! _) eqn:E; [|done]. intros _. apply lookup_lt_Some in E. rewrite length_app in E.
  change (dt_entries (dyn_table t)) with (enc_entries (dyn_table t)) in E.
  unfold StaticTable.size. lia.
Qed.

(** Both tables after a literal with a name of the table. *)
Lemma sync_step f room te td :
  sync room te td -> FIELD_ROOM <= room -> field_wf conf f ->
  exists te' td', table_step f te te' td td' /\ sync (room - FIELD_ROOM) te' td'.
Proof.
  intros S Hr (Hf & _ & _ & Hst). unfold table_step. assert (0 <= FIELD_ROOM) by done.
  case_bool_decide as Ht.
  - destruct (sync_insert room te td (m_name f) (m_value f)) as (te' & td' & He & Hd & S');
      [done..| |by apply Hst|by exists te', td'].
    destruct Hf as (_ & _ & Hl). unfold fsize, Decoder.FIELD_ROOM. simpl fst. simpl snd. lia.
  - exists te, td. split; [done|]. by apply sync_weaken with room; [lia|].
Qed.

(** What an iteration does: it drops the field, or it writes a representation of it and
    leaves the tables in agreement. *)
Definition field_result (f : header_field) (room : Z) (td : DynamicTable.dynamic_table)
    (st : enc_state) (r : outcome (enc_state * flow)) : Prop :=
  breaks f st r \/
  exists st' td' extra, r = Ok (st', Continue) /\ wrote f td td' extra st st' /\
    sync (room - FIELD_ROOM) (dyn_table (st_table st')) td' /\
    0 <= extra <= 1 /\ (static_name (m_name f) -> extra = 0).

Lemma index_ranges room (te : indexed_dynamic_table) td :
  sync room te td ->
  StaticTable.size = 61 /\ 0 <= FIELD_ROOM /\
  StaticTable.size + Z.of_nat (length (enc_entries te)) <= Integer.MAX_HPACK_INT.
Proof.
  intros S. pose proof (sync_length _ _ _ S). split; [done|]. split; [done|].
  change StaticTable.size with 61. unfold Integer.MAX_HPACK_INT. lia.
Qed.

(** A literal whose name the table has. *)
Lemma encode_named_result f room td st i v' :
  sync room (dyn_table (st_table st)) td -> FIELD_ROOM <= room -> field_wf conf f -> st_ok st ->
  1 <= i -> at_ (st_table st) i = Ok (m_name f, v') ->
  field_result f room td st (Encoder.encode_named fresh conf (literal_cmd (m_type f)) i f st).
Proof.
  intros S Hr Hwf Hst Hi Hat. destruct (index_ranges _ _ _ S) as (_ & _ & Hmax).
  destruct (sync_step f room _ td S Hr Hwf) as (te' & td' & Hstep & S').
  pose proof (at_bound (st_table st) i _ ltac:(lia) Hat) as Hb.
  assert (at_ (HpackTable td) i = Ok (m_name f, v'))
    by (apply (sync_at room (dyn_table (st_table st))); [done|lia|by destruct (st_table st)]).
  destruct (encode_named_spec i f v' td td' te' st) as [|(st' & Hok & Htab & Hw)];
    [done|done|lia|done|done|by left|]. right.
  exists st', td', 0. rewrite Htab. split_and!; [done..|lia|lia|done].
Qed.

(** A field the table has. *)
Lemma encode_indexed_result f room td st i :
  sync room (dyn_table (st_table st)) td -> field_ok f -> m_type f = DEFAULT -> st_ok st ->
  1 <= i -> at_ (st_table st) i = Ok (m_name f, m_value f) ->
  field_result f room td st (Encoder.encode_indexed fresh i st).
Proof.
  intros S Hf Ht Hst Hi Hat. destruct (index_ranges _ _ _ S) as (_ & ? & Hmax).
  pose proof (at_bound (st_table st) i _ ltac:(lia) Hat) as Hb.
  assert (at_ (HpackTable td) i = Ok (m_name f, m_value f))
    by (apply (sync_at room (dyn_table (st_table st))); [done|lia|by destruct (st_table st)]).
  destruct (encode_indexed_spec i f td st) as [|(st' & Hok & Htab & Hw)];
    [done|done|done|lia|done|by left|]. right.
  exists st', td, 0. rewrite Htab. split_and!; [done..| |lia|lia|done].
  by apply sync_weaken with room; [lia|].
Qed.

(** All names of the encoder's table are static names. *)
Lemma dt_at_static room (te : indexed_dynamic_table) td i n v :
  sync room te td -> 1 <= i -> dt_at te i = Ok (n, v) -> static_name n.
Proof.
  intros S Hi. rewrite dt_at_law by lia. destruct (_ !! _) as [g|] eqn:Hg; [|done]. intros [= ->].
  pose proof (sync_static _ _ _ S) as Hall. rewrite Forall_lookup in Hall. exact (Hall _ _ Hg).
Qed.

Lemma at_static_name room (t : encoder_table) td i n v :
  sync room (dyn_table t) td -> 1 <= i -> at_ t i = Ok (n, v) -> static_name n.
Proof.
  intros S Hi. rewrite at_spec, (proj2 (Z.eqb_neq _ _)) by lia. destruct (_ !! _) as [g|] eqn:Hg; [|done]. intros [= ->].
  apply list_elem_of_lookup_2, elem_of_app in Hg as [Hg|Hg].
  - exists v. by apply list_elem_of_In.
  - pose proof (sync_static _ _ _ S) as Hall. rewrite Forall_forall in Hall. exact (Hall _ Hg).
Qed.

(** A field to be indexed whose name is not a static name: it is written as a literal that the decoder indexes, and the
    encoder's table stays as it is. *)
Lemma encode_field_unknown f room td td' st :
  sync room (dyn_table (st_table st)) td -> field_ok f -> string_ok conf (m_name f) -> string_ok conf (m_value f) ->
  m_type f = DEFAULT -> ~ static_name (m_name f) -> DynamicTable.insert td (m_name f) (m_value f) = Ok td' -> st_ok st ->
  breaks f st (Encoder.encode_field fresh conf f st) \/
  exists st', Encoder.encode_field fresh conf f st = Ok (st', Continue) /\ st_table st' = st_table st /\ wrote f td td' 1 st st'.
Proof.
  intros S Hf Hn Hv Ht Hns Hins Hst. destruct (index_ranges _ _ _ S) as (H61 & ? & Hmax). unfold Encoder.encode_field.
  destruct (hpack_field_index_spec (st_table st) (m_name f) (m_value f)) as (i & b & -> & Hcase); [apply S| |].
  { change (dt_entries (dyn_table (st_table st))) with (enc_entries (dyn_table (st_table st))).
    unfold Integer.MAX_HPACK_INT in Hmax. lia. }
  cbn [mbind outcome_bind]. rewrite (bool_decide_true (m_type f = DEFAULT)) by done.
  destruct Hcase as [(-> & Hi & Hat)|[(-> & Hs & _)|(-> & _ & Hi)]];
    [destruct Hns; eapply at_static_name, Hat; [done|lia]|done|].
  assert (i = -1) as ->.
  { destruct Hi as [|(Hi & v' & Hat & _)]; [done|]. destruct Hns. eapply dt_at_static, Hat; [done|lia]. }
  cbn [negb andb Z.eqb Pos.eqb]. apply (encode_literal_spec f td td' st); try done. by rewrite bool_decide_true.
Qed.

Lemma encode_field_spec f room td st :
  sync room (dyn_table (st_table st)) td -> FIELD_ROOM <= room -> field_wf conf f -> st_ok st ->
  field_result f room td st (Encoder.encode_field fresh conf f st).
Proof.
  intros S Hr Hwf Hst. destruct (index_ranges _ _ _ S) as (H61 & ? & Hmax).
  unfold Encoder.encode_field.
  destruct (hpack_field_index_spec (st_table st) (m_name f) (m_value f)) as (i & b & -> & Hcase);
    [apply S| |].
  { change (dt_entries (dyn_table (st_table st))) with (enc_entries (dyn_table (st_table st))).
    unfold Integer.MAX_HPACK_INT in Hmax. lia. }
  cbn [mbind outcome_bind].
  assert (Hno : (if bool_decide (m_type f = DEFAULT) then false else false) = false) by by case_match.
  destruct Hcase as [(-> & Hi & Hat)|[(-> & Hs & Hi & v' & Hat)|(-> & Hns & Hi)]].
  - rewrite (proj2 (Z.eqb_neq i (-1))) by lia. cbn [negb andb]. case_bool_decide as Ht.
    + by apply encode_indexed_result; [|apply Hwf|..|lia|].
    + by apply (encode_named_result f room td st i (m_value f)); [..|lia|].
  - rewrite (proj2 (Z.eqb_neq i (-1))) by lia. rewrite Hno. cbn [negb andb].
    by apply (encode_named_result f room td st i v'); [..|lia|].
  - assert (Ht : m_type f <> DEFAULT) by (intros Ht; by apply Hns, Hwf).
    assert (i = -1) as ->.
    { destruct Hi as [|(Hi & v' & Hat & _)]; [done|]. exfalso. apply Hns. eapply dt_at_static; [exact S| |exact Hat]. lia. }
    rewrite Hno. cbn [negb andb Z.eqb Pos.eqb].
    destruct (encode_literal_spec f td td st) as [|(st' & Hok & Htab & Hw)];
      [apply Hwf..|by rewrite bool_decide_false|done|by left|]. right.
    exists st', td, 1. rewrite Htab. split_and!; [done..| |lia|lia|done].
    by apply sync_weaken with room; [lia|].
Qed.
End fields.

(** ** Header blocks *)

(** [w] is a block of representations of the fields [fs]. *)
Inductive block : DynamicTable.dynamic_table -> list header_field -> list Z ->
    DynamicTable.dynamic_table -> Prop :=
| block_nil td : block td [] [] td
| block_cons td td1 td' f fs w ws :
    represents td td1 f w -> block td1 fs ws td' -> block td (f :: fs) (w ++ ws) td'.

Lemma block_bytes td fs w td' : block td fs w td' -> bytes_ok w.
Proof. induction 1 as [|? ? ? ? ? ? ? [Hw _] _ IH]; [done|]. by apply Forall_app. Qed.

(** The decoder reads the fields of a block. *)
Lemma decode_block td fs w td' :
  block td fs w td' -> forall fuel src h,
  span_ok src -> sp_bytes src = w -> (length w <= fuel)%nat ->
  Decoder.decode_loop fuel (dec td) src h = Ok (dec td', h ++ fs).
Proof.
  induction 1 as [td|td td1 td' f fs w ws (Hb & Hn & Hrep) Hblock IH];
    intros fuel src h Hsrc Hbytes Hfuel.
  - assert (sp_len src = 0) as Hz.
    { apply (f_equal length) in Hbytes. rewrite length_sp_bytes in Hbytes. destruct Hsrc.
      simpl in Hbytes. lia. }
    destruct fuel; cbn [Decoder.decode_loop]; rewrite Hz; simpl; by rewrite app_nil_r.
  - destruct w as [|b w]; [done|]. destruct (sp_bytes_head src _ _ Hbytes) as [_ Hne].
    destruct fuel as [|fuel]; [simpl in Hfuel; lia|]. cbn [Decoder.decode_loop].
    rewrite (proj2 (Z.eqb_neq _ _)) by done.
    destruct (Hrep src ws h Hsrc Hbytes) as (src' & -> & Hok & Hrest). cbn [mbind outcome_bind].
    rewrite (IH fuel src' (h ++ [f])); [by rewrite <- app_assoc|done|done|].
    rewrite length_app in Hfuel. simpl in Hfuel. lia.
Qed.

Definition wire_bounds (fs : list header_field) : Z :=
  fold_right (fun f acc => wire_bound f + acc) 0 fs.

Lemma wire_bounds_nonneg fs : 0 <= wire_bounds fs.
Proof. induction fs as [|g fs IH]; simpl; [lia|]. unfold wire_bound. lia. Qed.

Section blocks.
Context `{SetSearch} (fresh : Z -> Z) (Hfresh : forall i, is_byte (fresh i)) (conf : encoder_config).

(** What the loop of [encode] does with [bytes_left st] bytes left. *)
Record loop_result (fs : list header_field) (room : Z) (td : DynamicTable.dynamic_table)
    (st st' : enc_state) (k : nat) (ws : list Z) (td' : DynamicTable.dynamic_table) : Prop := {
  lr_block : block td (take k fs) ws td';
  lr_sync : sync (room - FIELD_ROOM * Z.of_nat (length fs)) (dyn_table (st_table st')) td';
  lr_contents : contents (stream (out st')) = contents (stream (out st)) ++ ws;
  lr_count : encoded_fields st' = u64 (encoded_fields st + Z.of_nat k);
  lr_length : (k <= length fs)%nat;
  lr_size : Z.of_nat (length ws) <= bytes_left st + Z.of_nat k;
  lr_size_static : Forall (fun f => static_name (m_name f)) fs -> Z.of_nat (length ws) <= bytes_left st;
  lr_all : wire_bounds fs <= bytes_left st -> k = length fs;
  lr_bound : Z.of_nat (length ws) <= wire_bounds fs;
}.

Lemma encode_loop_spec fs : forall room td st,
  sync room (dyn_table (st_table st)) td -> FIELD_ROOM * Z.of_nat (length fs) <= room ->
  Forall (field_wf conf) fs -> st_ok st -> 0 <= encoded_fields st < 2 ^ 64 ->
  exists st' k ws td', Encoder.encode_loop fresh conf fs st = Ok st' /\
    loop_result fs room td st st' k ws td'.
Proof.
  assert (Hpos : 0 <= FIELD_ROOM) by done.
  induction fs as [|f fs IH]; intros room td st Hsync Hr Hwf Hst Hcount.
  { pose proof Hst as (_ & ? & _). exists st, 0%nat, [], td. split; [done|].
    constructor; simpl; try done; try lia; [constructor| |by rewrite app_nil_r|].
    - by replace (room - _) with room by lia.
    - rewrite Z.add_0_r. unfold u64. by rewrite wrap_small. }
  cbn [length] in Hr. rewrite Nat2Z.inj_succ, Z.mul_succ_r in Hr.
  assert (0 <= FIELD_ROOM * Z.of_nat (length fs)) by lia.
  inversion_clear Hwf as [|? ? Hf Hfs]. cbn [Encoder.encode_loop].
  destruct (encode_field_spec fresh Hfresh conf f room td st) as
    [[-> Hlt]|(st1 & td1 & extra & -> & Hw & S1 & Hx & Hxs)]; [done|lia|done|done| |];
    cbn [mbind outcome_bind].
  - pose proof Hst as (_ & ? & _). exists st, 0%nat, [], td. split; [done|].
    pose proof (wire_bounds_nonneg fs) as Hb.
    constructor; simpl; try done; try lia; [constructor| |by rewrite app_nil_r|].
    + apply sync_weaken with room; [lia|done].
    + rewrite Z.add_0_r. unfold u64. by rewrite wrap_small.
  - destruct Hw as (w & cost & Hrep & Hst1 & Hc1 & Hcost & Hleft & Hlen & Hbound & Hcnt).
    destruct (IH (room - FIELD_ROOM) td1 st1) as (st' & k & ws & td' & Hloop & R);
      [done|lia|done|done|rewrite Hcnt; by apply wrap_fits|].
    exists st', (S k), (w ++ ws), td'. split; [done|]. destruct R as [R1 R2 R3 R4 R5 R6 R7 R8 R9].
    constructor; rewrite ?length_app; cbn [take length].
    + by apply block_cons with td1.
    + rewrite Nat2Z.inj_succ, Z.mul_succ_r. by replace (room - _) with
        (room - FIELD_ROOM - FIELD_ROOM * Z.of_nat (length fs)) by lia.
    + by rewrite R3, Hc1, app_assoc.
    + rewrite R4, Hcnt. unfold u64, wrap. rewrite Zplus_mod_idemp_l. f_equal. lia.
    + lia.
    + lia.
    + intros Hall. inversion_clear Hall as [|? ? Hs Hss]. specialize (R7 Hss). specialize (Hxs Hs). lia.
    + cbn [wire_bounds fold_right]. fold (wire_bounds fs). intros Hfit. rewrite R8; [done|]. lia.
    + cbn [wire_bounds fold_right]. fold (wire_bounds fs). lia.
Qed.
End blocks.

(** ** The codec *)

(** The encoder of one end and the decoder of the other agree, with room for [room] bytes
    of new entries. *)
Definition codec_sync (room : Z) (e : Encoder.encoder) (d : Decoder.decoder) : Prop :=
  sync room (dyn_table (Encoder.table e)) (dyn_table (Decoder.table d)).

Section codec.
Context `{SetSearch} (fresh : Z -> Z) (Hfresh : forall i, is_byte (fresh i)).

(** The output of the encoder, wherever the decoder reads it. *)
Lemma encode_decode_any e d fs limit room :
  codec_sync room e d -> FIELD_ROOM * Z.of_nat (length fs) <= room ->
  Forall (field_wf (Encoder.config e)) fs -> 0 <= limit < 2 ^ 63 ->
  Z.of_nat (length fs) < 2 ^ 63 ->
  exists e' bufs n d', Encoder.encode fresh e fs limit = Ok (e', (bufs, n)) /\
    bytes_ok (contents bufs) /\
    (forall src, span_ok src -> sp_bytes src = contents bufs ->
       Decoder.decode d src = Ok (d', take (Z.to_nat n) fs)) /\
    Encoder.config e' = Encoder.config e /\
    codec_sync (room - FIELD_ROOM * Z.of_nat (length fs)) e' d' /\
    0 <= n <= Z.of_nat (length fs) /\
    Z.of_nat (length (contents bufs)) <= limit + n /\
    (Forall (fun f => static_name (m_name f)) fs -> Z.of_nat (length (contents bufs)) <= limit) /\
    (wire_bounds fs <= limit -> n = Z.of_nat (length fs)) /\
    Z.of_nat (length (contents bufs)) <= wire_bounds fs.
Proof.
  intros Hsync Hr Hwf Hlim Hlen. unfold Encoder.encode.
  set (st := EncState (Encoder.table e) (EncoderStream.encoder_stream_new limit) limit 0).
  destruct (encode_loop_spec fresh Hfresh (Encoder.config e) fs room (dyn_table (Decoder.table d)) st)
    as (st' & k & ws & td' & -> & [R1 R2 R3 R4 R5 R6 R7 R8 R9]); [done..| |done|].
  { split; [constructor|]. cbn. lia. }
  cbn [mbind outcome_bind].
  assert (Hc : contents (EncoderStream.flush (out st')).1 = ws) by exact R3.
  assert (Hn : encoded_fields st' = Z.of_nat k).
  { rewrite R4. cbn [encoded_fields st]. unfold u64. rewrite wrap_small; unfold fits; lia. }
  eexists _, _, _, (dec td'). split; [done|]. rewrite Hc, Hn, Nat2Z.id. cbn [bytes_left st] in *.
  split; [by apply block_bytes in R1|].
  split; [|split_and!; [done|done|lia|lia|lia|done|intros Hfit; by rewrite (R8 Hfit)|done]].
  intros src Hsrc Hb. unfold Decoder.decode. destruct d as [[td]]. cbn [dyn_table Decoder.table] in *.
  rewrite (decode_block td (take k fs) ws td' R1); [done|done|done|].
  rewrite <- Hb, length_sp_bytes. lia.
Qed.

Lemma encode_decode_block e d fs limit room m a :
  codec_sync room e d -> FIELD_ROOM * Z.of_nat (length fs) <= room ->
  Forall (field_wf (Encoder.config e)) fs -> 0 <= limit < 2 ^ 63 ->
  Z.of_nat (length fs) < 2 ^ 63 -> (forall x, is_byte (m x)) ->
  exists e' bufs n d', Encoder.encode fresh e fs limit = Ok (e', (bufs, n)) /\
    Decoder.decode d (span_of m a (contents bufs)) = Ok (d', take (Z.to_nat n) fs) /\
    Encoder.config e' = Encoder.config e /\
    codec_sync (room - FIELD_ROOM * Z.of_nat (length fs)) e' d' /\
    0 <= n <= Z.of_nat (length fs) /\
    Z.of_nat (length (contents bufs)) <= limit + n /\
    (Forall (fun f => static_name (m_name f)) fs -> Z.of_nat (length (contents bufs)) <= limit) /\
    (wire_bounds fs <= limit -> n = Z.of_nat (length fs)) /\
    Z.of_nat (length (contents bufs)) <= wire_bounds fs.
Proof.
  intros H1 H2 H3 H4 H5 Hm.
  destruct (encode_decode_any e d fs limit room H1 H2 H3 H4 H5) as (e' & bufs & n & d' & R1 & Rb & R2 & R).
  exists e', bufs, n, d'. split; [done|]. split; [|done].
  apply R2; [by apply span_of_ok|apply sp_bytes_place].
Qed.

(** C6: One header block. For an encoder and a decoder whose tables agree, fields built by a
    constructor, with readable strings and, if they are to be indexed, with static names,
    and any size limit: [encoder::encode] succeeds and says how many fields [n] it wrote,
    [decoder::decode] of its output, wherever it is in memory, returns exactly the first [n]
    fields with their index types, and the tables agree again. All the fields are written
    when the limit is large enough for them. *)
Theorem hpack_block_roundtrip e d fs limit room m a :
  codec_sync room e d -> FIELD_ROOM * Z.of_nat (length fs) <= room ->
  Forall (field_wf (Encoder.config e)) fs -> 0 <= limit < 2 ^ 63 ->
  Z.of_nat (length fs) < 2 ^ 63 -> (forall x, is_byte (m x)) ->
  exists e' bufs n d', Encoder.encode fresh e fs limit = Ok (e', (bufs, n)) /\
    Decoder.decode d (span_of m a (contents bufs)) = Ok (d', take (Z.to_nat n) fs) /\
    codec_sync (room - FIELD_ROOM * Z.of_nat (length fs)) e' d' /\
    (wire_bounds fs <= limit -> n = Z.of_nat (length fs)).
Proof.
  intros H1 H2 H3 H4 H5 H6.
  destruct (encode_decode_block e d fs limit room m a H1 H2 H3 H4 H5 H6)
    as (e' & bufs & n & d' & R1 & R2 & _ & R3 & _ & _ & _ & R4 & _).
  by exists e', bufs, n, d'.
Qed.

(** C8: The size limit of [encoder::encode]: the output has at most one byte more than the
    limit per field written (the command byte of a literal with both strings is not counted),
    and it is within the limit when all names are static. *)
Theorem hpack_block_size e d fs limit room :
  codec_sync room e d -> FIELD_ROOM * Z.of_nat (length fs) <= room ->
  Forall (field_wf (Encoder.config e)) fs -> 0 <= limit < 2 ^ 63 ->
  Z.of_nat (length fs) < 2 ^ 63 ->
  exists e' bufs n, Encoder.encode fresh e fs limit = Ok (e', (bufs, n)) /\
    0 <= n <= Z.of_nat (length fs) /\
    Z.of_nat (length (contents bufs)) <= limit + n /\
    (Forall (fun f => static_name (m_name f)) fs -> Z.of_nat (length (contents bufs)) <= limit).
Proof.
  intros H1 H2 H3 H4 H5.
  destruct (encode_decode_block e d fs limit room (fun _ => 0) 0 H1 H2 H3 H4 H5)
    as (e' & bufs & n & d' & R1 & _ & _ & _ & R2 & R3 & R4 & _ & _); [by intros; split|].
  by exists e', bufs, n.
Qed.

(** C36: A field with a name that is not in the static table, sent with the default index type, makes the tables diverge. For
    every encoder and decoder whose tables agree and every such field that fits the size limit: the field
    itself arrives, but the encoder announces it for indexing without indexing it, and the decoder indexes it. After the block the
    encoder's table is what it was; the newest entry of the decoder's table, index 62, is the field, which it is not at the
    encoder; and the tables do not agree any more, so that [hpack_session_roundtrip] does not go on ([hpack_field_misread]). *)
Theorem hpack_tables_diverge e d f limit room m a :
  codec_sync room e d -> FIELD_ROOM <= room ->
  field_ok f -> string_ok (Encoder.config e) (m_name f) -> string_ok (Encoder.config e) (m_value f) ->
  m_type f = DEFAULT -> ~ static_name (m_name f) -> wire_bound f <= limit < 2 ^ 63 -> (forall x, is_byte (m x)) ->
  exists e' bufs d', Encoder.encode fresh e [f] limit = Ok (e', (bufs, 1)) /\
    Decoder.decode d (span_of m a (contents bufs)) = Ok (d', [f]) /\
    Encoder.table e' = Encoder.table e /\
    at_ (Decoder.table d') 62 = Ok (m_name f, m_value f) /\
    at_ (Encoder.table e') 62 <> Ok (m_name f, m_value f) /\
    (forall room', ~ codec_sync room' e' d').
Proof.
  intros S Hr Hf Hn Hv Ht Hns Hlim Hm. unfold codec_sync in S. destruct d as [[td]]. cbn [Decoder.table dyn_table] in S.
  destruct (dec_insert_fields td (m_name f) (m_value f)) as (td' & Hins & _ & _ & He).
  { apply S. }
  { pose proof (sync_room _ _ _ S). destruct Hf as (_ & _ & Hl). unfold Decoder.FIELD_ROOM, MAX_FIELD_BYTES, fsize in *.
    cbn [fst snd]. lia. }
  set (st := EncState (Encoder.table e) (EncoderStream.encoder_stream_new limit) limit 0).
  assert (Hst : st_ok st). { split; [constructor|]. cbn. unfold wire_bound in Hlim. lia. }
  destruct (encode_field_unknown fresh Hfresh (Encoder.config e) f room td td' st) as [[_ Hb]|(st' & He1 & Htab & Hw)];
    [done..|cbn in Hb; lia|].
  destruct Hw as (w & cost & Hrep & _ & Hc & _ & _ & _ & _ & Hcnt).
  assert (Hent : at_ (HpackTable td') 62 = Ok (m_name f, m_value f)).
  { rewrite at_spec by lia. change (dt_entries (dyn_table (HpackTable td'))) with (entries td'). rewrite He.
    change (62 =? 0) with false. cbn [Z.sub]. reflexivity. }
  eexists _, _, (dec td'). split; [|split; [|split; [|split; [|split]]]].
  - unfold Encoder.encode. fold st. cbn [Encoder.encode_loop]. rewrite He1. cbn [mbind outcome_bind].
    rewrite Hcnt. reflexivity.
  - assert (Hbytes : contents (EncoderStream.flush (out st')).1 = w ++ []) by (rewrite app_nil_r; exact Hc).
    rewrite Hbytes. assert (Hblock : block td [f] (w ++ []) td') by (eapply block_cons; [exact Hrep|constructor]).
    pose proof (block_bytes _ _ _ _ Hblock) as Hok. unfold Decoder.decode.
    rewrite (decode_block td [f] (w ++ []) td' Hblock); [done|by apply span_of_ok|apply sp_bytes_place|].
    cbn [span_of sp_len]. lia.
  - exact Htab.
  - exact Hent.
  - cbn [Encoder.table]. rewrite Htab. intros Hat. destruct Hns. by eapply at_static_name, Hat.
  - intros room' S'. unfold codec_sync in S'. cbn [Encoder.table Decoder.table dyn_table] in S'. rewrite Htab in S'.
    destruct Hns. pose proof (sync_static _ _ _ S') as Hall.
    destruct (sync_entries _ _ _ S') as [E|(big & rest & E & E' & _)].
    + rewrite E, He in Hall. by apply Forall_cons in Hall as [Hall _].
    + rewrite E' in He. injection He as -> _. rewrite E in Hall. by apply Forall_cons in Hall as [Hall _].
Qed.

(** A connection's header blocks: each is encoded with its size limit and decoded from
    memory [m] at address [a]; the result is what the encoder reported and what the decoder
    returned. *)
Fixpoint exchange (m : Z -> Z) (a : Z) (e : Encoder.encoder) (d : Decoder.decoder)
    (blocks : list (list header_field * Z)) : outcome (list (Z * header)) :=
  match blocks with
  | [] => Ok []
  | (fs, limit) :: blocks =>
      '(e, (bufs, n)) ← Encoder.encode fresh e fs limit;
      '(d, h) ← Decoder.decode d (span_of m a (contents bufs));
      rs ← exchange m a e d blocks;
      Ok ((n, h) :: rs)
  end.

Definition block_wf (conf : encoder_config) (b : list header_field * Z) : Prop :=
  Forall (field_wf conf) b.1 /\ 0 <= b.2 < 2 ^ 63.

Definition total_fields (blocks : list (list header_field * Z)) : Z :=
  fold_right (fun b acc => Z.of_nat (length b.1) + acc) 0 blocks.

(** What the peer sees of a block. *)
Definition block_received (b : list header_field * Z) (r : Z * header) : Prop :=
  r.2 = take (Z.to_nat r.1) b.1 /\ (wire_bounds b.1 <= b.2 -> r.2 = b.1).

Lemma total_fields_nonneg blocks : 0 <= total_fields blocks.
Proof. induction blocks as [|b blocks IH]; simpl; lia. Qed.

Lemma exchange_ok m a blocks : forall e d room,
  (forall x, is_byte (m x)) -> codec_sync room e d ->
  Forall (block_wf (Encoder.config e)) blocks -> FIELD_ROOM * total_fields blocks <= room ->
  total_fields blocks < 2 ^ 63 ->
  exists rs, exchange m a e d blocks = Ok rs /\ Forall2 block_received blocks rs.
Proof.
  assert (Hpos : 0 < FIELD_ROOM) by done.
  induction blocks as [|[fs limit] blocks IH]; intros e d room Hm Hsync Hwf Hr Hlt.
  { by exists []. }
  pose proof (total_fields_nonneg blocks). cbn [total_fields fold_right fst] in Hr, Hlt.
  fold (total_fields blocks) in Hr, Hlt. inversion_clear Hwf as [|? ? [Hf Hl] Hwfs]. cbn [fst snd] in *.
  cbn [exchange]. destruct (encode_decode_block e d fs limit room m a)
    as (e' & bufs & n & d' & -> & R1 & Rc & R2 & R3 & _ & _ & R4 & _); [done|nia|done..|lia|done|].
  cbn [mbind outcome_bind]. rewrite R1. cbn [mbind outcome_bind].
  destruct (IH e' d' (room - FIELD_ROOM * Z.of_nat (length fs))) as (rs & -> & Hrs);
    [done|done|by rewrite Rc|nia|lia|].
  cbn [mbind outcome_bind]. eexists. split; [done|]. constructor; [|done]. split; [done|].
  cbn [fst snd]. intros Hfit. rewrite (R4 Hfit), Nat2Z.id. by rewrite firstn_all.
Qed.

(** C5: A whole connection of readable fields. Starting from a new encoder and a new decoder, every block of a
    sequence of header blocks (of less than 2^35 fields in all) decodes to exactly the fields the encoder reported as
    written, all of them when the block's limit is large enough, for any way of searching the encoder's index
    set: the two dynamic tables stay in agreement. This is for fields a constructor accepts, whose strings the bit reader
    can read when they are Huffman-coded, and which have a static name if they have the default index type; a single field of the
    default type without a static name breaks the agreement ([hpack_tables_diverge]). *)
Theorem hpack_session_roundtrip m a blocks :
  (forall x, is_byte (m x)) ->
  Forall (fun '(fs, limit) => 0 <= limit < 2 ^ 63 /\
    Forall (fun f => field_ok f /\ string_ok Encoder.default_config (m_name f) /\ string_ok Encoder.default_config (m_value f) /\
      (m_type f = DEFAULT -> static_name (m_name f))) fs) blocks ->
  total_fields blocks < 2 ^ 35 ->
  exists rs, exchange m a Encoder.make_encoder Decoder.make_decoder blocks = Ok rs /\
    Forall2 (fun '(fs, limit) '(n, received) =>
      received = take (Z.to_nat n) fs /\ (wire_bounds fs <= limit -> received = fs)) blocks rs.
Proof.
  intros Hm Hwf Hlt. destruct (exchange_ok m a blocks Encoder.make_encoder Decoder.make_decoder (2 ^ 59 - 1)) as (rs & H1 & H2).
  - done.
  - by apply sync_initial.
  - eapply Forall_impl; [exact Hwf|]. intros [fs limit] [Hl Hf]. split; [exact Hf|exact Hl].
  - unfold Decoder.FIELD_ROOM, MAX_FIELD_BYTES. lia.
  - lia.
  - exists rs. split; [done|]. eapply Forall2_impl; [exact H2|]. by intros [fs limit] [n h].
Qed.
End codec.

(** ** Instances *)

(** Fields as the tests of the repository use them. *)
Definition field (n v : string) (t : index_type) : header_field := HeaderField (str n) (str v) t.

Definition static_nameb (n : list Z) : bool :=
  existsb (fun f => bool_decide (f.1 = n)) StaticTable.field_table.

Definition string_okb (conf : encoder_config) (s : list Z) : bool :=
  bool_decide ((estimate_string_size conf s).2 = INPLACE) || HString.readable 0 s.

Definition field_wfb (conf : encoder_config) (f : header_field) : bool :=
  field_okb f && string_okb conf (m_name f) && string_okb conf (m_value f) &&
  (negb (bool_decide (m_type f = DEFAULT)) || static_nameb (m_name f)).

Lemma static_nameb_ok n : static_nameb n = true -> static_name n.
Proof.
  unfold static_nameb. rewrite existsb_exists. intros ([n' v] & Hin & Heq).
  apply bool_decide_eq_true in Heq. simpl in Heq. subst. by exists v.
Qed.

Lemma string_okb_ok conf s : string_okb conf s = true -> string_ok conf s.
Proof.
  unfold string_okb, string_ok. rewrite orb_true_iff, bool_decide_eq_true.
  intros [He|]; [|done]. rewrite He. done.
Qed.

Lemma field_wfb_ok conf f : field_wfb conf f = true -> field_wf conf f.
Proof.
  unfold field_wfb. rewrite !andb_true_iff, orb_true_iff, negb_true_iff, bool_decide_eq_false.
  intros [[[H1 H2] H3] H4]. split_and!;
    [by apply field_okb_ok|by apply string_okb_ok..|].
  intros Ht. destruct H4 as [|H4]; [done|]. by apply static_nameb_ok.
Qed.

Lemma fields_wfb_ok conf fs : forallb (field_wfb conf) fs = true -> Forall (field_wf conf) fs.
Proof.
  rewrite forallb_forall. intros Hf. apply Forall_forall. intros f Hin.
  apply field_wfb_ok, Hf. by apply list_elem_of_In.
Qed.

(** The requests of RFC 7541, appendix C.4. *)
Definition request1 : list header_field :=
  [field ":method" "GET" DEFAULT; field ":scheme" "http" DEFAULT; field ":path" "/" DEFAULT;
   field ":authority" "www.example.com" DEFAULT].
Definition request2 : list header_field := request1 ++ [field "cache-control" "no-cache" DEFAULT].
Definition request3 : list header_field :=
  request2 ++ [field "password" "secret" NEVER_INDEX; field "x-trace" "17" WITHOUT_INDEX].

Definition zero_memory : Z -> Z := fun _ => 0.

Lemma zero_memory_ok x : is_byte (zero_memory x).
Proof. by split. Qed.

Lemma new_codec_sync : codec_sync (2 ^ 40) Encoder.make_encoder Decoder.make_decoder.
Proof. by apply sync_initial. Qed.

Lemma hpack_block_roundtrip_witness :
  exists e' bufs n d', Encoder.encode zero_memory Encoder.make_encoder request3 4096 = Ok (e', (bufs, n)) /\
    Decoder.decode Decoder.make_decoder (span_of zero_memory 0 (contents bufs))
      = Ok (d', take (Z.to_nat n) request3).
Proof.
  destruct (hpack_block_roundtrip zero_memory zero_memory_ok Encoder.make_encoder
    Decoder.make_decoder request3 4096 (2 ^ 40) zero_memory 0 new_codec_sync)
    as (e' & bufs & n & d' & H1 & H2 & _).
  - discriminate.
  - apply fields_wfb_ok. vm_compute. reflexivity.
  - lia.
  - reflexivity.
  - exact zero_memory_ok.
  - exists e', bufs, n, d'. split; [exact H1|exact H2].
Defined.

Lemma hpack_block_size_witness :
  exists e' bufs n, Encoder.encode zero_memory Encoder.make_encoder request2 10 = Ok (e', (bufs, n)) /\
    Z.of_nat (length (contents bufs)) <= 10 + n.
Proof.
  destruct (hpack_block_size zero_memory zero_memory_ok Encoder.make_encoder Decoder.make_decoder
    request2 10 (2 ^ 40) new_codec_sync) as (e' & bufs & n & H1 & _ & H2 & _).
  - discriminate.
  - apply fields_wfb_ok. vm_compute. reflexivity.
  - lia.
  - reflexivity.
  - exists e', bufs, n. split; [exact H1|exact H2].
Defined.

Lemma hpack_session_roundtrip_witness :
  exists rs, exchange zero_memory zero_memory 0 Encoder.make_encoder Decoder.make_decoder
      [(request1, 4096); (request2, 4096); (request3, 20)] = Ok rs /\
    Forall2 (fun '(fs, limit) '(n, received) =>
      received = take (Z.to_nat n) fs /\ (wire_bounds fs <= limit -> received = fs))
      [(request1, 4096); (request2, 4096); (request3, 20)] rs.
Proof.
  apply (hpack_session_roundtrip zero_memory zero_memory_ok zero_memory 0
    [(request1, 4096); (request2, 4096); (request3, 20)]).
  - exact zero_memory_ok.
  - repeat (apply Forall_cons; split;
      [split; [by split|apply (fields_wfb_ok Encoder.default_config); vm_compute; reflexivity]|]).
    by apply Forall_nil.
  - reflexivity.
Defined.

(** What follows from [hpack_tables_diverge]: a later reference to an older entry means another field. Of
    the third block of this connection, "accept: a", the decoder makes "x-a: 1". *)
Theorem hpack_field_misread :
  exchange zero_memory zero_memory 0 Encoder.make_encoder Decoder.make_decoder
    [([field "accept" "a" DEFAULT], 4096); ([field "x-a" "1" DEFAULT], 4096);
     ([field "accept" "a" DEFAULT], 4096)]
  = Ok [(1, [field "accept" "a" DEFAULT]); (1, [field "x-a" "1" DEFAULT]);
        (1, [field "x-a" "1" DEFAULT])].
Proof. vm_compute. reflexivity. Qed.

Lemma hpack_tables_diverge_witness :
  exists e' bufs d', Encoder.encode zero_memory Encoder.make_encoder [field "x-a" "1" DEFAULT] 4096 = Ok (e', (bufs, 1)) /\
    Decoder.decode Decoder.make_decoder (span_of zero_memory 0 (contents bufs)) = Ok (d', [field "x-a" "1" DEFAULT]) /\
    at_ (Decoder.table d') 62 = Ok (str "x-a", str "1").
Proof.
  destruct (hpack_tables_diverge zero_memory zero_memory_ok Encoder.make_encoder Decoder.make_decoder
    (field "x-a" "1" DEFAULT) 4096 (2 ^ 40) zero_memory 0) as (e' & bufs & d' & H1 & H2 & _ & H3 & _).
  - exact new_codec_sync.
  - discriminate.
  - apply field_okb_ok. vm_compute. reflexivity.
  - apply string_okb_ok. vm_compute. reflexivity.
  - apply string_okb_ok. vm_compute. reflexivity.
  - reflexivity.
  - intros Hs. assert (Hb : static_nameb (str "x-a") = true); [|vm_compute in Hb; discriminate].
    destruct Hs as [v Hv]. unfold static_nameb. apply existsb_exists. exists (str "x-a", v).
    split; [exact Hv|]. by apply bool_decide_eq_true.
  - split; [discriminate|reflexivity].
  - exact zero_memory_ok.
  - exists e', bufs, d'. split; [exact H1|]. split; [exact H2|exact H3].
Defined.

(** The size limit can be exceeded: with a limit of 6 bytes, "x-a: 1" as a literal with
    both strings is written and takes 7. *)
Theorem hpack_size_limit_exceeded :
  exists e' bufs, Encoder.encode zero_memory Encoder.make_encoder
      [field "x-a" "1" WITHOUT_INDEX] 6 = Ok (e', (bufs, 1)) /\
    length (contents bufs) = 7%nat.
Proof. vm_compute. eauto. Qed.

(** The test of tests/test_hpack.cpp: the requests of RFC 7541, appendix C.4, with the bytes
    the RFC gives for them. *)
Definition rfc_requests : list (list header_field * list Z) :=
  [(request1,
    [0x82; 0x86; 0x84; 0x41; 0x8c; 0xf1; 0xe3; 0xc2; 0xe5; 0xf2; 0x3a; 0x6b; 0xa0; 0xab; 0x90;
     0xf4; 0xff]);
   (request2, [0x82; 0x86; 0x84; 0xbe; 0x58; 0x86; 0xa8; 0xeb; 0x10; 0x64; 0x9c; 0xbf]);
   ([field ":method" "GET" DEFAULT; field ":scheme" "https" DEFAULT;
     field ":path" "/index.html" DEFAULT; field ":authority" "www.example.com" DEFAULT;
     field "custom-key" "custom-value" DEFAULT],
    [0x82; 0x87; 0x85; 0xbf; 0x40; 0x88; 0x25; 0xa8; 0x49; 0xe9; 0x5b; 0xa9; 0x7d; 0x7f; 0x89;
     0x25; 0xa8; 0x49; 0xe9; 0x5b; 0xb8; 0xe8; 0xb4; 0xbf])].

Fixpoint encode_all (e : Encoder.encoder) (reqs : list (list header_field * list Z))
  : outcome (list (list Z * Z)) :=
  match reqs with
  | [] => Ok []
  | (fs, _) :: reqs =>
      '(e, (bufs, n)) ← Encoder.encode zero_memory e fs 4096;
      rs ← encode_all e reqs;
      Ok ((contents bufs, n) :: rs)
  end.

Fixpoint decode_all (d : Decoder.decoder) (reqs : list (list header_field * list Z))
  : outcome (list header) :=
  match reqs with
  | [] => Ok []
  | (_, bytes) :: reqs =>
      '(d, h) ← Decoder.decode d (span_of zero_memory 0 bytes);
      rs ← decode_all d reqs;
      Ok (h :: rs)
  end.

(** The three Huffman-coded requests of RFC 7541, appendix C.4 (the repository's own test):
    the encoder produces exactly the RFC's bytes for each of them, and the decoder reads
    exactly the fields back from the RFC's bytes. *)
Theorem hpack_rfc_requests :
  encode_all Encoder.make_encoder rfc_requests =
    Ok ((fun r => (r.2, Z.of_nat (length r.1))) <$> rfc_requests) /\
  decode_all Decoder.make_decoder rfc_requests = Ok (rfc_requests.*1).
Proof. split; vm_compute; reflexivity. Qed.
