(* ===== verification/Protocol.v ===== *)
(** * Protocol constants (protocol.h, error.h)

    Multi-byte fields of the packed frame structs are plain integers in native order, so
    the constants stored to them are swapped beforehand ([utils::native_to_big]). *)
From S2P Require Import Prelude Utils.

Definition INITIAL_WINDOW_SIZE : Z := 65535.

(** [enum class frame_type : uint8_t]. *)
Inductive frame_type : Type :=
| DATA | HEADERS | PRIORITY | RST_STREAM | SETTINGS | PUSH_PROMISE | PING | GOAWAY
| WINDOW_UPDATE | CONTINUATION.

Global Instance frame_type_eq_dec : EqDecision frame_type.
Proof. solve_decision. Defined.

Definition frame_type_value (t : frame_type) : Z :=
  match t with
  | DATA => 0x0 | HEADERS => 0x1 | PRIORITY => 0x2 | RST_STREAM => 0x3 | SETTINGS => 0x4
  | PUSH_PROMISE => 0x5 | PING => 0x6 | GOAWAY => 0x7 | WINDOW_UPDATE => 0x8
  | CONTINUATION => 0x9
  end.

(** [enum class settings_type : uint16_t]. *)
Inductive settings_type : Type :=
| HEADER_TABLE_SIZE | ENABLE_PUSH | MAX_CONCURRENT_STREAMS | SETTINGS_INITIAL_WINDOW_SIZE
| MAX_FRAME_SIZE | MAX_HEADER_LIST_SIZE | ENABLE_CONNECT_PROTOCOL.

Definition settings_type_value (t : settings_type) : Z :=
  match t with
  | HEADER_TABLE_SIZE => native_to_big16 1
  | ENABLE_PUSH => native_to_big16 2
  | MAX_CONCURRENT_STREAMS => native_to_big16 3
  | SETTINGS_INITIAL_WINDOW_SIZE => native_to_big16 4
  | MAX_FRAME_SIZE => native_to_big16 5
  | MAX_HEADER_LIST_SIZE => native_to_big16 6
  | ENABLE_CONNECT_PROTOCOL => native_to_big16 8
  end.

(** [push_state] and [connection_protocol_state]. *)
Inductive push_state : Type := PUSH_DISABLED | PUSH_ENABLED.
Definition push_state_value (s : push_state) : Z :=
  match s with PUSH_DISABLED => 0 | PUSH_ENABLED => native_to_big 1 end.

Inductive connection_protocol_state : Type := PROTOCOL_DISABLED | PROTOCOL_ENABLED.

Record settings : Type := Settings {
  header_table_size : Z;
  enable_push : push_state;
  max_concurrent_streams : Z;
  initial_window_size : Z;
  max_frame_size : Z;
  max_header_list_size : Z;
  connection_protocol : connection_protocol_state;
}.

Definition default_settings : settings :=
  Settings 4096 PUSH_DISABLED 100 INITIAL_WINDOW_SIZE 16384 (2 ^ 32 - 1) PROTOCOL_DISABLED.

(** [namespace flags]. *)
Definition END_STREAM : Z := 0x1.
Definition ACK : Z := 0x1.
Definition END_HEADERS : Z := 0x4.
Definition PADDED : Z := 0x8.
Definition FLAG_PRIORITY : Z := 0x20.

(** [flags & f]. *)
Definition has_flag (flags f : Z) : bool := negb (Z.land flags f =? 0).

(** [enum class error_code : uint32_t]. *)
Inductive error_code : Type :=
| IS_OK | PROTOCOL_ERROR | INTERNAL_ERROR | FLOW_CONTROL_ERROR | SETTINGS_TIMEOUT | STREAM_CLOSED
| FRAME_SIZE_ERROR | REFUSED_STREAM | CANCEL | COMPRESSION_ERROR | CONNECT_ERROR
| ENHANCE_YOUR_CALM | INADEQUATE_SECURITY | HTTP_1_1_REQUIRED.

Definition error_code_value (e : error_code) : Z :=
  match e with
  | IS_OK => 0x0
  | PROTOCOL_ERROR => native_to_big 1
  | INTERNAL_ERROR => native_to_big 2
  | FLOW_CONTROL_ERROR => native_to_big 3
  | SETTINGS_TIMEOUT => native_to_big 4
  | STREAM_CLOSED => native_to_big 5
  | FRAME_SIZE_ERROR => native_to_big 6
  | REFUSED_STREAM => native_to_big 7
  | CANCEL => native_to_big 8
  | COMPRESSION_ERROR => native_to_big 9
  | CONNECT_ERROR => native_to_big 10
  | ENHANCE_YOUR_CALM => native_to_big 11
  | INADEQUATE_SECURITY => native_to_big 12
  | HTTP_1_1_REQUIRED => native_to_big 13
  end.

Definition make_error_code (e : error_code) : boost_error := Http2Error (error_code_value e).

(** [error_category_impl::failed]; an error code converts to [bool] through it. *)
Definition failed (ec : boost_error) : bool :=
  match ec with
  | NoError => false
  | Http2Error ev => negb (ev =? error_code_value IS_OK)
  | AsioError _ | TransportError _ => true
  end.

(** The number RFC 7540, section 7, gives an error. *)
Definition error_number (e : error_code) : Z :=
  match e with
  | IS_OK => 0 | PROTOCOL_ERROR => 1 | INTERNAL_ERROR => 2 | FLOW_CONTROL_ERROR => 3
  | SETTINGS_TIMEOUT => 4 | STREAM_CLOSED => 5 | FRAME_SIZE_ERROR => 6 | REFUSED_STREAM => 7
  | CANCEL => 8 | COMPRESSION_ERROR => 9 | CONNECT_ERROR => 10 | ENHANCE_YOUR_CALM => 11
  | INADEQUATE_SECURITY => 12 | HTTP_1_1_REQUIRED => 13
  end.

Lemma error_code_wire e : le_split 4 (error_code_value e) = be_split 4 (error_number e).
Proof. by destruct e. Qed.
