(* ===== verification/Frame.v ===== *)
(** * Frame parsing (frame.h, frame.cpp)

    A frame is read through packed structs laid over the received bytes.  A struct is
    represented by the span it is laid over: its fields are read from memory at their
    offsets, integers in native (little-endian) order unless their type is a big-endian one. *)
From S2P Require Import Prelude Memory Protocol.

(** [sizeof] of the packed structs. *)
Definition HEADER_SIZE : Z := 9.
Definition SETTINGS_ITEM_SIZE : Z := 6.
Definition GOAWAY_SIZE : Z := 17.

(** [n] bytes of memory from offset [i] on. *)
Definition sp_slice (s : span) (i : Z) (n : nat) : list Z :=
  (fun k => sp_get s (i + Z.of_nat k)) <$> seq 0 n.

(** [struct header]. *)
Definition payload_size (s : span) : Z := be_combine (sp_slice s 0 3).
Definition type_field (s : span) : Z := sp_get s 3.
Definition flags_field (s : span) : Z := sp_get s 4.
Definition stream_id_field (s : span) : Z := le_combine (sp_slice s 5 4).

(** The span [{this + offset, size}] over the memory behind a struct; the size is a
    [size_t]. *)
Definition tail_span (s : span) (offset size : Z) : span :=
  Span (sp_mem s) (sp_base s + offset) (u64 size).

(** [header_frame::header_block]. *)
Definition header_block (s : span) : span :=
  let offset := 0 in
  let pad_length := 0 in
  let '(offset, pad_length) :=
    if has_flag (flags_field s) PADDED then (offset + 1, sp_get s HEADER_SIZE)
    else (offset, pad_length) in
  let offset := if has_flag (flags_field s) FLAG_PRIORITY then offset + 5 else offset in
  tail_span s (HEADER_SIZE + offset) (payload_size s - offset - pad_length).

(** [data_frame::data]. *)
Definition frame_data (s : span) : span :=
  let '(offset, pad_length) :=
    if has_flag (flags_field s) PADDED then (1, sp_get s HEADER_SIZE) else (0, 0) in
  tail_span s (HEADER_SIZE + offset) (payload_size s - offset - pad_length).

(** [continuation_frame::header_block]. *)
Definition continuation_block (s : span) : span := tail_span s HEADER_SIZE (payload_size s).

(** [settings_frame::items]: the type and the raw value of each item. *)
Definition settings_item_at (s : span) (i : nat) : Z * Z :=
  let off := HEADER_SIZE + SETTINGS_ITEM_SIZE * Z.of_nat i in
  (le_combine (sp_slice s off 2), le_combine (sp_slice s (off + 2) 4)).
Definition items (s : span) : list (Z * Z) :=
  settings_item_at s <$> seq 0 (Z.to_nat (payload_size s / SETTINGS_ITEM_SIZE)).

(** [reset_frame::code], [window_update_frame::window_size], [goaway_frame]. *)
Definition reset_code (s : span) : Z := le_combine (sp_slice s HEADER_SIZE 4).
Definition window_size (s : span) : Z := be_combine (sp_slice s HEADER_SIZE 4).
Definition additional (s : span) : span :=
  tail_span s GOAWAY_SIZE (payload_size s + HEADER_SIZE - GOAWAY_SIZE).

(** [sizeof] of the struct a frame of the type is cast to ([FrameType]). *)
Definition FrameType_size (t : frame_type) : Z :=
  match t with
  | PRIORITY => HEADER_SIZE + 4 + 1
  | RST_STREAM | WINDOW_UPDATE => HEADER_SIZE + 4
  | PING => HEADER_SIZE + 8
  | GOAWAY => GOAWAY_SIZE
  | DATA | HEADERS | SETTINGS | PUSH_PROMISE | CONTINUATION => HEADER_SIZE
  end.

(** ** [frame_analyzer] *)

Record frame_analyzer : Type := FrameAnalyzer { fa_buffer : span }.

Definition min_size : Z := HEADER_SIZE.

(** [size]: the size of the complete frame. *)
Definition frame_size (s : span) : Z := HEADER_SIZE + payload_size s.

Definition size (fa : frame_analyzer) : Z := frame_size (fa_buffer fa).

(** The constructor and [from_buffer]. *)
Definition from_buffer (b : span) : outcome frame_analyzer :=
  if sp_len b <? min_size then Throw (length_error "not enought data for a valid frame")
  else b ← subspan_count 0 (Z.min (frame_size b) (sp_len b)) b; Ok (FrameAnalyzer b).

Definition is_complete (fa : frame_analyzer) : bool := size fa <=? sp_len (fa_buffer fa).

(** [check]; the ten [check_*_frame] members it dispatches to are empty. *)
Definition check (fa : frame_analyzer) (max_frame_size : Z) : outcome unit :=
  if frame_type_value CONTINUATION <? type_field (fa_buffer fa) then
    Throw (system_error (make_error_code PROTOCOL_ERROR) "Unknown frame type")
  else if max_frame_size <? payload_size (fa_buffer fa) then
    Throw (system_error (make_error_code FRAME_SIZE_ERROR) "Overflow payload size")
  else Ok tt.

(** [get_frame<type>]: the struct over the frame's bytes. *)
Definition get_frame (t : frame_type) (fa : frame_analyzer) : outcome span :=
  if type_field (fa_buffer fa) =? frame_type_value t then Ok (fa_buffer fa)
  else Throw (runtime_error "Can't cast to frame type").

Definition raw_bytes (fa : frame_analyzer) : span := fa_buffer fa.
Definition payload (fa : frame_analyzer) : outcome span := subspan HEADER_SIZE (fa_buffer fa).

(** ** The wire format *)

(** The nine bytes of a frame header whose [stream_id] member is [sid]. *)
Definition header_bytes (len type flags sid : Z) : list Z :=
  be_split 3 len ++ [type; flags] ++ le_split 4 sid.

(** RFC 7540, section 4.1. *)
Definition rfc_frame (type flags id : Z) (body : list Z) : list Z :=
  be_split 3 (Z.of_nat (length body)) ++ [type; flags] ++ be_split 4 id ++ body.

Lemma length_rfc_frame t flags id body : length (rfc_frame t flags id body) = (9 + length body)%nat.
Proof. unfold rfc_frame. rewrite !length_app, !length_be_split. simpl. lia. Qed.

Lemma rfc_frame_bytes t flags id body :
  is_byte t -> is_byte flags -> bytes_ok body -> bytes_ok (rfc_frame t flags id body).
Proof.
  intros Ht Hf Hb. unfold rfc_frame. rewrite !Forall_app.
  split_and!; [apply be_split_bytes_ok|by repeat (apply Forall_cons; split)|apply be_split_bytes_ok|done].
Qed.

(** ** Slices of memory *)

Lemma sp_slice_bytes s i n :
  0 <= i -> i + Z.of_nat n <= sp_len s ->
  sp_slice s i n = take n (drop (Z.to_nat i) (sp_bytes s)).
Proof.
  intros Hi Hn. apply list_eq. intros k. unfold sp_slice. rewrite list_lookup_fmap.
  destruct (decide (k < n)%nat).
  - rewrite lookup_seq_lt, lookup_take_lt, lookup_drop by done. simpl.
    rewrite sp_bytes_lookup by lia. do 2 f_equal. lia.
  - rewrite lookup_seq_ge, lookup_take_ge by lia. done.
Qed.

(** The fields of a span that begins with a header. *)
Lemma header_fields s len type flags sid rest :
  sp_bytes s = header_bytes len type flags sid ++ rest -> fits 24 len -> fits 32 sid ->
  payload_size s = len /\ type_field s = type /\ flags_field s = flags /\ stream_id_field s = sid.
Proof.
  intros Hb Hl Hs.
  assert (Hlen : 9 <= sp_len s).
  { apply (f_equal length) in Hb. rewrite length_sp_bytes in Hb. unfold header_bytes in Hb.
    rewrite !length_app, length_be_split, length_le_split in Hb. simpl in Hb. lia. }
  assert (Hget : forall i x, 0 <= i < sp_len s -> sp_bytes s !! Z.to_nat i = Some x -> sp_get s i = x).
  { intros i x Hi Hx. rewrite sp_bytes_lookup in Hx by lia. injection Hx as <-. f_equal. lia. }
  unfold payload_size, type_field, flags_field, stream_id_field.
  rewrite !sp_slice_bytes by lia. rewrite Hb. unfold header_bytes. split_and!.
  - rewrite <- app_assoc. change (Z.to_nat 0) with 0%nat. rewrite drop_0.
    rewrite take_app_length' by (by rewrite length_be_split).
    rewrite be_combine_split. by apply wrap_small.
  - apply Hget; [lia|]. rewrite Hb. unfold header_bytes. rewrite <- !app_assoc.
    rewrite lookup_app_r by (rewrite length_be_split; lia). by rewrite length_be_split.
  - apply Hget; [lia|]. rewrite Hb. unfold header_bytes. rewrite <- !app_assoc.
    rewrite lookup_app_r by (rewrite length_be_split; lia). by rewrite length_be_split.
  - replace (be_split 3 len ++ [type; flags] ++ le_split 4 sid) with
      ((be_split 3 len ++ [type; flags]) ++ le_split 4 sid) by (by rewrite <- app_assoc).
    rewrite <- app_assoc. rewrite drop_app_length' by (by rewrite length_app, length_be_split).
    rewrite take_app_length' by (by rewrite length_le_split).
    rewrite le_combine_split. by apply wrap_small.
Qed.

(** A header followed by its payload and anything else is taken apart. *)
Lemma from_buffer_complete s len type flags sid body rest :
  span_ok s -> sp_bytes s = header_bytes len type flags sid ++ body ++ rest ->
  Z.of_nat (length body) = len -> fits 24 len -> fits 32 sid ->
  exists fa, from_buffer s = Ok fa /\ is_complete fa = true /\ span_ok (fa_buffer fa) /\
    sp_bytes (fa_buffer fa) = header_bytes len type flags sid ++ body /\
    sp_mem (fa_buffer fa) = sp_mem s /\ sp_base (fa_buffer fa) = sp_base s /\
    sp_len (fa_buffer fa) = HEADER_SIZE + len.
Proof.
  intros Hok Hb Hlen Hl Hs.
  destruct (header_fields s len type flags sid (body ++ rest) Hb Hl Hs) as (Hp & _).
  assert (Hn : length (header_bytes len type flags sid) = 9%nat)
    by (unfold header_bytes; by rewrite !length_app, length_be_split, length_le_split).
  assert (Hsp : sp_len s = 9 + len + Z.of_nat (length rest)).
  { apply (f_equal length) in Hb. rewrite length_sp_bytes, !length_app, Hn in Hb. destruct Hok. lia. }
  unfold from_buffer, frame_size, min_size, HEADER_SIZE. rewrite Hp.
  rewrite (proj2 (Z.ltb_ge _ _)) by lia. rewrite Z.min_l by lia.
  unfold subspan_count. rewrite (proj2 (Z.leb_le 0 _)), (proj2 (Z.leb_le _ (_ - 0))) by lia.
  cbn [andb mbind outcome_bind]. eexists. split; [done|].
  assert (Hb' : sp_bytes (Span (sp_mem s) (sp_base s + 0) (9 + len))
    = header_bytes len type flags sid ++ body).
  { rewrite Z.add_0_r, (sp_bytes_take _ _ (sp_len s)) by lia.
    replace (sp_bytes (Span (sp_mem s) (sp_base s) (sp_len s))) with (sp_bytes s) by (by destruct s).
    rewrite Hb, app_assoc, take_app_length'; [done|]. rewrite length_app, Hn. lia. }
  split_and!; cbn [fa_buffer sp_mem sp_base sp_len]; [|split; [simpl; lia|apply Hok]|done..|lia|lia].
  unfold is_complete, size, frame_size. cbn [fa_buffer].
  destruct (header_fields (Span (sp_mem s) (sp_base s + 0) (9 + len)) len type flags sid body Hb' Hl Hs)
    as (Hp' & _). rewrite Hp'. apply Z.leb_le. simpl. unfold HEADER_SIZE. lia.
Qed.

(** Until the last byte of a frame has arrived it is not complete. *)
Lemma from_buffer_partial s :
  min_size <= sp_len s -> sp_len s < frame_size s ->
  exists fa, from_buffer s = Ok fa /\ is_complete fa = false /\ size fa = frame_size s /\
    sp_bytes (fa_buffer fa) = sp_bytes s.
Proof.
  intros Hmin Hlt. unfold from_buffer. rewrite (proj2 (Z.ltb_ge _ _)) by lia. rewrite Z.min_r by lia.
  unfold min_size, HEADER_SIZE in Hmin.
  unfold subspan_count. rewrite (proj2 (Z.leb_le 0 _)), (proj2 (Z.leb_le _ (_ - 0))) by lia.
  cbn [andb mbind outcome_bind]. rewrite Z.add_0_r. destruct s as [m b l]. cbn [sp_mem sp_base sp_len] in *.
  eexists. split; [done|]. unfold is_complete, size. cbn [fa_buffer sp_len].
  split_and!; [by apply Z.leb_gt|done..].
Qed.

(** ** Padding *)

(** A span inside the payload of the frame [s]. *)
Definition in_payload (sub s : span) : Prop :=
  sp_mem sub = sp_mem s /\ sp_base s + HEADER_SIZE <= sp_base sub /\
  sp_base sub + sp_len sub <= sp_base s + frame_size s.

(** The bytes of a HEADERS or DATA payload that are not header block or data. *)
Definition priority_bytes (s : span) : Z := if has_flag (flags_field s) FLAG_PRIORITY then 5 else 0.
Definition padding_bytes (s : span) : Z :=
  if has_flag (flags_field s) PADDED then 1 + sp_get s HEADER_SIZE else 0.

Lemma sp_get_byte s i : span_ok s -> 0 <= sp_get s i < 256.
Proof. intros [_ Hm]. apply (Hm (sp_base s + i)). Qed.

Lemma payload_size_fits s : span_ok s -> fits 24 (payload_size s).
Proof.
  intros [_ Hm]. unfold payload_size, fits. apply (be_combine_fits (sp_slice s 0 3)).
  apply Forall_fmap, Forall_true. intros i. apply Hm.
Qed.

Lemma tail_span_in_payload s offset extra :
  span_ok s -> 0 <= offset -> 0 <= extra <= 261 - offset ->
  in_payload (tail_span s (HEADER_SIZE + offset) (payload_size s - offset - extra)) s <->
  offset + extra <= payload_size s.
Proof.
  intros Hs Ho He. destruct (payload_size_fits s Hs) as [Hp1 Hp2]. unfold in_payload, tail_span, frame_size.
  cbn [sp_mem sp_base sp_len]. set (x := payload_size s - offset - extra).
  destruct (Z.le_gt_cases 0 x).
  - unfold u64. rewrite wrap_small by (unfold fits, x; lia). unfold x. split; intros; [lia|].
    split; [done|]. unfold HEADER_SIZE. lia.
  - assert (u64 x = x + 2 ^ 64) as -> by (unfold u64, wrap, x in *; Z.div_mod_to_equations; lia).
    unfold x. split; [|lia]. intros (_ & _ & Hle). lia.
Qed.

(** C29: The padding of HEADERS and DATA frames: the header block and the data stay inside the
    payload exactly when the padding (and the priority fields) fit into the payload; nothing
    checks that they do, and otherwise the returned span is about 2^64 bytes long. *)
Theorem padded_spans s :
  span_ok s ->
  (in_payload (header_block s) s <-> padding_bytes s + priority_bytes s <= payload_size s) /\
  (in_payload (frame_data s) s <-> padding_bytes s <= payload_size s) /\
  in_payload (continuation_block s) s /\
  (payload_size s < padding_bytes s -> 2 ^ 64 - 256 <= sp_len (frame_data s)).
Proof.
  intros Hs. pose proof (sp_get_byte s HEADER_SIZE Hs) as Hpad. pose proof (payload_size_fits s Hs) as Hp.
  assert (Hd : frame_data s = tail_span s (HEADER_SIZE + (if has_flag (flags_field s) PADDED then 1 else 0))
    (payload_size s - (if has_flag (flags_field s) PADDED then 1 else 0) -
      (if has_flag (flags_field s) PADDED then sp_get s HEADER_SIZE else 0)))
    by (unfold frame_data; by destruct (has_flag (flags_field s) PADDED)).
  assert (Hh : header_block s =
    let off := (if has_flag (flags_field s) PADDED then 1 else 0) + priority_bytes s in
    tail_span s (HEADER_SIZE + off) (payload_size s - off -
      (if has_flag (flags_field s) PADDED then sp_get s HEADER_SIZE else 0)))
    by (unfold header_block, priority_bytes; destruct (has_flag (flags_field s) PADDED),
      (has_flag (flags_field s) FLAG_PRIORITY); done).
  unfold padding_bytes, priority_bytes in *. rewrite Hh, Hd. clear Hh Hd. cbn zeta.
  pose proof (tail_span_in_payload s 0 0 Hs) as Hc. rewrite Z.add_0_r, !Z.sub_0_r in Hc.
  unfold fits in Hp. split_and!; [| |by apply Hc; lia|].
  - destruct (has_flag _ PADDED), (has_flag _ FLAG_PRIORITY);
      rewrite tail_span_in_payload by (done || lia); lia.
  - destruct (has_flag _ PADDED); rewrite tail_span_in_payload by (done || lia); lia.
  - unfold tail_span. cbn [sp_len]. unfold u64, wrap.
    destruct (has_flag _ PADDED); intros Hlt; [|lia]. Z.div_mod_to_equations. lia.
Qed.

(** Spans that fit. *)
Lemma header_block_inside s :
  span_ok s -> padding_bytes s + priority_bytes s <= payload_size s ->
  in_payload (header_block s) s /\ 0 <= sp_len (header_block s) <= payload_size s.
Proof.
  intros Hs. pose proof (sp_get_byte s HEADER_SIZE Hs) as Hpad. destruct (payload_size_fits s Hs) as [Hp1 Hp2].
  unfold header_block, padding_bytes, priority_bytes, in_payload, tail_span, frame_size, u64.
  destruct (has_flag _ PADDED), (has_flag _ FLAG_PRIORITY); cbn [sp_mem sp_base sp_len]; intros Hle;
    rewrite wrap_small by (unfold fits; lia); (split; [split; [done|]|]); lia.
Qed.

Lemma frame_data_inside s :
  span_ok s -> padding_bytes s <= payload_size s -> in_payload (frame_data s) s.
Proof.
  intros Hs. pose proof (sp_get_byte s HEADER_SIZE Hs) as Hpad. destruct (payload_size_fits s Hs) as [Hp1 Hp2].
  unfold frame_data, padding_bytes, in_payload, tail_span, frame_size, u64.
  destruct (has_flag _ PADDED); cbn [sp_mem sp_base sp_len]; intros Hle;
    rewrite wrap_small by (unfold fits; lia); (split; [done|]); lia.
Qed.

Lemma continuation_block_inside s :
  span_ok s -> in_payload (continuation_block s) s /\ 0 <= sp_len (continuation_block s) <= payload_size s.
Proof.
  intros Hs. destruct (payload_size_fits s Hs) as [Hp1 Hp2].
  unfold continuation_block, in_payload, tail_span, frame_size, u64. cbn [sp_mem sp_base sp_len].
  rewrite wrap_small by (unfold fits; lia). split; [split; [done|]|]; lia.
Qed.

(** A whole frame is parsed as it is. *)
Lemma whole_frame s : span_ok s -> sp_len s = frame_size s -> from_buffer s = Ok (FrameAnalyzer s).
Proof.
  intros Hs Hl. destruct (payload_size_fits s Hs) as [Hp _]. unfold from_buffer. rewrite Hl, Z.min_id.
  unfold min_size, subspan_count. rewrite (proj2 (Z.ltb_ge _ _)) by (unfold frame_size, HEADER_SIZE in *; lia).
  rewrite (proj2 (Z.leb_le 0 _)), (proj2 (Z.leb_le _ (sp_len s - 0))) by (unfold frame_size, HEADER_SIZE in *; lia).
  cbn [andb mbind outcome_bind]. destruct s as [m b l]. cbn [sp_mem sp_base sp_len] in *. by rewrite Z.add_0_r, <- Hl.
Qed.

Lemma padded_spans_witness :
  let s := span_of (fun _ => 0) 0 [0; 0; 1; 0; 8; 0; 0; 0; 1; 200] in
  (payload_size s < padding_bytes s -> 2 ^ 64 - 256 <= sp_len (frame_data s)) /\
  sp_len (frame_data s) = 2 ^ 64 - 200.
Proof.
  split; [|vm_compute; reflexivity].
  apply (padded_spans (span_of (fun _ => 0) 0 [0; 0; 1; 0; 8; 0; 0; 0; 1; 200])).
  apply span_of_ok; [by split|by repeat constructor].
Defined.

(** ** Frames that are too short *)

(** The memory with another byte at one address. *)
Definition poke (s : span) (i x : Z) : span :=
  Span (fun a => if a =? sp_base s + i then x else sp_mem s a) (sp_base s) (sp_len s).

Lemma sp_get_poke s i x k : sp_get (poke s i x) k = if k =? i then x else sp_get s k.
Proof.
  unfold sp_get. cbn [poke sp_mem sp_base]. destruct (Z.eqb_spec k i) as [->|Hne]; [by rewrite Z.eqb_refl|].
  by rewrite (proj2 (Z.eqb_neq _ _)) by lia.
Qed.

Lemma sp_slice_poke s i x k n : ~ (k <= i < k + Z.of_nat n) -> sp_slice (poke s i x) k n = sp_slice s k n.
Proof.
  intros Hi. apply list_fmap_ext. intros j y Hj. apply lookup_seq in Hj as [-> Hj]. rewrite sp_get_poke.
  by rewrite (proj2 (Z.eqb_neq _ _)) by lia.
Qed.

Lemma poke_bytes s i x : sp_len s <= i -> sp_bytes (poke s i x) = sp_bytes s.
Proof.
  intros Hi. apply list_fmap_ext. intros j y Hj. apply lookup_seq in Hj as [-> Hj].
  cbn [poke sp_len] in Hj. rewrite sp_get_poke. by rewrite (proj2 (Z.eqb_neq _ _)) by lia.
Qed.

(** A complete frame of the type, as [on_read] passes it on. *)
Definition accepted (t : frame_type) (limit : Z) (s : span) : Prop :=
  from_buffer s = Ok (FrameAnalyzer s) /\ is_complete (FrameAnalyzer s) = true /\
  check (FrameAnalyzer s) limit = Ok tt /\ get_frame t (FrameAnalyzer s) = Ok s.

Lemma frame_accepted t limit s :
  9 <= sp_len s -> sp_len s = frame_size s -> type_field s = frame_type_value t -> payload_size s <= limit ->
  accepted t limit s.
Proof.
  intros H9 Hl Ht Hp. unfold accepted, from_buffer, min_size, HEADER_SIZE, is_complete, size, check, get_frame.
  cbn [fa_buffer]. rewrite (proj2 (Z.ltb_ge _ 9)) by lia. rewrite <- Hl, Z.min_id, Z.leb_refl, Ht, Z.eqb_refl.
  unfold subspan_count. rewrite (proj2 (Z.leb_le 0 _)), (proj2 (Z.leb_le _ (_ - 0))) by lia.
  rewrite (proj2 (Z.ltb_ge limit _)) by lia. cbn [andb mbind outcome_bind]. rewrite Z.add_0_r.
  split_and!; [by destruct s|done|by destruct t|done].
Qed.

Lemma combine_inj l l' : length l = length l' -> bytes_ok l -> bytes_ok l' -> be_combine l = be_combine l' -> l = l'.
Proof.
  intros Hl Hb Hb' He. rewrite <- (be_split_combine l Hb), <- (be_split_combine l' Hb'). by rewrite He, Hl.
Qed.

Lemma sp_slice_ok s i n : span_ok s -> bytes_ok (sp_slice s i n).
Proof. intros Hs. apply Forall_fmap, Forall_true. intros k. by apply sp_get_byte. Qed.

(** The size of a payload is not checked against its frame type. A RST_STREAM or WINDOW_UPDATE frame of
    fewer than four payload bytes is accepted, and its error code or increment is read from
    the memory behind the frame: with the same frame and other memory behind it, it has another value. *)
Theorem short_frame_overread t limit s :
  t = RST_STREAM \/ t = WINDOW_UPDATE -> span_ok s -> 9 <= sp_len s -> sp_len s = frame_size s ->
  type_field s = frame_type_value t -> sp_len s < FrameType_size t -> payload_size s <= limit ->
  accepted t limit s /\
  exists s', accepted t limit s' /\ span_ok s' /\ sp_bytes s' = sp_bytes s /\ sp_base s' = sp_base s /\
    window_size s' <> window_size s /\ reset_code s' <> reset_code s.
Proof.
  intros Ht Hs H9 Hl Hty Hshort Hlim. split; [by apply frame_accepted|].
  assert (H13 : sp_len s < 13) by (by destruct Ht as [->| ->]).
  set (x := (sp_get s 12 + 1) mod 256). pose proof (sp_get_byte s 12 Hs) as Hx.
  assert (Hx' : 0 <= x < 256) by (by apply Z.mod_pos_bound).
  assert (Hne : x <> sp_get s 12).
  { unfold x. destruct (decide (sp_get s 12 = 255)) as [->|Hn]; [done|]. rewrite Z.mod_small by lia. lia. }
  exists (poke s 12 x). assert (Hok : span_ok (poke s 12 x)).
  { destruct Hs as [Hs0 Hsb]. split; [done|]. intros a. cbn [poke sp_mem]. by destruct (_ =? _). }
  assert (Hsl : forall k n, k + Z.of_nat n <= 12 -> sp_slice (poke s 12 x) k n = sp_slice s k n)
    by (intros k n Hk; apply sp_slice_poke; lia).
  assert (Hps : payload_size (poke s 12 x) = payload_size s) by (unfold payload_size; by rewrite Hsl by lia).
  assert (Hdiff : sp_slice (poke s 12 x) 9 4 <> sp_slice s 9 4).
  { intros He. apply (f_equal (fun l => nth 3 l 0)) in He.
    change (sp_get (poke s 12 x) 12 = sp_get s 12) in He. by rewrite sp_get_poke in He. }
  split_and!; [|done|by apply poke_bytes; lia|done| |].
  - apply frame_accepted; [done|unfold frame_size; by rewrite Hps| |by rewrite Hps].
    unfold type_field. by rewrite sp_get_poke.
  - intros He. apply Hdiff, combine_inj; [done|by apply sp_slice_ok..|exact He].
  - intros He. apply Hdiff. unfold reset_code, HEADER_SIZE, le_combine in He.
    apply combine_inj in He; [by apply (inj reverse) in He|by rewrite !length_reverse|..];
      apply Forall_reverse; by apply sp_slice_ok.
Qed.

Lemma short_frame_overread_witness :
  exists s', sp_bytes s' = [0; 0; 0; 8; 0; 0; 0; 0; 0] /\ accepted WINDOW_UPDATE 16384 s' /\ window_size s' <> 0.
Proof.
  destruct (short_frame_overread WINDOW_UPDATE 16384 (span_of (fun _ => 0) 10 [0; 0; 0; 8; 0; 0; 0; 0; 0]))
    as (_ & s' & H1 & _ & H2 & _ & H3 & _).
  - by right.
  - apply span_of_ok; [by split|]. repeat constructor; by vm_compute.
  - simpl; lia.
  - reflexivity.
  - reflexivity.
  - reflexivity.
  - vm_compute; discriminate.
  - exists s'. split; [exact H2|]. split; [exact H1|exact H3].
Defined.
