(* ===== verification/FrameBuilder.v ===== *)
(** * Frame construction (frame_builder.h, frame_builder.cpp)

    Each builder allocates a buffer of the frame's size, stores the members of the packed
    struct through a pointer and commits the bytes. Bytes that are not stored keep the
    indeterminate value of the allocation ([fresh]). A stream id is passed and stored as
    the swapped integer whose native bytes are the big-endian ones. *)
From S2P Require Import Prelude Memory Utils Buffer Protocol Frame.

Section builders.
Context (fresh : Z -> Z).

(** Stores to the members of [struct header]. *)
Definition set_type (t : frame_type) (b : buffer) : buffer := write_at 3 [frame_type_value t] b.
Definition set_flags (flags : Z) (b : buffer) : buffer := write_at 4 [flags] b.
Definition set_stream_id (sid : Z) (b : buffer) : buffer := write_at 5 (le_split 4 sid) b.
Definition set_payload_size (size : Z) (b : buffer) : buffer := write_at 0 (be_split 3 (u32 size)) b.

Definition goaway (err : error_code) (last_stream_id : Z) (add : list Z) : buffer :=
  let n := Z.of_nat (length add) in
  let b := buffer_new fresh (GOAWAY_SIZE + n) in
  let b := set_type GOAWAY b in
  let b := set_flags 0 b in
  let b := set_stream_id 0 b in
  let b := write_at 9 (le_split 4 last_stream_id) b in
  let b := write_at 13 (le_split 4 (error_code_value err)) b in
  let b := set_payload_size (GOAWAY_SIZE - HEADER_SIZE + n) b in
  let b := write_at GOAWAY_SIZE add b in
  (commit (GOAWAY_SIZE + n) b).1.

(** [sizeof(ping_frame)]. *)
Definition PING_SIZE : Z := 17.

Definition ping (add : list Z) : buffer :=
  let b := buffer_new fresh PING_SIZE in
  let b := set_type PING b in
  let b := set_flags 0 b in
  let b := set_stream_id 0 b in
  let b := set_payload_size 8 b in
  let b := write_at HEADER_SIZE (take 8 add) b in
  (commit PING_SIZE b).1.

(** [sizeof(reset_frame)] and [sizeof(window_update_frame)]. *)
Definition RESET_SIZE : Z := 13.
Definition WINDOW_UPDATE_SIZE : Z := 13.

Definition reset (err : error_code) (stream_id : Z) : buffer :=
  let b := buffer_new fresh RESET_SIZE in
  let b := set_type RST_STREAM b in
  let b := set_flags 0 b in
  let b := set_payload_size (RESET_SIZE - HEADER_SIZE) b in
  let b := set_stream_id stream_id b in
  let b := write_at 9 (le_split 4 (native_to_big (error_code_value err))) b in
  (commit RESET_SIZE b).1.

Definition update_window (size stream_id : Z) : buffer :=
  let b := buffer_new fresh WINDOW_UPDATE_SIZE in
  let b := set_type WINDOW_UPDATE b in
  let b := set_flags 0 b in
  let b := set_payload_size (WINDOW_UPDATE_SIZE - HEADER_SIZE) b in
  let b := set_stream_id stream_id b in
  let b := write_at 9 (be_split 4 size) b in
  (commit WINDOW_UPDATE_SIZE b).1.

(** [settings_item(t, v)] and the bytes of the packed struct. *)
Record settings_item : Type := SettingsItem { item_type : Z; item_value : Z }.
Definition make_item (t : settings_type) (v : Z) : settings_item :=
  SettingsItem (settings_type_value t) (native_to_big v).
Definition item_bytes (i : settings_item) : list Z :=
  le_split 2 (item_type i) ++ le_split 4 (item_value i).

Definition settings_frame (fields : list settings_item) : buffer :=
  let payload_size := SETTINGS_ITEM_SIZE * Z.of_nat (length fields) in
  let b := buffer_new fresh (HEADER_SIZE + payload_size) in
  let b := set_type SETTINGS b in
  let b := set_flags 0 b in
  let b := set_stream_id 0 b in
  let b := set_payload_size payload_size b in
  let b := write_at HEADER_SIZE (fields ≫= item_bytes) b in
  (commit (HEADER_SIZE + payload_size) b).1.

Definition settings_ack : buffer :=
  let b := buffer_new fresh HEADER_SIZE in
  let b := set_type SETTINGS b in
  let b := set_flags ACK b in
  let b := set_stream_id 0 b in
  let b := set_payload_size 0 b in
  (commit HEADER_SIZE b).1.

(** The room for the pad length and the priority fields is allocated, not filled. *)
Definition headers (stream_id flags payload_size : Z) : buffer :=
  let size := HEADER_SIZE + (if has_flag flags PADDED then 1 else 0)
              + (if has_flag flags FLAG_PRIORITY then 5 else 0) in
  let b := buffer_new fresh size in
  let b := set_type HEADERS b in
  let b := set_flags flags b in
  let b := set_stream_id stream_id b in
  let b := set_payload_size payload_size b in
  (commit size b).1.

Definition continuation (stream_id flags payload_size : Z) : buffer :=
  let size := HEADER_SIZE in
  let b := buffer_new fresh size in
  let b := set_type CONTINUATION b in
  let b := set_flags flags b in
  let b := set_stream_id stream_id b in
  let b := set_payload_size payload_size b in
  (commit size b).1.

(** [data]: the buffer, and the place of the payload in it (the span the caller fills). *)
Definition data (stream_id flags payload_size : Z) : buffer * (Z * Z) :=
  let size := HEADER_SIZE + (if has_flag flags PADDED then 1 else 0) in
  let b := buffer_new fresh (size + payload_size) in
  let b := set_type DATA b in
  let b := set_flags flags b in
  let b := set_stream_id stream_id b in
  let b := set_payload_size payload_size b in
  ((commit (size + payload_size) b).1, (size, payload_size)).
End builders.

(** ** The bytes of the frames *)

(** Storing the nine header bytes, in either order of the members. *)
Lemma store_header t flags sid len b :
  (9 <= length (b_memory b))%nat ->
  b_memory (set_payload_size len (set_stream_id sid (set_flags flags (set_type t b)))) =
    header_bytes (u32 len) (frame_type_value t) flags sid ++ drop 9 (b_memory b) /\
  b_memory (set_stream_id sid (set_payload_size len (set_flags flags (set_type t b)))) =
    header_bytes (u32 len) (frame_type_value t) flags sid ++ drop 9 (b_memory b).
Proof.
  destruct b as [o mx l]. cbn [b_memory]. intros H.
  do 9 (destruct l as [|? l]; [simpl in H; lia|]). by split.
Qed.

Section wire.
Context (fresh : Z -> Z).

Lemma new_memory size :
  0 <= size -> length (b_memory (buffer_new fresh size)) = Z.to_nat size.
Proof. intros. simpl. by rewrite length_fmap, length_seqZ. Qed.

(** What a fresh buffer's data are after [n] bytes of [bytes] have been stored and
    committed. *)
Lemma committed_view b n bytes :
  b_offset b = 0 -> Z.of_nat (length bytes) = n -> n <= b_maxsize b ->
  (exists rest, b_memory b = bytes ++ rest) -> data_view (commit n b).1 = bytes.
Proof.
  intros Ho Hn Hm [rest Hb]. unfold commit, data_view, prepare_size. cbn [fst b_offset b_memory].
  rewrite Ho, Hb, Z.sub_0_r, Z.min_r by lia. by rewrite take_app_length' by lia.
Qed.

Lemma write_after pre tl pos bytes b :
  b_memory b = pre ++ tl -> Z.of_nat (length pre) = pos ->
  b_memory (write_at pos bytes b) = (pre ++ bytes) ++ drop (length bytes) tl.
Proof.
  intros Hb Hp. unfold write_at. cbn [b_memory]. rewrite Hb.
  replace (Z.to_nat pos) with (length pre) by lia.
  by rewrite take_app_length, drop_app_add, app_assoc.
Qed.

Lemma length_header len t f sid : length (header_bytes len t f sid) = 9%nat.
Proof. unfold header_bytes. by rewrite !length_app, length_be_split, length_le_split. Qed.

(** A swapped stream id is the big-endian id on the wire. *)
Lemma header_rfc t flags id body :
  fits 32 id -> Z.of_nat (length body) < 2 ^ 24 ->
  header_bytes (u32 (Z.of_nat (length body))) t flags (native_to_big id) ++ body
  = rfc_frame t flags id body.
Proof.
  intros Hid Hl. unfold header_bytes, rfc_frame, u32.
  rewrite wrap_small by (unfold fits; lia). rewrite native_to_big_bytes by done.
  by rewrite <- !app_assoc.
Qed.

Lemma native_to_big_0 : native_to_big 0 = 0.
Proof. done. Qed.

Lemma goaway_bytes err last add :
  Z.of_nat (length add) < 2 ^ 24 - 8 ->
  data_view (goaway fresh err last add) =
  rfc_frame 7 0 0 (le_split 4 last ++ be_split 4 (error_number err) ++ add).
Proof.
  intros Hl. set (n := Z.of_nat (length add)).
  rewrite <- header_rfc; [|by split|rewrite !length_app, length_le_split, length_be_split; simpl; lia].
  rewrite <- error_code_wire. unfold goaway. fold n. apply committed_view; [done| | |].
  - rewrite !length_app, length_header, !length_le_split. unfold GOAWAY_SIZE. lia.
  - apply Z.le_refl.
  - assert (Hm : (17 <= length (b_memory (buffer_new fresh (GOAWAY_SIZE + n))))%nat)
      by (rewrite new_memory; unfold GOAWAY_SIZE; lia).
    destruct (buffer_new fresh (GOAWAY_SIZE + n)) as [o mx l]. cbn [b_memory] in Hm.
    do 17 (destruct l as [|? l]; [simpl in Hm; lia|]). eexists.
    replace (GOAWAY_SIZE - HEADER_SIZE + n) with
      (Z.of_nat (length (le_split 4 last ++ le_split 4 (error_code_value err) ++ add)))
      by (rewrite !length_app, !length_le_split; unfold n, GOAWAY_SIZE, HEADER_SIZE; lia).
    erewrite (write_after (header_bytes (u32 (Z.of_nat (length (le_split 4 last ++
      le_split 4 (error_code_value err) ++ add)))) 7 0 (native_to_big 0) ++
      le_split 4 last ++ le_split 4 (error_code_value err)));
      [rewrite <- !app_assoc; reflexivity|reflexivity|reflexivity].
Qed.
(** A header and a body stored behind it. *)
Lemma body_view hdr bh body n :
  b_offset bh = 0 -> length hdr = 9%nat -> (exists tl, b_memory bh = hdr ++ tl) ->
  n = 9 + Z.of_nat (length body) -> n <= b_maxsize bh ->
  data_view (commit n (write_at 9 body bh)).1 = hdr ++ body.
Proof.
  intros Ho Hh [tl Ht] -> Hm. apply committed_view; [done|rewrite length_app; lia|done|].
  eexists. apply write_after with (tl := tl); [done|lia].
Qed.

(** The header stored into a new buffer. *)
Lemma new_header t flags sid len size :
  9 <= size ->
  exists tl, b_memory (set_payload_size len (set_stream_id sid (set_flags flags
      (set_type t (buffer_new fresh size))))) =
    header_bytes (u32 len) (frame_type_value t) flags sid ++ tl /\
  b_memory (set_stream_id sid (set_payload_size len (set_flags flags
      (set_type t (buffer_new fresh size))))) =
    header_bytes (u32 len) (frame_type_value t) flags sid ++ tl.
Proof.
  intros Hs. eexists. apply store_header. rewrite new_memory; lia.
Qed.

Lemma update_window_bytes size id :
  fits 32 id -> data_view (update_window fresh size (native_to_big id)) = rfc_frame 8 0 id (be_split 4 size).
Proof.
  intros Hid. rewrite <- header_rfc by (done || by rewrite length_be_split).
  unfold update_window. apply body_view; [done|apply length_header| |by rewrite length_be_split|done].
  destruct (new_header WINDOW_UPDATE 0 (native_to_big id) 4 13) as (tl & _ & H); [lia|].
  exists tl. rewrite length_be_split. exact H.
Qed.

Lemma reset_bytes err id :
  fits 32 id ->
  data_view (reset fresh err (native_to_big id)) =
  rfc_frame 3 0 id (le_split 4 (native_to_big (error_code_value err))).
Proof.
  intros Hid. rewrite <- header_rfc by (done || by rewrite length_le_split).
  unfold reset. apply body_view; [done|apply length_header| |by rewrite length_le_split|done].
  destruct (new_header RST_STREAM 0 (native_to_big id) 4 13) as (tl & _ & H); [lia|].
  exists tl. rewrite length_le_split. exact H.
Qed.

Lemma settings_ack_bytes : data_view (settings_ack fresh) = rfc_frame 4 1 0 [].
Proof. done. Qed.

Lemma ping_bytes add :
  data_view (ping fresh add) = rfc_frame 6 0 0 (take 8 add ++ (fresh <$> seqZ (9 + Z.of_nat (length (take 8 add)))
    (8 - Z.of_nat (length (take 8 add))))).
Proof.
  do 8 (destruct add as [|? add]; [reflexivity|]). reflexivity.
Qed.

Lemma headers_bytes id flags len :
  fits 32 id -> has_flag flags PADDED = false -> has_flag flags FLAG_PRIORITY = false ->
  data_view (headers fresh (native_to_big id) flags len) = header_bytes (u32 len) 1 flags (native_to_big id).
Proof.
  intros Hid Hp Hq. unfold headers. rewrite Hp, Hq. apply committed_view; [done| |done|].
  - by rewrite length_header.
  - destruct (new_header HEADERS flags (native_to_big id) len 9) as (tl & H & _); [lia|].
    by exists tl.
Qed.

Lemma continuation_bytes id flags len :
  fits 32 id ->
  data_view (continuation fresh (native_to_big id) flags len) = header_bytes (u32 len) 9 flags (native_to_big id).
Proof.
  intros Hid. apply committed_view; [done| |done|].
  - by rewrite length_header.
  - destruct (new_header CONTINUATION flags (native_to_big id) len 9) as (tl & H & _); [lia|].
    by exists tl.
Qed.

(** The payload is stored through the returned span, after the commit. *)
Lemma data_bytes id flags body :
  fits 32 id -> has_flag flags PADDED = false -> Z.of_nat (length body) < 2 ^ 24 ->
  let '(b, (off, len)) := data fresh (native_to_big id) flags (Z.of_nat (length body)) in
  len = Z.of_nat (length body) /\ data_view (write_at off body b) = rfc_frame 0 flags id body.
Proof.
  intros Hid Hp Hl. unfold data. rewrite Hp. split; [done|].
  rewrite <- header_rfc by done.
  transitivity (data_view (commit (9 + 0 + Z.of_nat (length body)) (write_at 9 body
    (set_payload_size (Z.of_nat (length body)) (set_stream_id (native_to_big id) (set_flags flags
      (set_type DATA (buffer_new fresh (HEADER_SIZE + 0 + Z.of_nat (length body)))))))) ).1); [done|].
  apply body_view; [done|apply length_header| |lia|apply Z.le_refl].
  destruct (new_header DATA flags (native_to_big id) (Z.of_nat (length body))
    (HEADER_SIZE + 0 + Z.of_nat (length body))) as (tl & H & _); [unfold HEADER_SIZE; lia|].
  by exists tl.
Qed.

(** The bytes between the header and the payload of a HEADERS or DATA frame: the room for the pad length and
    the priority fields, which is not filled. *)
Definition unfilled (flags : Z) (priority : bool) : list Z :=
  fresh <$> seqZ 9 ((if has_flag flags PADDED then 1 else 0) + (if priority then 5 else 0)).

Lemma headers_unfilled id flags len :
  data_view (headers fresh (native_to_big id) flags len) =
  header_bytes (u32 len) 1 flags (native_to_big id) ++ unfilled flags (has_flag flags FLAG_PRIORITY).
Proof.
  unfold headers, unfilled. set (size := HEADER_SIZE + _ + _). set (n := _ + (if has_flag flags FLAG_PRIORITY then _ else _)).
  assert (Hn : size = 9 + n /\ 0 <= n) by (unfold size, n, HEADER_SIZE; destruct (has_flag _ _), (has_flag _ _); lia).
  destruct Hn as [-> Hn]. apply committed_view; [done| |apply Z.le_refl|].
  - rewrite length_app, length_header, length_fmap, length_seqZ. lia.
  - destruct (store_header HEADERS flags (native_to_big id) len (buffer_new fresh (9 + n))) as [-> _];
      [rewrite new_memory; lia|]. exists []. rewrite app_nil_r. f_equal. cbn [buffer_new b_memory].
    rewrite seqZ_app, fmap_app by lia. by rewrite drop_app_length'.
Qed.

Lemma data_unfilled id flags body :
  Z.of_nat (length body) < 2 ^ 24 ->
  let '(b, (off, len)) := data fresh (native_to_big id) flags (Z.of_nat (length body)) in
  len = Z.of_nat (length body) /\
  data_view (write_at off body b) =
    header_bytes (u32 (Z.of_nat (length body))) 0 flags (native_to_big id) ++ unfilled flags false ++ body.
Proof.
  intros Hl. unfold data, unfilled. rewrite Z.add_0_r. set (n := if has_flag flags PADDED then 1 else 0). split; [done|].
  assert (Hn : 0 <= n) by (unfold n; destruct (has_flag _ _); lia). set (len := Z.of_nat (length body)).
  set (hd := header_bytes (u32 len) 0 flags (native_to_big id)).
  transitivity (data_view (commit (9 + n + len) (write_at (9 + n) body
    (set_payload_size len (set_stream_id (native_to_big id) (set_flags flags
      (set_type DATA (buffer_new fresh (9 + n + len))))))) ).1); [done|].
  apply committed_view; [done| |apply Z.le_refl|].
  - unfold hd. rewrite !length_app, length_header, length_fmap, length_seqZ. unfold len. lia.
  - destruct (store_header DATA flags (native_to_big id) len (buffer_new fresh (9 + n + len))) as [Hb _];
      [rewrite new_memory; lia|].
    rewrite (write_after (hd ++ (fresh <$> seqZ 9 n)) (fresh <$> seqZ (9 + n) len) (9 + n) body _).
    + exists (drop (length body) (fresh <$> seqZ (9 + n) len)). by rewrite !app_assoc.
    + etransitivity; [exact Hb|]. unfold hd. rewrite <- app_assoc. f_equal. cbn [buffer_new b_memory].
      rewrite <- Z.add_assoc, seqZ_app, fmap_app by lia. rewrite drop_app_length' by done.
      by rewrite seqZ_app, fmap_app by lia.
    + unfold hd. rewrite length_app, length_header, length_fmap, length_seqZ. lia.
Qed.

(** The items of a SETTINGS frame: RFC 7540, section 6.5.1. *)
Definition settings_number (t : settings_type) : Z :=
  match t with
  | HEADER_TABLE_SIZE => 1 | ENABLE_PUSH => 2 | MAX_CONCURRENT_STREAMS => 3
  | SETTINGS_INITIAL_WINDOW_SIZE => 4 | MAX_FRAME_SIZE => 5 | MAX_HEADER_LIST_SIZE => 6
  | ENABLE_CONNECT_PROTOCOL => 8
  end.

Lemma item_wire t v :
  fits 32 v -> item_bytes (make_item t v) = be_split 2 (settings_number t) ++ be_split 4 v.
Proof.
  intros Hv. unfold item_bytes, make_item. cbn [item_type item_value].
  rewrite native_to_big_bytes by done. by destruct t.
Qed.

Lemma length_items l : length (l ≫= item_bytes) = (6 * length l)%nat.
Proof.
  induction l as [|i l IH]; [done|]. cbn [mbind list_bind]. rewrite length_app, IH.
  unfold item_bytes. rewrite length_app, !length_le_split. simpl. lia.
Qed.

Lemma settings_bytes l :
  Z.of_nat (length l) < 2 ^ 20 ->
  data_view (settings_frame fresh l) = rfc_frame 4 0 0 (l ≫= item_bytes).
Proof.
  intros Hl. rewrite <- header_rfc; [|by split|rewrite length_items; lia].
  rewrite length_items. replace (Z.of_nat (6 * length l)) with (SETTINGS_ITEM_SIZE * Z.of_nat (length l))
    by (unfold SETTINGS_ITEM_SIZE; lia).
  unfold settings_frame. apply body_view; [done|apply length_header| | |apply Z.le_refl].
  - destruct (new_header SETTINGS 0 0 (SETTINGS_ITEM_SIZE * Z.of_nat (length l))
      (HEADER_SIZE + SETTINGS_ITEM_SIZE * Z.of_nat (length l))) as (tl & H & _);
      [unfold HEADER_SIZE, SETTINGS_ITEM_SIZE; lia|].
    by exists tl.
  - rewrite length_items. unfold HEADER_SIZE, SETTINGS_ITEM_SIZE. lia.
Qed.
End wire.

(** ** Building and parsing *)

(** The bytes of a span, counted from its first one, are those of memory. *)
Lemma frame_body s len type flags sid body :
  sp_bytes s = header_bytes len type flags sid ++ body -> sp_len s = 9 + Z.of_nat (length body) ->
  forall i n, 0 <= i -> i + Z.of_nat n <= Z.of_nat (length body) ->
  sp_slice s (9 + i) n = take n (drop (Z.to_nat i) body).
Proof.
  intros Hb Hl i n Hi Hn. rewrite sp_slice_bytes, Hb by lia.
  replace (Z.to_nat (9 + i)) with (length (header_bytes len type flags sid) + Z.to_nat i)%nat
    by (rewrite length_header; lia).
  by rewrite drop_app_add.
Qed.

(** A span over [n] bytes of the payload. *)
Lemma tail_slice s len type flags sid body i n :
  sp_bytes s = header_bytes len type flags sid ++ body -> sp_len s = 9 + Z.of_nat (length body) ->
  0 <= i -> 0 <= n -> i + n <= Z.of_nat (length body) -> Z.of_nat (length body) < 2 ^ 24 ->
  sp_bytes (tail_span s (9 + i) n) = take (Z.to_nat n) (drop (Z.to_nat i) body).
Proof.
  intros Hb Hl Hi Hn Hle Hf. unfold tail_span, u64. rewrite wrap_small by (unfold fits; lia).
  transitivity (sp_slice s (9 + i) (Z.to_nat n)).
  - unfold sp_bytes, sp_slice. cbn [sp_len]. apply list_fmap_ext. intros k x _. unfold sp_get.
    cbn [sp_mem sp_base]. f_equal. lia.
  - by rewrite (frame_body _ _ _ _ _ _ Hb Hl) by lia.
Qed.

(** A span over the whole payload but its first [i] bytes. *)
Lemma tail_body s len type flags sid body i :
  sp_bytes s = header_bytes len type flags sid ++ body -> sp_len s = 9 + Z.of_nat (length body) ->
  0 <= i <= Z.of_nat (length body) -> Z.of_nat (length body) < 2 ^ 24 ->
  sp_bytes (tail_span s (9 + i) (Z.of_nat (length body) - i)) = drop (Z.to_nat i) body.
Proof.
  intros Hb Hl Hi Hf. rewrite (tail_slice _ _ _ _ _ _ _ _ Hb Hl) by lia.
  apply take_ge. rewrite length_drop. lia.
Qed.

(** The bytes [w], wherever they lie in memory and whatever follows them, are taken apart
    into one complete frame, which passes [check] and is a struct with the property [P]. *)
Definition parses (t : frame_type) (w : list Z) (P : span -> Prop) : Prop :=
  forall s rest max_frame_size,
    span_ok s -> sp_bytes s = w ++ rest -> Z.of_nat (length w) <= 9 + max_frame_size ->
    exists fa, from_buffer s = Ok fa /\ is_complete fa = true /\ check fa max_frame_size = Ok tt /\
      get_frame t fa = Ok (fa_buffer fa) /\ sp_bytes (raw_bytes fa) = w /\ P (fa_buffer fa).

Lemma rfc_frame_parses t flags id body (P : span -> Prop) :
  fits 32 id -> Z.of_nat (length body) < 2 ^ 24 ->
  (forall s, span_ok s ->
    sp_bytes s = header_bytes (Z.of_nat (length body)) (frame_type_value t) flags (native_to_big id) ++ body ->
    sp_len s = 9 + Z.of_nat (length body) -> payload_size s = Z.of_nat (length body) ->
    flags_field s = flags -> stream_id_field s = native_to_big id -> P s) ->
  parses t (rfc_frame (frame_type_value t) flags id body) P.
Proof.
  intros Hid Hl HP s rest mx Hs Hb Hmx.
  rewrite <- header_rfc in Hb, Hmx by done. unfold u32 in Hb, Hmx.
  rewrite wrap_small in Hb, Hmx by (unfold fits; lia). rewrite <- app_assoc in Hb.
  rewrite length_app, length_header in Hmx.
  destruct (from_buffer_complete s _ _ _ _ _ _ Hs Hb eq_refl) as (fa & H & Hc & Hok & Hby & Hm & Hba & Hle);
    [unfold fits; lia|by apply native_to_big_fits|].
  destruct (header_fields _ _ _ _ _ _ Hby) as (Hp & Ht & Hf & Hi);
    [unfold fits; lia|by apply native_to_big_fits|].
  exists fa. split_and!; [done|done| | | |].
  - unfold check. rewrite Ht, Hp. rewrite (proj2 (Z.ltb_ge _ _)) by (by destruct t).
    by rewrite (proj2 (Z.ltb_ge _ _)) by lia.
  - unfold get_frame. by rewrite Ht, Z.eqb_refl.
  - unfold raw_bytes. rewrite Hby, <- header_rfc by done. unfold u32.
    by rewrite wrap_small by (unfold fits; lia).
  - by apply HP.
Qed.

(** The [i]th item of a SETTINGS payload. *)
Lemma take_drop_items l i x :
  l !! i = Some x -> take 6 (drop (6 * i) (l ≫= item_bytes)) = item_bytes x.
Proof.
  revert i. induction l as [|y l IH]; intros [|i]; [done..| |].
  - intros [= ->]. cbn [mbind list_bind]. rewrite drop_0. by rewrite take_app_length'.
  - intros Hi. cbn [mbind list_bind]. replace (6 * S i)%nat with (length (item_bytes y) + 6 * i)%nat
      by (unfold item_bytes; rewrite length_app, !length_le_split; lia).
    rewrite drop_app_add. by apply IH.
Qed.

Definition item_fits (i : settings_item) : Prop := fits 16 (item_type i) /\ fits 32 (item_value i).

Lemma items_of s len type flags sid l :
  sp_bytes s = header_bytes len type flags sid ++ (l ≫= item_bytes) ->
  sp_len s = 9 + Z.of_nat (length (l ≫= item_bytes)) ->
  payload_size s = Z.of_nat (length (l ≫= item_bytes)) -> Forall item_fits l ->
  items s = (fun i => (item_type i, item_value i)) <$> l.
Proof.
  intros Hb Hl Hp Hf. unfold items. rewrite Hp, length_items.
  replace (Z.to_nat (Z.of_nat (6 * length l) / SETTINGS_ITEM_SIZE)) with (length l)
    by (unfold SETTINGS_ITEM_SIZE; Z.div_mod_to_equations; lia).
  rewrite length_items in Hl. apply list_eq. intros i. rewrite !list_lookup_fmap.
  destruct (l !! i) as [x|] eqn:Hx.
  - pose proof (lookup_lt_Some _ _ _ Hx). rewrite lookup_seq_lt by done. cbn [fmap option_fmap option_map].
    f_equal. unfold settings_item_at, HEADER_SIZE, SETTINGS_ITEM_SIZE. cbn [Nat.add].
    pose proof (take_drop_items _ _ _ Hx) as Hi.
    assert (Hl' : sp_len s = 9 + Z.of_nat (length (l ≫= item_bytes))) by (rewrite length_items; lia).
    rewrite <- Z.add_assoc.
    rewrite !(frame_body _ _ _ _ _ _ Hb Hl') by (rewrite ?length_items; lia).
    replace (Z.to_nat (6 * Z.of_nat i)) with (6 * i)%nat by lia.
    replace (Z.to_nat (6 * Z.of_nat i + 2)) with (6 * i + 2)%nat by lia.
    rewrite <- drop_drop. rewrite Forall_lookup in Hf. destruct (Hf _ _ Hx) as [H1 H2].
    set (d := drop (6 * i) (l ≫= item_bytes)) in *.
    replace (take 2 d) with (take 2 (take 6 d)) by (by rewrite take_take).
    replace (take 4 (drop 2 d)) with (drop 2 (take 6 d)) by (by rewrite skipn_firstn_comm).
    rewrite Hi. unfold item_bytes. rewrite take_app_length' by (by rewrite length_le_split).
    rewrite drop_app_length' by (by rewrite length_le_split).
    rewrite !le_combine_split. by f_equal; apply wrap_small.
  - apply lookup_ge_None in Hx. by rewrite lookup_seq_ge.
Qed.

(** C22: The bytes of every built frame, for every argument. With a stream id [id] passed as the swapped integer, WINDOW_UPDATE,
    SETTINGS and its acknowledgement, PING with eight bytes, CONTINUATION, and, without padding and priority, HEADERS and
    DATA are the frames of RFC 7540, whatever the fresh memory held. The others differ from it in this way:
    RST_STREAM has the bytes of its error code reversed, which is right for no code but [IS_OK]; GOAWAY has those of the last
    stream id reversed; PING with fewer than eight bytes is filled up with fresh memory; and with padding or priority,
    HEADERS and DATA have fresh memory where the pad length and the priority fields belong, which the length, the one
    the caller gives, does not count. *)
Theorem builders_wire fresh id flags size err last settings_list body :
  fits 32 id -> Z.of_nat (length settings_list) < 2 ^ 20 -> Z.of_nat (length body) < 2 ^ 24 - 8 ->
  Forall (fun '(_, v) => fits 32 v) settings_list ->
  let header_of type := be_split 3 (Z.of_nat (length body)) ++ [type; flags] ++ be_split 4 id in
  data_view (update_window fresh size (native_to_big id)) = rfc_frame 8 0 id (be_split 4 size) /\
  data_view (settings_frame fresh ((fun '(t, v) => make_item t v) <$> settings_list)) =
    rfc_frame 4 0 0 (settings_list ≫= fun '(t, v) => be_split 2 (settings_number t) ++ be_split 4 v) /\
  data_view (settings_ack fresh) = rfc_frame 4 1 0 [] /\
  data_view (ping fresh body) = rfc_frame 6 0 0 (take 8 body ++
    (fresh <$> seqZ (9 + Z.of_nat (length (take 8 body))) (8 - Z.of_nat (length (take 8 body))))) /\
  (let '(b, (offset, n)) := data fresh (native_to_big id) flags (Z.of_nat (length body)) in
   n = Z.of_nat (length body) /\ data_view (write_at offset body b) = header_of 0 ++ unfilled fresh flags false ++ body) /\
  data_view (headers fresh (native_to_big id) flags (Z.of_nat (length body))) ++ body =
    header_of 1 ++ unfilled fresh flags (has_flag flags FLAG_PRIORITY) ++ body /\
  data_view (continuation fresh (native_to_big id) flags (Z.of_nat (length body))) ++ body = rfc_frame 9 flags id body /\
  data_view (reset fresh err (native_to_big id)) = rfc_frame 3 0 id (reverse (be_split 4 (error_number err))) /\
  (reverse (be_split 4 (error_number err)) = be_split 4 (error_number err) <-> err = IS_OK) /\
  data_view (goaway fresh err last body) =
    rfc_frame 7 0 0 (reverse (be_split 4 last) ++ be_split 4 (error_number err) ++ body) /\
  (has_flag flags PADDED = false -> header_of 0 ++ unfilled fresh flags false ++ body = rfc_frame 0 flags id body /\
    (has_flag flags FLAG_PRIORITY = false ->
      header_of 1 ++ unfilled fresh flags (has_flag flags FLAG_PRIORITY) ++ body = rfc_frame 1 flags id body)).
Proof.
  intros Hid Hs Hl Hv header_of. assert (Hh : forall t, header_bytes (u32 (Z.of_nat (length body))) t flags (native_to_big id) = header_of t).
  { intros t. unfold header_bytes, header_of, u32. rewrite wrap_small by (unfold fits; lia). by rewrite native_to_big_bytes. }
  split_and!.
  - by apply update_window_bytes.
  - rewrite settings_bytes by (by rewrite length_fmap). f_equal. clear Hs.
    induction Hv as [|[t v] l Hv _ IH]; [done|]. cbn [fmap list_fmap mbind list_bind].
    by rewrite item_wire, IH.
  - apply settings_ack_bytes.
  - apply ping_bytes.
  - pose proof (data_unfilled fresh id flags body ltac:(lia)) as Hd. by rewrite Hh in Hd.
  - rewrite headers_unfilled, Hh. by rewrite <- app_assoc.
  - rewrite continuation_bytes by done. apply (header_rfc 9); [done|lia].
  - rewrite reset_bytes by done. f_equal. destruct err; reflexivity.
  - destruct err; (split; [intros He; vm_compute in He; congruence|by intros [=]]).
  - apply goaway_bytes. lia.
  - intros Hp. unfold header_of, unfilled, rfc_frame. rewrite Hp. split; [by rewrite <- !app_assoc|].
    intros Hq. rewrite Hq. by rewrite <- !app_assoc.
Qed.

Lemma builders_wire_witness :
  data_view (update_window (fun _ => 7) 100 (native_to_big 3)) = rfc_frame 8 0 3 (be_split 4 100) /\
  data_view (reset (fun _ => 7) CANCEL (native_to_big 3)) = rfc_frame 3 0 3 [8; 0; 0; 0].
Proof.
  destruct (builders_wire (fun _ => 7) 3 5 100 CANCEL 1 [(ENABLE_PUSH, 0)] [130; 132])
    as (H1 & _ & _ & _ & _ & _ & _ & H2 & _); [by split|done|done| |exact (conj H1 H2)].
  repeat constructor; by vm_compute.
Defined.

Lemma goaway_parses fresh err last body :
  Z.of_nat (length body) < 2 ^ 24 - 8 ->
  parses GOAWAY (data_view (goaway fresh err last body)) (fun s => sp_bytes (additional s) = body).
Proof.
  intros Hl. rewrite goaway_bytes by lia.
  apply (rfc_frame_parses GOAWAY); [by split|rewrite !length_app, length_le_split, length_be_split; lia|].
  intros s _ Hb Hn Hps _ _. unfold additional. rewrite Hps.
  set (w := le_split 4 last ++ be_split 4 (error_number err) ++ body) in *.
  assert (Hw : length w = (8 + length body)%nat)
    by (unfold w; rewrite !length_app, length_le_split, length_be_split; lia).
  replace (Z.of_nat (length w) + HEADER_SIZE - GOAWAY_SIZE) with (Z.of_nat (length w) - 8)
    by (unfold HEADER_SIZE, GOAWAY_SIZE; lia).
  change GOAWAY_SIZE with (9 + 8). rewrite (tail_body _ _ _ _ _ _ 8 Hb) by lia.
  unfold w. rewrite app_assoc. by rewrite drop_app_length'
    by (rewrite length_app, length_le_split, length_be_split; done).
Qed.

(** C17: What is built is parsed back: wherever a built frame lies in memory and whatever
    follows it, [from_buffer] cuts out exactly its bytes, the frame is complete and passes
    [check], and the accessors return the arguments of the builder (integers that the code
    keeps swapped come back swapped). *)
Theorem frame_roundtrip fresh id flags size err last items_list body :
  fits 32 id -> fits 32 size -> fits 32 last ->
  has_flag flags PADDED = false -> has_flag flags FLAG_PRIORITY = false ->
  Z.of_nat (length items_list) < 2 ^ 20 -> Forall item_fits items_list ->
  Z.of_nat (length body) < 2 ^ 24 - 8 ->
  parses WINDOW_UPDATE (data_view (update_window fresh size (native_to_big id)))
    (fun s => window_size s = size /\ stream_id_field s = native_to_big id) /\
  parses SETTINGS (data_view (settings_frame fresh items_list))
    (fun s => items s = (fun i => (item_type i, item_value i)) <$> items_list /\
              has_flag (flags_field s) ACK = false) /\
  parses SETTINGS (data_view (settings_ack fresh)) (fun s => has_flag (flags_field s) ACK = true) /\
  parses RST_STREAM (data_view (reset fresh err (native_to_big id)))
    (fun s => reset_code s = native_to_big (error_code_value err) /\ stream_id_field s = native_to_big id) /\
  parses GOAWAY (data_view (goaway fresh err last body)) (fun s => sp_bytes (additional s) = body) /\
  parses DATA
    (let '(b, (offset, _)) := data fresh (native_to_big id) flags (Z.of_nat (length body)) in
     data_view (write_at offset body b))
    (fun s => sp_bytes (frame_data s) = body /\ flags_field s = flags /\ stream_id_field s = native_to_big id) /\
  parses HEADERS (data_view (headers fresh (native_to_big id) flags (Z.of_nat (length body))) ++ body)
    (fun s => sp_bytes (header_block s) = body /\ flags_field s = flags /\ stream_id_field s = native_to_big id) /\
  parses CONTINUATION (data_view (continuation fresh (native_to_big id) flags (Z.of_nat (length body))) ++ body)
    (fun s => sp_bytes (continuation_block s) = body /\ flags_field s = flags /\
              stream_id_field s = native_to_big id).
Proof.
  intros Hid Hsz Hla Hp Hq Hi Hit Hl.
  assert (Htail : forall s t, sp_bytes s = header_bytes (Z.of_nat (length body)) t flags (native_to_big id) ++ body ->
    sp_len s = 9 + Z.of_nat (length body) ->
    sp_bytes (tail_span s HEADER_SIZE (Z.of_nat (length body))) = body).
  { intros s t Hb Hn. pose proof (tail_body _ _ _ _ _ _ 0 Hb) as H. rewrite Z.sub_0_r in H. apply H; lia. }
  split_and!.
  - rewrite update_window_bytes by done. apply (rfc_frame_parses WINDOW_UPDATE); [done|by rewrite length_be_split|].
    intros s _ Hb Hn _ _ Hsid. split; [|done]. unfold window_size.
    rewrite (frame_body s _ _ _ _ _ Hb Hn 0) by (rewrite ?length_be_split; lia).
    rewrite drop_0, take_ge by (by rewrite length_be_split).
    rewrite be_combine_split. by apply wrap_small.
  - rewrite settings_bytes by done. apply (rfc_frame_parses SETTINGS); [by split|rewrite length_items; lia|].
    intros s _ Hb Hn Hps Hf _. rewrite Hf. split; [|done]. by eapply items_of.
  - rewrite settings_ack_bytes. apply (rfc_frame_parses SETTINGS); [by split|done|].
    intros s _ _ _ _ Hf _. by rewrite Hf.
  - rewrite reset_bytes by done. apply (rfc_frame_parses RST_STREAM); [done|by rewrite length_le_split|].
    intros s _ Hb Hn _ _ Hsid. split; [|done]. unfold reset_code.
    rewrite (frame_body s _ _ _ _ _ Hb Hn 0) by (rewrite ?length_le_split; lia).
    rewrite drop_0, take_ge by (by rewrite length_le_split).
    rewrite le_combine_split. apply wrap_small, native_to_big_fits. destruct err; by vm_compute.
  - by apply goaway_parses.
  - pose proof (data_bytes fresh id flags body Hid Hp ltac:(lia)) as Hd.
    destruct (data fresh (native_to_big id) flags (Z.of_nat (length body))) as [b [off len]].
    destruct Hd as [_ ->]. apply (rfc_frame_parses DATA); [done|lia|].
    intros s _ Hb Hn Hps Hf Hsid. split; [|done]. unfold frame_data. rewrite Hf, Hp, Hps, !Z.sub_0_r, Z.add_0_r.
    by eapply Htail.
  - rewrite headers_bytes by done. rewrite (header_rfc 1) by (done || lia).
    apply (rfc_frame_parses HEADERS); [done|lia|]. intros s _ Hb Hn Hps Hf Hsid. split; [|done].
    unfold header_block. rewrite Hf, Hp, Hq, Hps, !Z.sub_0_r, Z.add_0_r. by eapply Htail.
  - rewrite continuation_bytes by done. rewrite (header_rfc 9) by (done || lia).
    apply (rfc_frame_parses CONTINUATION); [done|lia|]. intros s _ Hb Hn Hps Hf Hsid. split; [|done].
    unfold continuation_block. rewrite Hps. by eapply Htail.
Qed.

Lemma frame_roundtrip_witness :
  parses GOAWAY (data_view (goaway (fun _ => 7) PROTOCOL_ERROR 0 [1; 2])) (fun s => sp_bytes (additional s) = [1; 2]) /\
  parses WINDOW_UPDATE (data_view (update_window (fun _ => 7) 100 (native_to_big 3)))
    (fun s => window_size s = 100 /\ stream_id_field s = native_to_big 3).
Proof.
  destruct (frame_roundtrip (fun _ => 7) 3 4 100 PROTOCOL_ERROR 0 [make_item ENABLE_PUSH 0] [1; 2])
    as (H1 & _ & _ & _ & H2 & _); [by split|by split|by split|done|done|done| |done|exact (conj H2 H1)].
  repeat constructor; by vm_compute.
Defined.

(** Where the built bytes are not what is meant: [reset] swaps the error code, which
    [error_code] keeps swapped already, so that every code but [IS_OK] is sent with its bytes
    reversed; [goaway] stores its last stream id unswapped, so that the id 1 the client passes
    reads as 16777216; and [ping] without data sends eight bytes of uninitialised memory. *)
Theorem builder_faults fresh err id :
  fits 32 id ->
  (data_view (reset fresh err (native_to_big id)) = rfc_frame 3 0 id (be_split 4 (error_number err))
     <-> err = IS_OK) /\
  data_view (goaway fresh err 1 []) =
    rfc_frame 7 0 0 (be_split 4 16777216 ++ be_split 4 (error_number err)) /\
  data_view (ping fresh []) = rfc_frame 6 0 0 (fresh <$> seqZ 9 8).
Proof.
  intros Hid. split_and!; [| |apply ping_bytes].
  - rewrite reset_bytes by done. split; [|by intros ->]. intros H.
    unfold rfc_frame in H. rewrite length_le_split, length_be_split in H.
    apply (inj (app _)), (inj (app _)), (inj (app _)) in H. destruct err; [done|vm_compute in H; discriminate..].
  - rewrite goaway_bytes by done. by rewrite app_nil_r.
Qed.

Lemma builder_faults_witness :
  data_view (reset (fun _ => 7) CANCEL (native_to_big 3)) <> rfc_frame 3 0 3 (be_split 4 8).
Proof.
  intros H. apply (builder_faults (fun _ => 7) CANCEL 3) in H; [discriminate|by split].
Defined.
