(* ===== verification/ErrorCategory.v ===== *)
(** * Texts of the error codes (error.h, error.cpp)

    The category of the HTTP/2 error codes. [message] writes the text of a code into a
    caller's buffer, here the list of its bytes, which may hold anything before; the other
    overload makes a string of a buffer of 64 zero bytes. An error code is the [int] whose
    bytes, in memory order, are the four bytes of the code on the wire. *)
From S2P Require Import Prelude Memory Utils Protocol Frame FrameBuilder.

(** [static_cast<int>] of a 32-bit value, and back. *)
Definition to_int (x : Z) : Z := if x <? 2 ^ 31 then x else x - 2 ^ 32.

Definition category_name : string := "HTTP2".

Definition all_codes : list error_code :=
  [IS_OK; PROTOCOL_ERROR; INTERNAL_ERROR; FLOW_CONTROL_ERROR; SETTINGS_TIMEOUT; STREAM_CLOSED; FRAME_SIZE_ERROR;
   REFUSED_STREAM; CANCEL; COMPRESSION_ERROR; CONNECT_ERROR; ENHANCE_YOUR_CALM; INADEQUATE_SECURITY; HTTP_1_1_REQUIRED].

Definition str_error (e : error_code) : string :=
  match e with
  | IS_OK => "No error"
  | PROTOCOL_ERROR => "Protocol error"
  | INTERNAL_ERROR => "Internal error"
  | FLOW_CONTROL_ERROR => "Flow control error"
  | SETTINGS_TIMEOUT => "Settings timeout"
  | STREAM_CLOSED => "Stream closed"
  | FRAME_SIZE_ERROR => "Frame size error"
  | REFUSED_STREAM => "Refused stream"
  | CANCEL => "Canceled"
  | COMPRESSION_ERROR => "Compression error"
  | CONNECT_ERROR => "Connect error"
  | ENHANCE_YOUR_CALM => "Enhace your calm"
  | INADEQUATE_SECURITY => "Inadequate security"
  | HTTP_1_1_REQUIRED => "HTTP1.1 required"
  end.

(** The [case] of [switch (static_cast<error_code>(ev))]. *)
Definition code_of (ev : Z) : option error_code :=
  List.find (fun e => error_code_value e =? u32 ev) all_codes.

(** [%d]: the digits, least significant first into [acc]; ten are enough for an [int]. *)
Fixpoint digits (fuel : nat) (n : Z) (acc : list Z) : list Z :=
  match fuel with
  | O => acc
  | S fuel =>
      let acc := 48 + n mod 10 :: acc in
      if n / 10 =? 0 then acc else digits fuel (n / 10) acc
  end.
Definition decimal (ev : Z) : list Z := if ev <? 0 then 45 :: digits 10 (- ev) [] else digits 10 ev [].
Definition unknown_text (ev : Z) : list Z := str "Unknown HTTP2 error " ++ decimal ev.

(** [snprintf]: at most [len - 1] characters and a terminating zero. *)
Definition snprintf (buffer : list Z) (text : list Z) : list Z :=
  match length buffer with
  | O => buffer
  | S n => take n text ++ [0] ++ drop (S (length (take n text))) buffer
  end.

(** [message(ev, buffer, len)]. *)
Definition message_into (ev : Z) (buffer : list Z) : list Z :=
  match code_of ev with
  | Some e =>
      let text := str (str_error e) in
      let n := Nat.min (length buffer) (length text) in
      take n text ++ drop n buffer
  | None => snprintf buffer (unknown_text ev)
  end.

(** [message(ev)]. *)
Definition message (ev : Z) : list Z := message_into ev (replicate 64 0).

(** The C string that starts at a buffer: the bytes before the first zero; none if there is no zero. *)
Fixpoint c_string (buffer : list Z) : option (list Z) :=
  match buffer with
  | [] => None
  | x :: buffer => if x =? 0 then Some [] else option_map (cons x) (c_string buffer)
  end.

(** The text of a code. *)
Definition error_text (ev : Z) : list Z :=
  match code_of ev with Some e => str (str_error e) | None => unknown_text ev end.

Lemma code_of_value e : code_of (to_int (error_code_value e)) = Some e.
Proof. by destruct e. Qed.

Lemma code_of_inv ev e : code_of ev = Some e -> error_code_value e = u32 ev.
Proof. unfold code_of. intros Hf. apply List.find_some in Hf as [_ Hf]. by apply Z.eqb_eq. Qed.

Lemma c_string_app t rest : Forall (fun x => x <> 0) t -> c_string (t ++ 0 :: rest) = Some t.
Proof.
  induction 1 as [|x t Hx _ IH]; simpl; [done|]. rewrite (proj2 (Z.eqb_neq x 0)) by done. by rewrite IH.
Qed.

Lemma c_string_none t : Forall (fun x => x <> 0) t -> c_string t = None.
Proof. induction 1 as [|x t Hx _ IH]; simpl; [done|]. rewrite (proj2 (Z.eqb_neq x 0)) by done. by rewrite IH. Qed.

(** No zero in a string of these characters. *)
Lemma nonzero_fixed t : forallb (fun x => negb (x =? 0)) t = true -> Forall (fun x => x <> 0) t.
Proof.
  intros Ht. apply Forall_forall. intros x Hx. rewrite forallb_forall in Ht. apply list_elem_of_In in Hx.
  specialize (Ht x Hx). by apply negb_true_iff, Z.eqb_neq in Ht.
Qed.

(** The number a row of digits stands for. *)
Definition value_of (ds : list Z) : Z := foldl (fun v d => 10 * v + (d - 48)) 0 ds.

Lemma value_of_app ds d : value_of (ds ++ [d]) = 10 * value_of ds + (d - 48).
Proof. unfold value_of. by rewrite foldl_app. Qed.

Lemma digits_app fuel : forall n acc, digits fuel n acc = digits fuel n [] ++ acc.
Proof.
  induction fuel as [|fuel IH]; intros n acc; cbn [digits]; [done|].
  destruct (n / 10 =? 0); [done|]. rewrite IH, (IH _ [_]), <- app_assoc. done.
Qed.

(** The digits are digits, there are not too many, and they stand for the number. *)
Lemma digits_spec fuel : forall n, 0 <= n < 10 ^ Z.of_nat fuel ->
  let ds := digits fuel n [] in
  value_of ds = n /\ Forall (fun d => 48 <= d <= 57) ds /\ (length ds <= fuel)%nat.
Proof.
  induction fuel as [|fuel IH]; intros n Hn; cbn [digits].
  { simpl in Hn. split_and!; [cbn; lia|constructor|done]. }
  rewrite Nat2Z.inj_succ, Z.pow_succ_r in Hn by lia.
  assert (Hd : 48 <= 48 + n mod 10 <= 57) by (pose proof (Z.mod_pos_bound n 10); lia).
  pose proof (Z.div_mod n 10 ltac:(lia)) as Hdm.
  destruct (Z.eqb_spec (n / 10) 0) as [E|E].
  - rewrite E in Hdm. split_and!; [unfold value_of; cbn [foldl]; lia|by constructor|simpl; lia].
  - destruct (IH (n / 10)) as (H1 & H2 & H3).
    { split; [apply Z.div_pos; lia|apply Z.div_lt_upper_bound; lia]. }
    rewrite digits_app, value_of_app, H1. split_and!; [lia|by apply Forall_app; split; [|constructor]|].
    rewrite length_app. simpl. lia.
Qed.

(** An [int]. *)
Definition is_int (ev : Z) : Prop := - 2 ^ 31 <= ev < 2 ^ 31.

Lemma decimal_spec ev :
  is_int ev -> Forall (fun x => x <> 0) (decimal ev) /\ (length (decimal ev) <= 11)%nat /\
  value_of (digits 10 (Z.abs ev) []) = Z.abs ev.
Proof.
  unfold is_int, decimal. intros Hev. destruct (digits_spec 10 (Z.abs ev)) as (H1 & H2 & H3); [lia|].
  assert (Hz : Forall (fun x => x <> 0) (digits 10 (Z.abs ev) [])).
  { eapply Forall_impl; [exact H2|]. simpl. lia. }
  destruct (Z.ltb_spec ev 0).
  - rewrite Z.abs_neq in * by lia. split_and!; [by constructor|cbn [length]; lia|done].
  - rewrite Z.abs_eq in * by lia. split_and!; [done|lia|done].
Qed.

Lemma error_text_spec ev :
  is_int ev -> Forall (fun x => x <> 0) (error_text ev) /\ (0 < length (error_text ev) < 64)%nat.
Proof.
  intros Hev. unfold error_text. destruct (code_of ev) as [e|].
  - split; [apply nonzero_fixed|]; destruct e; (reflexivity || (vm_compute; lia)).
  - destruct (decimal_spec ev Hev) as (H1 & H2 & _). unfold unknown_text. rewrite length_app. split.
    + apply Forall_app. split; [|done]. by apply nonzero_fixed.
    + change (length (str "Unknown HTTP2 error ")) with 20%nat. lia.
Qed.

(** The result of writing into a large enough buffer. *)
Lemma message_into_large ev buffer :
  let t := error_text ev in
  (length t < length buffer)%nat ->
  message_into ev buffer = t ++ (match code_of ev with Some _ => [] | None => [0] end) ++
    drop (length t + match code_of ev with Some _ => 0 | None => 1 end) buffer.
Proof.
  intros t Hl. unfold message_into, t, error_text in *. destruct (code_of ev) as [e|].
  - rewrite Nat.min_r by lia. by rewrite firstn_all, Nat.add_0_r.
  - unfold snprintf. destruct (length buffer) as [|n] eqn:En; [lia|]. rewrite (take_ge (unknown_text ev)) by lia.
    by rewrite Nat.add_1_r.
Qed.

(** The text of an error. For every [int], [message] is the text of the code, or for other values a
    text that ends with the number in decimal, followed by zeros up to 64 characters: never cut off,
    and as a C string exactly the text; but the string is always 64 characters long. *)
Theorem error_message ev :
  is_int ev ->
  let t := error_text ev in
  message ev = t ++ replicate (64 - length t) 0 /\ c_string (message ev) = Some t /\ length (message ev) = 64%nat /\
  (length t < 64)%nat /\
  match code_of ev with
  | Some e => error_code_value e = u32 ev /\ t = str (str_error e)
  | None => Forall (fun e => error_code_value e <> u32 ev) all_codes /\ t = str "Unknown HTTP2 error " ++ decimal ev /\
      value_of (digits 10 (Z.abs ev) []) = Z.abs ev
  end.
Proof.
  intros Hev t. destruct (error_text_spec ev Hev) as [Hz [H0 H64]]. fold t in Hz, H0, H64.
  assert (Hm : message ev = t ++ replicate (64 - length t) 0).
  { unfold message. rewrite message_into_large by (rewrite length_replicate; exact H64). fold t. f_equal.
    destruct (code_of ev).
    - rewrite Nat.add_0_r. cbn [app]. by rewrite drop_replicate.
    - rewrite drop_replicate. replace (64 - length t)%nat with (S (64 - (length t + 1))) by lia. done. }
  split_and!; [done| | |done|].
  - rewrite Hm. replace (64 - length t)%nat with (S (63 - length t)) by lia. by apply c_string_app.
  - rewrite Hm, length_app, length_replicate. lia.
  - unfold t, error_text. destruct (code_of ev) as [e|] eqn:Ec; [by split; [apply code_of_inv|]|].
    split; [|by split; [|apply decimal_spec]]. apply Forall_forall. intros e He Hv. apply list_elem_of_In in He.
    unfold code_of in Ec. pose proof (List.find_none _ _ Ec e He) as Hn. simpl in Hn. by apply Z.eqb_neq in Hn.
Qed.

(** A text written into a caller's buffer. Nothing is written past the end of the buffer, but for the texts of
    the known codes no terminating zero is written either: what follows the text is what was in the
    buffer, so that a buffer without a zero does not hold a C string afterwards. A text for an unknown
    value is terminated in a buffer of any positive length. *)
Theorem error_message_into ev buffer :
  is_int ev -> Forall (fun x => x <> 0) buffer -> buffer <> [] ->
  length (message_into ev buffer) = length buffer /\
  match code_of ev with
  | Some _ => c_string (message_into ev buffer) = None
  | None => c_string (message_into ev buffer) = Some (take (length buffer - 1) (error_text ev))
  end.
Proof.
  intros Hev Hb Hne. destruct (error_text_spec ev Hev) as [Hz _]. unfold message_into, error_text in *.
  destruct (code_of ev) as [e|].
  - set (t := str (str_error e)) in *. set (n := Nat.min _ _). split.
    + rewrite length_app, length_take, length_drop. lia.
    + apply c_string_none, Forall_app. split; [by apply Forall_take|by apply Forall_drop].
  - unfold snprintf. destruct (length buffer) as [|n] eqn:En; [by destruct buffer|].
    replace (S n - 1)%nat with n by lia. set (t := take n (unknown_text ev)).
    assert (Ht : (length t <= n)%nat) by (unfold t; rewrite length_take; lia). split.
    + rewrite !length_app, length_drop, En. simpl. lia.
    + apply c_string_app. by apply Forall_take.
Qed.

(** ** Errors from the wire *)

(** The code of a RST_STREAM frame of the peer is the error code of RFC 7540 7 with this number, and the error a
    request completes with has its text. *)
Theorem reset_code_text e flags id s rest :
  fits 32 id -> span_ok s -> sp_bytes s = rfc_frame 3 flags id (be_split 4 (error_number e)) ++ rest ->
  exists fa, from_buffer s = Ok fa /\ get_frame RST_STREAM fa = Ok (fa_buffer fa) /\
    Http2Error (reset_code (fa_buffer fa)) = make_error_code e /\
    error_text (to_int (reset_code (fa_buffer fa))) = str (str_error e).
Proof.
  intros Hid Hs Hb. pose proof (length_be_split 4 (error_number e)) as Hl.
  destruct (rfc_frame_parses RST_STREAM flags id (be_split 4 (error_number e)) (fun s => reset_code s = error_code_value e)
    Hid ltac:(lia)) with (s := s) (rest := rest) (max_frame_size := 4) as (fa & H1 & _ & _ & H2 & _ & H3); try done.
  - intros s' Hs' Hb' Hl' _ _ _. unfold reset_code, HEADER_SIZE. rewrite sp_slice_bytes by lia. rewrite Hb'.
    change 9 with (Z.of_nat 9). rewrite Nat2Z.id, drop_app_length' by (by rewrite length_header).
    rewrite take_ge by lia. rewrite <- error_code_wire. by destruct e.
  - exists fa. rewrite H3. split_and!; try done. unfold error_text. by rewrite code_of_value.
Qed.

Lemma error_message_witness :
  message (to_int (native_to_big 13)) = str "HTTP1.1 required" ++ replicate 48 0 /\
  c_string (message (-7)) = Some (str "Unknown HTTP2 error -7").
Proof.
  split.
  - refine (proj1 (error_message (to_int (native_to_big 13)) _)). vm_compute. split; [discriminate|reflexivity].
  - refine (proj1 (proj2 (error_message (-7) _))). split; lia.
Defined.

Lemma error_message_into_witness :
  c_string (message_into (to_int (native_to_big 8)) (replicate 20 42)) = None /\
  c_string (message_into 5 (replicate 9 42)) = Some (str "Unknown ").
Proof.
  split.
  - refine (proj2 (error_message_into (to_int (native_to_big 8)) (replicate 20 42) _ _ _)).
    + vm_compute. split; [discriminate|reflexivity].
    + by apply nonzero_fixed.
    + discriminate.
  - refine (proj2 (error_message_into 5 (replicate 9 42) _ _ _)); [split; lia|by apply nonzero_fixed|discriminate].
Defined.

Lemma reset_code_text_witness :
  exists fa, from_buffer (span_of (fun _ => 0) 10 (rfc_frame 3 0 5 [0; 0; 0; 8])) = Ok fa /\
    Http2Error (reset_code (fa_buffer fa)) = make_error_code CANCEL /\
    error_text (to_int (reset_code (fa_buffer fa))) = str "Canceled".
Proof.
  destruct (reset_code_text CANCEL 0 5 (span_of (fun _ => 0) 10 (rfc_frame 3 0 5 [0; 0; 0; 8])) []) as (fa & H1 & _ & H2 & H3).
  - by split.
  - apply span_of_ok; [by split|]. repeat constructor; by vm_compute.
  - rewrite sp_bytes_place. reflexivity.
  - exists fa. split; [exact H1|]. split; [exact H2|exact H3].
Defined.
