(* ===== verification/Window.v ===== *)
(** * Receive windows (dummy_window.h, dummy_window.cpp)

    The window a peer may fill: its maximum, what is left of it, and the number of used
    bytes from which on a WINDOW_UPDATE frame gives them back. All three are [uint32_t]. *)
From S2P Require Import Prelude Utils Buffer Protocol Frame FrameBuilder.

Record dummy_window : Type := DummyWindow { w_max_size : Z; w_size : Z; w_trigger_size : Z }.

Definition make_window (msize trigger : Z) : dummy_window := DummyWindow (u32 msize) (u32 msize) (u32 trigger).

Definition dec (v : Z) (w : dummy_window) : dummy_window :=
  DummyWindow (w_max_size w) (u32 (w_size w - u32 v)) (w_trigger_size w).

Definition need_update (w : dummy_window) : bool :=
  let inc_size := u32 (w_max_size w - w_size w) in
  w_trigger_size w <=? inc_size.

(** [update(http_id)]: the window, and the frame to send. *)
Definition update (fresh : Z -> Z) (http_id : Z) (w : dummy_window) : dummy_window * option buffer :=
  if negb (need_update w) then (w, None)
  else
    let inc_size := u32 (w_max_size w - w_size w) in
    (DummyWindow (w_max_size w) (u32 (w_size w + inc_size)) (w_trigger_size w),
     Some (update_window fresh inc_size http_id)).

Definition current (w : dummy_window) : Z := w_size w.

(** ** Flow control *)

(** What happens to a window: bytes of the peer arrive, or the owner tries to update it. *)
Inductive window_op : Type := Received (n : Z) | Update.

Fixpoint run (fresh : Z -> Z) (id : Z) (ops : list window_op) (w : dummy_window) : dummy_window * list buffer :=
  match ops with
  | [] => (w, [])
  | Received n :: ops => run fresh id ops (dec n w)
  | Update :: ops =>
      let '(w, b) := update fresh id w in
      let '(w, out) := run fresh id ops w in
      (w, option_list b ++ out)
  end.

(** A peer that honours flow control never sends more than the window has left. *)
Fixpoint honoured (ops : list window_op) (w : dummy_window) : Prop :=
  match ops with
  | [] => True
  | Received n :: ops => 0 <= n <= current w /\ honoured ops (dec n w)
  | Update :: ops => honoured ops (update (fun _ => 0) 0 w).1
  end.

(** The number of bytes received. *)
Fixpoint received (ops : list window_op) : Z :=
  match ops with
  | [] => 0
  | Received n :: ops => n + received ops
  | Update :: ops => received ops
  end.

Definition sum_list_z (l : list Z) : Z := foldr Z.add 0 l.

Definition window_ok (w : dummy_window) : Prop :=
  0 < w_trigger_size w <= w_max_size w /\ 0 <= w_size w <= w_max_size w /\ w_max_size w < 2 ^ 31.

Lemma make_window_ok msize trigger : 0 < trigger <= msize -> msize < 2 ^ 31 -> window_ok (make_window msize trigger).
Proof.
  intros H1 H2. unfold make_window, u32, window_ok. rewrite !wrap_small by (unfold fits; lia). simpl. lia.
Qed.

Lemma dec_ok n w :
  window_ok w -> 0 <= n <= current w ->
  window_ok (dec n w) /\ current (dec n w) = current w - n /\
  w_max_size (dec n w) = w_max_size w /\ w_trigger_size (dec n w) = w_trigger_size w.
Proof.
  unfold window_ok, current, dec, u32. simpl. intros Hw Hn.
  rewrite !wrap_small by (unfold fits; rewrite ?wrap_small by (unfold fits; lia); lia). lia.
Qed.

(** [update] fills the window and announces exactly what was used. *)
Lemma update_ok fresh id w :
  window_ok w ->
  let used := w_max_size w - current w in
  let '(w', b) := update fresh id w in
  window_ok w' /\ w_max_size w' = w_max_size w /\ w_trigger_size w' = w_trigger_size w /\
  (if used <? w_trigger_size w then w' = w /\ b = None
   else current w' = w_max_size w' /\ b = Some (update_window fresh used id)).
Proof.
  unfold window_ok, current, update, need_update, u32. intros Hw. cbn zeta.
  rewrite (wrap_small 32 (w_max_size w - w_size w)) by (unfold fits; lia).
  rewrite Z.leb_antisym, negb_involutive.
  destruct (Z.ltb_spec (w_max_size w - w_size w) (w_trigger_size w)); [done|]. simpl.
  rewrite wrap_small by (unfold fits; lia). split_and!; try done; lia.
Qed.

(** The window after an update does not depend on the memory or the id of the frame. *)
Lemma update_fst fresh fresh' id id' w : (update fresh id w).1 = (update fresh' id' w).1.
Proof. unfold update. by destruct (negb _). Qed.

(** The window and the increments over any operations a peer's credit allows. *)
Lemma run_conservation fresh id ops w :
  fits 32 id -> window_ok w -> current w = w_max_size w -> honoured ops w ->
  exists incs,
    let '(w', out) := run fresh (native_to_big id) ops w in
    map data_view out = map (fun inc => rfc_frame 8 0 id (be_split 4 inc)) incs /\
    Forall (fun inc => w_trigger_size w <= inc <= w_max_size w) incs /\
    window_ok w' /\ current w' = w_max_size w - received ops + sum_list_z incs /\
    (last ops = Some Update -> w_max_size w - current w' < w_trigger_size w).
Proof.
  intros Hid Hw Hfull Hh.
  cut (exists incs, let '(w', out) := run fresh (native_to_big id) ops w in
    map data_view out = map (fun inc => rfc_frame 8 0 id (be_split 4 inc)) incs /\
    Forall (fun inc => w_trigger_size w <= inc <= w_max_size w) incs /\
    window_ok w' /\ current w' = current w - received ops + sum_list_z incs /\
    (last ops = Some Update -> w_max_size w - current w' < w_trigger_size w)).
  { rewrite Hfull. done. }
  clear Hfull. revert w Hw Hh. induction ops as [|[n|] ops IH]; intros w Hw Hh.
  - exists []. simpl. split_and!; [done|constructor|done|lia|done].
  - destruct Hh as [Hn Hh]. destruct (dec_ok n w Hw Hn) as (Hd & Hc & Hm & Ht).
    destruct (IH _ Hd Hh) as [incs IHi]. exists incs. simpl.
    destruct (run fresh (native_to_big id) ops (dec n w)) as [w' out].
    rewrite Hm, Ht, Hc in IHi. destruct IHi as (H1 & H2 & H3 & H4 & H5).
    split_and!; [done|done|done|lia|]. by destruct ops.
  - simpl in Hh. rewrite (update_fst _ fresh _ (native_to_big id)) in Hh.
    pose proof (update_ok fresh (native_to_big id) w Hw) as Hu. cbn [run]. cbn zeta in Hu.
    destruct (update fresh (native_to_big id) w) as [w1 b]. destruct Hu as (Hw1 & Hm & Ht & Hu).
    destruct (IH _ Hw1 Hh) as [incs IHi].
    destruct (run fresh (native_to_big id) ops w1) as [w' out] eqn:Er.
    rewrite Hm, Ht in IHi. destruct IHi as (H1 & H2 & H3 & H4 & H5).
    assert (Hlast : last (Update :: ops) = Some Update ->
      ops = [] \/ last ops = Some Update) by (destruct ops; [by left|by right]).
    destruct (Z.ltb_spec (w_max_size w - current w) (w_trigger_size w)) as [Hlt|Hge].
    + destruct Hu as [-> ->]. exists incs. cbn [option_list app received]. split_and!; try done.
      intros Hl. destruct (Hlast Hl) as [->|Hl']; [|by apply H5]. injection Er as <- <-. lia.
    + destruct Hu as [Hc ->]. exists (w_max_size w - current w :: incs). cbn [option_list app received map].
      unfold window_ok, current in *. split_and!; try lia.
      * simpl. rewrite update_window_bytes by done. by f_equal.
      * constructor; [lia|done].
      * simpl. lia.
      * intros Hl. destruct (Hlast Hl) as [->|Hl']; [|by apply H5]. injection Er as <- <-. lia.
Qed.

(** C27: Flow control of a window below 2^31 bytes with a positive trigger: against a peer that
    never sends more than the window allows, no byte of credit is lost or invented. Every
    WINDOW_UPDATE frame sent is well formed with an increment of at least the trigger and at
    most the window, and what was received is what was announced plus the used part of the
    window; so the peer's view of the window ([max - received + announced]) is the size kept
    here. An update at the end leaves less than the trigger used. *)
Theorem window_conservation fresh id ops w :
  fits 32 id -> window_ok w -> current w = w_max_size w -> honoured ops w ->
  exists incs,
    let '(w', out) := run fresh (native_to_big id) ops w in
    map data_view out = map (fun inc => rfc_frame 8 0 id (be_split 4 inc)) incs /\
    Forall (fun inc => w_trigger_size w <= inc <= w_max_size w) incs /\
    window_ok w' /\ current w' = w_max_size w - received ops + sum_list_z incs /\
    (last ops = Some Update -> w_max_size w - current w' < w_trigger_size w).
Proof. apply run_conservation. Qed.

Lemma window_conservation_witness :
  let w := make_window 65535 16383 in
  exists incs,
    let '(w', out) := run (fun _ => 7) (native_to_big 3) [Received 10000; Update; Received 10000; Update] w in
    map data_view out = map (fun inc => rfc_frame 8 0 3 (be_split 4 inc)) incs /\
    Forall (fun inc => w_trigger_size w <= inc <= w_max_size w) incs /\
    window_ok w' /\ current w' = 65535 - 20000 + sum_list_z incs /\
    (Some Update = Some Update -> w_max_size w - current w' < w_trigger_size w).
Proof.
  apply (window_conservation (fun _ => 7) 3 [Received 10000; Update; Received 10000; Update]
    (make_window 65535 16383)); [by split|by apply make_window_ok|done|].
  vm_compute. repeat split; discriminate.
Defined.
