(* ===== verification/SettingsManager.v ===== *)
(** * Settings synchronisation (settings_manager.h, settings_manager.cpp)

    The manager keeps both sides' settings and the completion handler of the one
    synchronisation in progress. What it asks of the timer and the calls of the handler are
    emitted as effects, in order; the timer's callback is an event. The two settings frames
    of a synchronisation, the timer and a cancellation can come in any order: [run] folds
    the operations over a list of events. *)
From S2P Require Import Prelude Memory Utils Buffer Protocol Frame FrameBuilder.

(** [SettingsTimeout], in seconds. *)
Definition SettingsTimeout : Z := 5.

Section manager.
Context {H : Type} (fresh : Z -> Z).

Record settings_manager : Type := SettingsManager {
  local_settings : settings;
  remote_settings : settings;
  need_remote_sync : bool;
  local_settings_ack : bool;
  remote_settings_got : bool;
  settings_handler : option H;
}.

Inductive effect : Type :=
| ExpiresFromNow (seconds : Z)
| CancelTimer
| Invoke (h : H) (ec : boost_error).

Definition make_settings_manager : settings_manager :=
  SettingsManager default_settings default_settings true false false None.

Definition finished (ec : boost_error) (m : settings_manager) : settings_manager * bool * list effect :=
  match settings_handler m with
  | Some h =>
      (SettingsManager (local_settings m) (remote_settings m) (need_remote_sync m)
         (local_settings_ack m) (remote_settings_got m) None, true, [Invoke h ec])
  | None => (m, false, [])
  end.

(** The lambda waiting for the timer. *)
Definition on_timer (ec : boost_error) (m : settings_manager) : settings_manager * list effect :=
  if decide (ec = AsioError operation_aborted) then (m, [])
  else let '(m, _, eff) := finished (make_error_code SETTINGS_TIMEOUT) m in (m, eff).

Definition settings_items (s : settings) : list settings_item :=
  [make_item HEADER_TABLE_SIZE (header_table_size s);
   make_item ENABLE_PUSH (push_state_value (enable_push s));
   make_item MAX_CONCURRENT_STREAMS (max_concurrent_streams s);
   make_item SETTINGS_INITIAL_WINDOW_SIZE (initial_window_size s);
   make_item MAX_FRAME_SIZE (max_frame_size s);
   make_item MAX_HEADER_LIST_SIZE (max_header_list_size s)].

Definition initiate_sync_settings (local : settings) (remote_sync : bool) (handler : H)
    (m : settings_manager) : outcome (settings_manager * buffer * list effect) :=
  match settings_handler m with
  | Some _ => Throw (system_error (AsioError in_progress) "Sync settings in the progress")
  | None =>
      Ok (SettingsManager local (remote_settings m) remote_sync false (negb remote_sync) (Some handler),
          settings_frame fresh (settings_items local),
          [ExpiresFromNow SettingsTimeout])
  end.

(** One iteration of the loop over the items; [value] is read as a big-endian integer. *)
Definition apply_item (r : settings) (i : Z * Z) : settings :=
  let '(type, value) := i in
  let v := native_to_big value in
  let '(Settings hts ep mcs iws mfs mhl cp) := r in
  if type =? settings_type_value HEADER_TABLE_SIZE then Settings v ep mcs iws mfs mhl cp
  else if type =? settings_type_value ENABLE_PUSH then
    Settings hts (if v =? 0 then PUSH_DISABLED else PUSH_ENABLED) mcs iws mfs mhl cp
  else if type =? settings_type_value MAX_CONCURRENT_STREAMS then Settings hts ep v iws mfs mhl cp
  else if type =? settings_type_value SETTINGS_INITIAL_WINDOW_SIZE then Settings hts ep mcs v mfs mhl cp
  else if type =? settings_type_value MAX_FRAME_SIZE then Settings hts ep mcs iws v mhl cp
  else if type =? settings_type_value MAX_HEADER_LIST_SIZE then Settings hts ep mcs iws mfs v cp
  else if type =? settings_type_value ENABLE_CONNECT_PROTOCOL then
    Settings hts ep mcs iws mfs mhl (if v =? 0 then PROTOCOL_DISABLED else PROTOCOL_ENABLED)
  else r.

Definition on_settings_frame (data : span) (m : settings_manager) :
    outcome (settings_manager * option buffer * list effect) :=
  analyzer ← from_buffer data;
  frame ← get_frame SETTINGS analyzer;
  if has_flag (flags_field frame) ACK then
    let m := SettingsManager (local_settings m) (remote_settings m) (need_remote_sync m)
               true (remote_settings_got m) (settings_handler m) in
    if (need_remote_sync m && remote_settings_got m && local_settings_ack m)
       || (negb (need_remote_sync m) && local_settings_ack m) then
      let '(m, _, eff) := finished NoError m in Ok (m, None, CancelTimer :: eff)
    else Ok (m, None, [CancelTimer])
  else
    Ok (SettingsManager (local_settings m) (foldl apply_item (remote_settings m) (items frame))
          (need_remote_sync m) (local_settings_ack m) true (settings_handler m),
        Some (settings_ack fresh), []).

Definition cancel (ec : boost_error) (m : settings_manager) : settings_manager * bool * list effect :=
  let '(m, r, eff) := finished ec m in (m, r, CancelTimer :: eff).

(** ** Histories *)

Inductive event : Type :=
| Initiate (local : settings) (remote_sync : bool) (handler : H)
| FrameReceived (data : span)
| TimerCallback (ec : boost_error)
| Cancel (ec : boost_error).

(** An operation that throws has changed nothing; its caller handles the exception. *)
Definition step (e : event) (m : settings_manager) : settings_manager * list effect :=
  match e with
  | Initiate local sync h =>
      match initiate_sync_settings local sync h m with Ok (m, _, eff) => (m, eff) | _ => (m, []) end
  | FrameReceived data => match on_settings_frame data m with Ok (m, _, eff) => (m, eff) | _ => (m, []) end
  | TimerCallback ec => on_timer ec m
  | Cancel ec => let '(m, _, eff) := cancel ec m in (m, eff)
  end.

Fixpoint run (es : list event) (m : settings_manager) : settings_manager * list effect :=
  match es with
  | [] => (m, [])
  | e :: es => let '(m, eff) := step e m in let '(m, eff') := run es m in (m, eff ++ eff')
  end.

(** The handlers of the synchronisations that were started. *)
Fixpoint started (es : list event) (m : settings_manager) : list H :=
  match es with
  | [] => []
  | e :: es =>
      match e with
      | Initiate local sync h => match initiate_sync_settings local sync h m with Ok _ => [h] | _ => [] end
      | _ => []
      end ++ started es (step e m).1
  end.

(** The handlers called. *)
Definition invoked (eff : list effect) : list H :=
  omap (fun e => match e with Invoke h _ => Some h | _ => None end) eff.
End manager.
Arguments settings_manager : clear implicits.
Arguments event : clear implicits.
Arguments effect : clear implicits.

(** ** Received settings *)

(** What a SETTINGS parameter means: RFC 7540, section 6.5.2, and RFC 8441. *)
Definition rfc_setting (r : settings) (p : Z * Z) : settings :=
  let '(Settings hts ep mcs iws mfs mhl cp) := r in
  let '(id, v) := p in
  match id with
  | 1 => Settings v ep mcs iws mfs mhl cp
  | 2 => Settings hts (if v =? 0 then PUSH_DISABLED else PUSH_ENABLED) mcs iws mfs mhl cp
  | 3 => Settings hts ep v iws mfs mhl cp
  | 4 => Settings hts ep mcs v mfs mhl cp
  | 5 => Settings hts ep mcs iws v mhl cp
  | 6 => Settings hts ep mcs iws mfs v cp
  | 8 => Settings hts ep mcs iws mfs mhl (if v =? 0 then PROTOCOL_DISABLED else PROTOCOL_ENABLED)
  | _ => r
  end.

Definition rfc_param (p : Z * Z) : list Z := be_split 2 p.1 ++ be_split 4 p.2.
Definition param_fits (p : Z * Z) : Prop := fits 16 p.1 /\ fits 32 p.2.

(** A parameter as it is read from memory. *)
Definition swapped (p : Z * Z) : settings_item := SettingsItem (native_to_big16 p.1) (native_to_big p.2).

Lemma swapped_bytes p : param_fits p -> item_bytes (swapped p) = rfc_param p.
Proof.
  intros [H1 H2]. unfold item_bytes, rfc_param, swapped. cbn [item_type item_value].
  by rewrite native_to_big16_bytes, native_to_big_bytes.
Qed.

Lemma swapped_params l : Forall param_fits l -> (swapped <$> l) ≫= item_bytes = l ≫= rfc_param.
Proof.
  induction 1 as [|p l Hp _ IH]; [done|]. cbn [fmap list_fmap mbind list_bind].
  by rewrite swapped_bytes, IH.
Qed.

Lemma apply_item_rfc r p :
  param_fits p -> apply_item r (item_type (swapped p), item_value (swapped p)) = rfc_setting r p.
Proof.
  destruct p as [id v], r. intros [H1 H2]. simpl in H1, H2.
  unfold apply_item, swapped, settings_type_value, rfc_setting. cbn [item_type item_value fst snd].
  rewrite native_to_big_involutive by done.
  rewrite !native_to_big16_eqb by (done || by split).
  repeat match goal with |- context [id =? ?k] => destruct (Z.eqb_spec id k) as [->|]; [done|] end.
  destruct id as [|q|q]; [done| |destruct H1; lia].
  repeat (destruct q as [q|q|]; try done; try lia).
Qed.

Lemma fold_items r l :
  Forall param_fits l ->
  foldl apply_item r ((fun i => (item_type i, item_value i)) <$> (swapped <$> l)) = foldl rfc_setting r l.
Proof.
  intros Hl. revert r. induction Hl as [|p l Hp _ IH]; intros r; [done|].
  cbn [fmap list_fmap foldl]. rewrite IH. f_equal. by apply apply_item_rfc.
Qed.

(** The span [s] holds a SETTINGS frame with these flags and parameters (and anything behind it). *)
Definition peer_frame (s : span) (flags : Z) (l : list (Z * Z)) : Prop :=
  span_ok s /\ (exists rest, sp_bytes s = rfc_frame 4 flags 0 (l ≫= rfc_param) ++ rest) /\
  Forall param_fits l /\ Z.of_nat (length l) < 2 ^ 20.

Lemma peer_frame_view s flags l :
  peer_frame s flags l ->
  exists fa, from_buffer s = Ok fa /\ get_frame SETTINGS fa = Ok (fa_buffer fa) /\
    items (fa_buffer fa) = (fun i => (item_type i, item_value i)) <$> (swapped <$> l) /\
    flags_field (fa_buffer fa) = flags.
Proof.
  intros (Hs & [rest Hb] & Hl & Hn).
  assert (Hlen : Z.of_nat (length ((swapped <$> l) ≫= item_bytes)) < 2 ^ 24)
    by (rewrite length_items, length_fmap; lia).
  assert (Hp : parses SETTINGS (rfc_frame 4 flags 0 (l ≫= rfc_param)) (fun s =>
    items s = (fun i => (item_type i, item_value i)) <$> (swapped <$> l) /\ flags_field s = flags)).
  { rewrite <- swapped_params by done. apply (rfc_frame_parses SETTINGS); [by split|done|].
    intros s' _ Hb' Hl' Hp' Hf' _. split; [|done]. eapply items_of; try done.
    apply Forall_fmap. eapply Forall_impl; [exact Hl|]. intros p [H1 H2]. simpl.
    split; [apply native_to_big16_fits|by apply native_to_big_fits]. }
  destruct (Hp s rest (2 ^ 24 + 9) Hs Hb) as (fa & H1 & _ & _ & H2 & _ & Hit & Hfl).
  { unfold rfc_frame. rewrite !length_app, !length_be_split. rewrite <- swapped_params by done. simpl. lia. }
  by exists fa.
Qed.

Section theorems.
Context {H : Type} (fresh : Z -> Z).
Implicit Types m : settings_manager H.

(** The state after an acknowledgement, and after the settings of the peer. *)
Definition acknowledged m : settings_manager H :=
  SettingsManager (local_settings m) (remote_settings m) (need_remote_sync m) true
    (remote_settings_got m) (settings_handler m).
Definition configured l m : settings_manager H :=
  SettingsManager (local_settings m) (foldl rfc_setting (remote_settings m) l) (need_remote_sync m)
    (local_settings_ack m) true (settings_handler m).

(** A SETTINGS frame of the peer, on every branch. *)
Lemma on_settings_frame_peer s flags l m :
  peer_frame s flags l ->
  on_settings_frame fresh s m = Ok (
    if has_flag flags ACK then
      let complete := remote_settings_got m || negb (need_remote_sync m) in
      match settings_handler m with
      | Some h => if complete
          then ((finished NoError (acknowledged m)).1.1, None, [CancelTimer; Invoke h NoError])
          else (acknowledged m, None, [CancelTimer])
      | None => (acknowledged m, None, [CancelTimer])
      end
    else (configured l m, Some (settings_ack fresh), [])).
Proof.
  intros Hp. destruct (peer_frame_view _ _ _ Hp) as (fa & H1 & H2 & Hit & Hfl).
  unfold on_settings_frame. rewrite H1. cbn [mbind outcome_bind]. rewrite H2. cbn [mbind outcome_bind].
  rewrite Hit, Hfl, fold_items by apply Hp. destruct (has_flag flags ACK); [|done].
  cbn zeta. destruct m as [ls rs nr la rg [h|]], rg, nr; done.
Qed.

(** A SETTINGS frame of the peer, on every branch. An acknowledgement is noted, the timer
    is cancelled, and the waiting handler is called without error if the peer's settings
    have arrived or are not waited for. Any other SETTINGS frame changes the settings of the
    peer as the RFC says, parameter by parameter, unknown ones ignored, and is answered
    with an acknowledgement; nothing is completed then. *)
Theorem settings_frame_received s flags l m :
  peer_frame s flags l ->
  on_settings_frame fresh s m = Ok (
    if has_flag flags ACK then
      let complete := remote_settings_got m || negb (need_remote_sync m) in
      match settings_handler m with
      | Some h => if complete
          then ((finished NoError (acknowledged m)).1.1, None, [CancelTimer; Invoke h NoError])
          else (acknowledged m, None, [CancelTimer])
      | None => (acknowledged m, None, [CancelTimer])
      end
    else (configured l m, Some (settings_ack fresh), [])).
Proof. apply on_settings_frame_peer. Qed.

(** The steps of the two frames of a synchronisation that waits for both. *)
Lemma step_settings s flags l m :
  peer_frame s flags l -> has_flag flags ACK = false ->
  step fresh (FrameReceived s) m = (configured l m, []).
Proof.
  intros Hp Hf. destruct (peer_frame_view _ _ _ Hp) as (fa & H1 & H2 & Hit & Hfl).
  unfold step, on_settings_frame. rewrite H1. cbn [mbind outcome_bind]. rewrite H2. cbn [mbind outcome_bind].
  by rewrite Hit, Hfl, Hf, fold_items by apply Hp.
Qed.

Lemma step_ack s flags l m h :
  peer_frame s flags l -> has_flag flags ACK = true -> settings_handler m = Some h -> need_remote_sync m = true ->
  step fresh (FrameReceived s) m =
    if remote_settings_got m then ((finished NoError (acknowledged m)).1.1, [CancelTimer; Invoke h NoError])
    else (acknowledged m, [CancelTimer]).
Proof.
  intros Hp Hf Hh Hn. destruct (peer_frame_view _ _ _ Hp) as (fa & H1 & H2 & Hit & Hfl).
  unfold step, on_settings_frame. rewrite H1. cbn [mbind outcome_bind]. rewrite H2. cbn [mbind outcome_bind].
  rewrite Hfl, Hf. destruct m as [ls rs nr la rg hh]. simpl in Hh, Hn. subst. by destruct rg.
Qed.

Lemma step_handlers e m :
  let '(m', eff) := step fresh e m in
  option_list (settings_handler m) ++ started fresh [e] m = invoked eff ++ option_list (settings_handler m').
Proof.
  assert (Hfin : forall ec m, let '(m', _, eff) := finished ec m in
    option_list (settings_handler m) ++ [] = invoked eff ++ option_list (settings_handler m')).
  { intros ec m'. unfold finished. destruct m' as [ls rs nr la rg [h|]]; done. }
  destruct e as [local sync h|data|ec|ec]; cbn [step started app].
  - unfold initiate_sync_settings. by destruct m as [ls rs nr la rg [h'|]].
  - unfold on_settings_frame.
    destruct (from_buffer data) as [fa| | |]; cbn [mbind outcome_bind]; try (by rewrite app_nil_r).
    destruct (get_frame SETTINGS fa) as [f| | |]; cbn [mbind outcome_bind]; try (by rewrite app_nil_r).
    destruct (has_flag (flags_field f) ACK); [|by rewrite app_nil_r].
    destruct (_ || _); [|by rewrite app_nil_r].
    specialize (Hfin NoError (acknowledged m)). fold (acknowledged m). by destruct (finished _ _) as [[m' r] eff].
  - unfold on_timer. destruct (decide _); [by rewrite app_nil_r|].
    specialize (Hfin (make_error_code SETTINGS_TIMEOUT) m). by destruct (finished _ _) as [[m' r] eff].
  - unfold cancel. specialize (Hfin ec m). by destruct (finished _ _) as [[m' r] eff].
Qed.

(** C23: Every synchronisation that is started completes at most once: over any history of
    requests, frames, timer callbacks and cancellations, the handlers called are the handlers
    of the synchronisations that were started, in order, but for the one still waiting. *)
Theorem settings_handler_once (es : list (event H)) :
  let '(m, eff) := run fresh es make_settings_manager in
  started fresh es make_settings_manager = invoked eff ++ option_list (settings_handler m).
Proof.
  change (started fresh es make_settings_manager) with
    (option_list (settings_handler (@make_settings_manager H)) ++ started fresh es make_settings_manager).
  generalize (@make_settings_manager H). induction es as [|e es IH]; intros m; [apply app_nil_r|].
  cbn [run]. pose proof (step_handlers e m) as Hs. cbn [started] in Hs |- *.
  destruct (step fresh e m) as [m1 eff]. cbn [fst] in *. specialize (IH m1).
  destruct (run fresh es m1) as [m2 eff2]. rewrite app_nil_r in Hs. unfold invoked in *.
  by rewrite app_assoc, Hs, omap_app, <- !app_assoc, IH.
Qed.

(** Events that leave a waiting handler alone. *)
Definition quiet (e : event H) : Prop :=
  match e with
  | Initiate _ _ _ => True
  | FrameReceived s => exists flags l, peer_frame s flags l /\ has_flag flags ACK = false
  | TimerCallback ec => ec = AsioError operation_aborted
  | Cancel _ => False
  end.

Lemma quiet_run es m h :
  Forall quiet es -> settings_handler m = Some h ->
  settings_handler (run fresh es m).1 = Some h /\ (run fresh es m).2 = [].
Proof.
  intros Hq. revert m. induction Hq as [|e es He _ IH]; intros m Hm; [done|]. cbn [run].
  assert (exists m', step fresh e m = (m', []) /\ settings_handler m' = Some h) as (m' & -> & Hm').
  { destruct e as [local sync h'|data|ec|ec]; [| | |done].
    - exists m. split; [|done]. unfold step, initiate_sync_settings. by rewrite Hm.
    - destruct He as (flags & l & Hp & Hf). rewrite (step_settings data flags l) by done. by eexists.
    - exists m. split; [|done]. unfold step, on_timer. simpl in He. by rewrite decide_True. }
  destruct (IH m' Hm') as [H1 H2]. destruct (run fresh es m') as [m2 eff]. simpl in *. by subst.
Qed.

(** C25: The two frames a connecting client waits for, in both orders. If the peer's settings come
    before its acknowledgement, the handler is called once, without error. If the
    acknowledgement comes first, the timer is cancelled and the settings that follow do not
    call the handler: from then on no frame but another acknowledgement, and no timer, ends
    the wait. *)
Theorem settings_order local h m0 set ack flags l es :
  settings_handler m0 = None -> peer_frame set flags l -> has_flag flags ACK = false ->
  peer_frame ack ACK [] -> Forall quiet es ->
  let sent := Initiate local true h in
  (run fresh [sent; FrameReceived set; FrameReceived ack] m0).2 =
    [ExpiresFromNow SettingsTimeout; CancelTimer; Invoke h NoError] /\
  (run fresh ([sent; FrameReceived ack; FrameReceived set] ++ es) m0).2 =
    [ExpiresFromNow SettingsTimeout; CancelTimer].
Proof.
  intros Hm Hset Hf Hack Hes sent.
  assert (Hs : step fresh sent m0 =
    (SettingsManager local (remote_settings m0) true false false (Some h), [ExpiresFromNow SettingsTimeout])).
  { unfold sent, step, initiate_sync_settings. by rewrite Hm. }
  cbn [run app]. rewrite Hs. split.
  - rewrite (step_settings set flags l) by done. by rewrite (step_ack ack ACK [] _ h).
  - rewrite (step_ack ack ACK [] _ h) by done. cbn [remote_settings_got].
    rewrite (step_settings set flags l) by done.
    match goal with |- context [run fresh es ?mm] => destruct (quiet_run es mm h Hes eq_refl) as [_ H2];
      destruct (run fresh es mm) as [m' eff] end. simpl in *. by subst.
Qed.
End theorems.

(** The frames of the witnesses. *)
Definition example_frame (flags : Z) (l : list (Z * Z)) : span :=
  span_of (fun _ => 0) 0 (rfc_frame 4 flags 0 (l ≫= rfc_param)).

Lemma example_peer_frame flags l :
  is_byte flags -> Forall param_fits l -> Z.of_nat (length l) < 2 ^ 20 ->
  peer_frame (example_frame flags l) flags l.
Proof.
  intros Hf Hl Hn. split_and!; [|exists []; unfold example_frame; by rewrite app_nil_r, sp_bytes_place|done|done].
  apply span_of_ok; [by split|]. unfold rfc_frame. rewrite !Forall_app.
  split_and!; try apply be_split_bytes_ok; [constructor; [by split|by constructor]|].
  clear Hn. induction Hl; [constructor|]. cbn [mbind list_bind]. unfold rfc_param at 1. rewrite !Forall_app.
  split_and!; [apply be_split_bytes_ok..|done].
Qed.

Lemma settings_frame_received_witness :
  on_settings_frame (fun _ => 7) (example_frame 0 [(3, 250)]) (@make_settings_manager nat) = Ok (
    SettingsManager default_settings (rfc_setting default_settings (3, 250)) true false true None,
    Some (settings_ack (fun _ => 7)), []).
Proof.
  refine (settings_frame_received (fun _ => 7) (example_frame 0 [(3, 250)]) 0 [(3, 250)] make_settings_manager _).
  apply example_peer_frame; [by split| |done]. repeat constructor; by vm_compute.
Defined.

Lemma settings_order_witness :
  (run (fun _ => 7) [Initiate default_settings true 1%nat; FrameReceived (example_frame 1 []);
     FrameReceived (example_frame 0 [(3, 250)])] make_settings_manager).2 =
    [ExpiresFromNow SettingsTimeout; CancelTimer].
Proof.
  refine (proj2 (settings_order (fun _ => 7) default_settings 1%nat make_settings_manager
    (example_frame 0 [(3, 250)]) (example_frame 1 []) 0 [(3, 250)] [] _ _ _ _ _)); [done| |done| |constructor].
  - apply example_peer_frame; [by split| |done]. repeat constructor; by vm_compute.
  - apply example_peer_frame; [by split|constructor|done].
Defined.
