(* ===== verification/Method.v ===== *)
(** * Request methods (method.h, method.cpp) *)
From S2P Require Import Prelude.

(** [enum class method]. *)
Inductive method : Type :=
| ACL | BASELINE_CONTROL | BIND | CHECKIN | CHECKOUT | CONNECT | COPY | Delete | GET | HEAD | LABEL
| LINK | LOCK | MERGE | MKACTIVITY | MKCALENDAR | MKCOL | MKREDIRECTREF | MKWORKSPACE | MOVE | OPTIONS
| ORDERPATCH | PATCH | POST | PRI | PROPFIND | PROPPATCH | PUT | REBIND | REPORT | SEARCH | TRACE
| UNBIND | UNCHECKOUT | UNLINK | UNLOCK | UPDATE | UPDATEREDIRECTREF | VERSION_CONTROL.

(** [static_cast<unsigned>(cmd)]. *)
Definition method_value (m : method) : nat :=
  match m with
  | ACL => 0 | BASELINE_CONTROL => 1 | BIND => 2 | CHECKIN => 3 | CHECKOUT => 4 | CONNECT => 5 | COPY => 6
  | Delete => 7 | GET => 8 | HEAD => 9 | LABEL => 10 | LINK => 11 | LOCK => 12 | MERGE => 13
  | MKACTIVITY => 14 | MKCALENDAR => 15 | MKCOL => 16 | MKREDIRECTREF => 17 | MKWORKSPACE => 18
  | MOVE => 19 | OPTIONS => 20 | ORDERPATCH => 21 | PATCH => 22 | POST => 23 | PRI => 24 | PROPFIND => 25
  | PROPPATCH => 26 | PUT => 27 | REBIND => 28 | REPORT => 29 | SEARCH => 30 | TRACE => 31 | UNBIND => 32
  | UNCHECKOUT => 33 | UNLINK => 34 | UNLOCK => 35 | UPDATE => 36 | UPDATEREDIRECTREF => 37
  | VERSION_CONTROL => 38
  end.

Definition strings : list string :=
  ["ACL"; "BASELINE_CONTROL"; "BIND"; "CHECKIN"; "CHECKOUT"; "CONNECT"; "COPY"; "DELETE"; "GET"; "HEAD";
   "LABEL"; "LINK"; "LOCK"; "MERGE"; "MKACTIVITY"; "MKCALENDAR"; "MKCOL"; "MKREDIRECTREF"; "MKWORKSPACE";
   "MOVE"; "OPTIONS"; "ORDERPATCH"; "PATCH"; "POST"; "PRI"; "PROPFIND"; "PROPPATCH"; "PUT"; "REBIND";
   "REPORT"; "SEARCH"; "TRACE"; "UNBIND"; "UNCHECKOUT"; "UNLINK"; "UNLOCK"; "UPDATE"; "UPDATEREDIRECTREF";
   "VERSION_CONTROL"]%string.

(** [to_string]; an index past the array is undefined. *)
Definition to_string (cmd : method) : outcome (list Z) :=
  match strings !! method_value cmd with
  | Some s => Ok (str s)
  | None => Undefined
  end.

(** The tokens of the HTTP method registry. *)
Definition registered_token (m : method) : string :=
  match m with
  | ACL => "ACL" | BASELINE_CONTROL => "BASELINE-CONTROL" | BIND => "BIND" | CHECKIN => "CHECKIN"
  | CHECKOUT => "CHECKOUT" | CONNECT => "CONNECT" | COPY => "COPY" | Delete => "DELETE" | GET => "GET"
  | HEAD => "HEAD" | LABEL => "LABEL" | LINK => "LINK" | LOCK => "LOCK" | MERGE => "MERGE"
  | MKACTIVITY => "MKACTIVITY" | MKCALENDAR => "MKCALENDAR" | MKCOL => "MKCOL"
  | MKREDIRECTREF => "MKREDIRECTREF" | MKWORKSPACE => "MKWORKSPACE" | MOVE => "MOVE" | OPTIONS => "OPTIONS"
  | ORDERPATCH => "ORDERPATCH" | PATCH => "PATCH" | POST => "POST" | PRI => "PRI" | PROPFIND => "PROPFIND"
  | PROPPATCH => "PROPPATCH" | PUT => "PUT" | REBIND => "REBIND" | REPORT => "REPORT" | SEARCH => "SEARCH"
  | TRACE => "TRACE" | UNBIND => "UNBIND" | UNCHECKOUT => "UNCHECKOUT" | UNLINK => "UNLINK"
  | UNLOCK => "UNLOCK" | UPDATE => "UPDATE" | UPDATEREDIRECTREF => "UPDATEREDIRECTREF"
  | VERSION_CONTROL => "VERSION-CONTROL"
  end%string.

Lemma to_string_total m : exists s, strings !! method_value m = Some s /\ to_string m = Ok (str s).
Proof. destruct m; by eexists. Qed.

(** The methods in the order of their values. *)
Definition methods : list method :=
  [ACL; BASELINE_CONTROL; BIND; CHECKIN; CHECKOUT; CONNECT; COPY; Delete; GET; HEAD; LABEL; LINK; LOCK; MERGE;
   MKACTIVITY; MKCALENDAR; MKCOL; MKREDIRECTREF; MKWORKSPACE; MOVE; OPTIONS; ORDERPATCH; PATCH; POST; PRI;
   PROPFIND; PROPPATCH; PUT; REBIND; REPORT; SEARCH; TRACE; UNBIND; UNCHECKOUT; UNLINK; UNLOCK; UPDATE;
   UPDATEREDIRECTREF; VERSION_CONTROL].

Lemma methods_lookup m : methods !! method_value m = Some m.
Proof. by destruct m. Qed.

Lemma strings_nodup : NoDup strings.
Proof. by apply (bool_decide_unpack _). Qed.

Lemma str_inj : Inj (=) (=) str.
Proof.
  intros s. unfold str. induction s as [|a s IH]; intros [|b t]; simpl; try done.
  intros [= Ha Hs]. f_equal; [|by apply IH]. apply N2Z.inj in Ha.
  by rewrite <- (Ascii.ascii_N_embedding a), <- (Ascii.ascii_N_embedding b), Ha.
Qed.

(** The method names: every method has a string, no two share one, and it is the
    registered token of the method, except for the two methods whose tokens have a hyphen. *)
Theorem method_tokens m m' :
  (to_string m = to_string m' -> m = m') /\
  (to_string m = Ok (str (registered_token m)) <-> m <> BASELINE_CONTROL /\ m <> VERSION_CONTROL).
Proof.
  split.
  - destruct (to_string_total m) as (s & H1 & ->), (to_string_total m') as (t & H2 & ->).
    intros [= ->%str_inj]. pose proof (NoDup_lookup _ _ _ _ strings_nodup H1 H2) as Hv.
    pose proof (methods_lookup m) as Hm. rewrite Hv, methods_lookup in Hm. by injection Hm.
  - destruct (to_string_total m) as (s & H1 & ->). split.
    + intros [= ->%str_inj]. split; intros ->; discriminate H1.
    + intros [Hb Hv]. do 2 f_equal. destruct m; try done; by injection H1 as <-.
Qed.
