(* ===== verification/Request.v ===== *)
(** * Requests (request.h, request.cpp)

    A request keeps its header fields, the slices of its body in the order they were added,
    a span over each slice, and the total size of the body. The slices are never changed, so
    a span is represented by the bytes it covers. *)
From S2P Require Import Prelude HeaderField Method.

(** What a [boost::url_view] answers to the calls of the constructor. *)
Record url_view : Type := UrlView {
  url_scheme : list Z;
  url_authority : list Z;
  url_path : list Z;
  url_encoded_authority : list Z;
  url_encoded_resource : list Z;
}.

(** [block_type]. *)
Inductive block_type : Type := string_block (s : list Z) | vector_block (v : list Z).
Definition block_bytes (b : block_type) : list Z :=
  match b with string_block s => s | vector_block v => v end.

Record request : Type := Request {
  header_list : list header_field;
  body_list : list block_type;
  span_list : list (list Z);
  rq_size : Z;
  timeout_value : Z;
}.

(** An empty request; the timeout is in milliseconds. *)
Definition empty_request : request := Request [] [] [] 0 30000.

(** [header] and [headers]. *)
Definition add_header (h : header_field) (r : request) : request :=
  Request (header_list r ++ [h]) (body_list r) (span_list r) (rq_size r) (timeout_value r).
Definition add_headers (fields : list header_field) (r : request) : request :=
  Request (header_list r ++ fields) (body_list r) (span_list r) (rq_size r) (timeout_value r).

Definition generic_url (owner : request) (url : url_view) : outcome request :=
  match url_scheme url, url_authority url, url_path url with
  | [], _, _ => Throw (invalid_argument "Empty scheme")
  | _, [], _ => Throw (invalid_argument "Empty authority")
  | _, _, [] => Throw (invalid_argument "Empty path")
  | _, _, _ =>
      h ← make_header_field (str ":scheme") (url_scheme url) DEFAULT;
      let owner := add_header h owner in
      h ← make_header_field (str ":authority") (url_encoded_authority url) DEFAULT;
      let owner := add_header h owner in
      h ← make_header_field (str ":path") (url_encoded_resource url) DEFAULT;
      Ok (add_header h owner)
  end.

(** The constructors. *)
Definition make_request (url : url_view) (m : method) : outcome request :=
  r ← generic_url empty_request url;
  s ← to_string m;
  h ← make_header_field (str ":method") s DEFAULT;
  Ok (add_header h r).

(** The move constructor and assignment: the new request and what is left behind. *)
Definition request_move (rhs : request) : request * request :=
  (Request (header_list rhs) (body_list rhs) (span_list rhs) (rq_size rhs) (timeout_value rhs),
   Request [] [] [] 0 (timeout_value rhs)).

(** [body] for a vector and for a string. *)
Definition add_body (b : block_type) (r : request) : request :=
  let span := block_bytes b in
  Request (header_list r) (body_list r ++ [b]) (span_list r ++ [span])
    (u64 (rq_size r + Z.of_nat (length span))) (timeout_value r).

Definition bodies (bs : list block_type) (r : request) : request := foldl (fun r b => add_body b r) r bs.

Definition set_timeout (ms : Z) (r : request) : request :=
  Request (header_list r) (body_list r) (span_list r) (rq_size r) ms.

(** [headers] for a range: its elements are moved, one after the other. *)
Definition headers_range (fields : list header_field) (r : request) : request :=
  foldl (fun r h => add_header h r) r fields.

Definition raw_headers (r : request) : list header_field := header_list r.
Definition raw_body (r : request) : list (list Z) := span_list r.
Definition timeout (r : request) : Z := timeout_value r.
Definition body_size (r : request) : Z := rq_size r.

(** [commit_headers]: [pop_front] of an empty deque is undefined. *)
Definition commit_headers (n : Z) (r : request) : outcome request :=
  if n <=? Z.of_nat (length (header_list r)) then
    Ok (Request (drop (Z.to_nat n) (header_list r)) (body_list r) (span_list r) (rq_size r) (timeout_value r))
  else Undefined.

Definition commit_body (n : Z) (r : request) : outcome request :=
  if (n <=? Z.of_nat (length (body_list r))) && (n <=? Z.of_nat (length (span_list r))) then
    Ok (Request (header_list r) (drop (Z.to_nat n) (body_list r)) (drop (Z.to_nat n) (span_list r))
          (rq_size r) (timeout_value r))
  else Undefined.

(** ** Properties *)

(** The spans cover the slices and the size is theirs. *)
Definition request_ok (r : request) : Prop :=
  span_list r = block_bytes <$> body_list r /\
  rq_size r = Z.of_nat (length (concat (span_list r))).

(** Lengths a request can have in memory. *)
Definition total (bs : list block_type) : Z := Z.of_nat (length (concat (block_bytes <$> bs))).

Lemma body_total_app bs cs : total (bs ++ cs) = total bs + total cs.
Proof. unfold total. rewrite fmap_app, concat_app, length_app. lia. Qed.

Lemma add_body_ok b r :
  request_ok r -> total (body_list r ++ [b]) < 2 ^ 64 -> request_ok (add_body b r).
Proof.
  intros [H1 H2] Hb. unfold request_ok, add_body. cbn [span_list body_list rq_size]. split.
  - by rewrite H1, fmap_app.
  - rewrite H2, H1. rewrite body_total_app in Hb. rewrite concat_app, length_app. unfold total in Hb. simpl in *.
    unfold u64. rewrite wrap_small; unfold fits; rewrite ?app_nil_r in *; lia.
Qed.

Lemma bodies_ok cs r0 :
  request_ok r0 -> total (body_list r0 ++ cs) < 2 ^ 64 ->
  request_ok (bodies cs r0) /\ header_list (bodies cs r0) = header_list r0 /\
  body_list (bodies cs r0) = body_list r0 ++ cs.
Proof.
  revert r0. induction cs as [|b cs IH]; intros r0 Hok Ht.
  - split_and!; [done|done|by rewrite app_nil_r].
  - change (bodies (b :: cs) r0) with (bodies cs (add_body b r0)).
    destruct (IH (add_body b r0)) as (H1 & H2 & H3).
    + apply add_body_ok; [done|]. replace (b :: cs) with ([b] ++ cs) in Ht by done.
      rewrite app_assoc, body_total_app in Ht. unfold total in *. lia.
    + cbn [add_body body_list]. by rewrite <- app_assoc.
    + split_and!; [done|by rewrite H2|]. rewrite H3. cbn [add_body body_list]. by rewrite <- app_assoc.
Qed.

Lemma headers_range_eq fields : forall r, headers_range fields r = add_headers fields r.
Proof.
  induction fields as [|h fields IH]; intros [hs bs ss n t]; [unfold add_headers; by rewrite app_nil_r|].
  change (headers_range (h :: fields) ?r) with (headers_range fields (add_header h r)). rewrite IH.
  unfold add_headers, add_header. cbn. by rewrite <- app_assoc.
Qed.

Lemma bodies_timeout bs : forall r, timeout (bodies bs r) = timeout r.
Proof. induction bs as [|b bs IH]; intros r; [done|]. change (bodies (b :: bs) r) with (bodies bs (add_body b r)). by rewrite IH. Qed.

(** C28: Construction of a request. A URL without scheme, authority or path is refused with
    [invalid_argument], whatever the other parts are. Otherwise, if the parts fit into header
    fields, the request starts with the four pseudo-header fields in this order, and adding
    header fields, as a list or as a range, and slices keeps both in order: the spans are the slices, the
    size is their total length, and the timeout is 30 seconds. *)
Theorem request_construction url m fields bs :
  let parts := [url_scheme url; url_encoded_authority url; url_encoded_resource url] in
  Forall (fun p => Z.of_nat (length p) <= MAX_FIELD_BYTES - 17) parts -> total bs < 2 ^ 64 ->
  if bool_decide (url_scheme url = [] \/ url_authority url = [] \/ url_path url = []) then
    exists what, make_request url m = Throw (invalid_argument what)
  else
    exists r s, make_request url m = Ok r /\ to_string m = Ok s /\
      let r' := bodies bs (add_headers fields r) in
      (fun h => (m_name h, m_value h)) <$> raw_headers r' =
        [(str ":scheme", url_scheme url); (str ":authority", url_encoded_authority url);
         (str ":path", url_encoded_resource url); (str ":method", s)]
        ++ ((fun h => (m_name h, m_value h)) <$> fields) /\
      request_ok r' /\ raw_body r' = block_bytes <$> bs /\ body_size r' = total bs /\ timeout r' = 30000 /\
      headers_range fields r = add_headers fields r.
Proof.
  intros parts Hp Hbs. unfold parts in Hp. inversion_clear Hp as [|? ? H1 Hp']. inversion_clear Hp' as [|? ? H2 Hp].
  inversion_clear Hp as [|? ? H3 _].
  assert (Hf : forall n p, (length n <= 17)%nat -> Z.of_nat (length p) <= MAX_FIELD_BYTES - 17 ->
    make_header_field n p DEFAULT = Ok (HeaderField n p DEFAULT)).
  { intros n p Hn Hp. unfold make_header_field. unfold MAX_FIELD_BYTES in *.
    rewrite check_max_size_spec by lia. unfold MAX_FIELD_BYTES. by rewrite (proj2 (Z.leb_le _ _)) by lia. }
  unfold make_request, generic_url. case_bool_decide as Hd.
  - destruct (url_scheme url); [by eexists|]. destruct (url_authority url); [by eexists|].
    destruct (url_path url); [by eexists|]. by destruct Hd as [|[|]].
  - destruct (url_scheme url) as [|c sch]; [destruct Hd; by left|].
    destruct (url_authority url); [destruct Hd; by right; left|].
    destruct (url_path url); [destruct Hd; by right; right|].
    destruct (to_string_total m) as (s & Hs & ->).
    assert (Hs' : Z.of_nat (length (str s)) <= MAX_FIELD_BYTES - 17) by (by destruct m; injection Hs as <-).
    rewrite !Hf by (done || simpl; lia). cbn [mbind outcome_bind]. rewrite Hf by (done || simpl; lia).
    cbn [mbind outcome_bind]. eexists _, _. split; [reflexivity|]. split; [reflexivity|]. cbn zeta.
    match goal with |- context [bodies bs (add_headers fields ?x)] => set (r := x) end.
    destruct (bodies_ok bs (add_headers fields r)) as (Hok & Hh & Hb); [done|done|].
    unfold raw_headers. rewrite Hh. split_and!; [|done| | |by rewrite bodies_timeout|apply headers_range_eq].
    + unfold r, add_headers, add_header. cbn [header_list]. by rewrite fmap_app.
    + unfold raw_body. destruct Hok as [-> _]. by rewrite Hb.
    + unfold body_size. destruct Hok as [Hsp ->]. by rewrite Hsp, Hb.
Qed.

Lemma request_construction_witness :
  let url := UrlView (str "https") (str "a.org") (str "/") (str "a.org") (str "/?q") in
  exists r s, make_request url POST = Ok r /\ to_string POST = Ok s /\
    let r' := bodies [string_block (str "hi")] (add_headers [] r) in
    (fun h => (m_name h, m_value h)) <$> raw_headers r' =
      [(str ":scheme", url_scheme url); (str ":authority", url_encoded_authority url);
       (str ":path", url_encoded_resource url); (str ":method", s)] ++ [] /\
    request_ok r' /\ raw_body r' = [str "hi"] /\ body_size r' = 2 /\ timeout r' = 30000 /\
    headers_range [] r = add_headers [] r.
Proof.
  apply (request_construction (UrlView (str "https") (str "a.org") (str "/") (str "a.org") (str "/?q")) POST []
    [string_block (str "hi")]); [|done].
  repeat constructor; vm_compute; discriminate.
Defined.
