(* ===== verification/Response.v ===== *)
(** * Responses (response.h, response.cpp)

    A response collects the header fields and the DATA frames of a stream. A DATA frame is
    kept whole, in the buffer it arrived in, beside the span of its data; the buffer's memory
    lies at an address [addr] of a heap, whose other bytes are arbitrary. *)
From S2P Require Import Prelude Memory Buffer HeaderField Protocol Frame FrameBuilder.

Record body_block : Type := BodyBlock { bb_buffer : buffer; bb_span : span }.

Record response : Type := Response {
  rs_header_list : list header_field;
  status_view : list Z;
  body_blocks : list body_block;
  rs_size : Z;
}.

Definition empty_response : response := Response [] [] [] 0.

Definition status (r : response) : list Z := status_view r.
Definition response_headers (r : response) : list header_field := rs_header_list r.
Definition response_body_size (r : response) : Z := rs_size r.

Definition is_status (hf : header_field) : bool := bool_decide (m_name hf = str ":status").

Definition insert_headers (h : header) (r : response) : response :=
  let header_list := rs_header_list r ++ h in
  let status :=
    match status_view r with
    | [] => match List.find is_status header_list with Some hf => m_value hf | None => status_view r end
    | _ => status_view r
    end in
  Response header_list status (body_blocks r) (rs_size r).

(** [insert_body]: moving the buffer leaves its memory, and so the span, in place. *)
Definition insert_body (heap : Z -> Z) (addr : Z) (b : buffer) (r : response) : outcome response :=
  analyzer ← from_buffer (data_span heap addr b);
  frame ← get_frame DATA analyzer;
  let span := frame_data frame in
  Ok (Response (rs_header_list r) (status_view r) (body_blocks r ++ [BodyBlock b span])
        (u64 (rs_size r + sp_len span))).

(** The loop of [copy_body]: the bytes copied to [dst] from [offset] on, and the offset. *)
Fixpoint copy_loop (blocks : list body_block) (len offset : Z) : list Z * Z :=
  match blocks with
  | [] => ([], offset)
  | s :: blocks =>
      if offset =? len then ([], offset)
      else
        let to_copy := Z.min (sp_len (bb_span s)) (u64 (len - offset)) in
        let '(rest, offset) := copy_loop blocks len (u64 (offset + to_copy)) in
        (sp_slice (bb_span s) 0 (Z.to_nat to_copy) ++ rest, offset)
  end.
Definition copy_body (len : Z) (r : response) : list Z * Z := copy_loop (body_blocks r) len 0.

(** [body_range], and [body_as] for a container of bytes. *)
Definition body_range (r : response) : list Z := body_blocks r ≫= fun b => sp_bytes (bb_span b).
Definition body_as (r : response) : list Z :=
  let result := replicate (Z.to_nat (response_body_size r)) 0 in
  let '(bytes, n) := copy_body (response_body_size r) r in
  bytes ++ drop (length bytes) result.

(** ** Received bodies *)

(** A DATA payload, with padding or without: RFC 7540, section 6.1. *)
Definition data_payload (pad : option (list Z)) (d : list Z) : list Z :=
  match pad with None => d | Some p => [Z.of_nat (length p)] ++ d ++ p end.

(** A buffer that holds exactly a DATA frame with the data [d]. *)
Definition holds_data (b : buffer) (d : list Z) : Prop :=
  buffer_ok b /\ exists flags id pad,
    data_view b = rfc_frame 0 flags id (data_payload pad d) /\ fits 32 id /\
    Z.of_nat (length (data_payload pad d)) < 2 ^ 24 /\
    match pad with
    | None => has_flag flags PADDED = false
    | Some p => has_flag flags PADDED = true /\ Z.of_nat (length p) < 256
    end.

Section received.
Context (heap : Z -> Z) (addr : Z) (Hheap : forall x, is_byte (heap x)).

Lemma insert_body_data b d r :
  holds_data b d ->
  exists span, insert_body heap addr b r =
      Ok (Response (rs_header_list r) (status_view r) (body_blocks r ++ [BodyBlock b span])
           (u64 (rs_size r + sp_len span))) /\
    sp_bytes span = d /\ sp_len span = Z.of_nat (length d).
Proof.
  intros (Hb & flags & id & pad & Hv & Hid & Hl & Hp).
  assert (Hps : parses DATA (rfc_frame 0 flags id (data_payload pad d)) (fun s =>
    sp_bytes (frame_data s) = d /\ sp_len (frame_data s) = Z.of_nat (length d))).
  { apply (rfc_frame_parses DATA); [done|done|]. intros s _ Hs Hn Hsz Hf _.
    unfold frame_data, HEADER_SIZE. rewrite Hf, Hsz.
    destruct pad as [p|]; cbn [data_payload] in *.
    - destruct Hp as [-> Hp].
      assert (Hpad : sp_get s 9 = Z.of_nat (length p)).
      { pose proof (frame_body _ _ _ _ _ _ Hs Hn 0 1 ltac:(lia)) as H1.
        specialize (H1 ltac:(rewrite length_app; simpl; lia)). by injection H1. }
      rewrite Hpad. rewrite !length_app in *. cbn [length] in *.
      replace (Z.of_nat (1 + (length d + length p)) - 1 - Z.of_nat (length p)) with (Z.of_nat (length d)) by lia.
      split.
      + rewrite (tail_slice _ _ _ _ _ _ 1 _ Hs) by (rewrite ?length_app; simpl; lia).
        rewrite Nat2Z.id. apply (take_app_length d).
      + unfold tail_span, u64. cbn [sp_len]. apply wrap_small. unfold fits. lia.
    - rewrite Hp, !Z.sub_0_r. split.
      + rewrite (tail_slice _ _ _ _ _ _ 0 _ Hs) by lia. rewrite Nat2Z.id. by rewrite take_ge.
      + unfold tail_span, u64. cbn [sp_len]. apply wrap_small. unfold fits. lia. }
  destruct (Hps (data_span heap addr b) [] (2 ^ 24)) as (fa & H1 & _ & _ & H2 & _ & H3 & H4).
  - by apply data_span_ok.
  - by rewrite app_nil_r, data_span_bytes.
  - rewrite length_rfc_frame. lia.
  - exists (frame_data (fa_buffer fa)). split; [|done]. unfold insert_body. rewrite H1.
    cbn [mbind outcome_bind]. rewrite H2. done.
Qed.

(** Inserting DATA frames one after the other. *)
Fixpoint insert_all (bs : list buffer) (r : response) : outcome response :=
  match bs with
  | [] => Ok r
  | b :: bs => r ← insert_body heap addr b r; insert_all bs r
  end.

Lemma copy_loop_all blocks len offset :
  0 <= offset -> offset + Z.of_nat (length (blocks ≫= fun b => sp_bytes (bb_span b))) <= len -> len < 2 ^ 64 ->
  Forall (fun b => 0 <= sp_len (bb_span b)) blocks ->
  len = offset + Z.of_nat (length (blocks ≫= fun b => sp_bytes (bb_span b))) ->
  copy_loop blocks len offset = (blocks ≫= fun b => sp_bytes (bb_span b), len).
Proof.
  intros Ho Hle Hlen Hb. revert offset Ho Hle. induction Hb as [|b blocks Hb _ IH]; intros offset Ho Hle Heq.
  - simpl in *. f_equal. lia.
  - cbn [mbind list_bind copy_loop] in *. rewrite length_app, length_sp_bytes in Hle, Heq.
    destruct (Z.eqb_spec offset len) as [->|Hne].
    + assert (Hz : sp_bytes (bb_span b) ++ (blocks ≫= fun b => sp_bytes (bb_span b)) = []).
      { apply length_zero_iff_nil. rewrite length_app, length_sp_bytes. lia. }
      cbn [mbind list_bind] in Hz. by rewrite Hz.
    + unfold u64. rewrite (wrap_small 64 (len - offset)) by (unfold fits; lia).
      rewrite Z.min_l by lia. rewrite (wrap_small 64) by (unfold fits; lia).
      rewrite IH by lia. f_equal.
Qed.

(** The copy of a body whose size is exact. *)
Lemma body_as_range r :
  Forall (fun b => 0 <= sp_len (bb_span b)) (body_blocks r) ->
  response_body_size r = Z.of_nat (length (body_range r)) -> response_body_size r < 2 ^ 64 ->
  body_as r = body_range r.
Proof.
  intros Hb Hs Hlt. unfold body_as, copy_body. rewrite copy_loop_all; fold (body_range r); try done; try lia.
  rewrite Hs, drop_ge; [apply app_nil_r|]. rewrite length_replicate. lia.
Qed.

Lemma insert_all_data bs ds r :
  Forall2 holds_data bs ds -> Forall (fun b => 0 <= sp_len (bb_span b)) (body_blocks r) ->
  response_body_size r + Z.of_nat (length (concat ds)) < 2 ^ 64 -> 0 <= response_body_size r ->
  exists r', insert_all bs r = Ok r' /\ Forall (fun b => 0 <= sp_len (bb_span b)) (body_blocks r') /\
    response_body_size r' = response_body_size r + Z.of_nat (length (concat ds)) /\
    body_range r' = body_range r ++ concat ds.
Proof.
  intros Hbs. revert r. induction Hbs as [|b d bs ds Hb _ IH]; intros r Hpos Hsz H0.
  - exists r. simpl. split_and!; [done|done|lia|by rewrite app_nil_r].
  - cbn [insert_all concat] in *. rewrite length_app in Hsz.
    destruct (insert_body_data b d r Hb) as (span & -> & Hby & Hl). cbn [mbind outcome_bind].
    unfold response_body_size in *. unfold u64. rewrite wrap_small by (unfold fits; lia).
    destruct (IH (Response (rs_header_list r) (status_view r) (body_blocks r ++ [BodyBlock b span])
      (rs_size r + sp_len span))) as (r' & -> & H1 & H2 & H3); [|simpl; lia|simpl; lia|].
    + apply Forall_app. split; [done|]. constructor; [simpl; lia|constructor].
    + exists r'. simpl in H2, H3. split_and!; [done|done|rewrite H2, length_app; lia|].
      rewrite H3. unfold body_range. cbn [body_blocks]. rewrite bind_app. cbn [mbind list_bind bb_span].
      by rewrite Hby, app_nil_r, <- app_assoc.
Qed.

(** The body of a response: after the DATA frames of a stream, padded or not, have been inserted
    one by one, the size is the total of their data and both views of the body ([body_range]
    and the copy [body_as] makes) are the data of the frames in order, without headers and
    padding. *)
Theorem response_body bs ds :
  Forall2 holds_data bs ds -> Z.of_nat (length (concat ds)) < 2 ^ 64 ->
  exists r, insert_all bs empty_response = Ok r /\
    response_body_size r = Z.of_nat (length (concat ds)) /\
    body_range r = concat ds /\ body_as r = concat ds.
Proof.
  intros Hbs Hlen.
  destruct (insert_all_data bs ds empty_response Hbs) as (r & H1 & H2 & H3 & H4); [constructor|simpl; lia|done|].
  exists r. change (body_range empty_response) with (@nil Z) in H4.
  change (response_body_size empty_response) with 0 in H3. simpl in H4. rewrite Z.add_0_l in H3.
  split_and!; [done..|]. rewrite <- H4. apply body_as_range; [done|by rewrite H3, H4|lia].
Qed.
End received.

Lemma response_body_witness :
  let frame := (commit_span (rfc_frame 0 8 1 [2; 65; 66; 67; 0; 0]) (buffer_new (fun _ => 7) 64)).1 in
  exists r, insert_all (fun _ => 0) 100 [frame; frame] empty_response = Ok r /\
    response_body_size r = 6 /\ body_range r = [65; 66; 67; 65; 66; 67] /\ body_as r = [65; 66; 67; 65; 66; 67].
Proof.
  assert (Hh : holds_data (commit_span (rfc_frame 0 8 1 [2; 65; 66; 67; 0; 0]) (buffer_new (fun _ => 7) 64)).1
    [65; 66; 67]).
  { split.
    - split; [vm_compute; split; discriminate|]. split; [done|]. repeat constructor; by vm_compute.
    - exists 8, 1, (Some [0; 0]). by repeat split. }
  apply (response_body (fun _ => 0) 100 ltac:(by split) _ [[65; 66; 67]; [65; 66; 67]]); [|done].
  constructor; [exact Hh|constructor; [exact Hh|constructor]].
Defined.
