(* ===== verification/Stream.v ===== *)
(** * Streams (stream.h, stream.cpp)

    A stream sends one request and collects its response. The caller of the library waits for
    it with a completion handler, an element of an abstract type [H]. Timer requests and the
    call of the handler are emitted as effects, in order. *)
From S2P Require Import Prelude Memory Utils Buffer HeaderField Protocol Frame FrameBuilder.
From S2P Require Import Request Response.
From S2P Require Window IndexedDynamicTable Encoder.
Import Window (dummy_window, make_window).
Import IndexedDynamicTable (SetSearch).
Import Encoder (encoder).

Inductive HttpState : Type := IDLE | OPEN | HALF_CLOSED | CLOSED.

Global Instance HttpState_eq_dec : EqDecision HttpState.
Proof. solve_decision. Defined.

Section stream.
Context {SS : SetSearch} {H : Type}.
(** Indeterminate bytes of new memory; the memory around a received buffer; what a handler
    leaves of the response that is moved to it. *)
Context (fresh : Z -> Z) (heap : Z -> Z) (addr : Z) (moved_response : response -> response).

Record stream : Type := Stream {
  http_id : Z;
  is_scheduled : bool;
  remote_window : Z;
  local_window : dummy_window;
  http_state : HttpState;
  is_cointinuation : bool;
  send_body_offset : Z;
  m_request : request;
  m_response : response;
  respone_handler : option H;
}.

Inductive effect : Type :=
| ExpiresAfter (ms : Z)
| CancelTimer
| Invoke (h : H) (ec : boost_error) (r : response).

(** Assignments to the members. *)
Definition set_scheduled (x : bool) (s : stream) : stream :=
  Stream (http_id s) x (remote_window s) (local_window s) (http_state s) (is_cointinuation s)
    (send_body_offset s) (m_request s) (m_response s) (respone_handler s).
Definition set_remote_window (x : Z) (s : stream) : stream :=
  Stream (http_id s) (is_scheduled s) x (local_window s) (http_state s) (is_cointinuation s)
    (send_body_offset s) (m_request s) (m_response s) (respone_handler s).
Definition set_local_window (x : dummy_window) (s : stream) : stream :=
  Stream (http_id s) (is_scheduled s) (remote_window s) x (http_state s) (is_cointinuation s)
    (send_body_offset s) (m_request s) (m_response s) (respone_handler s).
Definition set_state (x : HttpState) (s : stream) : stream :=
  Stream (http_id s) (is_scheduled s) (remote_window s) (local_window s) x (is_cointinuation s)
    (send_body_offset s) (m_request s) (m_response s) (respone_handler s).
Definition set_cointinuation (x : bool) (s : stream) : stream :=
  Stream (http_id s) (is_scheduled s) (remote_window s) (local_window s) (http_state s) x
    (send_body_offset s) (m_request s) (m_response s) (respone_handler s).
Definition set_request (offset : Z) (x : request) (s : stream) : stream :=
  Stream (http_id s) (is_scheduled s) (remote_window s) (local_window s) (http_state s) (is_cointinuation s)
    offset x (m_response s) (respone_handler s).
Definition set_response (x : response) (s : stream) : stream :=
  Stream (http_id s) (is_scheduled s) (remote_window s) (local_window s) (http_state s) (is_cointinuation s)
    (send_body_offset s) (m_request s) x (respone_handler s).
Definition set_handler (x : option H) (s : stream) : stream :=
  Stream (http_id s) (is_scheduled s) (remote_window s) (local_window s) (http_state s) (is_cointinuation s)
    (send_body_offset s) (m_request s) (m_response s) x.

(** The constructor. *)
Definition make_stream (id remote_size local_size : Z) (r : request) (handler : H) : stream :=
  Stream id true remote_size (make_window local_size (local_size / 4)) IDLE false 0 r empty_response (Some handler).

Definition has_tx_data (s : stream) : bool :=
  bool_decide (http_state s = HALF_CLOSED) || Window.need_update (local_window s) ||
  negb (bool_decide (header_list (m_request s) = [])) ||
  match body_list (m_request s) with [] => false | _ => true end.

Definition check_tx_data (s : stream) : stream * bool :=
  if negb (is_scheduled s) && has_tx_data s then (set_scheduled true s, true) else (s, false).

Definition is_finished (s : stream) : bool := bool_decide (http_state s = CLOSED).

Definition finished (ec : boost_error) (s : stream) : stream * list effect :=
  match respone_handler s with
  | Some h => (set_response (moved_response (m_response s)) (set_handler None s), [Invoke h ec (m_response s)])
  | None => (s, [])
  end.

(** The lambda waiting for the timer. *)
Definition on_timer (ec : boost_error) (s : stream) : stream * list effect :=
  if decide (ec = AsioError operation_aborted) then (s, []) else finished (AsioError timed_out) s.

Definition reset (ec : boost_error) (s : stream) : stream * list effect :=
  let '(s, eff) := finished ec (set_state CLOSED s) in (s, CancelTimer :: eff).

(** [if (flags & flags::END_STREAM)] of DATA and HEADERS frames. *)
Definition end_stream (flags : Z) (s : stream) : stream * list effect :=
  if has_flag flags END_STREAM then
    let '(s, eff) := finished NoError (set_state HALF_CLOSED s) in (s, CancelTimer :: eff)
  else (s, []).

Definition on_receive_data (b : buffer) (s : stream) : outcome (stream * list effect) :=
  let s := set_local_window (Window.dec (Z.of_nat (length (data_view b))) (local_window s)) s in
  analyzer ← from_buffer (data_span heap addr b);
  let header := fa_buffer analyzer in
  s ← (if negb (payload_size header =? 0)
       then r ← insert_body heap addr b (m_response s); Ok (set_response r s)
       else Ok s);
  Ok (end_stream (flags_field header) s).

Definition on_receive_headers (h : header) (flags raw_size : Z) (s : stream) : stream * list effect :=
  let s := set_local_window (Window.dec raw_size (local_window s)) s in
  let s := set_response (insert_headers h (m_response s)) s in
  end_stream flags s.

Definition on_receive_reset (err : Z) (s : stream) : stream * list effect :=
  finished (Http2Error err) (set_state CLOSED s).

Definition on_receive_window_update (increment : Z) (s : stream) : stream :=
  set_remote_window (u64 (remote_window s + increment)) s.

Definition on_receive_continuation (h : header) (flags raw_size : Z) (s : stream) : stream * list effect :=
  let s := set_local_window (Window.dec raw_size (local_window s)) s in
  let s := set_response (insert_headers h (m_response s)) s in
  if has_flag flags END_STREAM then finished NoError s else (s, []).

(** ** Sending *)

(** What an operation that sends has changed: the stream, the encoder, the buffers appended to
    [out], the number of bytes it reports, and the effects. *)
Record sent : Type := Sent {
  sent_stream : stream;
  sent_encoder : encoder;
  sent_out : list buffer;
  sent_used : Z;
  sent_effects : list effect;
}.

Definition buffers_size (bs : list buffer) : Z :=
  foldl (fun n b => u64 (n + Z.of_nat (length (data_view b)))) 0 bs.

(** [used += frame_header.data_view()...] after the buffer has been moved adds the size of a
    moved-from buffer. *)
Definition moved_size : Z := Z.of_nat (length (data_view moved_from)).

Definition prepare_headers (e : encoder) (limit : Z) (s : stream) : outcome sent :=
  let size_limit :=
    if is_cointinuation s then u64 (limit - 2 * HEADER_SIZE) else u64 (limit - HEADER_SIZE) in
  '(e, (buffers, count)) ← Encoder.encode fresh e (raw_headers (m_request s)) size_limit;
  if count =? 0 then Ok (Sent s e [] 0 [])
  else
    rq ← commit_headers count (m_request s);
    let s := set_request (send_body_offset s) rq s in
    let buffer_size := buffers_size buffers in
    let empty := bool_decide (header_list rq = []) in
    let flags := if empty then END_HEADERS else 0 in
    let '(s, frame_header, eff) :=
      if is_cointinuation s then (s, continuation fresh (http_id s) flags (u32 buffer_size), [])
      else
        let flags := match body_list rq with [] => Z.lor flags END_STREAM | _ => flags end in
        (set_cointinuation (negb empty) s, headers fresh (http_id s) flags (u32 buffer_size),
         [ExpiresAfter (timeout_value rq)]) in
    let used := u64 (0 + Z.of_nat (length (data_view frame_header))) in
    let used := u64 (used + buffer_size) in
    let out := frame_header :: buffers in
    match is_cointinuation s && empty, body_list rq with
    | true, [] =>
        let '(last, _) := data fresh (http_id s) END_STREAM 0 in
        Ok (Sent s e (out ++ [last]) (u64 (used + moved_size)) eff)
    | _, _ => Ok (Sent s e out used eff)
    end.

(** The loop of [prepare_body]: the spans and slices left, the offset into the first span, and
    the frame, whose bytes from [pos] on, [len] of them, are still to be filled. Dereferencing
    the end of the list of spans is undefined. *)
Fixpoint body_loop (fuel : nat) (spans : list (list Z)) (blocks : list block_type) (offset pos len : Z)
    (frame : buffer) : outcome (list (list Z) * list block_type * Z * buffer) :=
  match fuel with
  | O => OutOfFuel
  | S fuel =>
      match spans with
      | [] => Undefined
      | span :: spans' =>
          let size := Z.of_nat (length span) in
          if size <? offset then Undefined
          else
            let to_copy := Z.min len (u64 (size - offset)) in
            let frame := write_at pos (take (Z.to_nat to_copy) (drop (Z.to_nat offset) span)) frame in
            let offset := u64 (offset + to_copy) in
            '(spans, blocks, offset) ←
              (if offset =? size then
                 match blocks with [] => Undefined | _ :: blocks' => Ok (spans', blocks', 0) end
               else Ok (spans, blocks, offset));
            let len := len - to_copy in
            if len =? 0 then Ok (spans, blocks, offset, frame)
            else body_loop fuel spans blocks offset (pos + to_copy) len frame
      end
  end.

Definition prepare_body (e : encoder) (limit : Z) (s : stream) : outcome sent :=
  let rq := m_request s in
  let left_size := u64 (body_size rq - send_body_offset s) in
  let payload_size := Z.min (u64 (limit - HEADER_SIZE)) left_size in
  let is_last := payload_size =? left_size in
  let '(frame, (pos, len)) := data fresh (http_id s) (if is_last then END_STREAM else 0) (u32 payload_size) in
  '(spans, blocks, offset, frame) ←
    body_loop (S (length (span_list rq))) (span_list rq) (body_list rq) (send_body_offset s) pos len frame;
  let rq := Request (header_list rq) blocks spans (rq_size rq) (timeout_value rq) in
  Ok (Sent (set_request offset rq s) e [frame] moved_size []).

Definition get_tx_data (e : encoder) (limit : Z) (s : stream) : outcome sent :=
  let s := set_scheduled false s in
  if bool_decide (http_state s = HALF_CLOSED) then
    let s := set_state CLOSED s in
    let last_frame := FrameBuilder.reset fresh IS_OK (http_id s) in
    Ok (Sent s e [last_frame] (Z.of_nat (length (data_view last_frame))) [])
  else
    let limit := Z.min limit (remote_window s) in
    if limit <=? 16 then Ok (Sent s e [] 0 [])
    else
      let s := set_state OPEN s in
      let '(w, upd_window) := Window.update fresh (http_id s) (local_window s) in
      let s := set_local_window w s in
      let out := option_list upd_window in
      let bytes_used := buffers_size out in
      r ← (match raw_headers (m_request s) with
           | [] => Ok (Sent s e out bytes_used [])
           | _ =>
               r ← prepare_headers e limit s;
               Ok (Sent (sent_stream r) (sent_encoder r) (out ++ sent_out r)
                     (u64 (bytes_used + sent_used r)) (sent_effects r))
           end);
      let '(Sent s e out bytes_used eff) := r in
      r ← (if bool_decide (raw_headers (m_request s) = []) && negb (body_size (m_request s) =? 0)
              && (2 * HEADER_SIZE <=? u64 (limit - bytes_used))
           then
             r ← prepare_body e (u64 (limit - bytes_used)) s;
             Ok (Sent (sent_stream r) (sent_encoder r) (out ++ sent_out r)
                   (u64 (bytes_used + sent_used r)) (eff ++ sent_effects r))
           else Ok (Sent s e out bytes_used eff));
      let '(Sent s e out bytes_used eff) := r in
      Ok (Sent (set_remote_window (u64 (remote_window s - bytes_used)) s) e out bytes_used eff).
End stream.
Arguments stream : clear implicits.
Arguments effect : clear implicits.
Arguments sent : clear implicits.

(** ** The body of a request *)

Lemma suffix_singleton {A} (l : list A) x : l `suffix_of` [x] -> l = [x] \/ l = [].
Proof. intros [k Hk]. destruct k as [|? [|]]; simplify_eq/=; auto. Qed.

Lemma write_at_twice pos x y b :
  0 <= pos -> pos <= Z.of_nat (length (b_memory b)) ->
  write_at (pos + Z.of_nat (length x)) y (write_at pos x b) = write_at pos (x ++ y) b.
Proof.
  intros H0 Hp. unfold write_at. cbn [b_memory b_offset b_maxsize]. f_equal.
  set (m := b_memory b) in *. rewrite (app_assoc (take _ m) x).
  replace (Z.to_nat (pos + Z.of_nat (length x))) with (length (take (Z.to_nat pos) m ++ x))
    by (rewrite length_app, length_take; lia).
  rewrite take_app_length, drop_app_add, drop_drop, <- !app_assoc, length_app. do 4 f_equal. lia.
Qed.

(** What is left to send: the bytes of the spans from the offset on. *)
Definition unsent (spans : list (list Z)) (offset : Z) : list Z := drop (Z.to_nat offset) (concat spans).

(** The offset lies in the first span, before its end. *)
Definition offset_ok (spans : list (list Z)) (offset : Z) : Prop :=
  offset = 0 \/ 0 < offset < match spans with [] => 0 | span :: _ => Z.of_nat (length span) end.

Lemma unsent_cons span spans offset :
  0 <= offset <= Z.of_nat (length span) ->
  unsent (span :: spans) offset = drop (Z.to_nat offset) span ++ concat spans.
Proof. intros Ho. unfold unsent. cbn [concat]. by rewrite drop_app_le by lia. Qed.

(** The loop fills the frame with the next bytes and leaves the others unsent. *)
Lemma body_loop_copies spans : forall fuel blocks offset pos len frame,
  (length spans <= fuel)%nat -> length blocks = length spans -> offset_ok spans offset ->
  0 < len <= Z.of_nat (length (unsent spans offset)) -> Z.of_nat (length (concat spans)) < 2 ^ 64 ->
  0 <= pos -> pos + len <= Z.of_nat (length (b_memory frame)) ->
  exists spans' blocks' offset',
    body_loop fuel spans blocks offset pos len frame =
      Ok (spans', blocks', offset', write_at pos (take (Z.to_nat len) (unsent spans offset)) frame) /\
    unsent spans' offset' = drop (Z.to_nat len) (unsent spans offset) /\
    length blocks' = length spans' /\ offset_ok spans' offset' /\ spans' `suffix_of` spans /\
    blocks' `suffix_of` blocks.
Proof.
  induction spans as [|span spans IH]; intros fuel blocks offset pos len frame Hf Hb Ho Hlen Hc Hp Hfit.
  { unfold unsent in Hlen. simpl in Hlen. rewrite drop_nil in Hlen. simpl in Hlen. lia. }
  destruct fuel as [|fuel]; [simpl in Hf; lia|]. destruct blocks as [|blk blocks]; [done|].
  cbn [body_loop]. unfold offset_ok in Ho. cbn [concat] in Hc. rewrite length_app in Hc.
  rewrite (proj2 (Z.ltb_ge _ _)) by lia. unfold u64.
  rewrite (wrap_small 64 (Z.of_nat (length span) - offset)) by (unfold fits; lia).
  rewrite unsent_cons in * by lia. set (avail := drop (Z.to_nat offset) span) in *.
  assert (Ha : Z.of_nat (length avail) = Z.of_nat (length span) - offset)
    by (unfold avail; rewrite length_drop; lia).
  rewrite <- Ha. rewrite length_app in Hlen.
  rewrite wrap_small by (unfold fits; lia).
  destruct (Z.le_gt_cases len (Z.of_nat (length avail))) as [Hle|Hgt].
  - rewrite (Z.min_l len) by lia. rewrite Z.sub_diag.
    rewrite (take_app_le avail) by lia. rewrite (drop_app_le avail) by lia.
    destruct (Z.eqb_spec (offset + len) (Z.of_nat (length span))) as [He|He]; cbn [mbind outcome_bind Z.eqb].
    + eexists _, _, _. split_and!; [done| |simpl in Hb; lia|by left|by exists [span]|by exists [blk]].
      unfold unsent. cbn [Z.to_nat]. rewrite drop_0. by rewrite (drop_ge avail) by lia.
    + eexists _, _, _. split_and!; [done| |done|unfold offset_ok; lia|by exists []|by exists []].
      rewrite unsent_cons by lia. f_equal. unfold avail. rewrite drop_drop. f_equal. lia.
  - rewrite (Z.min_r len) by lia. replace (offset + Z.of_nat (length avail)) with (Z.of_nat (length span)) by lia.
    rewrite Z.eqb_refl. cbn [mbind outcome_bind]. rewrite (proj2 (Z.eqb_neq _ 0)) by lia.
    rewrite Nat2Z.id, firstn_all.
    assert (Hu : unsent spans 0 = concat spans) by (unfold unsent; apply drop_0).
    destruct (IH fuel blocks 0 (pos + Z.of_nat (length avail)) (len - Z.of_nat (length avail)) (write_at pos avail frame))
      as (spans' & blocks' & offset' & H1 & H2 & H3 & H4 & H5 & H6); rewrite ?Hu.
    + simpl in Hf. lia.
    + simpl in Hb. lia.
    + by left.
    + lia.
    + lia.
    + lia.
    + rewrite length_write_at by lia. lia.
    + exists spans', blocks', offset'. rewrite H1, Hu. split_and!; [|rewrite H2, Hu|done|done|by apply suffix_cons_r..].
      * rewrite write_at_twice by lia. do 2 f_equal. f_equal.
        rewrite take_app_ge by lia. do 2 f_equal. lia.
      * rewrite drop_app_ge by lia. f_equal. lia.
Qed.

Section body.
Context {SS : SetSearch} {H : Type} (fresh : Z -> Z).
Implicit Types s : stream H.

(** The parts of a request that [prepare_body] relies on. *)
Definition body_ok s : Prop :=
  length (body_list (m_request s)) = length (span_list (m_request s)) /\
  offset_ok (span_list (m_request s)) (send_body_offset s) /\
  Z.of_nat (length (concat (span_list (m_request s)))) < 2 ^ 64.

Definition stream_unsent s : list Z := unsent (span_list (m_request s)) (send_body_offset s).

(** No slice has been sent completely: the size of the request is that of the spans left. *)
Definition no_slice_done s : Prop :=
  body_size (m_request s) = Z.of_nat (length (concat (span_list (m_request s)))).

Lemma offset_le spans offset :
  offset_ok spans offset -> 0 <= offset <= Z.of_nat (length (concat spans)).
Proof.
  intros [->|Ho]; [lia|]. destruct spans; [lia|]. cbn [concat]. rewrite length_app. lia.
Qed.

Lemma length_unsent spans offset :
  offset_ok spans offset -> Z.of_nat (length (unsent spans offset)) = Z.of_nat (length (concat spans)) - offset.
Proof. intros Ho%offset_le. unfold unsent. rewrite length_drop. lia. Qed.

Lemma prepare_body_frame e limit s id :
  http_id s = native_to_big id -> fits 32 id -> body_ok s -> no_slice_done s -> stream_unsent s <> [] ->
  9 < limit < 9 + 2 ^ 24 ->
  let n := Z.min (limit - 9) (Z.of_nat (length (stream_unsent s))) in
  exists frame spans blocks offset,
    prepare_body fresh e limit s =
      Ok (Sent (set_request offset (Request (header_list (m_request s)) blocks spans
            (rq_size (m_request s)) (timeout_value (m_request s))) s) e [frame] 0 []) /\
    data_view frame = rfc_frame 0 (if n =? Z.of_nat (length (stream_unsent s)) then END_STREAM else 0) id
      (take (Z.to_nat n) (stream_unsent s)) /\
    unsent spans offset = drop (Z.to_nat n) (stream_unsent s) /\
    length blocks = length spans /\ offset_ok spans offset /\ spans `suffix_of` span_list (m_request s) /\
    blocks `suffix_of` body_list (m_request s).
Proof.
  intros Hid Hf (Hbl & Ho & Hc) Hd Hu Hlim n. unfold prepare_body, stream_unsent in *. cbn zeta.
  pose proof (length_unsent _ _ Ho) as Hl. pose proof (offset_le _ _ Ho) as Hle. unfold no_slice_done in Hd.
  assert (Hpos : 0 < Z.of_nat (length (unsent (span_list (m_request s)) (send_body_offset s))))
    by (destruct (unsent _ _); [done|simpl; lia]).
  rewrite Hd. rewrite <- Hl. unfold u64, u32, HEADER_SIZE.
  rewrite !(wrap_small 64) by (unfold fits; lia). fold n. assert (0 < n < 2 ^ 24) by lia.
  rewrite (wrap_small 32) by (unfold fits; lia).
  set (flags := if n =? _ then END_STREAM else 0).
  assert (Hfl : has_flag flags PADDED = false) by (unfold flags; by destruct (n =? _)).
  set (body := take (Z.to_nat n) (unsent (span_list (m_request s)) (send_body_offset s))).
  assert (Hn : Z.of_nat (length body) = n) by (unfold body; rewrite length_take; lia).
  pose proof (data_bytes fresh id flags body Hf Hfl ltac:(lia)) as Hdata.
  rewrite Hid. rewrite Hn in Hdata.
  assert (Hmem : Z.of_nat (length (b_memory (data fresh (native_to_big id) flags n).1)) = 9 + n /\
    (data fresh (native_to_big id) flags n).2.1 = 9).
  { unfold data. rewrite Hfl. cbn [fst snd]. split; [|done].
    unfold commit. cbn [fst b_memory]. unfold HEADER_SIZE.
    rewrite (proj1 (store_header DATA flags (native_to_big id) n (buffer_new fresh (9 + 0 + n))
      ltac:(rewrite new_memory; lia))).
    rewrite length_app, length_header, length_drop, new_memory; lia. }
  destruct (data fresh (native_to_big id) flags n) as [frame [pos len]]. cbn [fst snd] in Hmem.
  destruct Hmem as [Hmem ->], Hdata as [-> Hdata].
  destruct (body_loop_copies (span_list (m_request s)) (S (length (span_list (m_request s)))) (body_list (m_request s))
    (send_body_offset s) 9 n frame) as (spans & blocks & offset & -> & H2 & H3 & H4 & H5 & H6); try (done || lia).
  cbn [mbind outcome_bind]. by eexists _, spans, blocks, offset.
Qed.

(** ** The body through [get_tx_data] *)

(** A stream that has only its body to send. *)
Definition body_phase s : Prop :=
  header_list (m_request s) = [] /\ http_state s <> HALF_CLOSED /\ body_ok s.

Lemma update_window_size size sid : length (data_view (update_window fresh size sid)) = 13%nat.
Proof. reflexivity. Qed.

(** The bytes of a due WINDOW_UPDATE frame, which comes first. *)
Definition update_bytes s : Z := if Window.need_update (local_window s) then WINDOW_UPDATE_SIZE else 0.

Lemma get_tx_data_body e limit s :
  body_phase s -> 0 < body_size (m_request s) ->
  let l := Z.min limit (remote_window s) in
  update_bytes s + 18 <= l < 2 ^ 64 ->
  exists w out, let s1 := set_local_window w (set_state OPEN (set_scheduled false s)) in
    Window.update fresh (http_id s) (local_window s) = (w, out) /\
    get_tx_data fresh e limit s =
      (r ← prepare_body fresh e (l - update_bytes s) s1;
       Ok (Sent (set_remote_window (u64 (remote_window (sent_stream r) - u64 (update_bytes s + sent_used r)))
                   (sent_stream r)) (sent_encoder r) (option_list out ++ sent_out r)
             (u64 (update_bytes s + sent_used r)) ([] ++ sent_effects r))).
Proof.
  intros (Hh & Hs & Hb) Hsz l Hl. unfold get_tx_data.
  destruct (Window.update fresh (http_id s) (local_window s)) as [w out] eqn:Hw. exists w, out. split; [done|].
  set (s0 := set_scheduled false s). change (http_state s0) with (http_state s).
  change (remote_window s0) with (remote_window s). rewrite bool_decide_eq_false_2 by done.
  fold l. assert (Hu : 0 <= update_bytes s) by (unfold update_bytes; by destruct (Window.need_update _)).
  rewrite (proj2 (Z.leb_gt l 16)) by lia. set (s1 := set_state OPEN s0).
  change (http_id s1) with (http_id s). change (local_window s1) with (local_window s). rewrite Hw.
  assert (Hub : buffers_size (option_list out) = update_bytes s).
  { unfold Window.update in Hw. unfold update_bytes. destruct (Window.need_update _); by injection Hw as <- <-. }
  change (raw_headers (m_request (set_local_window w s1))) with (header_list (m_request s)). rewrite Hh.
  cbn [mbind outcome_bind]. change (raw_headers (m_request (set_local_window w s1))) with (header_list (m_request s)).
  change (body_size (m_request (set_local_window w s1))) with (body_size (m_request s)). rewrite Hh, Hub.
  rewrite (bool_decide_eq_true_2 ([] = [])) by done. rewrite (proj2 (Z.eqb_neq _ 0)) by lia.
  replace (u64 (l - update_bytes s)) with (l - update_bytes s)
    by (unfold u64; rewrite wrap_small; unfold fits; lia).
  rewrite (proj2 (Z.leb_le _ _)) by (unfold HEADER_SIZE; lia). cbn [negb andb].
  by destruct (prepare_body fresh e (l - update_bytes s) _) as [[s' e' o u eff]| | |].
Qed.

(** A stream in the middle of a body of one slice. *)
Record single s (blk : block_type) (offset : Z) : Prop := {
  sg_headers : header_list (m_request s) = [];
  sg_state : http_state s <> HALF_CLOSED;
  sg_blocks : body_list (m_request s) = [blk];
  sg_spans : span_list (m_request s) = [block_bytes blk];
  sg_size : body_size (m_request s) = Z.of_nat (length (block_bytes blk));
  sg_offset : send_body_offset s = offset;
  sg_range : 0 <= offset < Z.of_nat (length (block_bytes blk));
  sg_max : Z.of_nat (length (block_bytes blk)) < 2 ^ 64;
  sg_window : Window.need_update (local_window s) = false;
}.

Lemma single_unsent s blk offset :
  single s blk offset -> stream_unsent s = drop (Z.to_nat offset) (block_bytes blk).
Proof. intros []. unfold stream_unsent, unsent. rewrite sg_spans0, sg_offset0. simpl. by rewrite app_nil_r. Qed.

(** A stream with nothing left to send. *)
Record drained s : Prop := {
  dr_headers : header_list (m_request s) = [];
  dr_blocks : body_list (m_request s) = [];
  dr_state : http_state s <> HALF_CLOSED;
  dr_window : Window.need_update (local_window s) = false;
}.

Lemma drained_idle s : drained s -> has_tx_data s = false.
Proof. intros [H1 H2 H3 H4]. unfold has_tx_data. by rewrite H1, H2, H4, bool_decide_eq_false_2. Qed.

Lemma single_busy s blk offset : single s blk offset -> has_tx_data s = true.
Proof. intros []. unfold has_tx_data. rewrite sg_blocks0. apply orb_true_r. Qed.

(** The body is sent up to the limit; the stream is then either further in it or done. *)
Lemma single_body e l s id blk offset :
  single s blk offset -> http_id s = native_to_big id -> fits 32 id -> 9 < l < 9 + 2 ^ 24 ->
  let rest := drop (Z.to_nat offset) (block_bytes blk) in
  let n := Z.min (l - 9) (Z.of_nat (length rest)) in
  exists frame s', prepare_body fresh e l s = Ok (Sent s' e [frame] 0 []) /\
    data_view frame = rfc_frame 0 (if n =? Z.of_nat (length rest) then END_STREAM else 0) id (take (Z.to_nat n) rest) /\
    http_id s' = http_id s /\ remote_window s' = remote_window s /\ is_scheduled s' = is_scheduled s /\
    (if n =? Z.of_nat (length rest) then drained s' else single s' blk (offset + n)).
Proof.
  intros Hsg Hid Hf Hl rest n. pose proof (single_unsent _ _ _ Hsg) as Hun. destruct Hsg.
  assert (Hlr : Z.of_nat (length rest) = Z.of_nat (length (block_bytes blk)) - offset)
    by (unfold rest; rewrite length_drop; lia).
  destruct (prepare_body_frame e l s id) as (frame & spans & blocks & off & -> & H1 & H2 & H3 & H4 & H5 & H8);
    [done|done| | | |lia|].
  { unfold body_ok. rewrite sg_blocks0, sg_spans0, sg_offset0. simpl. rewrite app_nil_r.
    split_and!; [done| |done]. unfold offset_ok. lia. }
  { unfold no_slice_done. rewrite sg_size0, sg_spans0. simpl. by rewrite app_nil_r. }
  { rewrite Hun. intros Hz. unfold rest in Hlr. rewrite Hz in Hlr. simpl in Hlr. lia. }
  rewrite Hun in *. fold rest in H1, H2. fold n in H1, H2. rewrite sg_spans0 in H5. rewrite sg_blocks0 in H8.
  eexists frame, _. split; [reflexivity|]. split_and!; try done.
  pose proof (f_equal length H2) as H6. rewrite length_drop in H6. pose proof (length_unsent _ _ H4) as H7.
  apply suffix_singleton in H5 as [->| ->].
  - simpl in H7. rewrite app_nil_r in H7. destruct H4 as [->|H4]; [lia|].
    destruct (Z.eqb_spec n (Z.of_nat (length rest))); [lia|].
    apply suffix_singleton in H8 as [->| ->]; [|done].
    constructor; try done; try lia. change (off = offset + n). lia.
  - simpl in H7. destruct (Z.eqb_spec n (Z.of_nat (length rest))); [|exfalso; destruct H4 as [->|H4]; lia].
    destruct blocks; [|done]. by split.
Qed.

Lemma set_remote_single n s blk offset : single s blk offset -> single (set_remote_window n s) blk offset.
Proof. intros []. by constructor. Qed.

Lemma set_remote_drained n s : drained s -> drained (set_remote_window n s).
Proof. intros []. by constructor. Qed.

Lemma single_step e limit s id blk offset :
  single s blk offset -> http_id s = native_to_big id -> fits 32 id -> fits 64 (remote_window s) ->
  let l := Z.min limit (remote_window s) in
  18 <= l < 9 + 2 ^ 24 ->
  let rest := drop (Z.to_nat offset) (block_bytes blk) in
  let n := Z.min (l - 9) (Z.of_nat (length rest)) in
  exists frame s', get_tx_data fresh e limit s = Ok (Sent s' e [frame] 0 []) /\
    data_view frame = rfc_frame 0 (if n =? Z.of_nat (length rest) then END_STREAM else 0) id (take (Z.to_nat n) rest) /\
    http_id s' = http_id s /\ remote_window s' = remote_window s /\ is_scheduled s' = false /\
    (if n =? Z.of_nat (length rest) then drained s' else single s' blk (offset + n)).
Proof.
  intros Hsg Hid Hf Hrw l Hl rest n. pose proof Hsg as [].
  assert (Hub : update_bytes s = 0) by (unfold update_bytes; by rewrite sg_window0).
  assert (Hok : body_ok s).
  { unfold body_ok. rewrite sg_blocks0, sg_spans0, sg_offset0. simpl. rewrite app_nil_r.
    split_and!; [done| |done]. unfold offset_ok. lia. }
  destruct (get_tx_data_body e limit s) as (w & out & Hw & ->); [done|lia|fold l; lia|].
  unfold Window.update in Hw. rewrite sg_window0 in Hw. injection Hw as <- <-. fold l. rewrite Hub, Z.sub_0_r.
  set (s1 := set_local_window _ _).
  destruct (single_body e l s1 id blk offset) as (frame & s' & -> & H1 & H2 & H3 & H4 & H5); [by constructor|done|done|lia|].
  cbn [mbind outcome_bind sent_used sent_stream sent_encoder sent_out sent_effects app].
  eexists frame, _. split; [reflexivity|]. split; [done|]. split; [done|]. fold rest n in H5.
  split; [change (u64 (0 + 0)) with 0; rewrite Z.sub_0_r, H3; by apply wrap_small|]. split; [done|].
  destruct (_ =? _); [by apply set_remote_drained|by apply set_remote_single].
Qed.

(** The calls of [get_tx_data] with these limits, as long as there is body left. *)
Fixpoint send_body (e : encoder) (limits : list Z) (s : stream H) : outcome (list buffer * stream H) :=
  match limits, body_list (m_request s) with
  | [], _ | _, [] => Ok ([], s)
  | limit :: limits, _ =>
      r ← get_tx_data fresh e limit s;
      '(out, s) ← send_body (sent_encoder r) limits (sent_stream r);
      Ok (sent_out r ++ out, s)
  end.

(** DATA frames with these payloads, the last one closing the stream. *)
Fixpoint data_frames (id : Z) (ds : list (list Z)) : list (list Z) :=
  match ds with
  | [] => []
  | [d] => [rfc_frame 0 END_STREAM id d]
  | d :: ds => rfc_frame 0 0 id d :: data_frames id ds
  end.

Lemma send_body_single e id blk limits : forall s offset,
  single s blk offset -> http_id s = native_to_big id -> fits 32 id -> fits 64 (remote_window s) ->
  Forall (fun l => 18 <= Z.min l (remote_window s) < 9 + 2 ^ 24) limits ->
  Z.of_nat (length (block_bytes blk)) - offset <= foldr (fun l n => Z.min l (remote_window s) - 9 + n) 0 limits ->
  exists ds frames s', send_body e limits s = Ok (frames, s') /\
    map data_view frames = data_frames id ds /\ ds <> [] /\
    concat ds = drop (Z.to_nat offset) (block_bytes blk) /\
    body_list (m_request s') = [] /\ remote_window s' = remote_window s /\
    Forall (fun d => exists l, l ∈ limits /\ Z.of_nat (length d) <= Z.min l (remote_window s) - 9) ds.
Proof.
  induction limits as [|l limits IH]; intros s offset Hsg Hid Hf Hrw Hlim Hsum.
  { destruct Hsg. simpl in Hsum. lia. }
  apply Forall_cons in Hlim as [Hl Hlim]. cbn [foldr] in Hsum.
  destruct (single_step e l s id blk offset Hsg Hid Hf Hrw Hl) as (frame & s' & Ht & Hv & Hi & Hr & _ & Hc).
  assert (Hlr : Z.of_nat (length (drop (Z.to_nat offset) (block_bytes blk))) =
    Z.of_nat (length (block_bytes blk)) - offset) by (destruct Hsg; rewrite length_drop; lia).
  set (rest := drop (Z.to_nat offset) (block_bytes blk)) in *.
  set (n := Z.min (Z.min l (remote_window s) - 9) (Z.of_nat (length rest))) in *.
  cbn [send_body]. rewrite (sg_blocks _ _ _ Hsg), Ht. cbn [mbind outcome_bind sent_out sent_encoder sent_stream].
  assert (Hn : exists l', l' ∈ l :: limits /\ Z.of_nat (length (take (Z.to_nat n) rest)) <= Z.min l' (remote_window s) - 9)
    by (exists l; split; [by left|rewrite length_take; lia]).
  destruct (Z.eqb_spec n (Z.of_nat (length rest))) as [He|He].
  - assert (send_body e limits s' = Ok ([], s')) as -> by (apply dr_blocks in Hc; destruct limits; cbn [send_body]; rewrite ?Hc; done).
    exists [rest], [frame], s'. cbn [map data_frames]. rewrite Hv, He, Nat2Z.id, firstn_all.
    rewrite He, Nat2Z.id, firstn_all in Hn. cbn [concat]. rewrite app_nil_r.
    split_and!; try done; [apply Hc|by constructor].
  - destruct (IH s' (offset + n)) as (ds & frames & s'' & -> & H2 & H3 & H4 & H5 & H6 & H7); rewrite ?Hr, ?Hi; try done.
    { lia. }
    exists (take (Z.to_nat n) rest :: ds), (frame :: frames), s''. cbn [mbind outcome_bind map app concat].
    rewrite Hv, H2, H4. split_and!; [done| |done| |done|by rewrite H6|].
    + by destruct ds.
    + transitivity (take (Z.to_nat n) rest ++ drop (Z.to_nat n) rest); [|apply take_drop].
      f_equal. unfold rest. rewrite drop_drop. f_equal. destruct Hsg. lia.
    + constructor; [done|]. rewrite Hr in H7. eapply Forall_impl; [exact H7|]. intros d (l' & Hl' & Hd).
      exists l'. split; [by right|done].
Qed.

(** A request body given as one slice, sent by successive calls of [get_tx_data] with limits of at
    least 18 bytes that together leave room for it, becomes DATA frames of RFC 7540 on the
    stream's id whose payloads are, in order, exactly the bytes of the slice; each fits its limit,
    only the last frame ends the stream, and nothing is left to send. The window of the peer
    is however not charged for them. *)
Theorem stream_body_sent e id blk limits s :
  single s blk 0 -> http_id s = native_to_big id -> fits 32 id -> fits 64 (remote_window s) ->
  Forall (fun l => 18 <= Z.min l (remote_window s) < 9 + 2 ^ 24) limits ->
  Z.of_nat (length (block_bytes blk)) <= foldr (fun l n => Z.min l (remote_window s) - 9 + n) 0 limits ->
  exists ds frames s', send_body e limits s = Ok (frames, s') /\
    map data_view frames = data_frames id ds /\ ds <> [] /\ concat ds = block_bytes blk /\
    body_list (m_request s') = [] /\ remote_window s' = remote_window s /\
    Forall (fun d => exists l, l ∈ limits /\ Z.of_nat (length d) <= Z.min l (remote_window s) - 9) ds.
Proof.
  intros Hsg Hid Hf Hrw Hlim Hsum.
  destruct (send_body_single e id blk limits s 0) as (ds & frames & s' & H1); try done; [lia|].
  by exists ds, frames, s'.
Qed.

(** The loop runs past the last slice when it has more to copy than there is. *)
Lemma body_loop_overrun spans : forall fuel blocks offset pos len frame,
  (length spans < fuel)%nat -> length blocks = length spans -> offset_ok spans offset ->
  Z.of_nat (length (unsent spans offset)) < len -> Z.of_nat (length (concat spans)) < 2 ^ 64 ->
  body_loop fuel spans blocks offset pos len frame = Undefined.
Proof.
  induction spans as [|span spans IH]; intros fuel blocks offset pos len frame Hf Hb Ho Hlen Hc;
    destruct fuel as [|fuel]; try (simpl in Hf; lia); [done|]. destruct blocks as [|blk blocks]; [done|].
  cbn [body_loop]. unfold offset_ok in Ho. cbn [concat] in Hc. rewrite length_app in Hc.
  rewrite unsent_cons, length_app, length_drop in Hlen by lia.
  rewrite (proj2 (Z.ltb_ge _ _)) by lia. unfold u64.
  rewrite (wrap_small 64 (Z.of_nat (length span) - offset)) by (unfold fits; lia).
  rewrite Z.min_r by lia. replace (offset + (Z.of_nat (length span) - offset)) with (Z.of_nat (length span)) by lia.
  rewrite wrap_small by (unfold fits; lia). rewrite Z.eqb_refl. cbn [mbind outcome_bind].
  rewrite (proj2 (Z.eqb_neq _ 0)) by lia. apply IH; [simpl in Hf; lia|simpl in Hb; lia|by left| |lia].
  unfold unsent. cbn [Z.to_nat]. rewrite drop_0. lia.
Qed.

(** C30: The size of a request is never reduced. Once a slice of its body has been sent
    completely, [prepare_body] takes the bytes left to be the whole size less the offset into
    the current slice; when that and the limit exceed what is really left, [get_tx_data]
    reads past the end of the list of slices. So does a stream whose whole body has been
    sent and which is scheduled again because its window needs an update. *)
Theorem stream_body_overrun e limit s :
  body_phase s -> body_size (m_request s) < 2 ^ 64 ->
  Z.of_nat (length (concat (span_list (m_request s)))) < body_size (m_request s) ->
  let l := Z.min limit (remote_window s) - update_bytes s in
  18 <= l < 9 + 2 ^ 32 -> Z.min limit (remote_window s) < 2 ^ 64 ->
  Z.of_nat (length (stream_unsent s)) < Z.min (l - 9) (body_size (m_request s) - send_body_offset s) ->
  get_tx_data fresh e limit s = Undefined.
Proof.
  intros Hp Hsz Hdone l Hl Hl64 Hun. pose proof Hp as (Hh & Hs & Hbl & Ho & Hc).
  assert (Hu : 0 <= update_bytes s) by (unfold update_bytes; by destruct (Window.need_update _)).
  destruct (get_tx_data_body e limit s Hp) as (w & out & _ & ->); [lia|lia|]. fold l.
  pose proof (offset_le _ _ Ho) as Hle.
  unfold prepare_body. set (s1 := set_local_window _ _).
  change (m_request s1) with (m_request s). change (send_body_offset s1) with (send_body_offset s).
  unfold u64 at 1 2 3. unfold HEADER_SIZE. rewrite !(wrap_small 64) by (unfold fits; lia).
  unfold u32. rewrite (wrap_small 32) by (unfold fits; lia).
  set (n := Z.min (l - 9) _) in *. set (flags := if n =? _ then END_STREAM else 0).
  assert (Hlen : (data fresh (http_id s1) flags n).2.2 = n) by done.
  destruct (data fresh (http_id s1) flags n) as [frame [pos len]]. cbn [snd] in Hlen. subst len.
  rewrite body_loop_overrun; [done|lia|done|done|done|done].
Qed.
End body.

(** ** Examples *)

(** A stream whose headers have been sent, with a body of one slice of which the first
    [offset] bytes have been sent. *)
Definition example_stream (window size offset : Z) (blocks : list block_type) : stream nat :=
  Stream (native_to_big 1) false window (make_window 65535 16383) OPEN false offset
    (Request [] blocks (block_bytes <$> blocks) size 30000) empty_response (Some 1%nat).

Lemma stream_body_sent_witness :
  let s := example_stream 20 30 0 [string_block (str "abcdefghijklmnopqrstuvwxyz0123")] in
  exists ds frames s', send_body (H := nat) (SS := IndexedDynamicTable.linear_search) (fun _ => 7)
      Encoder.make_encoder [16384; 16384; 16384] s = Ok (frames, s') /\
    map data_view frames = data_frames 1 ds /\ ds <> [] /\ concat ds = str "abcdefghijklmnopqrstuvwxyz0123" /\
    body_list (m_request s') = [] /\ remote_window s' = 20 /\
    Forall (fun d => exists l, l ∈ [16384; 16384; 16384] /\ Z.of_nat (length d) <= Z.min l 20 - 9) ds.
Proof.
  refine (stream_body_sent (fun _ => 7) Encoder.make_encoder 1 (string_block (str "abcdefghijklmnopqrstuvwxyz0123"))
    [16384; 16384; 16384] (example_stream 20 30 0 [string_block (str "abcdefghijklmnopqrstuvwxyz0123")]) _ _ _ _ _ _).
  - by constructor.
  - done.
  - by split.
  - by split.
  - by repeat constructor.
  - done.
Defined.

Lemma stream_body_overrun_witness :
  let s := set_local_window (Window.dec 20000 (make_window 65535 16383)) (example_stream 65535 30 0 []) in
  has_tx_data s = true /\
  get_tx_data (SS := IndexedDynamicTable.linear_search) (fun _ => 7) Encoder.make_encoder 16384 s = Undefined.
Proof.
  split; [done|]. apply stream_body_overrun; try done.
  split; [done|]. split; [discriminate|]. split; [done|]. split; [by left|done].
Defined.

(** ** Completion *)

Section completion.
Context {SS : SetSearch} {H : Type} (fresh : Z -> Z) (heap : Z -> Z) (addr : Z) (moved_response : response -> response).

(** What can happen to a stream: received frames, the timer, the end of the connection, and
    its turn to send. *)
Inductive stream_event : Type :=
| DataReceived (b : buffer)
| HeadersReceived (h : header) (flags raw_size : Z)
| ResetReceived (err : Z)
| WindowUpdateReceived (increment : Z)
| ContinuationReceived (h : header) (flags raw_size : Z)
| TimerCallback (ec : boost_error)
| Reset (ec : boost_error)
| CheckTxData
| GetTxData (e : encoder) (limit : Z).

(** An operation that does not return leaves the stream to be destroyed or closed. *)
Definition stream_step (ev : stream_event) (s : stream H) : stream H * list (effect H) :=
  match ev with
  | DataReceived b => match on_receive_data heap addr moved_response b s with Ok r => r | _ => (s, []) end
  | HeadersReceived h flags raw_size => on_receive_headers moved_response h flags raw_size s
  | ResetReceived err => on_receive_reset moved_response err s
  | WindowUpdateReceived increment => (on_receive_window_update increment s, [])
  | ContinuationReceived h flags raw_size => on_receive_continuation moved_response h flags raw_size s
  | TimerCallback ec => on_timer moved_response ec s
  | Reset ec => reset moved_response ec s
  | CheckTxData => ((check_tx_data s).1, [])
  | GetTxData e limit =>
      match get_tx_data fresh e limit s with Ok r => (sent_stream r, sent_effects r) | _ => (s, []) end
  end.

Fixpoint stream_run (evs : list stream_event) (s : stream H) : stream H * list (effect H) :=
  match evs with
  | [] => (s, [])
  | ev :: evs => let '(s, eff) := stream_step ev s in let '(s, eff') := stream_run evs s in (s, eff ++ eff')
  end.

(** The handlers called. *)
Definition invoked (eff : list (effect H)) : list H :=
  omap (fun e => match e with Invoke h _ _ => Some h | _ => None end) eff.

(** The handler is either kept or called. *)
Definition conserves (s s' : stream H) (eff : list (effect H)) : Prop :=
  option_list (respone_handler s) = invoked eff ++ option_list (respone_handler s').

Lemma finished_conserves ec s :
  conserves s (finished moved_response ec s).1 (finished moved_response ec s).2.
Proof. unfold conserves, finished. by destruct (respone_handler s) eqn:E; simpl; rewrite ?E. Qed.

Lemma end_stream_conserves flags s :
  conserves s (end_stream moved_response flags s).1 (end_stream moved_response flags s).2.
Proof.
  unfold end_stream. destruct (has_flag _ _); [|done].
  pose proof (finished_conserves NoError (set_state HALF_CLOSED s)) as Hc.
  by destruct (finished _ _ _) as [s' eff].
Qed.

Lemma prepare_headers_conserves e limit s r :
  prepare_headers fresh e limit s = Ok r -> conserves s (sent_stream r) (sent_effects r).
Proof.
  unfold prepare_headers. intros Hr. apply outcome_bind_ok in Hr as ([e' [bufs n]] & _ & Hr).
  destruct (n =? 0); [by injection Hr as <-|].
  apply outcome_bind_ok in Hr as (rq & _ & Hr). cbn zeta in Hr.
  change (is_cointinuation (set_request (send_body_offset s) rq s)) with (is_cointinuation s) in Hr.
  destruct (is_cointinuation s) eqn:Ec; cbv iota beta in Hr;
    repeat match type of Hr with
    | context [match ?x with _ => _ end] => destruct x eqn:?
    end; by injection Hr as <-.
Qed.

Lemma prepare_body_conserves e limit s r :
  prepare_body fresh e limit s = Ok r -> conserves s (sent_stream r) (sent_effects r).
Proof.
  unfold prepare_body. cbn zeta. destruct (data _ _ _ _) as [frame [pos len]]. intros Hr.
  apply outcome_bind_ok in Hr as ([[[spans blocks] off] frame'] & _ & Hr). by injection Hr as <-.
Qed.

Lemma conserves_trans s s' s'' eff eff' :
  conserves s s' eff -> conserves s' s'' eff' -> conserves s s'' (eff ++ eff').
Proof.
  unfold conserves, invoked. intros -> ->. by rewrite omap_app, app_assoc.
Qed.

Lemma get_tx_data_conserves e limit s r :
  get_tx_data fresh e limit s = Ok r -> conserves s (sent_stream r) (sent_effects r).
Proof.
  unfold get_tx_data. destruct (bool_decide _); [by intros [= <-]|].
  destruct (_ <=? 16); [by intros [= <-]|]. destruct (Window.update _ _ _) as [w upd].
  set (s1 := set_local_window w _). intros Hr. apply outcome_bind_ok in Hr as ([s2 e2 o2 u2 f2] & H1 & Hr).
  assert (Hc : conserves s s2 f2).
  { change (conserves s1 s2 f2). destruct (raw_headers (m_request s1)); [by injection H1 as <- <- <- <- <-|].
    apply outcome_bind_ok in H1 as (r1 & Hh & H1). apply prepare_headers_conserves in Hh.
    by injection H1 as <- <- <- <- <-. }
  apply outcome_bind_ok in Hr as ([s3 e3 o3 u3 f3] & H2 & Hr). injection Hr as <-.
  change (conserves s s3 f3). destruct (_ && _); [|by injection H2 as <- <- <- <- <-].
  apply outcome_bind_ok in H2 as (r2 & Hb & H2). apply prepare_body_conserves in Hb.
  injection H2 as <- <- <- <- <-. by eapply conserves_trans.
Qed.

Lemma stream_step_conserves ev s :
  conserves s (stream_step ev s).1 (stream_step ev s).2.
Proof.
  destruct ev; cbn [stream_step].
  - unfold on_receive_data. destruct (from_buffer _) as [fa| | |]; cbn [mbind outcome_bind]; try done.
    destruct (negb _); [|apply (end_stream_conserves _ (set_local_window _ s))].
    destruct (insert_body _ _ _ _) as [r| | |]; cbn [mbind outcome_bind]; try done.
    apply (end_stream_conserves _ (set_response _ (set_local_window _ s))).
  - apply (end_stream_conserves _ (set_response _ (set_local_window _ s))).
  - apply (finished_conserves _ (set_state CLOSED s)).
  - done.
  - unfold on_receive_continuation. destruct (has_flag _ _); [|done].
    apply (finished_conserves NoError (set_response _ (set_local_window _ s))).
  - unfold on_timer. destruct (decide _); [done|]. apply finished_conserves.
  - unfold reset. pose proof (finished_conserves ec (set_state CLOSED s)) as Hc.
    by destruct (finished _ _ _) as [s' eff].
  - unfold check_tx_data. by destruct (_ && _).
  - destruct (get_tx_data fresh e limit s) as [r| | |] eqn:E; try done. by apply get_tx_data_conserves in E.
Qed.

(** C24: Every request completes at most once: over any history of received frames, timer callbacks,
    sending turns and the end of the connection, the handler of the request is called at
    most once, and it is gone exactly when it has been called. *)
Theorem stream_handler_once id remote_size local_size rq h evs :
  let '(s, eff) := stream_run evs (make_stream id remote_size local_size rq h) in
  [h] = invoked eff ++ option_list (respone_handler s).
Proof.
  cut (forall s, conserves s (stream_run evs s).1 (stream_run evs s).2).
  { intros Hc. specialize (Hc (make_stream id remote_size local_size rq h)).
    by destruct (stream_run _ _) as [s eff]. }
  induction evs as [|ev evs IH]; intros s; [done|]. cbn [stream_run].
  pose proof (stream_step_conserves ev s) as Hs. destruct (stream_step ev s) as [s1 eff1].
  specialize (IH s1). destruct (stream_run evs s1) as [s2 eff2]. by eapply conserves_trans.
Qed.
End completion.
