(* ===== verification/StreamHeaders.v ===== *)
(** * Sending the headers of a request

    [stream::prepare_headers] against the peer: the frame it builds and the header block in it,
    decoded with the peer's decoder. *)
From S2P Require Import Prelude Memory Utils Buffer HeaderField Protocol Frame FrameBuilder.
From S2P Require Import Request Stream IndexedDynamicTable HpackSync HpackCodec.
From S2P Require Streambuf Encoder Decoder.
Import Streambuf (contents).

Lemma buffers_size_exact bs :
  Z.of_nat (length (contents bs)) < 2 ^ 64 -> buffers_size bs = Z.of_nat (length (contents bs)).
Proof.
  unfold buffers_size. assert (H : forall n, 0 <= n -> n + Z.of_nat (length (contents bs)) < 2 ^ 64 ->
    foldl (fun n b => u64 (n + Z.of_nat (length (data_view b)))) n bs = n + Z.of_nat (length (contents bs))).
  { unfold contents. induction bs as [|b bs IH]; intros n Hn Hl; cbn [foldl mbind list_bind] in *; [simpl; lia|].
    rewrite length_app in *. unfold u64 at 2. rewrite wrap_small by (unfold fits; lia).
    cbn [mbind list_bind] in IH. rewrite IH by lia. lia. }
  intros Hl. by rewrite H by lia.
Qed.

(** The flags of the frame: END_HEADERS when all fields are in it, and on a HEADERS frame
    END_STREAM when the request has no body. *)
Definition headers_flags {H} (s : stream H) (all : bool) : Z :=
  Z.lor (if all then END_HEADERS else 0)
    (match body_list (m_request s) with
     | [] => if is_cointinuation s then 0 else END_STREAM
     | _ => 0
     end).

Section headers.
Context {SS : SetSearch} {H : Type} (fresh : Z -> Z) (Hfresh : forall i, is_byte (fresh i)).

(** A frame header built for a block, and the block behind it. *)
Definition framed (t flags id : Z) (b : buffer) (bufs : list buffer) : Prop :=
  data_view b ++ contents bufs = rfc_frame t flags id (contents bufs).

Lemma framed_used t flags id b bufs :
  framed t flags id b bufs -> Z.of_nat (length (contents bufs)) < 2 ^ 24 ->
  u64 (u64 (0 + Z.of_nat (length (data_view b))) + Z.of_nat (length (contents bufs))) =
  Z.of_nat (length (rfc_frame t flags id (contents bufs))).
Proof.
  intros Hf Hl. pose proof (f_equal length Hf) as Hlen. rewrite length_rfc_frame, length_app in Hlen.
  rewrite length_rfc_frame. unfold u64. rewrite (wrap_small 64 (0 + _)) by (unfold fits; lia).
  rewrite wrap_small; unfold fits; lia.
Qed.

Lemma framed_headers id flags bufs :
  fits 32 id -> has_flag flags PADDED = false -> has_flag flags FLAG_PRIORITY = false ->
  Z.of_nat (length (contents bufs)) < 2 ^ 24 ->
  framed 1 flags id (headers fresh (native_to_big id) flags (u32 (Z.of_nat (length (contents bufs))))) bufs.
Proof.
  intros Hf H1 H2 Hl. unfold framed, u32. rewrite wrap_small by (unfold fits; lia).
  rewrite headers_bytes by done. by apply (header_rfc 1).
Qed.

Lemma framed_continuation id flags bufs :
  fits 32 id -> Z.of_nat (length (contents bufs)) < 2 ^ 24 ->
  framed 9 flags id (continuation fresh (native_to_big id) flags (u32 (Z.of_nat (length (contents bufs))))) bufs.
Proof.
  intros Hf Hl. unfold framed, u32. rewrite wrap_small by (unfold fits; lia).
  rewrite continuation_bytes by done. by apply (header_rfc 9).
Qed.

Lemma empty_data_frame id :
  fits 32 id -> data_view (data fresh (native_to_big id) END_STREAM 0).1 = rfc_frame 0 END_STREAM id [].
Proof.
  intros Hf. pose proof (data_bytes fresh id END_STREAM [] Hf eq_refl ltac:(simpl; lia)) as Hd. cbn [length] in Hd.
  change (Z.of_nat 0) with 0 in Hd.
  destruct (data fresh (native_to_big id) END_STREAM 0) as [b [off len]] eqn:E. destruct Hd as [_ Hd].
  rewrite <- Hd. unfold data in E. injection E as <- <- <-. reflexivity.
Qed.

Lemma drop_all_decide {A} (l : list A) n `{!Decision (drop (Z.to_nat n) l = [])} :
  0 <= n <= Z.of_nat (length l) -> bool_decide (drop (Z.to_nat n) l = []) = (n =? Z.of_nat (length l)).
Proof.
  intros Hn. destruct (Z.eqb_spec n (Z.of_nat (length l))) as [->|Hne].
  - apply bool_decide_eq_true_2. rewrite Nat2Z.id. by apply drop_ge.
  - apply bool_decide_eq_false_2. intros Hd. apply (f_equal length) in Hd. rewrite length_drop in Hd.
    simpl in Hd. lia.
Qed.

(** What has been sent when the next [n] fields of the request are in the header block [block]. *)
Definition block_sent (s : stream H) (id n : Z) (block : list Z) (r : sent H) : Prop :=
  let fs := raw_headers (m_request s) in
  let all := n =? Z.of_nat (length fs) in
  let frame := rfc_frame (if is_cointinuation s then 9 else 1) (headers_flags s all) id block in
  let no_body := match body_list (m_request s) with [] => true | _ => false end in
  raw_headers (m_request (sent_stream r)) = drop (Z.to_nat n) fs /\
  if n =? 0 then sent_out r = [] /\ sent_used r = 0
  else
    contents (sent_out r) =
      frame ++ (if is_cointinuation s && all && no_body then rfc_frame 0 END_STREAM id [] else []) /\
    sent_used r = Z.of_nat (length frame) /\
    is_cointinuation (sent_stream r) = is_cointinuation s || negb all.

Lemma headers_flags_plain (s : stream H) all :
  has_flag (headers_flags s all) PADDED = false /\ has_flag (headers_flags s all) FLAG_PRIORITY = false.
Proof. unfold headers_flags. destruct all, (body_list _), (is_cointinuation s); by split. Qed.

(** What a header frame adds to the limit of its block. *)
Definition headers_overhead (s : stream H) : Z := if is_cointinuation s then 18 else 9.

Lemma headers_frame e d limit (s : stream H) id room m a :
  http_id s = native_to_big id -> fits 32 id -> codec_sync room e d ->
  let fs := raw_headers (m_request s) in
  FIELD_ROOM * Z.of_nat (length fs) <= room -> Forall (field_wf (Encoder.config e)) fs ->
  headers_overhead s <= limit -> limit + Z.of_nat (length fs) < 2 ^ 24 -> (forall x, is_byte (m x)) ->
  exists r n block d', prepare_headers fresh e limit s = Ok r /\ 0 <= n <= Z.of_nat (length fs) /\
    Decoder.decode d (span_of m a block) = Ok (d', take (Z.to_nat n) fs) /\
    codec_sync (room - FIELD_ROOM * Z.of_nat (length fs)) (sent_encoder r) d' /\
    block_sent s id n block r /\ Encoder.config (sent_encoder r) = Encoder.config e /\
    (wire_bounds fs + headers_overhead s <= limit -> n = Z.of_nat (length fs)) /\
    Z.of_nat (length block) <= wire_bounds fs.
Proof.
  intros Hid Hf Hsync fs Hroom Hwf Hlim Hlen Hm. unfold prepare_headers. fold fs.
  set (size_limit := if is_cointinuation s then _ else _).
  assert (Hsl : size_limit = limit - headers_overhead s /\ 0 <= size_limit <= limit).
  { unfold size_limit, headers_overhead, u64, HEADER_SIZE in *. destruct (is_cointinuation s); rewrite wrap_small; unfold fits; lia. }
  destruct Hsl as [Hse Hsl].
  destruct (encode_decode_block fresh Hfresh e d fs size_limit room m a)
    as (e' & bufs & n & d' & -> & R2 & R3 & R4 & R5 & R6 & _ & R7 & R8); [done|done|done|lia|lia|done|].
  cbn [mbind outcome_bind]. destruct (Z.eqb_spec n 0) as [->|Hn0].
  { eexists _, 0, (contents bufs), d'. split; [reflexivity|]. split_and!; try done; try lia. }
  unfold commit_headers. change (header_list (m_request s)) with fs.
  rewrite (proj2 (Z.leb_le _ _)) by lia. cbn [mbind outcome_bind].
  assert (Hc : Z.of_nat (length (contents bufs)) < 2 ^ 24) by lia.
  rewrite buffers_size_exact by lia.
  set (rq := Request _ _ _ _ _). set (s1 := set_request _ rq s).
  change (is_cointinuation s1) with (is_cointinuation s). change (http_id s1) with (http_id s).
  change (header_list rq) with (drop (Z.to_nat n) fs). change (body_list rq) with (body_list (m_request s)).
  rewrite drop_all_decide by done. set (all := n =? Z.of_nat (length fs)). rewrite Hid.
  set (block := contents bufs) in *.
  destruct (headers_flags_plain s all) as [Hp Hq].
  pose proof (framed_headers id (headers_flags s all) bufs Hf Hp Hq Hc) as Hh.
  pose proof (framed_continuation id (headers_flags s all) bufs Hf Hc) as Hk.
  pose proof (framed_used _ _ _ _ _ Hh Hc) as Hhu. pose proof (framed_used _ _ _ _ _ Hk Hc) as Hku.
  pose proof (empty_data_frame id Hf) as Hd0.
  assert (Hcont : forall b extra, contents ((b :: bufs) ++ extra) = (data_view b ++ contents bufs) ++ contents extra).
  { intros. by rewrite Streambuf.contents_app. }
  match goal with |- exists r _ _ _, ?x = Ok r /\ _ =>
    cut (exists r, x = Ok r /\ sent_encoder r = e' /\ block_sent s id n block r) end.
  { intros (r & H1 & H2 & H3). exists r, n, block, d'. rewrite H2. split_and!; try done; try lia. }
  unfold block_sent, headers_flags, framed in *. fold fs. fold all.
  rewrite (proj2 (Z.eqb_neq n 0)) by done. change (is_cointinuation s1) with (is_cointinuation s).
  destruct (data fresh (native_to_big id) END_STREAM 0) as [last sp] eqn:Ed. cbn [fst] in Hd0.
  assert (Hlast : contents [last] = rfc_frame 0 END_STREAM id []) by (cbn; rewrite Hd0; apply app_nil_r).
  destruct (is_cointinuation s) eqn:Ec, (body_list (m_request s)) as [|blk blks] eqn:Eb, all eqn:Ea;
    cbn [negb andb orb Z.lor] in *;
    change (is_cointinuation (set_cointinuation false s1)) with false;
    change (is_cointinuation (set_cointinuation true s1)) with true;
    change (is_cointinuation s1) with (is_cointinuation s); rewrite ?Ec; cbn [andb].
  1: change (http_id s1) with (http_id s); rewrite Hid, Ed; eexists; split; [reflexivity|].
  1: split_and!; [done|done|cbn [sent_out]; rewrite Hcont, Hlast; f_equal; exact Hk| |done].
  1: { transitivity (u64 (Z.of_nat (length (rfc_frame 9 END_HEADERS id block)) + 0)).
       - cbn [sent_used]. f_equal. f_equal. exact Hku.
       - rewrite Z.add_0_r. apply wrap_small. rewrite length_rfc_frame. unfold fits. lia. }
  all: eexists; split; [reflexivity|]; rewrite app_nil_r; split_and!; (done || exact Hk || exact Hku || exact Hh || exact Hhu).
Qed.

(** C16: The headers of a request reach the peer. With an encoder that agrees with the peer's decoder and
    a limit of at least 18 bytes, [prepare_headers] takes the next [n] fields of the request
    and, if [n] is not 0, sends one HEADERS frame (a CONTINUATION frame after the first
    call) of RFC 7540 on the stream's id whose block the peer's decoder turns into exactly
    these fields; the fields are removed from the request, the tables agree again, and the
    reported number of bytes is that of the frame. The first frame ends the stream if there
    is no body; nevertheless another, empty DATA frame that ends the stream follows the last
    CONTINUATION frame of a request without body, and is not counted. *)
Theorem stream_headers_frame e d limit (s : stream H) id room m a :
  http_id s = native_to_big id -> fits 32 id -> codec_sync room e d ->
  let fs := raw_headers (m_request s) in
  FIELD_ROOM * Z.of_nat (length fs) <= room -> Forall (field_wf (Encoder.config e)) fs ->
  18 <= limit -> limit + Z.of_nat (length fs) < 2 ^ 24 -> (forall x, is_byte (m x)) ->
  exists r n block d', prepare_headers fresh e limit s = Ok r /\ 0 <= n <= Z.of_nat (length fs) /\
    Decoder.decode d (span_of m a block) = Ok (d', take (Z.to_nat n) fs) /\
    codec_sync (room - FIELD_ROOM * Z.of_nat (length fs)) (sent_encoder r) d' /\
    block_sent s id n block r.
Proof.
  intros Hid Hf Hsync fs Hroom Hwf Hlim Hlen Hm.
  destruct (headers_frame e d limit s id room m a) as (r & n & block & d' & H1 & H2 & H3 & H4 & H5 & _);
    [done..|unfold headers_overhead; destruct (is_cointinuation s); lia|done|done|].
  by exists r, n, block, d'.
Qed.
End headers.

Lemma stream_headers_frame_witness :
  let s := make_stream (native_to_big 1) 65535 65535 (Request request3 [] [] 0 30000) 1%nat in
  exists r n block d', prepare_headers zero_memory Encoder.make_encoder 1000 s = Ok r /\
    0 <= n <= Z.of_nat (length request3) /\
    Decoder.decode Decoder.make_decoder (span_of zero_memory 0 block) = Ok (d', take (Z.to_nat n) request3) /\
    codec_sync (2 ^ 40 - FIELD_ROOM * Z.of_nat (length request3)) (sent_encoder r) d' /\
    block_sent s 1 n block r.
Proof.
  refine (stream_headers_frame zero_memory zero_memory_ok Encoder.make_encoder Decoder.make_decoder 1000
    (make_stream (native_to_big 1) 65535 65535 (Request request3 [] [] 0 30000) 1%nat) 1 (2 ^ 40) zero_memory 0
    _ _ _ _ _ _ _ _).
  - reflexivity.
  - by split.
  - exact new_codec_sync.
  - discriminate.
  - apply fields_wfb_ok. vm_compute. reflexivity.
  - lia.
  - reflexivity.
  - exact zero_memory_ok.
Defined.

(** A stream in the middle of its header block, with 17 bytes left in the window of the peer. *)
Definition example_continued : stream nat :=
  set_cointinuation true (make_stream (native_to_big 1) 17 65535 (Request request1 [] [] 0 30000) 1%nat).

(** A CONTINUATION frame reserves two frame headers, but a turn is only refused up to 16 bytes. With 17 bytes left the
    limit of the header block wraps around: the stream sends all its fields in a frame of 26 bytes, and the
    window of the peer wraps around as well. *)
Theorem stream_headers_unlimited :
  (forall {H} e (s : stream H), is_cointinuation s = true ->
     prepare_headers zero_memory e 17 s = prepare_headers zero_memory e (2 ^ 64 + 17) s) /\
  exists r, get_tx_data zero_memory Encoder.make_encoder 16384 example_continued = Ok r /\
    sent_used r = 26 /\ remote_window (sent_stream r) = 2 ^ 64 + 17 - 26 /\ raw_headers (m_request (sent_stream r)) = [].
Proof.
  split; [intros H e s Hc; unfold prepare_headers; by rewrite Hc|].
  destruct (get_tx_data zero_memory Encoder.make_encoder 16384 example_continued) as [r| | |] eqn:Hr;
    [|by vm_compute in Hr..].
  exists r. split; [done|]. vm_compute in Hr. injection Hr as <-. done.
Qed.
