(* ===== verification/Reassembly.v ===== *)
(** * Reading frames (base_client::on_read, client_session::on_data_read)

    Bytes from the network are committed to an input buffer; [on_read] cuts the complete frames
    out of it and hands each to a handler, keeps an incomplete frame, and replaces the buffer
    by a larger one when the frame does not fit. The handlers are an interface
    ([FrameSink]); a handler that throws leaves the state as it was then. *)
From S2P Require Import Prelude Memory Utils Buffer Protocol Frame.

(** The end of a handler: normally, by an exception, or with undefined behaviour. *)
Inductive handled (St : Type) : Type :=
| Done (st : St)
| Raised (e : exn) (st : St)
| Stuck.
Arguments Done {St} _.
Arguments Raised {St} _ _.
Arguments Stuck {St}.

(** A property of the state a handler leaves, if it returns or throws. *)
Definition lands {St} (P : St -> Prop) (h : handled St) : Prop :=
  match h with Done st | Raised _ st => P st | Stuck => True end.

Lemma lands_impl {St} (P Q : St -> Prop) h : (forall st, P st -> Q st) -> lands P h -> lands Q h.
Proof. destruct h; simpl; auto. Qed.

(** What [on_read] calls: [on_receive_data_frame], [on_receive_frame], the local
    [max_frame_size] and [initiate_disconnect] with the error of an exception. *)
Class FrameSink (St : Type) : Type := {
  sink_data : buffer -> St -> handled St;
  sink_frame : span -> St -> handled St;
  sink_limit : St -> Z;
  sink_error : boost_error -> St -> St;
}.

(** The error an exception is reported with. *)
Definition error_of (e : exn) : boost_error :=
  match e with
  | system_error code _ => code
  | _ => make_error_code INTERNAL_ERROR
  end.

Section on_read.
Context {St : Type} {Sink : FrameSink St} (fresh : Z -> Z) (heap : Z -> Z) (addr : Z).

(** The variables of [on_read]. *)
Record rx : Type := Rx {
  incomming_bytes : span;
  used_bytes : Z;
  io_buff : buffer;
  rx_state : St;
}.

Definition empty_span : span := Span heap 0 0.

(** A call in the [try] block: an exception ends the loop. *)
Definition attempt {A} (m : outcome A) (x : rx) (k : A -> outcome (rx * option exn)) : outcome (rx * option exn) :=
  match m with
  | Ok a => k a
  | Throw e => Ok (x, Some e)
  | Undefined => Undefined
  | OutOfFuel => OutOfFuel
  end.

(** A call of a handler in the [try] block. *)
Definition handle (h : handled St) (x : rx) (k : rx -> outcome (rx * option exn)) : outcome (rx * option exn) :=
  match h with
  | Done st => k (Rx (incomming_bytes x) (used_bytes x) (io_buff x) st)
  | Raised e st => Ok (Rx (incomming_bytes x) (used_bytes x) (io_buff x) st, Some e)
  | Stuck => Undefined
  end.

Fixpoint read_loop (fuel : nat) (x : rx) : outcome (rx * option exn) :=
  match fuel with
  | O => OutOfFuel
  | S fuel =>
      if sp_len (incomming_bytes x) <? min_size then Ok (x, None)
      else
        attempt (from_buffer (incomming_bytes x)) x (fun frame =>
        attempt (check frame (sink_limit (rx_state x))) x (fun _ =>
        let raw := raw_bytes frame in
        let next (x : rx) : outcome (rx * option exn) :=
          (rest ← subspan (sp_len raw) (incomming_bytes x);
           read_loop fuel (Rx rest (u64 (used_bytes x + sp_len raw)) (io_buff x) (rx_state x))) in
        if is_complete frame then
          if type_field raw =? frame_type_value DATA then
            if (sp_base raw =? addr) && (sp_len raw =? Z.of_nat (length (data_view (io_buff x)))) then
              handle (sink_data (io_buff x) (rx_state x))
                (Rx (incomming_bytes x) (used_bytes x) moved_from (rx_state x))
                (fun x => Ok (Rx empty_span (used_bytes x) (io_buff x) (rx_state x), None))
            else
              let frame_buff := (commit_span (sp_bytes raw) (buffer_new fresh (sp_len raw))).1 in
              handle (sink_data frame_buff (rx_state x)) x next
          else handle (sink_frame raw (rx_state x)) x next
        else if Z.of_nat (length (data_view (io_buff x))) + prepare_size (io_buff x) <? size frame then
          let big_buff := (commit_span (sp_bytes raw) (buffer_new fresh (size frame))).1 in
          Ok (Rx (incomming_bytes x) 0 big_buff (rx_state x), None)
        else Ok (x, None)))
  end.

(** [on_read] over any frame handlers. The call of [init_write] before the buffer is returned, which is made after an
    exception too, does not change the state of the handlers; a session schedules its transmission in
    [ClientSession.on_data_read], on the same condition (unless there is no whole header). *)
Definition on_read (b : buffer) (st : St) : outcome (buffer * St) :=
  let bytes := data_span heap addr b in
  if sp_len bytes <? min_size then Ok (b, st)
  else
    '(x, ex) ← read_loop (S (Z.to_nat (sp_len bytes))) (Rx bytes 0 b st);
    let st := match ex with Some e => sink_error (error_of e) (rx_state x) | None => rx_state x end in
    if sp_len (incomming_bytes x) =? 0 then Ok (buffer_new fresh 64, st)
    else if negb (used_bytes x =? 0) then Ok (consume (used_bytes x) (io_buff x), st)
    else Ok (io_buff x, st).

(** The socket writes a chunk into the free part of the buffer; [on_data_read] commits it. *)
Definition on_data_read (chunk : list Z) (b : buffer) (st : St) : outcome (buffer * St) :=
  on_read (commit (Z.of_nat (length chunk)) (write_at (b_offset b) chunk b)).1 st.

Fixpoint read_all (chunks : list (list Z)) (b : buffer) (st : St) : outcome (buffer * St) :=
  match chunks with
  | [] => Ok (b, st)
  | c :: chunks => '(b, st) ← on_data_read c b st; read_all chunks b st
  end.
End on_read.
Arguments rx : clear implicits.

(** What holds between the states before and after every handler holds for reading. *)
Section preserving.
Context {St : Type} {Sink : FrameSink St} (fresh : Z -> Z) (heap : Z -> Z) (addr : Z).
Context (R : St -> St -> Prop) `{!PreOrder R}.
Context (R_data : forall b st, lands (R st) (sink_data b st)) (R_frame : forall s st, lands (R st) (sink_frame s st)).
Context (R_error : forall ec st, R st (sink_error ec st)).

Lemma attempt_preserves {A} (m : outcome A) x k x' e :
  attempt m x k = Ok (x', e) -> (forall a, k a = Ok (x', e) -> R (rx_state x) (rx_state x')) ->
  R (rx_state x) (rx_state x').
Proof. destruct m; simpl; [by eauto|by intros [= <- _]|done|done]. Qed.

Lemma handle_preserves h x y k x' e :
  handle h x k = Ok (x', e) -> lands (R (rx_state y)) h -> rx_state x = rx_state y ->
  (forall st, k (Rx (incomming_bytes x) (used_bytes x) (io_buff x) st) = Ok (x', e) -> R st (rx_state x')) ->
  R (rx_state y) (rx_state x').
Proof.
  intros Hh Hl Hxy Hk. destruct h as [st|ex st|]; simpl in *; [|by injection Hh as <- _|done].
  transitivity st; [done|]. by apply Hk.
Qed.

Lemma read_loop_preserves fuel : forall x x' e,
  read_loop fresh heap addr fuel x = Ok (x', e) -> R (rx_state x) (rx_state x').
Proof.
  induction fuel as [|fuel IH]; intros x x' e Hr; [done|]. cbn [read_loop] in Hr.
  destruct (_ <? min_size); [by injection Hr as <- _|].
  eapply attempt_preserves; [exact Hr|]. clear Hr. intros frame Hr.
  eapply attempt_preserves; [exact Hr|]. clear Hr. intros u Hr. cbn zeta in Hr.
  destruct (is_complete frame).
  - destruct (_ =? frame_type_value DATA).
    + destruct (_ && _).
      * refine (handle_preserves _ _ x _ _ _ Hr (R_data _ _) eq_refl _). intros st [= <- _]. done.
      * refine (handle_preserves _ _ x _ _ _ Hr (R_data _ _) eq_refl _). intros st Hn.
        apply outcome_bind_ok in Hn as (rest & _ & Hn). by apply IH in Hn.
    + refine (handle_preserves _ _ x _ _ _ Hr (R_frame _ _) eq_refl _). intros st Hn.
      apply outcome_bind_ok in Hn as (rest & _ & Hn). by apply IH in Hn.
  - destruct (_ <? size frame); by injection Hr as <- _.
Qed.

Lemma on_read_preserves b st b' st' : on_read fresh heap addr b st = Ok (b', st') -> R st st'.
Proof.
  unfold on_read. destruct (_ <? min_size); [by intros [= _ <-]|]. intros Hr.
  apply outcome_bind_ok in Hr as ([x ex] & Hx & Hr). apply read_loop_preserves in Hx. cbn [rx_state] in Hx.
  assert (R st (match ex with Some e => sink_error (error_of e) (rx_state x) | None => rx_state x end)).
  { destruct ex; [|done]. transitivity (rx_state x); [done|apply R_error]. }
  destruct (_ =? 0); [by injection Hr as _ <-|]. destruct (negb _); by injection Hr as _ <-.
Qed.
End preserving.

(** The buffer a session starts with. *)
Definition input_buffer (fresh : Z -> Z) : buffer := buffer_new fresh 64.

(** ** The frames in a byte sequence *)

(** The size and the type in the header at the front of the bytes. *)
Definition wire_size (w : list Z) : nat := Z.to_nat (HEADER_SIZE + be_combine (take 3 w)).
Definition wire_type (w : list Z) : Z := nth 3 w 0.

(** The complete frames, and the rest. *)
Fixpoint split_frames (fuel : nat) (w : list Z) : list (list Z) * list Z :=
  match fuel with
  | O => ([], w)
  | S fuel =>
      if (length w <? 9)%nat || (length w <? wire_size w)%nat then ([], w)
      else let '(fs, rest) := split_frames fuel (drop (wire_size w) w) in (take (wire_size w) w :: fs, rest)
  end.
Definition frames (w : list Z) : list (list Z) := (split_frames (S (length w)) w).1.
Definition remainder (w : list Z) : list Z := (split_frames (S (length w)) w).2.

(** Every header that has arrived passes [check]. *)
Definition header_ok (limit : Z) (w : list Z) : Prop :=
  (9 <= length w)%nat -> wire_type w <= 9 /\ be_combine (take 3 w) <= limit.

Lemma wire_size_9 w : bytes_ok w -> (9 <= wire_size w)%nat.
Proof.
  intros Hw. pose proof (be_combine_fits (take 3 w) ltac:(by apply Forall_take)) as [H0 _].
  unfold wire_size, HEADER_SIZE. lia.
Qed.

Lemma wire_type_take w n : (4 <= n)%nat -> wire_type (take n w) = wire_type w.
Proof.
  intros Hn. unfold wire_type. destruct (decide (3 < length w)%nat).
  - rewrite <- (take_drop n w) at 2. rewrite app_nth1; [done|]. rewrite length_take. lia.
  - by rewrite take_ge by lia.
Qed.

Definition incomplete (w : list Z) : bool := (length w <? 9)%nat || (length w <? wire_size w)%nat.

Lemma incomplete_false w :
  incomplete w = false -> (9 <= length w)%nat /\ (wire_size w <= length w)%nat.
Proof. unfold incomplete. intros [H1%Nat.ltb_ge H2%Nat.ltb_ge]%orb_false_iff. lia. Qed.

Lemma split_fuel fuel : forall fuel' w,
  bytes_ok w -> (length w < fuel)%nat -> (length w < fuel')%nat -> split_frames fuel w = split_frames fuel' w.
Proof.
  induction fuel as [|fuel IH]; intros [|fuel'] w Hw H1 H2; try lia. cbn [split_frames].
  fold (incomplete w). destruct (incomplete w) eqn:E; [done|].
  apply incomplete_false in E as [H3 H4]. pose proof (wire_size_9 w Hw).
  rewrite (IH fuel' (drop (wire_size w) w)); [done|by apply Forall_drop|rewrite length_drop; lia..].
Qed.

(** The first frame and the others. *)
Lemma frames_step w :
  bytes_ok w ->
  frames w = (if incomplete w then [] else take (wire_size w) w :: frames (drop (wire_size w) w)) /\
  remainder w = (if incomplete w then w else remainder (drop (wire_size w) w)).
Proof.
  intros Hw. unfold frames, remainder. remember (S (length (drop (wire_size w) w))) as n eqn:Hn.
  cbn [split_frames]. fold (incomplete w). destruct (incomplete w) eqn:E; [done|].
  apply incomplete_false in E as [H3 H4]. pose proof (wire_size_9 w Hw). subst n.
  rewrite (split_fuel (length w) (S (length (drop (wire_size w) w)))); [|by apply Forall_drop|rewrite length_drop; lia..].
  by destruct (split_frames _ _) as [fs rest].
Qed.

(** Induction on the number of bytes, frame by frame. *)
Lemma frames_ind (P : list Z -> Prop) :
  (forall w, bytes_ok w -> incomplete w = true -> P w) ->
  (forall w, bytes_ok w -> incomplete w = false -> P (drop (wire_size w) w) -> P w) ->
  forall w, bytes_ok w -> P w.
Proof.
  intros H1 H2. cut (forall n w, (length w <= n)%nat -> bytes_ok w -> P w); [by eauto|].
  induction n as [|n IH]; intros w Hn Hw; destruct (incomplete w) eqn:E; auto;
    pose proof (incomplete_false w E); pose proof (wire_size_9 w Hw); [lia|].
  apply H2; [done..|]. apply IH; [rewrite length_drop; lia|by apply Forall_drop].
Qed.

(** More bytes behind: the frames go on after the rest. *)
Lemma frames_app w c :
  bytes_ok w -> bytes_ok c ->
  frames (w ++ c) = frames w ++ frames (remainder w ++ c) /\
  remainder (w ++ c) = remainder (remainder w ++ c).
Proof.
  intros Hw Hc. revert w Hw. apply (frames_ind (fun w => _)); intros w Hw E.
  - destruct (frames_step w Hw) as [-> ->]. by rewrite E.
  - intros [IH1 IH2]. destruct (frames_step w Hw) as [-> ->]. rewrite E.
    destruct (incomplete_false w E) as [H1 H2].
    assert (Hws : wire_size (w ++ c) = wire_size w) by (unfold wire_size; by rewrite take_app_le by lia).
    assert (Ewc : incomplete (w ++ c) = false).
    { unfold incomplete. rewrite Hws, length_app. apply orb_false_iff. split; apply Nat.ltb_ge; lia. }
    destruct (frames_step (w ++ c)) as [-> ->]; [by apply Forall_app|]. rewrite Ewc, Hws.
    rewrite take_app_le, drop_app_le by lia. rewrite IH1, IH2. done.
Qed.

Lemma frames_concat w : bytes_ok w -> concat (frames w) ++ remainder w = w.
Proof.
  revert w. apply (frames_ind (fun w => _)); intros w Hw E; destruct (frames_step w Hw) as [-> ->]; rewrite E; [done|].
  intros IH. cbn [concat]. by rewrite <- app_assoc, IH, take_drop.
Qed.

(** ** The handlers' contract *)

(** The state simulates an abstract one: a frame that is [good] in the abstract state is handled without
    exception by the handler for its type, and the effect [spec] on the abstract state depends on the bytes of
    the frame only. *)
Class SinkLaws {St} (Sink : FrameSink St) {Obs} (sim : St -> Obs -> Prop) (spec : list Z -> Obs -> Obs)
    (good : list Z -> Obs -> Prop) : Prop := {
  law_data : forall b st o, buffer_ok b -> wire_type (data_view b) = frame_type_value DATA ->
    sim st o -> good (data_view b) o ->
    exists st', sink_data b st = Done st' /\ sim st' (spec (data_view b) o) /\ sink_limit st' = sink_limit st;
  law_frame : forall s st o, span_ok s -> wire_type (sp_bytes s) <> frame_type_value DATA ->
    sim st o -> good (sp_bytes s) o ->
    exists st', sink_frame s st = Done st' /\ sim st' (spec (sp_bytes s) o) /\ sink_limit st' = sink_limit st;
}.

Section reading.
Context {St : Type} {Sink : FrameSink St} {Obs : Type} (sim : St -> Obs -> Prop) (spec : list Z -> Obs -> Obs)
  (good : list Z -> Obs -> Prop) `{!SinkLaws Sink sim spec good}.
Context (fresh : Z -> Z) (Hfresh : forall i, is_byte (fresh i)) (heap : Z -> Z) (Hheap : forall i, is_byte (heap i)).
Context (addr : Z).

(** Each frame is good when its turn comes. *)
Fixpoint all_good (fs : list (list Z)) (o : Obs) : Prop :=
  match fs with
  | [] => True
  | f :: fs => good f o /\ all_good fs (spec f o)
  end.

Definition apply_frames (fs : list (list Z)) (o : Obs) : Obs := foldl (fun o f => spec f o) o fs.

Definition acceptable (limit : Z) (w : list Z) : Prop :=
  Forall (header_ok limit) (frames w) /\ header_ok limit (remainder w).

(** A buffer that can go on receiving after the bytes [w]. *)
Definition rx_ready (w : list Z) (b : buffer) : Prop :=
  buffer_ok b /\ data_view b = w /\ 64 <= max_size b < 2 ^ 63 /\ 0 < prepare_size b.

(** The fields of a span in terms of its bytes. *)
Lemma span_header s :
  span_ok s -> 9 <= sp_len s ->
  payload_size s = be_combine (take 3 (sp_bytes s)) /\ type_field s = wire_type (sp_bytes s) /\
  frame_size s = Z.of_nat (wire_size (sp_bytes s)).
Proof.
  intros Hs Hl. assert (Hp : payload_size s = be_combine (take 3 (sp_bytes s))).
  { unfold payload_size. rewrite sp_slice_bytes by lia. change (Z.to_nat 0) with 0%nat. by rewrite drop_0. }
  split; [done|]. split.
  - unfold type_field, wire_type. symmetry. apply nth_lookup_Some. by rewrite sp_bytes_lookup by lia.
  - unfold frame_size, wire_size. rewrite Hp. pose proof (payload_size_fits s Hs) as [H0 _]. rewrite Hp in H0.
    unfold HEADER_SIZE. lia.
Qed.

(** A frame at the front of a span, whole or not. *)
Lemma analyze s limit :
  span_ok s -> 9 <= sp_len s -> header_ok limit (sp_bytes s) ->
  let n := Z.min (frame_size s) (sp_len s) in
  exists raw, from_buffer s = Ok (FrameAnalyzer raw) /\ check (FrameAnalyzer raw) limit = Ok tt /\
    raw = Span (sp_mem s) (sp_base s) n /\ span_ok raw /\ sp_bytes raw = take (wire_size (sp_bytes s)) (sp_bytes s) /\
    size (FrameAnalyzer raw) = frame_size s /\ type_field raw = wire_type (sp_bytes s) /\
    is_complete (FrameAnalyzer raw) = negb (incomplete (sp_bytes s)).
Proof.
  intros Hs Hl Hok n. destruct (span_header s Hs Hl) as (Hp & Ht & Hf).
  assert (Hlen : length (sp_bytes s) = Z.to_nat (sp_len s)) by apply length_sp_bytes.
  destruct Hok as [Hty Hpl]; [lia|]. pose proof (wire_size_9 (sp_bytes s) ltac:(by apply sp_bytes_ok)) as H9.
  exists (Span (sp_mem s) (sp_base s) n). unfold from_buffer, min_size, HEADER_SIZE.
  rewrite (proj2 (Z.ltb_ge _ _)) by lia. fold n. unfold subspan_count.
  rewrite (proj2 (Z.leb_le 0 _)), (proj2 (Z.leb_le _ (_ - 0))) by lia. cbn [andb mbind outcome_bind].
  rewrite Z.add_0_r. split; [done|].
  change (type_field s) with (type_field (Span (sp_mem s) (sp_base s) n)) in Ht.
  change (payload_size s) with (payload_size (Span (sp_mem s) (sp_base s) n)) in Hp.
  split_and!; [|done|split; [simpl; lia|apply Hs]| |done|done|].
  - unfold check. cbn [fa_buffer]. rewrite Ht, Hp.
    rewrite (proj2 (Z.ltb_ge _ _)) by (simpl; lia). by rewrite (proj2 (Z.ltb_ge _ _)) by lia.
  - rewrite (sp_bytes_take _ _ (sp_len s)) by lia.
    replace (sp_bytes (Span (sp_mem s) (sp_base s) (sp_len s))) with (sp_bytes s) by (by destruct s).
    destruct (Z.le_gt_cases (frame_size s) (sp_len s)).
    + f_equal. lia.
    + by rewrite !take_ge by lia.
  - unfold is_complete. change (size _) with (frame_size s). cbn [fa_buffer sp_len]. unfold incomplete.
    destruct (Z.leb_spec (frame_size s) n); symmetry.
    + apply negb_true_iff, orb_false_iff. split; apply Nat.ltb_ge; lia.
    + apply negb_false_iff, orb_true_iff. right. apply Nat.ltb_lt. lia.
Qed.

(** A copy of a whole span into a new buffer. *)
Lemma copied_ok raw n :
  span_ok raw -> sp_len raw <= n ->
  let b := (commit_span (sp_bytes raw) (buffer_new fresh n)).1 in
  buffer_ok b /\ data_view b = sp_bytes raw /\ max_size b = n.
Proof.
  intros Hr Hn. pose proof (length_sp_bytes raw) as Hl. destruct Hr as [H0 Hm].
  pose proof (buffer_commit_span (sp_bytes raw) (buffer_new fresh n)
    ltac:(apply buffer_new_ok; [done|lia]) ltac:(by apply sp_bytes_ok)) as Hc.
  cbn zeta in Hc. destruct (commit_span _ _) as [b ret]. destruct Hc as (H1 & _ & H2 & H3 & _).
  cbn [fst]. split_and!; [done| |done]. rewrite H2. unfold prepare_size. cbn [buffer_new b_maxsize b_offset].
  rewrite Z.sub_0_r, Z.min_r by lia. rewrite Nat2Z.id, firstn_all. done.
Qed.

(** The buffer [on_read] returns after the loop. *)
Definition kept_buffer (x : rx St) : buffer :=
  if negb (used_bytes x =? 0) then consume (used_bytes x) (io_buff x) else io_buff x.

(** The result of the loop on the bytes [w]. *)
Definition loop_done (w : list Z) (st : St) (o : Obs) (x : rx St) : Prop :=
  sim (rx_state x) (apply_frames (frames w) o) /\ sink_limit (rx_state x) = sink_limit st /\
  if bool_decide (remainder w = []) then sp_len (incomming_bytes x) = 0
  else sp_len (incomming_bytes x) <> 0 /\ rx_ready (remainder w) (kept_buffer x).

Lemma kept_ready b u w :
  buffer_ok b -> 64 <= max_size b < 2 ^ 63 -> 0 <= u -> w = drop (Z.to_nat u) (data_view b) ->
  Z.of_nat (length w) < max_size b -> rx_ready w (if negb (u =? 0) then consume u b else b).
Proof.
  intros Hb Hm Hu -> Hl. unfold rx_ready.
  assert (Hps : forall b', buffer_ok b' -> data_view b' = drop (Z.to_nat u) (data_view b) ->
    max_size b' = max_size b -> 0 < prepare_size b').
  { intros b' Hb' Hd Hmx. pose proof (length_data_view b' Hb') as Hlen. rewrite Hd in Hlen.
    unfold prepare_size, max_size in *. lia. }
  destruct (Z.eqb_spec u 0) as [->|Hne]; cbn [negb].
  - change (Z.to_nat 0) with 0%nat in *. rewrite drop_0 in *. eauto.
  - destruct (buffer_consume u b Hb Hu) as (H1 & H2 & H3). rewrite H3. eauto.
Qed.

(** The loop, from the offset [u] of the buffer on. *)
Definition loop_spec (w : list Z) : Prop := forall fuel b u st o,
  (length w < fuel)%nat -> buffer_ok b -> 64 <= max_size b < 2 ^ 63 -> 0 <= u <= b_offset b ->
  w = drop (Z.to_nat u) (data_view b) -> acceptable (sink_limit st) w -> sim st o -> all_good (frames w) o ->
  exists x, read_loop fresh heap addr fuel
      (Rx (Span (place heap addr (b_memory b)) (addr + u) (b_offset b - u)) u b st) = Ok (x, None) /\
    loop_done w st o x.

(** The bytes the loop looks at. *)
Lemma rx_span b u w :
  buffer_ok b -> 0 <= u <= b_offset b -> w = drop (Z.to_nat u) (data_view b) ->
  let sp := Span (place heap addr (b_memory b)) (addr + u) (b_offset b - u) in
  span_ok sp /\ sp_bytes sp = w /\ Z.of_nat (length w) = b_offset b - u.
Proof.
  intros Hb Hu Hw sp. destruct (data_span_ok heap addr b Hheap Hb) as [_ Hok].
  assert (Hsb : sp_bytes sp = w).
  { unfold sp. rewrite sp_bytes_sub by lia. fold (data_span heap addr b). by rewrite data_span_bytes by done. }
  split_and!; [split; [simpl; lia|done]|done|]. rewrite <- Hsb, length_sp_bytes. simpl. lia.
Qed.

(** No complete frame is left. *)
Lemma loop_incomplete w : bytes_ok w -> incomplete w = true -> loop_spec w.
Proof.
  intros Hw E fuel b u st o Hfuel Hb Hm Hu Hdrop Hacc Hsim _. destruct fuel as [|fuel]; [lia|].
  destruct (frames_step w Hw) as [Hfr Hre]. rewrite E in Hfr, Hre.
  destruct (rx_span b u w Hb Hu Hdrop) as (Hsok & Hsb & Hlen). set (sp := Span _ _ _) in *.
  cbn [read_loop incomming_bytes]. unfold min_size, HEADER_SIZE. change (sp_len sp) with (b_offset b - u).
  unfold loop_done. rewrite Hfr, Hre.
  destruct (Z.ltb_spec (b_offset b - u) 9) as [Hlt|Hge].
  - eexists. split; [reflexivity|]. cbn [rx_state incomming_bytes]. split; [done|]. split; [done|].
    case_bool_decide as Hnil; [rewrite Hnil in Hlen; simpl in *; lia|].
    split; [destruct w; [done|simpl in *; lia]|]. apply (kept_ready b u w); (done || unfold max_size in *; lia).
  - destruct Hacc as [_ Hok]. rewrite Hre, <- Hsb in Hok.
    destruct (analyze sp _ Hsok ltac:(simpl; lia) Hok) as (raw & H1 & H2 & Hraw & H3 & H4 & H5 & H6 & H7).
    rewrite H1. cbn [attempt rx_state]. rewrite H2. cbn [attempt].
    rewrite H7, Hsb, E. cbn [negb io_buff]. rewrite H5.
    destruct (span_header sp Hsok ltac:(simpl; lia)) as (Hp & _ & Hfs). rewrite Hsb in *.
    pose proof (payload_size_fits sp Hsok) as Hpf. unfold frame_size, HEADER_SIZE, fits in *.
    assert (Hws : (length w < wire_size w)%nat).
    { apply orb_true_iff in E as [E%Nat.ltb_lt|E%Nat.ltb_lt]; lia. }
    rewrite length_data_view by done. unfold prepare_size at 1.
    replace (b_offset b + (b_maxsize b - b_offset b)) with (max_size b) by (unfold max_size; lia).
    rewrite bool_decide_eq_false_2 by (intros ->; simpl in *; lia).
    destruct (Z.ltb_spec (max_size b) (9 + payload_size sp)) as [Hbig|Hfit]; eexists; (split; [reflexivity|]);
      cbn [rx_state incomming_bytes]; (split; [done|]); (split; [done|]); (split; [simpl; lia|]).
    + destruct (copied_ok raw (9 + payload_size sp) H3) as (Hc1 & Hc2 & Hc3); [subst raw; simpl; lia|].
      unfold kept_buffer, raw_bytes. cbn [used_bytes io_buff fa_buffer Z.eqb negb]. unfold rx_ready.
      rewrite (take_ge w) in H4 by lia. rewrite H4 in *.
      pose proof (length_data_view _ Hc1) as Hdl. rewrite Hc2 in Hdl.
      split; [done|]. split; [done|]. unfold prepare_size, max_size in *. lia.
    + apply (kept_ready b u w); (done || lia).
Qed.

(** A complete frame: it is handled, and the loop goes on behind it. *)
Lemma loop_complete w :
  bytes_ok w -> incomplete w = false -> loop_spec (drop (wire_size w) w) -> loop_spec w.
Proof.
  intros Hw E IH fuel b u st o Hfuel Hb Hm Hu Hdrop Hacc Hsim Hgood. destruct fuel as [|fuel]; [lia|].
  destruct (frames_step w Hw) as [Hfr Hre]. rewrite E in Hfr, Hre.
  destruct (incomplete_false w E) as [H9 Hws]. pose proof (wire_size_9 w Hw) as Hw9.
  destruct (rx_span b u w Hb Hu Hdrop) as (Hsok & Hsb & Hlen). set (sp := Span _ _ _) in *.
  destruct Hacc as [Hacc1 Hacc2]. rewrite Hfr in Hacc1, Hgood. rewrite Hre in Hacc2.
  apply Forall_cons in Hacc1 as [Hok Hacc1]. destruct Hgood as [Hg Hgood].
  assert (Hhw : header_ok (sink_limit st) w).
  { intros _. destruct Hok as [Ht Hl]; [rewrite length_take; lia|]. rewrite take_take, Nat.min_l in Hl by lia.
    by rewrite wire_type_take in Ht by lia. }
  rewrite <- Hsb in Hhw.
  destruct (analyze sp _ Hsok ltac:(simpl; lia) Hhw) as (raw & H1 & H2 & Hraw & H3 & H4 & H5 & H6 & H7).
  destruct (span_header sp Hsok ltac:(simpl; lia)) as (_ & _ & Hfs). rewrite Hsb in *.
  assert (Hrl : sp_len raw = Z.of_nat (wire_size w)) by (subst raw; simpl; lia).
  cbn [read_loop incomming_bytes]. unfold min_size, HEADER_SIZE. change (sp_len sp) with (b_offset b - u).
  rewrite (proj2 (Z.ltb_ge _ _)) by lia. rewrite H1. cbn [attempt rx_state]. rewrite H2. cbn [attempt].
  rewrite H7, E. cbn [negb io_buff raw_bytes fa_buffer].
  set (f := take (wire_size w) w) in *.
  assert (Hnext : forall st', sim st' (spec f o) -> sink_limit st' = sink_limit st ->
    exists x, (rest ← subspan (sp_len raw) sp; read_loop fresh heap addr fuel (Rx rest (u64 (u + sp_len raw)) b st'))
      = Ok (x, None) /\ loop_done w st o x).
  { intros st' Ho Hlim. unfold subspan. change (sp_len sp) with (b_offset b - u).
    rewrite (proj2 (Z.leb_le _ _)) by lia. cbn [mbind outcome_bind]. change (sp_mem sp) with (place heap addr (b_memory b)).
    change (sp_base sp) with (addr + u). rewrite <- Z.add_assoc, <- Z.sub_add_distr, Hrl.
    unfold u64. rewrite wrap_small by (unfold max_size, fits in *; destruct Hb; lia).
    destruct (IH fuel b (u + Z.of_nat (wire_size w)) st' (spec f o)) as (x & Hx & Hd1 & Hd2 & Hd3); try done.
    - rewrite length_drop. lia.
    - lia.
    - rewrite Hdrop, drop_drop. f_equal. lia.
    - by rewrite Hlim.
    - exists x. split; [done|]. unfold loop_done. rewrite Hfr, Hre, Hd2, Hlim. done. }
  assert (Hft : wire_type f = wire_type w) by (apply wire_type_take; lia).
  rewrite H6. destruct (Z.eqb_spec (wire_type w) (frame_type_value DATA)) as [Ety|Ety]; rewrite <- Hft in Ety.
  - destruct ((sp_base raw =? addr) && (sp_len raw =? Z.of_nat (length (data_view b)))) eqn:Ewhole.
    + apply andb_true_iff in Ewhole as [Eb%Z.eqb_eq El%Z.eqb_eq].
      assert (u = 0) as -> by (subst raw; simpl in Eb; lia). rewrite length_data_view in El by done.
      assert (Hdv : data_view b = f).
      { unfold f. rewrite take_ge by lia. by rewrite Hdrop. }
      destruct (law_data b st o Hb) as (st' & -> & Ho & Hlim); [by rewrite Hdv|done|by rewrite Hdv|]. cbn [handle].
      eexists. split; [reflexivity|]. unfold loop_done. rewrite Hfr, Hre. cbn [rx_state incomming_bytes].
      rewrite (drop_ge w) by lia. rewrite Hdv in Ho. split; [done|]. split; [done|].
      by rewrite bool_decide_eq_true_2.
    + destruct (copied_ok raw (sp_len raw) H3 ltac:(lia)) as (Hc1 & Hc2 & _). rewrite H4 in Hc2.
      destruct (law_data _ st o Hc1) as (st' & -> & Ho & Hlim); [by rewrite H4, Hc2|done|by rewrite H4, Hc2|]. cbn [handle used_bytes io_buff].
      apply (Hnext st'); [|done]. by rewrite H4, Hc2 in Ho.
  - destruct (law_frame raw st o H3) as (st' & -> & Ho & Hlim); [by rewrite H4|done|by rewrite H4|]. cbn [handle used_bytes io_buff].
    apply (Hnext st'); [|done]. by rewrite H4 in Ho.
Qed.

Lemma read_loop_frames w : bytes_ok w -> loop_spec w.
Proof. revert w. apply frames_ind; [apply loop_incomplete|apply loop_complete]. Qed.

(** [on_read] of a buffer that holds the bytes [data_view b]. *)
Lemma on_read_frames b st o :
  buffer_ok b -> 64 <= max_size b < 2 ^ 63 ->
  acceptable (sink_limit st) (data_view b) -> sim st o -> all_good (frames (data_view b)) o ->
  exists b' st', on_read fresh heap addr b st = Ok (b', st') /\ rx_ready (remainder (data_view b)) b' /\
    sim st' (apply_frames (frames (data_view b)) o) /\ sink_limit st' = sink_limit st.
Proof.
  intros Hb Hm Hacc Hsim Hgood. unfold on_read. change (sp_len (data_span heap addr b)) with (b_offset b).
  pose proof (length_data_view b Hb) as Hl. pose proof (data_view_bytes_ok b Hb) as Hbo.
  unfold min_size, HEADER_SIZE. destruct (Z.ltb_spec (b_offset b) 9) as [Hlt|Hge].
  - destruct (frames_step (data_view b) Hbo) as [-> ->].
    assert (incomplete (data_view b) = true) as ->.
    { apply orb_true_iff. left. apply Nat.ltb_lt. lia. }
    exists b, st. split_and!; [done| |done|done]. split_and!; [done|done|lia|lia|].
    unfold prepare_size, max_size in *. lia.
  - destruct (read_loop_frames (data_view b) Hbo (S (Z.to_nat (b_offset b))) b 0 st o)
      as (x & Hx & Ho & Hlim & Hrem); [lia|done|done|lia|done|done|done|done|].
    rewrite Z.add_0_r, Z.sub_0_r in Hx. fold (data_span heap addr b) in Hx. rewrite Hx. cbn [mbind outcome_bind].
    destruct (bool_decide_reflect (remainder (data_view b) = [])) as [Hnil|Hnn].
    + rewrite Hrem, Z.eqb_refl. eexists _, _. split; [reflexivity|]. split_and!; [|done|done].
      rewrite Hnil. split_and!; [apply buffer_new_ok; (done || lia)|done|done|done|done].
    + destruct Hrem as [Hl0 Hready]. rewrite (proj2 (Z.eqb_neq _ 0)) by done. unfold kept_buffer in Hready.
      destruct (negb (used_bytes x =? 0)); by eexists _, _.
Qed.

(** Reading one chunk. *)
Lemma on_data_read_frames w chunk b st o :
  rx_ready w b -> bytes_ok chunk -> Z.of_nat (length chunk) <= prepare_size b ->
  acceptable (sink_limit st) (w ++ chunk) -> sim st o -> all_good (frames (w ++ chunk)) o ->
  exists b' st', on_data_read fresh heap addr chunk b st = Ok (b', st') /\ rx_ready (remainder (w ++ chunk)) b' /\
    sim st' (apply_frames (frames (w ++ chunk)) o) /\ sink_limit st' = sink_limit st.
Proof.
  intros (Hb & <- & Hm & Hp) Hc Hfit Hacc Hsim Hgood. unfold on_data_read.
  pose proof (data_view_append chunk b Hb Hfit) as Hdv.
  set (b' := (commit _ _).1) in *. rewrite <- Hdv in *.
  apply on_read_frames; [|done|done|done|done].
  apply commit_ok; [|lia]. destruct Hb as (H1 & H2 & H3). apply write_at_ok; [done|done|lia|].
  unfold prepare_size in Hfit. lia.
Qed.

(** Each chunk fits the free part of the buffer it is read into. *)
Fixpoint chunks_fit (chunks : list (list Z)) (b : buffer) (st : St) : Prop :=
  match chunks with
  | [] => True
  | c :: chunks =>
      Z.of_nat (length c) <= prepare_size b /\
      match on_data_read fresh heap addr c b st with Ok (b, st) => chunks_fit chunks b st | _ => True end
  end.

Lemma remainder_incomplete w : bytes_ok w -> incomplete (remainder w) = true.
Proof.
  revert w. apply (frames_ind (fun w => incomplete (remainder w) = true)); intros w Hw E;
    destruct (frames_step w Hw) as [_ ->]; rewrite E; auto.
Qed.

Lemma remainder_bytes w : bytes_ok w -> bytes_ok (remainder w).
Proof. intros Hw. rewrite <- (frames_concat w Hw) in Hw. by apply Forall_app in Hw as [_ Hr]. Qed.

Lemma header_ok_prefix limit r x : header_ok limit (r ++ x) -> header_ok limit r.
Proof.
  intros Hh H9. destruct Hh as [Ht Hl]; [rewrite length_app; lia|]. unfold wire_type in *.
  rewrite app_nth1 in Ht by lia. rewrite take_app_le in Hl by lia. done.
Qed.

(** The header of a rest is the header of the frame it becomes. *)
Lemma acceptable_rest limit r x :
  bytes_ok r -> bytes_ok x -> incomplete r = true -> acceptable limit (r ++ x) -> header_ok limit r.
Proof.
  intros Hr Hx E [Hf Hrem] H9. destruct (frames_step (r ++ x)) as [Hfr Hre]; [by apply Forall_app|].
  destruct (incomplete (r ++ x)) eqn:E'.
  - rewrite Hre in Hrem. by apply (header_ok_prefix limit r x).
  - rewrite Hfr in Hf. apply Forall_cons in Hf as [Hf _].
    assert (Hws : wire_size (r ++ x) = wire_size r) by (unfold wire_size; by rewrite take_app_le by lia).
    unfold incomplete in E. apply orb_true_iff in E as [E%Nat.ltb_lt|E%Nat.ltb_lt]; [lia|].
    rewrite Hws, take_app_ge in Hf by lia. apply header_ok_prefix in Hf. by apply Hf.
Qed.

Lemma all_good_app fs gs o : all_good (fs ++ gs) o <-> all_good fs o /\ all_good gs (apply_frames fs o).
Proof.
  revert o. induction fs as [|f fs IH]; intros o; simpl; [tauto|]. rewrite IH. tauto.
Qed.

Lemma read_all_frames chunks : forall w b st o,
  bytes_ok w -> frames w = [] -> remainder w = w -> rx_ready w b ->
  Forall (Forall is_byte) chunks -> chunks_fit chunks b st ->
  acceptable (sink_limit st) (w ++ concat chunks) -> sim st o -> all_good (frames (w ++ concat chunks)) o ->
  exists b' st', read_all fresh heap addr chunks b st = Ok (b', st') /\
    sim st' (apply_frames (frames (w ++ concat chunks)) o) /\
    rx_ready (remainder (w ++ concat chunks)) b'.
Proof.
  induction chunks as [|c chunks IH]; intros w b st o Hw Hfw Hrw Hr Hb Hfit Hacc Hsim Hgood.
  - cbn [concat read_all] in *. rewrite app_nil_r in *. exists b, st. by rewrite Hfw, Hrw.
  - cbn [concat read_all chunks_fit] in *. destruct Hfit as [Hcl Hfit]. rewrite app_assoc in *.
    apply Forall_cons in Hb as [Hcb Hb]. pose proof (proj2 (Forall_concat _ _) Hb) as Hrest.
    assert (Hwc : bytes_ok (w ++ c)) by (by apply Forall_app).
    pose proof (remainder_bytes _ Hwc) as Hrb. pose proof (remainder_incomplete _ Hwc) as Hri.
    destruct (frames_app (w ++ c) (concat chunks) Hwc Hrest) as [Hfa Hra].
    destruct Hacc as [Hacc1 Hacc2]. rewrite Hfa in Hacc1, Hgood |- *. rewrite Hra in Hacc2 |- *.
    apply Forall_app in Hacc1 as [Hacc1 Hacc3]. apply all_good_app in Hgood as [Hgood1 Hgood2].
    assert (Hacc4 : acceptable (sink_limit st) (remainder (w ++ c) ++ concat chunks)) by done.
    destruct (on_data_read_frames w c b st o) as (b1 & st1 & H1 & H2 & H3 & H4); [done|done|done| |done|done|].
    { split; [done|]. by apply (acceptable_rest _ _ (concat chunks)). }
    rewrite H1 in Hfit |- *. cbn [mbind outcome_bind].
    destruct (frames_step _ Hrb) as [Hf2 Hr2]. rewrite Hri in Hf2, Hr2.
    destruct (IH (remainder (w ++ c)) b1 st1 (apply_frames (frames (w ++ c)) o)) as (b' & st' & H5 & H6 & H7); try done.
    { by rewrite H4. }
    exists b', st'. split_and!; [done| |done]. unfold apply_frames in *. by rewrite foldl_app.
Qed.

(** C9: Reading is independent of how the bytes arrive. Whatever the chunks, each fitting the free part of
    the input buffer it is read into, if the headers in the bytes pass the check and the
    handlers accept the frames, then the handlers are called with exactly the complete frames of
    the concatenated chunks, in order, so that the state simulates what these frames do; the buffer holds exactly the bytes of the frame that is
    not complete yet, and always has room for more, so that reading can go on. *)
Theorem read_chunks chunks b st o :
  rx_ready [] b -> Forall (Forall is_byte) chunks -> chunks_fit chunks b st ->
  acceptable (sink_limit st) (concat chunks) -> sim st o -> all_good (frames (concat chunks)) o ->
  exists b' st', read_all fresh heap addr chunks b st = Ok (b', st') /\
    sim st' (apply_frames (frames (concat chunks)) o) /\
    rx_ready (remainder (concat chunks)) b' /\
    concat (frames (concat chunks)) ++ data_view b' = concat chunks.
Proof.
  intros Hr Hb Hfit Hacc Hsim Hgood.
  destruct (read_all_frames chunks [] b st o) as (b' & st' & H1 & H2 & H3); [constructor|done..|].
  exists b', st'. split_and!; [done|done|done|]. destruct H3 as (_ & -> & _).
  by apply frames_concat, Forall_concat.
Qed.
End reading.

(** ** An example: handlers that log the frames *)

Definition log_sink : FrameSink (list (list Z)) := {|
  sink_data b log := Done (log ++ [data_view b]);
  sink_frame s log := Done (log ++ [sp_bytes s]);
  sink_limit _ := 16384;
  sink_error _ log := log;
|}.

Global Instance log_laws :
  SinkLaws log_sink eq (fun f log => log ++ [f]) (fun _ _ => True).
Proof. split; intros; subst; by eexists. Qed.

Lemma read_chunks_witness :
  let bytes := [0; 0; 8; 6; 0; 0; 0; 0; 0; 1; 2; 3; 4; 5; 6; 7; 8; 0; 0; 2; 0; 1; 0; 0; 0; 1; 65; 66; 0; 0; 4] in
  let chunks := [take 5 bytes; take 15 (drop 5 bytes); drop 20 bytes] in
  exists b' st', read_all (Sink := log_sink) (fun _ => 7) (fun _ => 0) 100 chunks (input_buffer (fun _ => 7)) [] = Ok (b', st') /\
    st' = [take 17 bytes; take 11 (drop 17 bytes)] /\ data_view b' = [0; 0; 4].
Proof.
  destruct (read_chunks (Sink := log_sink) eq (fun f log => log ++ [f]) (fun _ _ => True) (fun _ => 7) ltac:(by split)
    (fun _ => 0) ltac:(by split) 100
    [[0; 0; 8; 6; 0]; [0; 0; 0; 0; 1; 2; 3; 4; 5; 6; 7; 8; 0; 0; 2]; [0; 1; 0; 0; 0; 1; 65; 66; 0; 0; 4]]
    (input_buffer (fun _ => 7)) [] []) as (b' & st' & H1 & H2 & (_ & H3 & _) & _).
  - split; [apply buffer_new_ok; [by split|lia]|done].
  - repeat constructor; by vm_compute.
  - vm_compute. repeat split; discriminate.
  - split; [|intros Hl; vm_compute in Hl; lia].
    match goal with |- Forall _ ?l => let l' := eval vm_compute in l in change l with l' end.
    repeat (apply Forall_cons; split; [intros _; vm_compute; split; discriminate|]). constructor.
  - reflexivity.
  - by vm_compute.
  - exists b', st'. split; [exact H1|]. split; [exact H2|exact H3].
Defined.
