(* ===== verification/StreamRegistry.v ===== *)
(** * The stream registry (stream_registry.h, stream_registry.cpp)

    Streams are shared: the map from ids to streams and the queue of streams that have data to
    send hold pointers to the same objects. The objects are the elements of [store], a pointer
    is an index into it, and a null pointer in the queue is [None]. The registry keeps the
    order of [std::map], by the integer the id is stored as. [invoke_for_stream] is the member
    of base_client's PrivateClient through which received frames reach a stream. *)
From stdpp Require Import relations.
From S2P Require Import Prelude Memory Utils Buffer HeaderField Protocol Frame FrameBuilder.
From S2P Require Import Request Response Stream.
From S2P Require Window IndexedDynamicTable Encoder.
Import IndexedDynamicTable (SetSearch).
Import Encoder (encoder).

(** A pointer to a stream. *)
Abbreviation ptr := nat.

Section registry.
Context {SS : SetSearch} {H : Type} (fresh : Z -> Z) (moved_response : response -> response).

Record registry : Type := Registry {
  stream_map : list (Z * ptr);
  queue : list (option ptr);
  store : list (stream H);
}.

Definition empty_registry : registry := Registry [] [] [].

(** Effects of a stream, with its pointer. *)
Definition tagged (p : ptr) (eff : list (effect H)) : list (ptr * effect H) := map (pair p) eff.

(** Dereferencing a pointer. *)
Definition deref (p : ptr) (st : list (stream H)) : outcome (stream H) :=
  match st !! p with Some s => Ok s | None => Undefined end.

(** [std::map]: [find], [emplace] (which keeps an existing entry) and [erase]. *)
Fixpoint map_find (id : Z) (m : list (Z * ptr)) : option ptr :=
  match m with
  | [] => None
  | (k, p) :: m => if k =? id then Some p else map_find id m
  end.
Fixpoint map_emplace (id : Z) (p : ptr) (m : list (Z * ptr)) : list (Z * ptr) :=
  match m with
  | [] => [(id, p)]
  | (k, q) :: m => if id <? k then (id, p) :: (k, q) :: m
                   else if k =? id then (k, q) :: m
                   else (k, q) :: map_emplace id p m
  end.
Definition map_erase (id : Z) (m : list (Z * ptr)) : list (Z * ptr) :=
  List.filter (fun kp => negb (kp.1 =? id)) m.

(** [new stream(...)]. *)
Definition new_stream (s : stream H) (r : registry) : registry * ptr :=
  (Registry (stream_map r) (queue r) (store r ++ [s]), length (store r)).

Definition add_stream (id : Z) (p : ptr) (r : registry) : registry :=
  Registry (map_emplace id p (stream_map r)) (queue r ++ [Some p]) (store r).

Definition get_stream (id : Z) (r : registry) : option ptr := map_find id (stream_map r).

Definition has_data (r : registry) : bool := match queue r with [] => false | _ => true end.

Definition enqueue (p : ptr) (r : registry) : registry :=
  Registry (stream_map r) (queue r ++ [Some p]) (store r).

(** [std::find_if] over the queue: every entry before the one found is dereferenced. *)
Fixpoint find_queue (id : Z) (q : list (option ptr)) (st : list (stream H)) : outcome (option nat) :=
  match q with
  | [] => Ok None
  | None :: _ => Undefined
  | Some p :: q =>
      s ← deref p st;
      if http_id s =? id then Ok (Some 0%nat)
      else i ← find_queue id q st; Ok (option_map S i)
  end.

Definition erase (id : Z) (r : registry) : outcome registry :=
  i ← find_queue id (queue r) (store r);
  let queue := match i with Some i => <[i := None]> (queue r) | None => queue r end in
  Ok (Registry (map_erase id (stream_map r)) queue (store r)).

(** [scheduled_stream]. *)
Fixpoint scheduled (q : list (option ptr)) : option ptr * list (option ptr) :=
  match q with
  | [] => (None, [])
  | Some p :: q => (Some p, q)
  | None :: q => scheduled q
  end.
Definition scheduled_stream (r : registry) : registry * option ptr :=
  let '(p, q) := scheduled (queue r) in (Registry (stream_map r) q (store r), p).

(** The state of the loop of [get_data]. *)
Record turn : Type := Turn {
  tn_store : list (stream H);
  tn_encoder : encoder;
  tn_out : list buffer;
  tn_used : Z;
  tn_effects : list (ptr * effect H);
  tn_next : list (option ptr);
}.

(** One scheduled stream. *)
Definition take_turn (limit : Z) (p : ptr) (t : turn) : outcome turn :=
  s ← deref p (tn_store t);
  if negb (has_tx_data s) then Ok t
  else
    r ← get_tx_data fresh (tn_encoder t) (u64 (limit - tn_used t)) s;
    let '(s, again) := check_tx_data (sent_stream r) in
    Ok (Turn (<[p := s]> (tn_store t)) (sent_encoder r) (tn_out t ++ sent_out r)
          (u64 (tn_used t + sent_used r)) (tn_effects t ++ tagged p (sent_effects r))
          (if again then tn_next t ++ [Some p] else tn_next t)).

(** The loop; [scheduled_stream] skips null entries and ends it on an empty queue. *)
Fixpoint turns (limit : Z) (q : list (option ptr)) (t : turn) : outcome turn :=
  match q with
  | [] => Ok t
  | None :: q => turns limit q t
  | Some p :: q => t ← take_turn limit p t; turns limit q t
  end.

Definition get_data (e : encoder) (limit : Z) (r : registry) :
    outcome (registry * encoder * list buffer * Z * list (ptr * effect H)) :=
  if limit <? 16 then Ok (r, e, [], 0, [])
  else
    t ← turns limit (queue r) (Turn (store r) e [] 0 [] []);
    Ok (Registry (stream_map r) (tn_next t) (tn_store t), tn_encoder t, tn_out t, tn_used t, tn_effects t).

(** [reset]: every stream of the map, in the order of the ids. *)
Fixpoint reset_all (ec : boost_error) (m : list (Z * ptr)) (st : list (stream H)) :
    outcome (list (stream H) * list (ptr * effect H)) :=
  match m with
  | [] => Ok (st, [])
  | (_, p) :: m =>
      s ← deref p st;
      let '(s, eff) := reset moved_response ec s in
      '(st, eff') ← reset_all ec m (<[p := s]> st);
      Ok (st, tagged p eff ++ eff')
  end.
Definition reset_registry (ec : boost_error) (r : registry) : outcome (registry * list (ptr * effect H)) :=
  '(st, eff) ← reset_all ec (stream_map r) (store r);
  Ok (Registry [] [] st, eff).

(** [PrivateClient::invoke_for_stream]: false when there is no such stream. *)
Definition invoke_for_stream (id : Z) (method : stream H -> outcome (stream H * list (effect H))) (r : registry) :
    outcome (registry * bool * list (ptr * effect H)) :=
  match get_stream id r with
  | None => Ok (r, false, [])
  | Some p =>
      s ← deref p (store r);
      '(s, eff) ← method s;
      if is_finished s then
        r ← erase id (Registry (stream_map r) (queue r) (<[p := s]> (store r)));
        Ok (r, true, tagged p eff)
      else
        let '(s, again) := check_tx_data s in
        let r := Registry (stream_map r) (queue r) (<[p := s]> (store r)) in
        Ok (if again then enqueue p r else r, true, tagged p eff)
  end.
End registry.
Arguments registry : clear implicits.

(** ** Scheduling *)

(** The streams in the queue. *)
Definition queued (q : list (option ptr)) : list ptr := omap id q.

Lemma elem_queued p q : p ∈ queued q <-> Some p ∈ q.
Proof.
  unfold queued. rewrite list_elem_of_omap. split.
  - intros (x & Hx & Hp). by destruct x; simplify_eq/=.
  - intros Hp. by exists (Some p).
Qed.

Lemma queued_app q q' : queued (q ++ q') = queued q ++ queued q'.
Proof. apply omap_app. Qed.

(** Nulling an entry removes its stream. *)
Lemma queued_insert_none q i p :
  q !! i = Some (Some p) -> queued q ≡ₚ p :: queued (<[i := None]> q).
Proof.
  intros Hi. rewrite <- (take_drop_middle q i (Some p) Hi) at 1.
  rewrite insert_take_drop by (by eapply lookup_lt_Some). rewrite !queued_app. simpl.
  by rewrite Permutation_middle.
Qed.

Section scheduling.
Context {SS : SetSearch} {H : Type} (fresh : Z -> Z) (heap : Z -> Z) (addr : Z) (moved_response : response -> response).
Implicit Types (s : stream H) (st : list (stream H)) (r : registry H).

(** The registry is consistent: a queued stream is one of the map, is marked as scheduled and
    has data to send, and is queued once; the map leads to the stream with the id; and a
    stream of the map that is marked or has data to send is in the queue. *)
Record rg_inv (m : list (Z * ptr)) (q : list (option ptr)) st : Prop := {
  inv_once : NoDup (queued q);
  inv_queue : forall p, p ∈ queued q ->
    exists s, st !! p = Some s /\ is_scheduled s = true /\ has_tx_data s = true /\ (http_id s, p) ∈ m;
  inv_keys : NoDup m.*1;
  inv_map : forall id p, (id, p) ∈ m -> exists s, st !! p = Some s /\ http_id s = id;
  inv_awake : forall id p s, (id, p) ∈ m -> st !! p = Some s ->
    is_scheduled s || has_tx_data s = true -> p ∈ queued q;
}.

Lemma inv_same_id m q st id p p' : rg_inv m q st -> (id, p) ∈ m -> (id, p') ∈ m -> p = p'.
Proof.
  intros [_ _ Hk _ _] H1 H2. apply list_elem_of_lookup in H1 as [i Hi], H2 as [j Hj].
  assert (i = j) as ->.
  { eapply (NoDup_lookup m.*1); [done| |]; rewrite list_lookup_fmap; [by rewrite Hi|by rewrite Hj]. }
  congruence.
Qed.

Lemma inv_same_ptr m q st id id' p : rg_inv m q st -> (id, p) ∈ m -> (id', p) ∈ m -> id = id'.
Proof.
  intros [_ _ _ Hm _] H1 H2. destruct (Hm _ _ H1) as (s & Hs & <-), (Hm _ _ H2) as (s' & Hs' & <-). congruence.
Qed.

(** A stream changes and is still queued. *)
Lemma inv_change m q st p s s' :
  rg_inv m q st -> st !! p = Some s -> http_id s' = http_id s -> p ∈ queued q ->
  is_scheduled s' = true -> has_tx_data s' = true -> rg_inv m q (<[p := s']> st).
Proof.
  intros Hi Hp Hid Hq Hsch Htx. pose proof (lookup_lt_Some _ _ _ Hp) as Hlt. destruct Hi as [Ho Hque Hk Hm Ha]. split; [done| |done| |].
  - intros p' Hp'. destruct (decide (p' = p)) as [->|Hne].
    + exists s'. rewrite list_lookup_insert_eq by done. destruct (Hque p Hp') as (x & Hx & _ & _ & Hmx).
      rewrite Hp in Hx. injection Hx as <-. by rewrite Hid.
    + rewrite list_lookup_insert_ne by done. by apply Hque.
  - intros id p' Hp'. destruct (decide (p' = p)) as [->|Hne].
    + exists s'. rewrite list_lookup_insert_eq by done. destruct (Hm _ _ Hp') as (x & Hx & <-).
      rewrite Hp in Hx. injection Hx as <-. done.
    + rewrite list_lookup_insert_ne by done. by apply Hm.
  - intros id p' x Hp' Hx Hsx. destruct (decide (p' = p)) as [->|Hne]; [done|].
    rewrite list_lookup_insert_ne in Hx by done. by eapply Ha.
Qed.

(** A stream with nothing to send is not in the queue. *)
Lemma inv_idle m q q' st p s s' :
  rg_inv m q st -> st !! p = Some s -> http_id s' = http_id s ->
  (forall p', p' ∈ queued q' <-> p' ∈ queued q /\ p' <> p) -> NoDup (queued q') ->
  is_scheduled s' = false -> has_tx_data s' = false -> rg_inv m q' (<[p := s']> st).
Proof.
  intros Hi Hp Hid Hq Hnd Hsch Htx. pose proof (lookup_lt_Some _ _ _ Hp) as Hlt. destruct Hi as [Ho Hque Hk Hm Ha]. split; [done| |done| |].
  - intros p' [Hp' Hne]%Hq. rewrite list_lookup_insert_ne by done. by apply Hque.
  - intros id p' Hp'. destruct (decide (p' = p)) as [->|Hne].
    + exists s'. rewrite list_lookup_insert_eq by done. destruct (Hm _ _ Hp') as (x & Hx & <-).
      rewrite Hp in Hx. injection Hx as <-. done.
    + rewrite list_lookup_insert_ne by done. by apply Hm.
  - intros id p' x Hp' Hx Hsx. destruct (decide (p' = p)) as [->|Hne].
    + rewrite list_lookup_insert_eq in Hx by done. injection Hx as <-. by rewrite Hsch, Htx in Hsx.
    + rewrite list_lookup_insert_ne in Hx by done. apply Hq. split; [|done]. by eapply Ha.
Qed.

(** *** A turn to send *)

(** What sending does not change. *)
Definition same_stream s s' : Prop := http_id s' = http_id s /\ is_scheduled s' = is_scheduled s.

Lemma prepare_headers_same e limit s x : prepare_headers fresh e limit s = Ok x -> same_stream s (sent_stream x).
Proof.
  unfold prepare_headers. intros Hr. apply outcome_bind_ok in Hr as ([e' [bufs n]] & _ & Hr).
  destruct (n =? 0); [by injection Hr as <-|].
  apply outcome_bind_ok in Hr as (rq & _ & Hr). cbn zeta in Hr.
  destruct (is_cointinuation _) eqn:Ec; cbv iota beta in Hr;
    repeat match type of Hr with
    | context [match ?y with _ => _ end] => destruct y eqn:?
    end; by injection Hr as <-.
Qed.

Lemma prepare_body_same e limit s x : prepare_body fresh e limit s = Ok x -> same_stream s (sent_stream x).
Proof.
  unfold prepare_body. cbn zeta. destruct (data _ _ _ _) as [frame [pos len]]. intros Hr.
  apply outcome_bind_ok in Hr as ([[[spans blocks] off] frame'] & _ & Hr). by injection Hr as <-.
Qed.

Lemma get_tx_data_same e limit s x :
  get_tx_data fresh e limit s = Ok x -> same_stream (set_scheduled false s) (sent_stream x).
Proof.
  unfold get_tx_data. destruct (bool_decide _); [by intros [= <-]|].
  destruct (_ <=? 16); [by intros [= <-]|]. destruct (Window.update _ _ _) as [w upd].
  set (s1 := set_local_window w _). intros Hr. apply outcome_bind_ok in Hr as ([s2 e2 o2 u2 f2] & H1 & Hr).
  assert (Hc : same_stream s1 s2).
  { destruct (raw_headers (m_request s1)); [by injection H1 as <- <- <- <- <-|].
    apply outcome_bind_ok in H1 as (r1 & Hh & H1). apply prepare_headers_same in Hh.
    by injection H1 as <- <- <- <- <-. }
  apply outcome_bind_ok in Hr as ([s3 e3 o3 u3 f3] & H2 & Hr). injection Hr as <-.
  change (same_stream s1 s3). destruct (_ && _); [|by injection H2 as <- <- <- <- <-].
  apply outcome_bind_ok in H2 as (r2 & Hb & H2). apply prepare_body_same in Hb.
  injection H2 as <- <- <- <- <-. destruct Hc as [Hc1 Hc2], Hb as [Hb1 Hb2]. split; congruence.
Qed.

Lemma take_turn_inv m limit p q t t' :
  rg_inv m (tn_next t ++ Some p :: q) (tn_store t) -> take_turn fresh limit p t = Ok t' ->
  rg_inv m (tn_next t' ++ q) (tn_store t').
Proof.
  intros Hi Ht. unfold take_turn, deref in Ht.
  assert (Hpq : p ∈ queued (tn_next t ++ Some p :: q)) by (apply elem_queued, elem_of_app; right; by left).
  destruct (inv_queue _ _ _ Hi p Hpq) as (s & Hs & Hsch & Htx & _). rewrite Hs in Ht.
  cbn [mbind outcome_bind] in Ht. rewrite Htx in Ht. cbn [negb] in Ht.
  apply outcome_bind_ok in Ht as (x & Hx & Ht). apply get_tx_data_same in Hx as [Hid Hs'].
  cbn [set_scheduled is_scheduled http_id] in Hid, Hs'.
  unfold check_tx_data in Ht. rewrite Hs' in Ht. cbn [negb andb] in Ht.
  destruct (has_tx_data (sent_stream x)) eqn:Ehas; injection Ht as <-; cbn [tn_next tn_store].
  - rewrite <- app_assoc. by apply (inv_change _ _ _ _ s).
  - pose proof (inv_once _ _ _ Hi) as Hnd. rewrite queued_app in Hnd. simpl in Hnd.
    rewrite <- Permutation_middle in Hnd. apply NoDup_cons in Hnd as [Hnp Hnd].
    apply (inv_idle _ _ _ _ _ s _ Hi); try done.
    + intros p'. rewrite !queued_app. simpl. rewrite !elem_of_app, elem_of_cons.
      rewrite elem_of_app in Hnp. split; [|tauto]. intros Hp'. split; [tauto|]. intros ->. tauto.
    + by rewrite queued_app.
Qed.

Lemma turns_inv m limit q : forall t t',
  rg_inv m (tn_next t ++ q) (tn_store t) -> turns fresh limit q t = Ok t' -> rg_inv m (tn_next t') (tn_store t').
Proof.
  induction q as [|[p|] q IH]; intros t t' Hi Ht; cbn [turns] in Ht.
  - injection Ht as <-. by rewrite app_nil_r in Hi.
  - apply outcome_bind_ok in Ht as (t1 & H1 & Ht). eapply IH; [|done]. by eapply take_turn_inv.
  - eapply IH; [|done]. destruct Hi as [Ho Hq Hk Hm Ha].
    rewrite queued_app in *. simpl in *. split; rewrite ?queued_app; done.
Qed.

(** *** A received frame *)

(** The frames that are passed to a stream. *)
Definition frame_method (ev : stream_event) (s : stream H) : outcome (stream H * list (effect H)) :=
  match ev with
  | DataReceived b => on_receive_data heap addr moved_response b s
  | HeadersReceived h flags raw_size => Ok (on_receive_headers moved_response h flags raw_size s)
  | ResetReceived err => Ok (on_receive_reset moved_response err s)
  | WindowUpdateReceived increment => Ok (on_receive_window_update increment s, [])
  | ContinuationReceived h flags raw_size => Ok (on_receive_continuation moved_response h flags raw_size s)
  | _ => Undefined
  end.

(** The number of bytes a frame takes of the stream's window. *)
Definition frame_bytes (ev : stream_event) : Z :=
  match ev with
  | DataReceived b => Z.of_nat (length (data_view b))
  | HeadersReceived _ _ n | ContinuationReceived _ _ n => n
  | _ => 0
  end.

(** The used part of the window stays below 2^32. *)
Definition window_room (ev : stream_event) (s : stream H) : Prop :=
  let w := local_window s in
  0 <= frame_bytes ev /\ fits 32 (Window.w_size w) /\
  u32 (Window.w_max_size w - Window.w_size w) + frame_bytes ev < 2 ^ 32.

Lemma need_update_dec n w :
  0 <= n -> u32 (Window.w_max_size w - Window.w_size w) + n < 2 ^ 32 ->
  Window.need_update w = true -> Window.need_update (Window.dec n w) = true.
Proof.
  unfold Window.need_update, Window.dec, u32, wrap. cbn [Window.w_max_size Window.w_size Window.w_trigger_size].
  intros H0 Hn Hu%Z.leb_le. apply Z.leb_le. etransitivity; [exact Hu|].
  pose proof (Z.mod_pos_bound (Window.w_max_size w - Window.w_size w) (2 ^ 32)) as Hb.
  rewrite (Z.mod_small n) by lia. rewrite Zminus_mod_idemp_r.
  replace (Window.w_max_size w - (Window.w_size w - n)) with (Window.w_max_size w - Window.w_size w + n) by lia.
  rewrite Z.add_mod by lia. rewrite (Z.mod_small n) by lia. rewrite (Z.mod_small (_ + n)) by lia. lia.
Qed.

(** A frame keeps a stream's id and mark, and what it has to send unless it ends it. *)
Definition tame s s' : Prop :=
  same_stream s s' /\ (has_tx_data s = true -> is_finished s' = true \/ has_tx_data s' = true).

Lemma has_tx_data_mono s s' :
  (http_state s = HALF_CLOSED -> http_state s' = HALF_CLOSED) ->
  (Window.need_update (local_window s) = true -> Window.need_update (local_window s') = true) ->
  m_request s' = m_request s -> has_tx_data s = true -> has_tx_data s' = true.
Proof.
  unfold has_tx_data. intros Hst Hw -> Ht.
  destruct (bool_decide_reflect (http_state s = HALF_CLOSED)) as [E|_].
  { by rewrite bool_decide_eq_true_2 by auto. }
  destruct (Window.need_update (local_window s)) eqn:Ew.
  { rewrite Hw by done. by rewrite orb_true_r. }
  simpl in Ht. rewrite <- orb_assoc, Ht. by rewrite !orb_true_r.
Qed.

(** [finished] changes the handler and the response only. *)
Lemma finished_fields ec s s' eff :
  finished moved_response ec s = (s', eff) ->
  http_id s' = http_id s /\ is_scheduled s' = is_scheduled s /\ http_state s' = http_state s /\
  local_window s' = local_window s /\ m_request s' = m_request s.
Proof. unfold finished. destruct (respone_handler s); intros [= <- <-]; done. Qed.

Lemma end_stream_fields flags s s' eff :
  end_stream moved_response flags s = (s', eff) ->
  http_id s' = http_id s /\ is_scheduled s' = is_scheduled s /\
  (http_state s' = http_state s \/ http_state s' = HALF_CLOSED) /\
  local_window s' = local_window s /\ m_request s' = m_request s.
Proof.
  unfold end_stream. destruct (has_flag _ _).
  - destruct (finished _ _ _) as [x eff'] eqn:E. apply finished_fields in E as (H1 & H2 & H3 & H4 & H5).
    intros [= <- <-]. split_and!; try done. by right.
  - intros [= <- <-]. split_and!; try done. by left.
Qed.

(** A stream after its window was used, its response changed and perhaps its state. *)
Lemma tame_used s s' n :
  http_id s' = http_id s -> is_scheduled s' = is_scheduled s ->
  (http_state s' = http_state s \/ http_state s' = HALF_CLOSED) ->
  local_window s' = Window.dec n (local_window s) -> m_request s' = m_request s ->
  0 <= n -> u32 (Window.w_max_size (local_window s) - Window.w_size (local_window s)) + n < 2 ^ 32 -> tame s s'.
Proof.
  intros H1 H2 H3 H4 H5 H0 Hn. split; [done|]. intros Ht. right. revert Ht. apply has_tx_data_mono; [|rewrite H4|done].
  - destruct H3 as [->|]; done.
  - by apply need_update_dec.
Qed.

Lemma frame_method_tame ev s s' eff :
  frame_method ev s = Ok (s', eff) -> window_room ev s -> tame s s'.
Proof.
  intros Hm (H0 & _ & Hroom). destruct ev; cbn [frame_method frame_bytes] in *; try discriminate.
  - unfold on_receive_data in Hm. apply outcome_bind_ok in Hm as (fa & _ & Hm).
    apply outcome_bind_ok in Hm as (s1 & H1 & Hm). injection Hm as Hm. apply end_stream_fields in Hm as (E1 & E2 & E3 & E4 & E5).
    assert (Hs1 : exists x, s1 = set_response x
      (set_local_window (Window.dec (Z.of_nat (length (data_view b))) (local_window s)) s)).
    { destruct (negb _).
      - apply outcome_bind_ok in H1 as (x & _ & H1). injection H1 as <-. by exists x.
      - injection H1 as <-. by exists (m_response s). }
    destruct Hs1 as [x ->]. by apply (tame_used s s' _ E1 E2 E3 E4 E5).
  - injection Hm as Hm. apply end_stream_fields in Hm as (E1 & E2 & E3 & E4 & E5). by apply (tame_used s s' raw_size E1 E2 E3 E4 E5).
  - injection Hm as Hm. apply finished_fields in Hm as (E1 & E2 & E3 & E4 & E5). split; [done|].
    intros _. left. unfold is_finished. by rewrite E3.
  - injection Hm as <- <-. split; [done|]. intros Ht. right. exact Ht.
  - injection Hm as Hm. unfold on_receive_continuation in Hm. destruct (has_flag _ _).
    + apply finished_fields in Hm as (E1 & E2 & E3 & E4 & E5). by apply (tame_used s s' raw_size E1 E2 (or_introl E3) E4 E5).
    + injection Hm as <- <-. apply (tame_used s _ raw_size); try done. by left.
Qed.

(** *** The map *)

Lemma map_find_some id m p : map_find id m = Some p -> (id, p) ∈ m.
Proof.
  induction m as [|[k q] m IH]; simpl; [done|]. destruct (Z.eqb_spec k id) as [->|_].
  - intros [= ->]. by left.
  - intros Hm. right. auto.
Qed.

Lemma map_find_none id m : map_find id m = None -> id ∉ m.*1.
Proof.
  induction m as [|[k q] m IH]; simpl; [intros _; apply not_elem_of_nil|].
  destruct (Z.eqb_spec k id) as [->|Hne]; [done|]. intros Hm. rewrite not_elem_of_cons. auto.
Qed.

Lemma map_emplace_perm id p m : id ∉ m.*1 -> map_emplace id p m ≡ₚ (id, p) :: m.
Proof.
  induction m as [|[k q] m IH]; simpl; [done|]. rewrite not_elem_of_cons. intros [Hk Hm].
  destruct (id <? k); [done|]. destruct (Z.eqb_spec k id) as [->|_]; [done|].
  rewrite IH by done. constructor.
Qed.

Lemma elem_map_emplace id p m kp : kp ∈ map_emplace id p m -> kp = (id, p) \/ kp ∈ m.
Proof.
  induction m as [|[k q] m IH]; cbn [map_emplace]; [intros ->%list_elem_of_singleton; by left|].
  destruct (id <? k); [intros [->|Hk]%elem_of_cons; auto|]. destruct (k =? id); [auto|].
  intros [->|Hk%IH]%elem_of_cons; [right; by left|]. destruct Hk as [->|Hk]; [by left|right; by right].
Qed.

Lemma map_find_emplace id p m : map_find id m = None -> map_find id (map_emplace id p m) = Some p.
Proof.
  induction m as [|[k q] m IH]; simpl; [by rewrite Z.eqb_refl|].
  destruct (Z.eqb_spec k id) as [->|Hne]; [done|]. intros Hm.
  destruct (id <? k); simpl; [by rewrite Z.eqb_refl|]. rewrite (proj2 (Z.eqb_neq k id)) by done. auto.
Qed.

Lemma map_find_emplace_ne id id' p m : id' <> id -> map_find id' (map_emplace id p m) = map_find id' m.
Proof.
  intros Hne. induction m as [|[k q] m IH]; simpl; [by rewrite (proj2 (Z.eqb_neq id id')) by done|].
  destruct (id <? k); simpl; [by rewrite (proj2 (Z.eqb_neq id id')) by done|].
  destruct (k =? id); simpl; [done|]. by rewrite IH.
Qed.

Lemma elem_map_erase id m k p : (k, p) ∈ map_erase id m <-> (k, p) ∈ m /\ k <> id.
Proof.
  unfold map_erase. rewrite list_elem_of_In, filter_In, <- list_elem_of_In. simpl.
  rewrite negb_true_iff, Z.eqb_neq. done.
Qed.

Lemma map_erase_keys id m : NoDup m.*1 -> NoDup (map_erase id m).*1.
Proof.
  induction m as [|[k p] m IH]; simpl; [done|]. intros [Hk Hm]%NoDup_cons.
  destruct (negb (k =? id)); [|auto]. simpl. apply NoDup_cons. split; [|auto].
  intros (x & Hx1 & Hx2)%list_elem_of_fmap. apply Hk. apply list_elem_of_fmap. exists x. split; [done|].
  destruct x as [k' p']. by apply elem_map_erase in Hx2 as [Hx2 _].
Qed.

Lemma find_queue_spec id q st i :
  find_queue id q st = Ok i ->
  match i with
  | Some i => exists p s, q !! i = Some (Some p) /\ st !! p = Some s /\ http_id s = id
  | None => forall p s, p ∈ queued q -> st !! p = Some s -> http_id s <> id
  end.
Proof.
  revert i. induction q as [|[p|] q IH]; intros i; cbn [find_queue]; [| |done].
  - intros [= <-] p s Hp. by apply not_elem_of_nil in Hp.
  - unfold deref. destruct (st !! p) as [s|] eqn:Hs; [|done]. cbn [mbind outcome_bind].
    destruct (Z.eqb_spec (http_id s) id) as [Hid|Hne].
    + intros [= <-]. by exists p, s.
    + intros Hi. apply outcome_bind_ok in Hi as (j & Hj & [= <-]). specialize (IH _ Hj). destruct j as [j|]; [exact IH|].
      simpl. intros p' s' Hp' Hs'. simpl in Hp'. apply elem_of_cons in Hp' as [->|Hp']; [congruence|by eapply IH].
Qed.

(** *** Ending a stream *)

Lemma erase_inv m q st id p s s1 r' :
  rg_inv m q st -> (id, p) ∈ m -> st !! p = Some s -> http_id s1 = http_id s ->
  erase id (Registry m q (<[p := s1]> st)) = Ok r' -> rg_inv (stream_map r') (queue r') (store r').
Proof.
  intros Hi Hp Hs Hid He. pose proof (lookup_lt_Some _ _ _ Hs) as Hlt. unfold erase in He. cbn [queue store stream_map] in He.
  apply outcome_bind_ok in He as (i & Hf & [= <-]). cbn [queue store stream_map].
  set (q' := match i with Some i => <[i := None]> q | None => q end).
  assert (Hids : forall p' s', <[p := s1]> st !! p' = Some s' -> exists s0, st !! p' = Some s0 /\ http_id s0 = http_id s').
  { intros p' s' Hs'. destruct (decide (p' = p)) as [->|Hne].
    - rewrite list_lookup_insert_eq in Hs' by done. injection Hs' as <-. by exists s.
    - rewrite list_lookup_insert_ne in Hs' by done. by exists s'. }
  assert (Hq' : (forall p', p' ∈ queued q' <-> p' ∈ queued q /\ p' <> p) /\ NoDup (queued q')).
  { pose proof (inv_once _ _ _ Hi) as Hnd. apply find_queue_spec in Hf. unfold q'. destruct i as [i|].
    - destruct Hf as (p' & s' & Hqi & Hs' & Hid'). destruct (Hids _ _ Hs') as (s0 & Hs0 & Hid0).
      assert (p' = p) as ->.
      { destruct (inv_queue _ _ _ Hi p') as (s2 & Hs2 & _ & _ & Hm2);
          [by apply elem_queued, list_elem_of_lookup; exists i|].
        eapply inv_same_id; [done| |done]. rewrite Hs0 in Hs2. injection Hs2 as <-. by rewrite Hid0, Hid' in Hm2. }
      pose proof (queued_insert_none _ _ _ Hqi) as Hperm. rewrite Hperm in Hnd. apply NoDup_cons in Hnd as [Hn Hnd].
      split; [|done]. intros p'. rewrite Hperm, elem_of_cons. split; [|tauto].
      intros Hp'. split; [by right|]. by intros ->.
    - split; [|done]. intros p'. split; [|tauto]. intros Hp'. split; [done|]. intros ->.
      destruct (inv_map _ _ _ Hi _ _ Hp) as (s0 & Hs0 & Hid0). rewrite Hs in Hs0. injection Hs0 as <-.
      apply (Hf p s1 Hp'); [by apply list_lookup_insert_eq|by rewrite Hid]. }
  destruct Hq' as [Hq' Hnd'].
  assert (Hother : forall k p', (k, p') ∈ map_erase id m -> (k, p') ∈ m /\ p' <> p).
  { intros k p' [Hm Hk]%elem_map_erase. split; [done|]. intros ->. apply Hk. by eapply inv_same_ptr. }
  split; [done| |apply map_erase_keys, Hi| |].
  - intros p' [Hp' Hne]%Hq'. rewrite list_lookup_insert_ne by done.
    destruct (inv_queue _ _ _ Hi p' Hp') as (s' & H1 & H2 & H3 & H4). exists s'. split_and!; try done.
    apply elem_map_erase. split; [done|]. intros Heq. apply Hne. rewrite Heq in H4. by eapply inv_same_id.
  - intros k p' [Hm Hne]%Hother. rewrite list_lookup_insert_ne by done. by apply (inv_map _ _ _ Hi).
  - intros k p' s' [Hm Hne]%Hother Hs' Ha. rewrite list_lookup_insert_ne in Hs' by done.
    apply Hq'. split; [|done]. by eapply (inv_awake _ _ _ Hi).
Qed.

(** *** The operations *)

Lemma inv_enqueue m q st id p s s' :
  rg_inv m q st -> (id, p) ∈ m -> st !! p = Some s -> http_id s' = http_id s -> p ∉ queued q ->
  is_scheduled s' = true -> has_tx_data s' = true -> rg_inv m (q ++ [Some p]) (<[p := s']> st).
Proof.
  intros Hi Hp Hs Hid Hnq Hsch Htx. pose proof (lookup_lt_Some _ _ _ Hs) as Hlt.
  destruct (inv_map _ _ _ Hi _ _ Hp) as (s0 & Hs0 & Hid0). rewrite Hs in Hs0. injection Hs0 as <-.
  destruct Hi as [Ho Hque Hk Hm Ha].
  assert (Hqa : forall p', p' ∈ queued (q ++ [Some p]) <-> p' ∈ queued q \/ p' = p).
  { intros p'. rewrite queued_app, elem_of_app. simpl. by rewrite list_elem_of_singleton. }
  split; [| |done| |].
  - rewrite queued_app. apply NoDup_app. split_and!; [done| |apply NoDup_singleton].
    intros x Hx Hx'. simpl in Hx'. apply list_elem_of_singleton in Hx' as ->. done.
  - intros p' [Hp'| ->]%Hqa.
    + assert (p' <> p) by (by intros ->). rewrite list_lookup_insert_ne by done. by apply Hque.
    + exists s'. rewrite list_lookup_insert_eq by done. rewrite Hid, Hid0. done.
  - intros id' p' Hp'. destruct (decide (p' = p)) as [->|Hne].
    + exists s'. rewrite list_lookup_insert_eq by done. destruct (Hm _ _ Hp') as (x & Hx & <-).
      rewrite Hs in Hx. injection Hx as <-. done.
    + rewrite list_lookup_insert_ne by done. by apply Hm.
  - intros id' p' x Hp' Hx Hsx. apply Hqa. destruct (decide (p' = p)) as [->|Hne]; [by right|].
    rewrite list_lookup_insert_ne in Hx by done. left. by eapply Ha.
Qed.

(** A new stream. *)
Lemma add_stream_inv r id s :
  rg_inv (stream_map r) (queue r) (store r) -> map_find id (stream_map r) = None ->
  http_id s = id -> is_scheduled s = true -> has_tx_data s = true ->
  let '(r1, p) := new_stream s r in
  let r' := add_stream id p r1 in rg_inv (stream_map r') (queue r') (store r').
Proof.
  intros Hi Hf%map_find_none Hid Hsch Htx. cbn [new_stream add_stream stream_map queue store].
  set (p := length (store r)). set (st := store r ++ [s]).
  assert (Hold : forall p' s', store r !! p' = Some s' -> st !! p' = Some s' /\ p' <> p).
  { intros p' s' Hs'. pose proof (lookup_lt_Some _ _ _ Hs'). split; [by apply lookup_app_l_Some|unfold p; lia]. }
  assert (Hnew : st !! p = Some s) by (by apply list_lookup_middle).
  assert (Hm' : forall k p', (k, p') ∈ map_emplace id p (stream_map r) <-> (k, p') = (id, p) \/ (k, p') ∈ stream_map r)
    by (intros k p'; by rewrite map_emplace_perm, elem_of_cons).
  destruct Hi as [Ho Hque Hk Hm Ha].
  assert (Hqa : forall p', p' ∈ queued (queue r ++ [Some p]) <-> p' ∈ queued (queue r) \/ p' = p).
  { intros p'. rewrite queued_app, elem_of_app. simpl. by rewrite list_elem_of_singleton. }
  split.
  - rewrite queued_app. apply NoDup_app. split_and!; [done| |apply NoDup_singleton].
    intros x Hx Hx'. simpl in Hx'. apply list_elem_of_singleton in Hx' as ->.
    destruct (Hque _ Hx) as (s' & Hs' & _). by destruct (Hold _ _ Hs').
  - intros p' [Hp'| ->]%Hqa.
    + destruct (Hque _ Hp') as (s' & Hs' & H2 & H3 & H4). exists s'. destruct (Hold _ _ Hs').
      split_and!; try done. apply Hm'. by right.
    + exists s. split_and!; try done. apply Hm'. left. by rewrite Hid.
  - rewrite map_emplace_perm by done. simpl. by apply NoDup_cons.
  - intros k p' [[= -> ->]|Hp']%Hm'; [by exists s|].
    destruct (Hm _ _ Hp') as (s' & Hs' & <-). exists s'. by destruct (Hold _ _ Hs').
  - intros k p' s' [[= -> ->]|Hp']%Hm' Hs' Hx; apply Hqa; [by right|]. left.
    destruct (Hm _ _ Hp') as (s0 & Hs0 & _). destruct (Hold _ _ Hs0) as [Hs0' _]. rewrite Hs0' in Hs'.
    injection Hs' as <-. by eapply Ha.
Qed.

Lemma invoke_inv r id ev r' b eff :
  rg_inv (stream_map r) (queue r) (store r) ->
  (forall p s, get_stream id r = Some p -> store r !! p = Some s -> window_room ev s) ->
  invoke_for_stream id (frame_method ev) r = Ok (r', b, eff) -> rg_inv (stream_map r') (queue r') (store r').
Proof.
  intros Hi Hroom Hv. unfold invoke_for_stream in Hv. destruct (get_stream id r) as [p|] eqn:Hg; [|by injection Hv as <- _ _].
  pose proof (map_find_some _ _ _ Hg) as Hp. unfold deref in Hv.
  destruct (store r !! p) as [s|] eqn:Hs; [|done]. cbn [mbind outcome_bind] in Hv.
  apply outcome_bind_ok in Hv as ([s1 eff1] & Hm & Hv).
  destruct (frame_method_tame _ _ _ _ Hm (Hroom p s eq_refl Hs)) as [[Hid Hsch] Htx].
  assert (Hq : is_scheduled s = true -> p ∈ queued (queue r) /\ has_tx_data s = true).
  { intros E. assert (Hp' : p ∈ queued (queue r)) by (eapply (inv_awake _ _ _ Hi); [done|done|by rewrite E]).
    split; [done|]. destruct (inv_queue _ _ _ Hi p Hp') as (s' & Hs' & _ & H3 & _). congruence. }
  assert (Hnq : is_scheduled s = false -> p ∉ queued (queue r)).
  { intros E Hp'. destruct (inv_queue _ _ _ Hi p Hp') as (s' & Hs' & H2 & _). congruence. }
  destruct (is_finished s1) eqn:Hfin.
  - apply outcome_bind_ok in Hv as (r1 & He & [= <- _ _]). by eapply erase_inv.
  - unfold check_tx_data in Hv. rewrite Hsch in Hv. destruct (is_scheduled s) eqn:Esch; cbn [negb andb] in Hv.
    + injection Hv as <- _ _. cbn [stream_map queue store]. destruct (Hq eq_refl) as [Hp' Hx].
      apply (inv_change _ _ _ _ s); try done. by destruct (Htx Hx).
    + destruct (has_tx_data s1) eqn:Etx; injection Hv as <- _ _; cbn [enqueue stream_map queue store].
      * apply (inv_enqueue _ _ _ id _ s); try done. by apply Hnq.
      * apply (inv_idle _ (queue r) _ _ _ s); try done; [|apply Hi]. intros p'. split; [|tauto].
        intros Hp'. split; [done|]. intros ->. by apply Hnq.
Qed.

(** A change of a stream that concerns neither its id nor its scheduling. *)
Lemma inv_poke m q st p s s' :
  rg_inv m q st -> st !! p = Some s -> same_stream s s' -> has_tx_data s' = has_tx_data s ->
  rg_inv m q (<[p := s']> st).
Proof.
  intros Hi Hp [Hid Hsch] Htx. pose proof (lookup_lt_Some _ _ _ Hp) as Hlt. destruct Hi as [Ho Hque Hk Hm Ha].
  assert (Hl : forall p' x', <[p := s']> st !! p' = Some x' -> exists x, st !! p' = Some x /\ http_id x' = http_id x /\
    is_scheduled x' = is_scheduled x /\ has_tx_data x' = has_tx_data x).
  { intros p' x' Hx'. destruct (decide (p' = p)) as [->|Hne].
    - rewrite list_lookup_insert_eq in Hx' by done. injection Hx' as <-. by exists s.
    - rewrite list_lookup_insert_ne in Hx' by done. by exists x'. }
  assert (Hr : forall p' x, st !! p' = Some x -> exists x', <[p := s']> st !! p' = Some x' /\ http_id x' = http_id x /\
    is_scheduled x' = is_scheduled x /\ has_tx_data x' = has_tx_data x).
  { intros p' x Hx. destruct (decide (p' = p)) as [->|Hne].
    - exists s'. rewrite list_lookup_insert_eq by done. rewrite Hp in Hx. by injection Hx as <-.
    - exists x. by rewrite list_lookup_insert_ne. }
  split; [done| |done| |].
  - intros p' Hp'. destruct (Hque p' Hp') as (x & Hx & H2 & H3 & H4). destruct (Hr _ _ Hx) as (x' & Hx' & E1 & E2 & E3).
    exists x'. by rewrite E1, E2, E3.
  - intros id p' Hp'. destruct (Hm _ _ Hp') as (x & Hx & <-). destruct (Hr _ _ Hx) as (x' & Hx' & E1 & _). eauto.
  - intros id p' x' Hp' Hx' Hs. destruct (Hl _ _ Hx') as (x & Hx & _ & E2 & E3). rewrite E2, E3 in Hs. by eapply Ha.
Qed.

Lemma get_data_inv r e limit r' e' out used eff :
  rg_inv (stream_map r) (queue r) (store r) -> get_data fresh e limit r = Ok (r', e', out, used, eff) ->
  rg_inv (stream_map r') (queue r') (store r').
Proof.
  intros Hi Hg. unfold get_data in Hg. destruct (limit <? 16); [by injection Hg as <- _ _ _ _|].
  apply outcome_bind_ok in Hg as (t & Ht & [= <- _ _ _ _]). cbn [stream_map queue store].
  by refine (turns_inv _ _ _ _ _ _ Ht).
Qed.

(** The life of a registry: new requests (every request has header fields), received frames that
    do not use up 2^32 bytes of a window, turns to send, timers of streams, and the
    end of the connection. *)
Inductive reg_step : registry H -> registry H -> Prop :=
| StepSend r id remote_size local_size rq h r1 p :
    map_find id (stream_map r) = None -> header_list rq <> [] ->
    new_stream (make_stream id remote_size local_size rq h) r = (r1, p) -> reg_step r (add_stream id p r1)
| StepFrame r id ev r' b eff :
    (forall p s, get_stream id r = Some p -> store r !! p = Some s -> window_room ev s) ->
    invoke_for_stream id (frame_method ev) r = Ok (r', b, eff) -> reg_step r r'
| StepGetData r e limit r' e' out used eff :
    get_data fresh e limit r = Ok (r', e', out, used, eff) -> reg_step r r'
| StepTimer r p s ec s' eff :
    store r !! p = Some s -> on_timer moved_response ec s = (s', eff) ->
    reg_step r (Registry (stream_map r) (queue r) (<[p := s']> (store r)))
| StepReset r ec r' eff :
    reset_registry moved_response ec r = Ok (r', eff) -> reg_step r r'.

Lemma empty_inv : rg_inv [] [] (@nil (stream H)).
Proof. split; simpl; try constructor; intros; by (exfalso; eapply not_elem_of_nil). Qed.

Lemma reg_step_inv r r' :
  rg_inv (stream_map r) (queue r) (store r) -> reg_step r r' -> rg_inv (stream_map r') (queue r') (store r').
Proof.
  intros Hi Hstep.
  destruct Hstep as [r id rs ls rq h r1 p Hf Hrq Hn|r id ev r' b eff Hroom Hv|r e limit r' e' out used eff Hg
    |r p s ec s' eff Hs Ht|r ec r' eff Hr].
  - pose proof (add_stream_inv r id (make_stream id rs ls rq h) Hi Hf eq_refl eq_refl) as Ha. rewrite Hn in Ha.
    apply Ha. unfold has_tx_data. cbn [make_stream m_request]. rewrite (bool_decide_eq_false_2 (header_list rq = [])) by done.
    simpl. by rewrite !orb_true_r.
  - by eapply invoke_inv.
  - by eapply get_data_inv.
  - cbn [stream_map queue store]. unfold on_timer in Ht. destruct (decide _).
    + injection Ht as <- _. by rewrite list_insert_id.
    + apply finished_fields in Ht as (E1 & E2 & E3 & E4 & E5). eapply inv_poke; [done|done|done|].
      unfold has_tx_data. by rewrite E3, E4, E5.
  - unfold reset_registry in Hr. apply outcome_bind_ok in Hr as ([st eff'] & _ & [= <- _]). cbn [stream_map queue store].
    split; simpl; try constructor; intros; by (exfalso; eapply not_elem_of_nil).
Qed.

(** No stream is forgotten and none is scheduled twice: in every reachable state of the registry, a stream
    of the map that has something to send is in the queue, every queued stream has something to
    send, and it is queued exactly once; and an id leads to the stream with this id. *)
Theorem registry_scheduling r :
  rtc reg_step empty_registry r ->
  NoDup (queued (queue r)) /\
  (forall id p, get_stream id r = Some p -> exists s, store r !! p = Some s /\ http_id s = id /\
    (has_tx_data s = true <-> Some p ∈ queue r)).
Proof.
  intros Hr. assert (Hi : rg_inv (stream_map r) (queue r) (store r)).
  { cut (forall r0, rg_inv (stream_map r0) (queue r0) (store r0) -> rtc reg_step r0 r ->
      rg_inv (stream_map r) (queue r) (store r)).
    { intros Hc. apply (Hc empty_registry); [|done]. apply empty_inv. }
    clear Hr. intros r0 Hi Hr. induction Hr as [|r1 r2 r3 H12 _ IH]; [done|]. apply IH. by eapply reg_step_inv. }
  split; [apply Hi|]. intros id p Hg%map_find_some. destruct (inv_map _ _ _ Hi _ _ Hg) as (s & Hs & Hid).
  exists s. split_and!; [done|done|]. rewrite <- elem_queued. split.
  - intros Htx. eapply (inv_awake _ _ _ Hi); [done|done|]. by rewrite Htx, orb_true_r.
  - intros Hq. destruct (inv_queue _ _ _ Hi _ Hq) as (s' & Hs' & _ & Htx & _). congruence.
Qed.

(** ** Resetting all streams *)

(** The calls for a stream that is reset: its handler, if it has not been called yet, with what has been received. *)
Definition reset_calls (ec : boost_error) (st : list (stream H)) (p : ptr) : list (ptr * effect H) :=
  match st !! p with
  | Some s =>
      tagged p (CancelTimer :: match respone_handler s with Some h => [Invoke h ec (m_response s)] | None => [] end)
  | None => []
  end.

Lemma reset_all_spec ec m : forall st,
  NoDup m.*2 -> (forall p, p ∈ m.*2 -> exists s, st !! p = Some s) ->
  exists st', reset_all moved_response ec m st = Ok (st', m ≫= (fun kp => reset_calls ec st kp.2)) /\
    (forall p, p ∉ m.*2 -> st' !! p = st !! p) /\
    (forall p, p ∈ m.*2 -> exists s, st' !! p = Some s /\ http_state s = CLOSED /\ respone_handler s = None).
Proof.
  induction m as [|[id p] m IH]; intros st Hn Hm.
  { exists st. split; [done|]. split; [done|]. intros p Hp. by apply not_elem_of_nil in Hp. }
  apply NoDup_cons in Hn as [Hp Hn]. cbn [fst snd] in Hp. destruct (Hm p) as [s Hs]; [by left|].
  destruct (reset moved_response ec s) as [s1 eff] eqn:Er.
  assert (E : eff = CancelTimer :: match respone_handler s with Some h => [Invoke h ec (m_response s)] | None => [] end /\
    http_state s1 = CLOSED /\ respone_handler s1 = None).
  { unfold reset, finished in Er. cbn [set_state respone_handler m_response] in Er.
    destruct (respone_handler s) eqn:Eh; injection Er as <- <-; done. }
  destruct E as (Ee & E1 & E2). pose proof (lookup_lt_Some _ _ _ Hs) as Hl.
  destruct (IH (<[p := s1]> st)) as (st' & H1 & H2 & H3); [done| |].
  { intros q Hq. rewrite list_lookup_insert_ne by (intros <-; done). apply Hm. by right. }
  exists st'. split; [|split].
  - cbn [reset_all]. unfold deref at 1. rewrite Hs. cbn [mbind outcome_bind]. rewrite Er, H1. cbn [mbind outcome_bind].
    rewrite bind_cons. unfold reset_calls at 2. cbn [snd]. rewrite Hs, <- Ee. do 3 f_equal.
    clear -Hp. induction m as [|[k q] m IHm]; [done|]. apply not_elem_of_cons in Hp as [Hq Hp].
    rewrite !bind_cons, (IHm Hp). f_equal. unfold reset_calls. cbn [snd fst] in *. by rewrite list_lookup_insert_ne.
  - intros q Hq. apply not_elem_of_cons in Hq as [Hq1 Hq2]. rewrite H2 by done. by apply list_lookup_insert_ne.
  - intros q [->|Hq]%elem_of_cons; [|by apply H3]. exists s1. cbn [snd]. rewrite H2 by done. by rewrite list_lookup_insert_eq.
Qed.

Lemma inv_pointers m q st : rg_inv m q st -> NoDup m.*2.
Proof.
  intros Hi. apply NoDup_fmap_2_strong.
  - intros [k p] [k' p'] H1 H2 E. cbn in E. subst p'. by rewrite (inv_same_ptr _ _ _ _ _ _ Hi H1 H2).
  - eapply NoDup_fmap_1, (inv_keys _ _ _ Hi).
Qed.

(** When the registry is reset, the request of every stream is completed with the error, in the order of the
    identifiers, and the streams are closed. *)
Lemma reset_registry_spec ec r :
  rg_inv (stream_map r) (queue r) (store r) ->
  exists r', reset_registry moved_response ec r = Ok (r', stream_map r ≫= (fun kp => reset_calls ec (store r) kp.2)) /\
    stream_map r' = [] /\ queue r' = [] /\
    (forall id p, get_stream id r = Some p ->
      exists s, store r' !! p = Some s /\ http_state s = CLOSED /\ respone_handler s = None).
Proof.
  intros Hi. destruct (reset_all_spec ec (stream_map r) (store r)) as (st & H1 & _ & H2).
  - by eapply inv_pointers.
  - intros p ([id q] & -> & Hp)%list_elem_of_fmap. destruct (inv_map _ _ _ Hi _ _ Hp) as (s & Hs & _). by exists s.
  - unfold reset_registry. rewrite H1. eexists. split; [done|]. split; [done|]. split; [done|].
    intros id p Hp%map_find_some. apply H2. by apply (list_elem_of_fmap_2 snd _ (id, p)).
Qed.

(** Erasing is not safe: [erase] dereferences every queue entry in front of the stream it looks for, and
    leaves a null entry behind. If a null entry precedes all entries of the id, or there is
    none, erasing dereferences a null pointer; so ending two queued streams one after
    the other can end the program. *)
Theorem registry_erase_null id r q q' :
  queue r = q ++ None :: q' ->
  (forall p, Some p ∈ q -> exists s, store r !! p = Some s /\ http_id s <> id) -> None ∉ q ->
  erase id r = Undefined.
Proof.
  intros Hq Hother Hnn. unfold erase. rewrite Hq. clear Hq. induction q as [|[p|] q IH]; simpl.
  - done.
  - destruct (Hother p) as (s & Hs & Hid); [by left|]. unfold deref. rewrite Hs. cbn [mbind outcome_bind].
    rewrite (proj2 (Z.eqb_neq _ _)) by done.
    assert (IH' := IH (fun p' Hp' => Hother p' ltac:(by right)) ltac:(intros Hn; apply Hnn; by right)).
    destruct (find_queue id (q ++ None :: q') (store r)); simpl in *; congruence.
  - destruct Hnn. by left.
Qed.
End scheduling.

(** ** Examples *)

(** Two requests that are queued; the first one is erased. *)
Definition two_streams : registry nat :=
  let s := set_scheduled true (example_stream 65535 1 0 [string_block [65]]) in
  let s2 := Stream (native_to_big 3) true 65535 (Window.make_window 65535 16383) OPEN false 0
    (Request [] [string_block [66]] [[66]] 1 30000) empty_response (Some 2%nat) in
  Registry [(native_to_big 1, 0%nat); (native_to_big 3, 1%nat)] [Some 0%nat; Some 1%nat] [s; s2].
Definition first_erased : registry nat :=
  match erase (native_to_big 1) two_streams with Ok r => r | _ => empty_registry end.

Lemma registry_erase_null_witness :
  stream_map first_erased = [(native_to_big 3, 1%nat)] /\ erase (native_to_big 3) first_erased = Undefined.
Proof.
  split; [reflexivity|].
  apply (registry_erase_null (native_to_big 3) first_erased [] [Some 1%nat]); [done| |].
  - intros p Hp. by apply not_elem_of_nil in Hp.
  - apply not_elem_of_nil.
Defined.

Lemma registry_scheduling_witness :
  exists r, rtc (reg_step (SS := IndexedDynamicTable.linear_search) (H := nat) (fun _ => 7) (fun _ => 0) 0 (fun x => x))
      empty_registry r /\ queue r = [Some 0%nat] /\ NoDup (queued (queue r)).
Proof.
  pose (rq := Request [HeaderField (str ":method") (str "GET") DEFAULT] [] [] 0 30000).
  pose (r := add_stream 16777216 0 (new_stream (make_stream 16777216 65535 65535 rq 1%nat) empty_registry).1).
  assert (Hr : rtc (reg_step (SS := IndexedDynamicTable.linear_search) (H := nat) (fun _ => 7) (fun _ => 0) 0 (fun x => x))
    empty_registry r).
  { apply rtc_once. by apply (StepSend _ _ _ _ empty_registry 16777216 65535 65535 rq 1%nat). }
  exists r. split; [exact Hr|]. split; [reflexivity|].
  exact (proj1 (registry_scheduling _ _ _ _ r Hr)).
Defined.
