(* ===== verification/BaseClient.v ===== *)
(** * The client (base_client.h, base_client.cpp)

    The state of the connection above the transport: the codec, the settings, the streams, the
    windows and the queue of frames that do not belong to a stream. A frame handler changes
    the state and may throw ([Reassembly.handled]); calls of completion handlers, timer requests and
    calls of the virtual [init_write] are appended to [log]. The receive path
    ([Reassembly.on_read]) is instantiated with the handlers at the end. *)
From stdpp Require Import relations.
From S2P Require Import Prelude Memory Utils Buffer HeaderField Protocol Frame FrameBuilder.
From S2P Require Import Request Response Stream StreamRegistry Reassembly.
From S2P Require Window SettingsManager IndexedDynamicTable Encoder Decoder.
Import IndexedDynamicTable (SetSearch).
Import SettingsManager (settings_manager).
Import Window (dummy_window, make_window).

Section client.
Context {SS : SetSearch} {H : Type}.
Context (fresh : Z -> Z) (heap : Z -> Z) (addr : Z) (moved_response : response -> response).

(** What the client does besides changing its state. *)
Inductive action : Type :=
| InitWrite
| SettingsTimer (e : SettingsManager.effect H)
| StreamEffect (p : ptr) (e : effect H)
| CallSettings (h : H) (ec : boost_error)
| CallPing (h : H) (ec : boost_error)
| CallDisconnect (h : H).

Record base_client : Type := BaseClient {
  decoder : Decoder.decoder;
  encoder : Encoder.encoder;
  settings : settings_manager H;
  registry : registry H;
  local_window : dummy_window;
  server_window_size : Z;
  tx_command_queue : list buffer;
  client_id_order : Z;
  ping_handler : option H;
  is_connected_flag : bool;
  start_connecting_flag : bool;
  start_disconnect_flag : bool;
  connection_error_code : boost_error;
  disconnect_handler : option H;
  log : list action;
}.

(** The constructor. *)
Definition make_client : base_client :=
  BaseClient Decoder.make_decoder Encoder.make_encoder SettingsManager.make_settings_manager empty_registry
    (make_window INITIAL_WINDOW_SIZE (INITIAL_WINDOW_SIZE / 4)) INITIAL_WINDOW_SIZE [] 1 None false false false
    NoError None [].

(** Assignments to the members. *)
Definition set_codec (d : Decoder.decoder) (e : Encoder.encoder) (c : base_client) : base_client :=
  BaseClient d e (settings c) (registry c) (local_window c) (server_window_size c) (tx_command_queue c)
    (client_id_order c) (ping_handler c) (is_connected_flag c) (start_connecting_flag c) (start_disconnect_flag c)
    (connection_error_code c) (disconnect_handler c) (log c).
Definition set_settings (m : settings_manager H) (c : base_client) : base_client :=
  BaseClient (decoder c) (encoder c) m (registry c) (local_window c) (server_window_size c) (tx_command_queue c)
    (client_id_order c) (ping_handler c) (is_connected_flag c) (start_connecting_flag c) (start_disconnect_flag c)
    (connection_error_code c) (disconnect_handler c) (log c).
Definition set_registry (r : StreamRegistry.registry H) (c : base_client) : base_client :=
  BaseClient (decoder c) (encoder c) (settings c) r (local_window c) (server_window_size c) (tx_command_queue c)
    (client_id_order c) (ping_handler c) (is_connected_flag c) (start_connecting_flag c) (start_disconnect_flag c)
    (connection_error_code c) (disconnect_handler c) (log c).
Definition set_local_window (w : dummy_window) (c : base_client) : base_client :=
  BaseClient (decoder c) (encoder c) (settings c) (registry c) w (server_window_size c) (tx_command_queue c)
    (client_id_order c) (ping_handler c) (is_connected_flag c) (start_connecting_flag c) (start_disconnect_flag c)
    (connection_error_code c) (disconnect_handler c) (log c).
Definition set_tx (n : Z) (q : list buffer) (c : base_client) : base_client :=
  BaseClient (decoder c) (encoder c) (settings c) (registry c) (local_window c) n q
    (client_id_order c) (ping_handler c) (is_connected_flag c) (start_connecting_flag c) (start_disconnect_flag c)
    (connection_error_code c) (disconnect_handler c) (log c).
Definition set_id_order (n : Z) (c : base_client) : base_client :=
  BaseClient (decoder c) (encoder c) (settings c) (registry c) (local_window c) (server_window_size c)
    (tx_command_queue c) n (ping_handler c) (is_connected_flag c) (start_connecting_flag c) (start_disconnect_flag c)
    (connection_error_code c) (disconnect_handler c) (log c).
Definition set_ping_handler (h : option H) (c : base_client) : base_client :=
  BaseClient (decoder c) (encoder c) (settings c) (registry c) (local_window c) (server_window_size c)
    (tx_command_queue c) (client_id_order c) h (is_connected_flag c) (start_connecting_flag c) (start_disconnect_flag c)
    (connection_error_code c) (disconnect_handler c) (log c).
Definition set_flags (connected connecting disconnect : bool) (c : base_client) : base_client :=
  BaseClient (decoder c) (encoder c) (settings c) (registry c) (local_window c) (server_window_size c)
    (tx_command_queue c) (client_id_order c) (ping_handler c) connected connecting disconnect
    (connection_error_code c) (disconnect_handler c) (log c).
Definition set_disconnect (ec : boost_error) (h : option H) (c : base_client) : base_client :=
  BaseClient (decoder c) (encoder c) (settings c) (registry c) (local_window c) (server_window_size c)
    (tx_command_queue c) (client_id_order c) (ping_handler c) (is_connected_flag c) (start_connecting_flag c)
    (start_disconnect_flag c) ec h (log c).
Definition emit (a : list action) (c : base_client) : base_client :=
  BaseClient (decoder c) (encoder c) (settings c) (registry c) (local_window c) (server_window_size c)
    (tx_command_queue c) (client_id_order c) (ping_handler c) (is_connected_flag c) (start_connecting_flag c)
    (start_disconnect_flag c) (connection_error_code c) (disconnect_handler c) (log c ++ a).

Definition init_write (c : base_client) : base_client := emit [InitWrite] c.

Definition send_command (b : buffer) (c : base_client) : base_client :=
  set_tx (server_window_size c) (tx_command_queue c ++ [b]) c.

(** [write_initial_frames]. *)
Definition preambula : list Z :=
  str "PRI * HTTP/2.0" ++ [13; 10; 13; 10] ++ str "SM" ++ [13; 10; 13; 10].
Definition write_initial_frames (c : base_client) : base_client :=
  let buff := (commit_span preambula (buffer_new fresh (Z.of_nat (length preambula)))).1 in
  send_command buff c.

(** ** Settings *)

(** The lambda [initiate_sync_settings] wraps around the caller's handler. *)
Definition on_settings_synced (last : H) (ec : boost_error) (c : base_client) : base_client :=
  let c :=
    if negb (failed ec) then
      let local := SettingsManager.local_settings (settings c) in
      let window_size := u32 (initial_window_size local * max_concurrent_streams local) in
      let window_increment := u32 (window_size - Window.current (local_window c)) in
      let c := set_local_window (make_window window_size (window_size / 2)) c in
      init_write (send_command (update_window fresh window_increment 0) c)
    else c in
  emit [CallSettings last ec] c.

(** The effects of the settings manager: the handler it calls is the lambda. *)
Fixpoint run_settings (eff : list (SettingsManager.effect H)) (c : base_client) : base_client :=
  match eff with
  | [] => c
  | SettingsManager.Invoke h ec :: eff => run_settings eff (on_settings_synced h ec c)
  | e :: eff => run_settings eff (emit [SettingsTimer e] c)
  end.

Definition initiate_sync_settings (remote_sync : bool) (handler : H) (c : base_client) : outcome base_client :=
  '(m, buff, eff) ← SettingsManager.initiate_sync_settings fresh default_settings remote_sync handler (settings c);
  Ok (init_write (send_command buff (run_settings eff (set_settings m c)))).

(** The settings timer of a client. *)
Definition on_settings_timer (ec : boost_error) (c : base_client) : base_client :=
  let '(m, eff) := SettingsManager.on_timer ec (settings c) in run_settings eff (set_settings m c).

(** ** Disconnecting *)

Definition initiate_disconnect (ec : boost_error) (handler : option H) (c : base_client) : base_client :=
  if start_disconnect_flag c then
    match handler with Some h => emit [CallDisconnect h] c | None => c end
  else
    let c := set_flags (is_connected_flag c) (start_connecting_flag c) true c in
    let '(m, cancelled, eff) := SettingsManager.cancel ec (settings c) in
    let c := run_settings eff (set_settings m c) in
    if cancelled then c
    else
      let c := set_disconnect ec handler c in
      init_write (send_command (goaway fresh IS_OK 1 []) c).

Definition cleanup_after_disconnect (ec : boost_error) (c : base_client) : outcome base_client :=
  '(r, eff) ← reset_registry moved_response ec (registry c);
  Ok (set_flags (is_connected_flag c) false (start_disconnect_flag c)
        (emit (map (fun '(p, e) => StreamEffect p e) eff) (set_registry r c))).

(** ** Requests *)

Definition get_next_stream_id (c : base_client) : base_client * Z :=
  let order := client_id_order c in
  (set_id_order (u32 (order + 1)) c, native_to_big (u32 (u32 (order * 2) - 1))).

Definition initiate_send (rq : request) (handler : H) (c : base_client) : outcome base_client :=
  if negb (is_connected_flag c) then Throw (system_error (AsioError not_connected) "Client is not connected")
  else
    let '(c, id) := get_next_stream_id c in
    let s := make_stream id (initial_window_size (SettingsManager.remote_settings (settings c)))
               (initial_window_size (SettingsManager.local_settings (settings c))) rq handler in
    let '(r, p) := new_stream s (registry c) in
    Ok (init_write (set_registry (add_stream id p r) c)).

Definition initiate_ping (handler : H) (c : base_client) : outcome base_client :=
  if negb (is_connected_flag c) then Throw (system_error (AsioError not_connected) "Client is not connected")
  else
    match ping_handler c with
    | Some _ => Throw (system_error (AsioError in_progress) "Client is not connected")
    | None => Ok (send_command (ping fresh []) (set_ping_handler (Some handler) c))
    end.

(** ** Received frames *)

(** [registry.invoke_for_stream] in a handler. *)
Definition for_stream (id : Z) (method : stream H -> outcome (stream H * list (effect H))) (c : base_client) :
    handled base_client :=
  match invoke_for_stream id method (registry c) with
  | Ok (r, _, eff) => Done (emit (map (fun '(p, e) => StreamEffect p e) eff) (set_registry r c))
  | Throw e => Raised e c
  | _ => Stuck
  end.

(** A frame that is there is parsed again. *)
Definition with_frame (t : frame_type) (data : span) (c : base_client) (k : span -> handled base_client) :
    handled base_client :=
  match (fa ← from_buffer data; get_frame t fa) with
  | Ok frame => k frame
  | Throw e => Raised e c
  | _ => Stuck
  end.

(** [ex.what()]. *)
Definition what_of (e : exn) : string :=
  match e with
  | overflow_error w | invalid_argument w | runtime_error w | length_error w | system_error _ w => w
  end.

(** The decoder when [Decoder.decode] throws: the commands before the one that throws have been run,
    and that one has not changed the table. *)
Fixpoint decoder_after (fuel : nat) (d : Decoder.decoder) (src : span) (fields : header) : Decoder.decoder :=
  if sp_len src =? 0 then d
  else match fuel with
       | O => d
       | S fuel =>
           match Decoder.run_cmd (Decoder.decode_cmd (sp_get src 0)) d src fields with
           | Ok (d, src, fields) => decoder_after fuel d src fields
           | _ => d
           end
       end.

(** Decoding a header block; an exception of the decoder becomes a compression error. *)
Definition with_fields (block : span) (c : base_client) (k : header -> base_client -> handled base_client) :
    handled base_client :=
  match Decoder.decode (decoder c) block with
  | Ok (d, fields) => k fields (set_codec d (encoder c) c)
  | Throw e =>
      Raised (system_error (make_error_code COMPRESSION_ERROR) (what_of e))
        (set_codec (decoder_after (Z.to_nat (sp_len block)) (decoder c) block []) (encoder c) c)
  | _ => Stuck
  end.

Definition on_receive_data (b : buffer) (c : base_client) : handled base_client :=
  with_frame DATA (data_span heap addr b) c (fun frame =>
  for_stream (stream_id_field frame) (Stream.on_receive_data heap addr moved_response b) c).

Definition on_receive_data_not_reachable (data : span) (c : base_client) : handled base_client :=
  Raised (system_error (make_error_code INTERNAL_ERROR) "Unreachable code") c.

Definition on_receive_headers (data : span) (c : base_client) : handled base_client :=
  with_frame HEADERS data c (fun frame =>
  with_fields (header_block frame) c (fun fields c =>
  for_stream (stream_id_field frame)
    (fun s => Ok (Stream.on_receive_headers moved_response fields (flags_field frame) (sp_len data) s)) c)).

Definition on_receive_priority (data : span) (c : base_client) : handled base_client := Done c.

Definition on_receive_reset (data : span) (c : base_client) : handled base_client :=
  with_frame RST_STREAM data c (fun frame =>
  for_stream (stream_id_field frame) (fun s => Ok (Stream.on_receive_reset moved_response (reset_code frame) s)) c).

Definition on_receive_settings (data : span) (c : base_client) : handled base_client :=
  match SettingsManager.on_settings_frame fresh data (settings c) with
  | Ok (m, opt_buff, eff) =>
      let c := run_settings eff (set_settings m c) in
      Done (match opt_buff with Some b => send_command b c | None => c end)
  | Throw e => Raised e c
  | _ => Stuck
  end.

Definition on_receive_push (data : span) (c : base_client) : handled base_client :=
  Done (init_write (send_command (goaway fresh PROTOCOL_ERROR 1 []) c)).

Definition on_receive_ping (data : span) (c : base_client) : handled base_client :=
  with_frame PING data c (fun frame =>
  if has_flag (flags_field frame) ACK then
    match ping_handler c with
    | Some h => Done (emit [CallPing h NoError] (set_ping_handler None c))
    | None => Done c
    end
  else
    let ack_buffer := (commit_span (sp_bytes data) (buffer_new fresh (sp_len data))).1 in
    let flags := Z.lor (nth 4 (b_memory ack_buffer) 0) ACK in
    Done (send_command (write_at 4 [flags] ack_buffer) c)).

Definition on_receive_goaway (data : span) (c : base_client) : handled base_client := Done c.

Definition on_receive_window_update (data : span) (c : base_client) : handled base_client :=
  with_frame WINDOW_UPDATE data c (fun frame =>
  let size_increment := window_size frame in
  if stream_id_field frame =? 0 then
    Done (set_tx (u64 (server_window_size c + size_increment)) (tx_command_queue c) c)
  else
    for_stream (stream_id_field frame) (fun s => Ok (Stream.on_receive_window_update size_increment s, [])) c).

Definition on_receive_continuation (data : span) (c : base_client) : handled base_client :=
  with_frame CONTINUATION data c (fun frame =>
  with_fields (continuation_block frame) c (fun fields c =>
  for_stream (stream_id_field frame)
    (fun s => Ok (Stream.on_receive_continuation moved_response fields (flags_field frame) (sp_len data) s)) c)).

(** [frame_handlers]. *)
Definition frame_handlers : list (span -> base_client -> handled base_client) :=
  [on_receive_data_not_reachable; on_receive_headers; on_receive_priority; on_receive_reset; on_receive_settings;
   on_receive_push; on_receive_ping; on_receive_goaway; on_receive_window_update; on_receive_continuation].

(** The window is charged and perhaps updated before a frame is handled. *)
Definition charge_window (n : Z) (c : base_client) : base_client :=
  let '(w, upd_window) := Window.update fresh 0 (Window.dec n (local_window c)) in
  let c := set_local_window w c in
  match upd_window with Some b => send_command b c | None => c end.

Definition on_receive_frame (data : span) (c : base_client) : handled base_client :=
  let c := charge_window (sp_len data) c in
  match from_buffer data with
  | Ok fa =>
      match frame_handlers !! Z.to_nat (type_field (fa_buffer fa)) with
      | Some h => h data c
      | None => Stuck
      end
  | Throw e => Raised e c
  | _ => Stuck
  end.

Definition on_receive_data_frame (b : buffer) (c : base_client) : handled base_client :=
  on_receive_data b (charge_window (Z.of_nat (length (data_view b))) c).

(** ** Sending *)

(** The command frames that fit the window of the peer, and whether all do. *)
Fixpoint take_commands (q : list buffer) (window : Z) : list buffer * list buffer * Z * bool :=
  match q with
  | [] => ([], [], window, true)
  | b :: q =>
      let n := Z.of_nat (length (data_view b)) in
      if window <? n then ([], b :: q, window, false)
      else let '(sent, kept, window, all) := take_commands q (u64 (window - n)) in (b :: sent, kept, window, all)
  end.

Definition get_tx_data (c : base_client) : outcome (base_client * list buffer) :=
  let '(result, kept, window, all) := take_commands (tx_command_queue c) (server_window_size c) in
  let c := set_tx window kept c in
  if negb all then Ok (c, result)
  else
    let limit := Z.min (server_window_size c) (max_frame_size (SettingsManager.local_settings (settings c))) in
    if HEADER_SIZE * 2 <=? limit then
      '(r, e, out, used, eff) ← get_data fresh (encoder c) limit (registry c);
      let c := set_codec (decoder c) e (set_registry r c) in
      let c := emit (map (fun '(p, e) => StreamEffect p e) eff) c in
      Ok (set_tx (u64 (server_window_size c - used)) (tx_command_queue c) c, result ++ out)
    else Ok (c, result).

(** The handlers [on_read] calls. *)
Definition client_sink : FrameSink base_client := {|
  sink_data := on_receive_data_frame;
  sink_frame := on_receive_frame;
  sink_limit c := max_frame_size (SettingsManager.local_settings (settings c));
  sink_error ec c := initiate_disconnect ec None c;
|}.

(** ** Streams and requests *)

Abbreviation rgi r := (rg_inv (stream_map r) (queue r) (store r)).

(** Operations that leave the streams alone: frames are queued behind the others, and neither the
    connection nor the start of a disconnection is undone. *)
Record quiet (c c' : base_client) : Prop := {
  quiet_registry : registry c' = registry c;
  quiet_order : client_id_order c' = client_id_order c;
  quiet_queue : tx_command_queue c `prefix_of` tx_command_queue c';
  quiet_connected : is_connected_flag c' = is_connected_flag c;
  quiet_disconnect : start_disconnect_flag c = true -> start_disconnect_flag c' = true;
  quiet_connecting : start_connecting_flag c' = start_connecting_flag c;
}.

#[local] Instance quiet_preorder : PreOrder quiet.
Proof.
  split.
  - intros c. by split.
  - intros c1 c2 c3 [A1 A2 A3 A4 A5 A6] [B1 B2 B3 B4 B5 B6].
    split; [congruence|congruence|by etransitivity|congruence|auto|congruence].
Qed.

(** Assignments, appending to the queue, and the log. *)
Ltac quiet_update := split; [done|done|first [done|by apply prefix_app_r]|done|done|done].

Lemma on_settings_synced_failed h ec c :
  failed ec = true -> on_settings_synced h ec c = emit [CallSettings h ec] c.
Proof. intros Hf. unfold on_settings_synced. by rewrite Hf. Qed.

Lemma run_settings_quiet eff : forall c, quiet c (run_settings eff c).
Proof.
  induction eff as [|e eff IH]; intros c; [done|].
  destruct e as [| |h ec]; cbn [run_settings]; (etransitivity; [|apply IH]); try quiet_update.
  unfold on_settings_synced. destruct (negb (failed ec)); quiet_update.
Qed.

Lemma charge_window_quiet n c : quiet c (charge_window n c).
Proof. unfold charge_window. destruct (Window.update _ _ _) as [w [b|]]; quiet_update. Qed.

Lemma initiate_disconnect_quiet ec handler c : quiet c (initiate_disconnect ec handler c).
Proof.
  unfold initiate_disconnect. destruct (start_disconnect_flag c) eqn:Ed; [by destruct handler; [quiet_update|]|].
  set (c1 := set_flags _ _ true c). destruct (SettingsManager.cancel ec (settings c1)) as [[m b] eff].
  transitivity (set_settings m c1); [quiet_update|].
  transitivity (run_settings eff (set_settings m c1)); [apply run_settings_quiet|]. destruct b; [done|quiet_update].
Qed.

Lemma on_settings_timer_quiet ec c : quiet c (on_settings_timer ec c).
Proof.
  unfold on_settings_timer. destruct (SettingsManager.on_timer _ _) as [m eff].
  transitivity (set_settings m c); [quiet_update|apply run_settings_quiet].
Qed.

Lemma initiate_sync_settings_quiet rs h c c' : initiate_sync_settings rs h c = Ok c' -> quiet c c'.
Proof.
  unfold initiate_sync_settings. intros Hs. apply outcome_bind_ok in Hs as ([[m b] eff] & _ & [= <-]).
  transitivity (set_settings m c); [quiet_update|].
  transitivity (run_settings eff (set_settings m c)); [apply run_settings_quiet|quiet_update].
Qed.

(** The effect of a frame of [n] bytes: besides quiet changes, at most one call of a stream. *)
Definition frame_effect (n : Z) (c c' : base_client) : Prop :=
  quiet c c' \/
  exists id ev r b eff, (frame_bytes ev = 0 \/ frame_bytes ev = n) /\
    invoke_for_stream id (frame_method heap addr moved_response ev) (registry c) = Ok (r, b, eff) /\
    quiet (set_registry r c) c'.

Lemma quiet_then n c c1 c' : quiet c c1 -> frame_effect n c1 c' -> frame_effect n c c'.
Proof.
  intros Hq [H1|(id & ev & r & b & eff & Hn & Hv & H1)]; [left; by etransitivity|]. right.
  exists id, ev, r, b, eff. split_and!; [done|by rewrite <- (quiet_registry _ _ Hq)|].
  transitivity (set_registry r c1); [|done]. by destruct Hq.
Qed.

Lemma lands_quiet n c c1 h : quiet c c1 -> lands (frame_effect n c1) h -> lands (frame_effect n c) h.
Proof. intros Hq. apply lands_impl. intros st. by apply quiet_then. Qed.

Lemma with_frame_lands (P : base_client -> Prop) t data c k :
  P c -> (forall frame, lands P (k frame)) -> lands P (with_frame t data c k).
Proof. intros Hc Hk. unfold with_frame. by destruct (_ ← _; _). Qed.

Lemma with_fields_lands (P : base_client -> Prop) block c k :
  (forall d, P (set_codec d (encoder c) c)) -> (forall d fields, lands P (k fields (set_codec d (encoder c) c))) ->
  lands P (with_fields block c k).
Proof. intros Hc Hk. unfold with_fields. destruct (Decoder.decode _ _) as [[d fields]| | |]; simpl; auto. Qed.

Lemma for_stream_effect n id ev c method :
  (forall s, method s = frame_method heap addr moved_response ev s) -> frame_bytes ev = 0 \/ frame_bytes ev = n ->
  lands (frame_effect n c) (for_stream id method c).
Proof.
  intros Hm Hn. unfold for_stream.
  assert (Hi : invoke_for_stream id method (registry c)
    = invoke_for_stream id (frame_method heap addr moved_response ev) (registry c)).
  { unfold invoke_for_stream. destruct (get_stream _ _) as [p|]; [|done]. destruct (deref _ _); [|done..].
    cbn [mbind outcome_bind]. by rewrite Hm. }
  rewrite Hi. clear Hi.
  destruct (invoke_for_stream id (frame_method heap addr moved_response ev) (registry c)) as [[[r b] eff]| | |] eqn:Hv;
    try done; [|by left]. right.
  exists id, ev, r, b, eff. split_and!; [done|done|]. quiet_update.
Qed.

Lemma on_receive_frame_effect data c : lands (frame_effect (sp_len data) c) (on_receive_frame data c).
Proof.
  unfold on_receive_frame. set (c1 := charge_window (sp_len data) c).
  apply (lands_quiet _ c c1); [apply charge_window_quiet|].
  cut (forall h, h ∈ frame_handlers -> lands (frame_effect (sp_len data) c1) (h data c1)).
  { intros Hh. destruct (from_buffer data) as [fa|e| |]; [|by left|done..].
    destruct (frame_handlers !! _) as [h|] eqn:Eh; [|done]. by apply list_elem_of_lookup_2, Hh in Eh. }
  assert (Hself : frame_effect (sp_len data) c1 c1) by (by left).
  intros h Hh. unfold frame_handlers in Hh. repeat (apply elem_of_cons in Hh as [->|Hh]);
    [..|by apply not_elem_of_nil in Hh]; try (left; quiet_update).
  - apply with_frame_lands; [done|]. intros frame. apply with_fields_lands; [intros d; left; quiet_update|].
    intros d fields. apply (lands_quiet _ c1 (set_codec d (encoder c1) c1)); [quiet_update|].
    apply (for_stream_effect _ _ (HeadersReceived fields (flags_field frame) (sp_len data))); [done|simpl; auto].
  - apply with_frame_lands; [done|]. intros frame.
    apply (for_stream_effect _ _ (ResetReceived (reset_code frame))); [done|simpl; auto].
  - unfold on_receive_settings. destruct (SettingsManager.on_settings_frame _ _ _) as [[[m o] eff]| | |]; try done.
    cbn [lands]. left. transitivity (set_settings m c1); [quiet_update|].
    transitivity (run_settings eff (set_settings m c1)); [apply run_settings_quiet|]. destruct o; [quiet_update|done].
  - apply with_frame_lands; [done|]. intros frame. destruct (has_flag _ _); [|left; quiet_update].
    destruct (ping_handler c1); left; quiet_update.
  - apply with_frame_lands; [done|]. intros frame. destruct (_ =? 0); [left; quiet_update|].
    apply (for_stream_effect _ _ (WindowUpdateReceived (window_size frame))); [done|simpl; auto].
  - apply with_frame_lands; [done|]. intros frame. apply with_fields_lands; [intros d; left; quiet_update|].
    intros d fields. apply (lands_quiet _ c1 (set_codec d (encoder c1) c1)); [quiet_update|].
    apply (for_stream_effect _ _ (ContinuationReceived fields (flags_field frame) (sp_len data))); [done|simpl; auto].
Qed.

Lemma on_receive_data_frame_effect b c :
  lands (frame_effect (Z.of_nat (length (data_view b))) c) (on_receive_data_frame b c).
Proof.
  unfold on_receive_data_frame. set (c1 := charge_window _ c).
  apply (lands_quiet _ c c1); [apply charge_window_quiet|].
  apply with_frame_lands; [by left|]. intros frame. apply (for_stream_effect _ _ (DataReceived b)); [done|simpl; auto].
Qed.

(** What no operation undoes. *)
Record steady (c c' : base_client) : Prop := {
  steady_queue : tx_command_queue c `prefix_of` tx_command_queue c';
  steady_connected : is_connected_flag c = true -> is_connected_flag c' = true;
  steady_disconnect : start_disconnect_flag c = true -> start_disconnect_flag c' = true;
}.

#[global] Instance steady_preorder : PreOrder steady.
Proof.
  split.
  - intros c. by split.
  - intros c1 c2 c3 [A1 A2 A3] [B1 B2 B3]. split; [by etransitivity|auto|auto].
Qed.

Lemma quiet_steady c c' : quiet c c' -> steady c c'.
Proof. intros [_ _ H1 H2 H3 _]. split; [done|by rewrite H2|done]. Qed.

Lemma frame_effect_steady n c c' : frame_effect n c c' -> steady c c'.
Proof.
  intros [Hq|(id & ev & r & b & eff & _ & _ & Hq)]; [by apply quiet_steady|].
  transitivity (set_registry r c); [by split|by apply quiet_steady].
Qed.

(** Reading. *)
Lemma on_read_steady b c b' c' :
  on_read (Sink := client_sink) fresh heap addr b c = Ok (b', c') -> steady c c'.
Proof.
  apply on_read_preserves.
  - apply _.
  - intros b0 st. eapply lands_impl; [|apply on_receive_data_frame_effect]. intros st'. apply frame_effect_steady.
  - intros s st. eapply lands_impl; [|apply on_receive_frame_effect]. intros st'. apply frame_effect_steady.
  - intros ec st. apply quiet_steady, initiate_disconnect_quiet.
Qed.

(** The flags after an operation of the client: only a disconnection is started, and never stopped. *)
Record calm (c c' : base_client) : Prop := {
  calm_connected : is_connected_flag c' = is_connected_flag c;
  calm_connecting : start_connecting_flag c' = start_connecting_flag c;
  calm_disconnect : start_disconnect_flag c = true -> start_disconnect_flag c' = true;
}.

#[global] Instance calm_preorder : PreOrder calm.
Proof.
  split.
  - intros c. by split.
  - intros c1 c2 c3 [A1 A2 A3] [B1 B2 B3]. split; [congruence|congruence|auto].
Qed.

Lemma quiet_calm c c' : quiet c c' -> calm c c'.
Proof. intros [_ _ _ H1 H2 H3]. by split. Qed.

Lemma frame_effect_calm n c c' : frame_effect n c c' -> calm c c'.
Proof.
  intros [Hq|(id & ev & r & b & eff & _ & _ & Hq)]; [by apply quiet_calm|].
  transitivity (set_registry r c); [by split|by apply quiet_calm].
Qed.

Lemma on_read_calm b c b' c' :
  on_read (Sink := client_sink) fresh heap addr b c = Ok (b', c') -> calm c c'.
Proof.
  apply on_read_preserves.
  - apply _.
  - intros b0 st. eapply lands_impl; [|apply on_receive_data_frame_effect]. intros st'. apply frame_effect_calm.
  - intros s st. eapply lands_impl; [|apply on_receive_frame_effect]. intros st'. apply frame_effect_calm.
  - intros ec st. apply quiet_calm, initiate_disconnect_quiet.
Qed.

(** An operation other than a request: the numbering goes on, the registry stays consistent and
    gets no new streams. *)
Record kept (c c' : base_client) : Prop := {
  kept_order : client_id_order c' = client_id_order c;
  kept_inv : rgi (registry c) -> rgi (registry c');
  kept_map : stream_map (registry c') ⊆ stream_map (registry c);
}.

Lemma quiet_kept c c' : quiet c c' -> kept c c'.
Proof. intros [H1 H2 _ _ _]. split; [done| |]; by rewrite H1. Qed.

(** No stream has used more than [2^32 - n] bytes of its window. *)
Definition streams_room (n : Z) (c : base_client) : Prop :=
  0 <= n /\ forall p s, store (registry c) !! p = Some s ->
    let w := Stream.local_window s in
    fits 32 (Window.w_size w) /\ u32 (Window.w_max_size w - Window.w_size w) + n < 2 ^ 32.

Lemma invoke_map id (method : stream H -> outcome (stream H * list (effect H))) r r' b eff :
  invoke_for_stream id method r = Ok (r', b, eff) -> stream_map r' ⊆ stream_map r.
Proof.
  unfold invoke_for_stream. destruct (get_stream id r) as [p|]; [|by intros [= <- _ _]].
  intros Hv. apply outcome_bind_ok in Hv as (s & _ & Hv). apply outcome_bind_ok in Hv as ([s1 eff1] & _ & Hv).
  destruct (is_finished s1).
  - apply outcome_bind_ok in Hv as (r1 & He & [= <- _ _]).
    unfold erase in He. apply outcome_bind_ok in He as (i & _ & [= <-]). cbn [stream_map].
    intros [k q] Hk. by apply elem_map_erase in Hk as [Hk _].
  - destruct (check_tx_data s1) as [s2 []]; by injection Hv as <- _ _.
Qed.

Lemma frame_effect_kept n c c' : streams_room n c -> frame_effect n c c' -> kept c c'.
Proof.
  intros [H0 Hr] [Hq|(id & ev & r & b & eff & Hn & Hv & Hq)]; [by apply quiet_kept|].
  destruct (quiet_kept _ _ Hq) as [E1 E2 E3]. split; [done| |].
  - intros Hc. apply E2. refine (invoke_inv fresh _ _ _ _ _ _ _ _ _ Hc _ Hv). intros p s _ Hs.
    destruct (Hr p s Hs). split_and!; [lia|done|lia].
  - apply invoke_map in Hv. by transitivity (stream_map r).
Qed.

Lemma get_tx_data_kept c c' out : get_tx_data c = Ok (c', out) -> kept c c'.
Proof.
  unfold get_tx_data. destruct (take_commands _ _) as [[[sent rest] window] []]; cbn [negb];
    [|by intros [= <- _]; split].
  destruct (_ <=? _); [|by intros [= <- _]; split].
  intros Hg. apply outcome_bind_ok in Hg as ([[[[r e] o] used] eff] & Hg & [= <- _]).
  split; cbn [registry client_id_order set_tx emit set_codec set_registry]; [done|..].
  - intros Hi. by refine (get_data_inv fresh heap addr _ _ _ _ _ _ _ _ Hi Hg).
  - unfold get_data in Hg. destruct (_ <? 16); [by injection Hg as <- _ _ _ _|].
    by apply outcome_bind_ok in Hg as (t & _ & [= <- _ _ _ _]).
Qed.

Lemma cleanup_kept ec c c' : cleanup_after_disconnect ec c = Ok c' -> kept c c'.
Proof.
  unfold cleanup_after_disconnect. intros Hc. apply outcome_bind_ok in Hc as ([r eff] & Hr & [= <-]).
  split; cbn [registry client_id_order set_flags emit set_registry]; [done|..].
  - intros Hi. by eapply (reg_step_inv fresh heap addr moved_response), StepReset.
  - unfold reset_registry in Hr. apply outcome_bind_ok in Hr as ([st eff'] & _ & [= <- _]).
    cbn [stream_map]. intros x Hx. by apply not_elem_of_nil in Hx.
Qed.

(** The identifier of the [k]-th request, as a stream stores it. *)
Definition client_id (k : Z) : Z := native_to_big (2 * k - 1).

Lemma client_id_inj j k : 1 <= j < 2 ^ 31 -> 1 <= k < 2 ^ 31 -> client_id j = client_id k -> j = k.
Proof.
  intros Hj Hk He. apply (f_equal native_to_big) in He. unfold client_id in He.
  rewrite !native_to_big_involutive in He by (unfold fits; lia). lia.
Qed.

(** The streams are those of earlier requests, under their identifiers. *)
Record client_inv (c : base_client) : Prop := {
  ci_registry : rgi (registry c);
  ci_order : 1 <= client_id_order c <= 2 ^ 31;
  ci_ids : forall id p, (id, p) ∈ stream_map (registry c) ->
    exists k, 1 <= k < client_id_order c /\ id = client_id k;
}.

Lemma kept_client_inv c c' : kept c c' -> client_inv c -> client_inv c'.
Proof.
  intros [H1 H2 H3] [I1 I2 I3]. split; [auto|by rewrite H1|]. intros id p Hp. rewrite H1. eapply I3, H3, Hp.
Qed.

Lemma client_inv_fresh c :
  client_inv c -> client_id_order c < 2 ^ 31 -> map_find (client_id (client_id_order c)) (stream_map (registry c)) = None.
Proof.
  intros [_ Ho Hi] Hlt. destruct (map_find _ _) as [p|] eqn:Hf; [|done]. exfalso.
  apply map_find_some, Hi in Hf as (k & Hk & He). apply client_id_inj in He; lia.
Qed.

Lemma get_next_stream_id_eq c :
  1 <= client_id_order c < 2 ^ 31 ->
  get_next_stream_id c = (set_id_order (client_id_order c + 1) c, client_id (client_id_order c)).
Proof.
  intros Ho. unfold get_next_stream_id, client_id, u32. rewrite (wrap_small 32 (client_id_order c + 1)) by (unfold fits; lia).
  rewrite (wrap_small 32 (client_id_order c * 2)) by (unfold fits; lia).
  rewrite wrap_small by (unfold fits; lia). do 2 f_equal. lia.
Qed.

Lemma initiate_send_inv rq h c c' :
  client_inv c -> client_id_order c < 2 ^ 31 -> header_list rq <> [] -> initiate_send rq h c = Ok c' -> client_inv c'.
Proof.
  intros Hc Hlt Hrq Hs. pose proof (client_inv_fresh c Hc Hlt) as Hf. pose proof (ci_order _ Hc) as Ho.
  unfold initiate_send in Hs. destruct (negb (is_connected_flag c)); [done|].
  rewrite get_next_stream_id_eq in Hs by lia. cbn [settings set_id_order registry] in Hs.
  set (s := make_stream _ _ _ rq h) in Hs. destruct (new_stream s (registry c)) as [r p] eqn:Hn.
  injection Hs as <-. split; cbn [registry client_id_order set_registry init_write emit set_id_order].
  - eapply (reg_step_inv fresh heap addr moved_response); [apply Hc|]. by eapply StepSend.
  - lia.
  - unfold new_stream in Hn. injection Hn as <- <-. cbn [add_stream stream_map]. intros id q Hq.
    rewrite map_emplace_perm in Hq by (by apply map_find_none). apply elem_of_cons in Hq as [[= -> _]|Hq].
    + exists (client_id_order c). split; [lia|done].
    + destruct (ci_ids _ Hc _ _ Hq) as (k & Hk & ->). exists k. split; [lia|done].
Qed.

(** The life of a client: fewer than [2^31] requests, each with header fields; received frames that do
    not use up [2^32] bytes of a window; pings, turns to send, the two kinds of timers, settings
    synchronisation, and disconnecting. *)
Inductive client_step : base_client -> base_client -> Prop :=
| CSend c rq h c' :
    client_id_order c < 2 ^ 31 -> header_list rq <> [] -> initiate_send rq h c = Ok c' -> client_step c c'
| CPing c h c' : initiate_ping h c = Ok c' -> client_step c c'
| CFrame c data c' :
    span_ok data -> streams_room (sp_len data) c -> lands (eq c') (on_receive_frame data c) ->
    on_receive_frame data c <> Stuck -> client_step c c'
| CData c b c' :
    streams_room (Z.of_nat (length (data_view b))) c -> lands (eq c') (on_receive_data_frame b c) ->
    on_receive_data_frame b c <> Stuck -> client_step c c'
| CTransmit c c' out : get_tx_data c = Ok (c', out) -> client_step c c'
| CStart c : client_step c (write_initial_frames c)
| CSync c remote_sync h c' : initiate_sync_settings remote_sync h c = Ok c' -> client_step c c'
| CSettingsTimer c ec : client_step c (on_settings_timer ec c)
| CStreamTimer c p s ec s' eff :
    store (registry c) !! p = Some s -> Stream.on_timer moved_response ec s = (s', eff) ->
    client_step c (emit (map (fun e => StreamEffect p e) eff)
      (set_registry (Registry (stream_map (registry c)) (queue (registry c)) (<[p := s']> (store (registry c)))) c))
| CFlags c connected connecting disconnect : client_step c (set_flags connected connecting disconnect c)
| CDisconnect c ec handler : client_step c (initiate_disconnect ec handler c)
| CCleanup c ec c' : cleanup_after_disconnect ec c = Ok c' -> client_step c c'.

Lemma lands_eq P c (h : handled base_client) : lands P h -> lands (eq c) h -> h <> Stuck -> P c.
Proof. destruct h; simpl; intros; by subst. Qed.

Lemma client_step_inv c c' : client_step c c' -> client_inv c -> client_inv c'.
Proof.
  intros Hs Hc. destruct Hs as [c rq h c' Hlt Hrq Hs|c h c' Hs|c data c' _ Hr Hs Hn|c b c' Hr Hs Hn|c c' out Hs|c
    |c rs h c' Hs|c ec|c p s ec s' eff Hp Ht|c x y z|c ec h|c ec c' Hs].
  - by eapply initiate_send_inv.
  - unfold initiate_ping in Hs. destruct (negb _); [done|]. destruct (ping_handler c); [done|].
    injection Hs as <-. eapply kept_client_inv, Hc. by split.
  - eapply kept_client_inv, Hc. eapply frame_effect_kept; [done|]. eapply lands_eq; [|done..].
    apply on_receive_frame_effect.
  - eapply kept_client_inv, Hc. eapply frame_effect_kept; [done|]. eapply lands_eq; [|done..].
    apply on_receive_data_frame_effect.
  - by eapply kept_client_inv, Hc; eapply get_tx_data_kept.
  - eapply kept_client_inv, Hc. by split.
  - by eapply kept_client_inv, Hc; eapply quiet_kept, initiate_sync_settings_quiet.
  - eapply kept_client_inv, Hc; eapply quiet_kept, on_settings_timer_quiet.
  - eapply kept_client_inv, Hc. split; [done| |done]. intros Hi.
    exact (reg_step_inv fresh heap addr moved_response _ _ Hi (StepTimer _ _ _ _ _ _ _ _ _ _ Hp Ht)).
  - eapply kept_client_inv, Hc. by split.
  - eapply kept_client_inv, Hc; apply quiet_kept, initiate_disconnect_quiet.
  - by eapply kept_client_inv, Hc; eapply cleanup_kept.
Qed.

Lemma make_client_inv : client_inv make_client.
Proof.
  split; [apply empty_inv|simpl; lia|]. intros id p Hp. by apply not_elem_of_nil in Hp.
Qed.

Lemma reachable_inv c : rtc client_step make_client c -> client_inv c.
Proof.
  intros Hr. cut (forall c0, client_inv c0 -> rtc client_step c0 c -> client_inv c).
  { intros Hc. by apply (Hc make_client), Hr; apply make_client_inv. }
  clear Hr. intros c0 Hi Hr. induction Hr as [|c1 c2 c3 H12 _ IH]; [done|].
  by apply IH, (client_step_inv c1).
Qed.

(** C11: The streams of a client, in every state it can reach by any interleaving of requests, received frames,
    sending turns, timers and disconnects: an identifier leads to the stream that has it, it is the
    identifier of an earlier request, a stream has something to send exactly when it is in the
    queue of the registry, and no stream is queued twice. *)
Theorem client_streams c :
  rtc client_step make_client c ->
  NoDup (queued (queue (registry c))) /\
  forall id p, get_stream id (registry c) = Some p ->
    exists s k, store (registry c) !! p = Some s /\ http_id s = id /\ id = client_id k /\
      1 <= k < client_id_order c /\ (has_tx_data s = true <-> Some p ∈ queue (registry c)).
Proof.
  intros [Hi Ho Hk]%reachable_inv. split; [apply Hi|]. intros id p Hg%map_find_some.
  destruct (inv_map _ _ _ Hi _ _ Hg) as (s & Hs & Hid), (Hk _ _ Hg) as (k & Hk1 & Hk2).
  exists s, k. split_and!; try done; [lia|lia|..]. rewrite <- elem_queued. split.
  - intros Htx. eapply (inv_awake _ _ _ Hi); [done|done|]. by rewrite Htx, orb_true_r.
  - intros Hq. destruct (inv_queue _ _ _ Hi _ Hq) as (s' & Hs' & _ & Htx & _). congruence.
Qed.

(** C18: Sending a request. On a client that is not connected it throws and nothing changes. Otherwise, up to
    [2^31 - 1] requests, the [k]-th one gets the stream identifier [2 k - 1], which no other stream
    has; its stream, with the windows of the two settings, is found under it and queued for sending behind the
    others, the other streams are as they were, and a write is started. *)
Theorem client_request c rq h :
  rtc client_step make_client c ->
  let k := client_id_order c in
  match initiate_send rq h c with
  | Throw e => is_connected_flag c = false /\ error_of e = AsioError not_connected
  | Ok c' =>
      is_connected_flag c = true /\
      (k < 2 ^ 31 ->
       le_split 4 (client_id k) = be_split 4 (2 * k - 1) /\ get_stream (client_id k) (registry c) = None /\
       client_id_order c' = k + 1 /\ log c' = log c ++ [InitWrite] /\
       (exists p, get_stream (client_id k) (registry c') = Some p /\
          store (registry c') !! p = Some (make_stream (client_id k)
            (initial_window_size (SettingsManager.remote_settings (settings c)))
            (initial_window_size (SettingsManager.local_settings (settings c))) rq h) /\
          queue (registry c') = queue (registry c) ++ [Some p]) /\
       forall id, id <> client_id k -> get_stream id (registry c') = get_stream id (registry c))
  | _ => False
  end.
Proof.
  intros Hc%reachable_inv k. unfold initiate_send. destruct (is_connected_flag c) eqn:Econ; cbn [negb]; [|done].
  destruct (get_next_stream_id c) as [c1 id1] eqn:E1. destruct (new_stream _ _) as [r p] eqn:Hn. split; [done|].
  intros Hlt. pose proof (ci_order _ Hc) as Ho. fold k in Ho.
  rewrite get_next_stream_id_eq in E1 by (fold k; lia). injection E1 as <- <-. fold k in Hn |- *.
  pose proof (client_inv_fresh c Hc Hlt) as Hf. fold k in Hf.
  unfold new_stream in Hn. cbn [registry set_id_order settings] in Hn. injection Hn as <- <-.
  cbn [registry client_id_order set_registry init_write emit set_id_order log add_stream stream_map store queue get_stream].
  split_and!; try done.
  - apply native_to_big_bytes. unfold fits. lia.
  - exists (length (store (registry c))). split_and!; [|by apply list_lookup_middle|done].
    by apply map_find_emplace.
  - intros id Hne. by apply map_find_emplace_ne.
Qed.

(** ** Received frames *)

(** The handler of a frame type. *)
Definition frame_handler (t : frame_type) : span -> base_client -> handled base_client :=
  match t with
  | DATA => on_receive_data_not_reachable
  | HEADERS => on_receive_headers
  | PRIORITY => on_receive_priority
  | RST_STREAM => on_receive_reset
  | SETTINGS => on_receive_settings
  | PUSH_PROMISE => on_receive_push
  | PING => on_receive_ping
  | GOAWAY => on_receive_goaway
  | WINDOW_UPDATE => on_receive_window_update
  | CONTINUATION => on_receive_continuation
  end.

Lemma on_receive_frame_type t data c fa :
  from_buffer data = Ok fa -> type_field (fa_buffer fa) = frame_type_value t ->
  on_receive_frame data c = frame_handler t data (charge_window (sp_len data) c).
Proof. intros H1 H2. unfold on_receive_frame. rewrite H1, H2. by destruct t. Qed.

Lemma get_frame_type t fa frame : get_frame t fa = Ok frame -> type_field (fa_buffer fa) = frame_type_value t.
Proof. unfold get_frame. by destruct (Z.eqb_spec (type_field (fa_buffer fa)) (frame_type_value t)). Qed.

(** A buffer made for a span and filled with it. *)
Lemma copied_buffer bytes :
  let n := Z.of_nat (length bytes) in (commit_span bytes (buffer_new fresh n)).1 = Buffer n n bytes.
Proof.
  intros n. unfold commit_span, prepare_size, write_at, buffer_new. cbn [b_offset b_maxsize b_memory fst].
  rewrite Z.sub_0_r, Z.min_id, Nat2Z.id, firstn_all. cbn [Z.to_nat take app].
  rewrite drop_ge by (rewrite length_fmap, length_seqZ; unfold n; lia). by rewrite app_nil_r.
Qed.

(** PING frames. One without the ACK flag is answered: after the WINDOW_UPDATE frame that may be due,
    the same frame with the flag set is queued, and nothing else happens. One with the flag
    completes the ping in progress: its handler is called once, without an error, and is gone. *)
Theorem client_ping_frame data flags id body c :
  span_ok data -> sp_bytes data = rfc_frame 6 flags id body -> fits 32 id -> Z.of_nat (length body) < 2 ^ 24 ->
  let c1 := charge_window (sp_len data) c in
  on_receive_frame data c = Done (
    if has_flag flags ACK then
      match ping_handler c with
      | Some h => emit [CallPing h NoError] (set_ping_handler None c1)
      | None => c1
      end
    else send_command (Buffer (sp_len data) (sp_len data) (rfc_frame 6 (Z.lor flags ACK) id body)) c1).
Proof.
  intros Hs Hb Hid Hl c1.
  destruct (rfc_frame_parses PING flags id body (fun s => flags_field s = flags) Hid Hl ltac:(by intros) data []
    (Z.of_nat (length body)) Hs) as (fa & H1 & _ & _ & H2 & _ & Hf).
  { by rewrite app_nil_r. }
  { rewrite length_rfc_frame. lia. }
  rewrite (on_receive_frame_type PING _ _ fa H1 (get_frame_type _ _ _ H2)). fold c1.
  cbn [frame_handler]. unfold on_receive_ping, with_frame. rewrite H1. cbn [mbind outcome_bind]. rewrite H2, Hf.
  assert (Hp : ping_handler c1 = ping_handler c)
    by (unfold c1, charge_window; by destruct (Window.update _ _ _) as [w [x|]]).
  rewrite Hp. destruct (has_flag flags ACK); [by destruct (ping_handler c)|].
  assert (Hn : sp_len data = Z.of_nat (length (sp_bytes data))) by (rewrite length_sp_bytes; destruct Hs; lia).
  rewrite Hn, copied_buffer, Hb. reflexivity.
Qed.

(** C20: The end of the settings exchange. When the peer acknowledges the local settings after it has sent its own, the
    window of the connection is opened to [initial_window_size * max_concurrent_streams] bytes: a
    WINDOW_UPDATE frame with the difference is queued behind the other frames, the handler of the
    synchronisation is called once without an error, and a new one can be started. *)
Theorem client_settings_synced data flags l c h :
  SettingsManager.peer_frame data flags l -> has_flag flags ACK = true ->
  SettingsManager.settings_handler (settings c) = Some h -> SettingsManager.remote_settings_got (settings c) = true ->
  let c1 := charge_window (sp_len data) c in
  let local := SettingsManager.local_settings (settings c) in
  let size := u32 (initial_window_size local * max_concurrent_streams local) in
  exists c', on_receive_frame data c = Done c' /\
    local_window c' = make_window size (size / 2) /\
    tx_command_queue c' = tx_command_queue c1 ++ [update_window fresh (u32 (size - Window.current (local_window c1))) 0] /\
    log c' = log c ++ [SettingsTimer SettingsManager.CancelTimer; InitWrite; CallSettings h NoError] /\
    SettingsManager.settings_handler (settings c') = None /\ SettingsManager.local_settings (settings c') = local /\
    registry c' = registry c /\ server_window_size c' = server_window_size c.
Proof.
  intros Hp Hf Hh Hg c1 local size. destruct (SettingsManager.peer_frame_view _ _ _ Hp) as (fa & H1 & H2 & _ & _).
  rewrite (on_receive_frame_type SETTINGS _ _ fa H1 (get_frame_type _ _ _ H2)). fold c1. cbn [frame_handler].
  unfold on_receive_settings. rewrite (SettingsManager.on_settings_frame_peer _ _ _ _ _ Hp), Hf.
  assert (Hc1 : settings c1 = settings c /\ log c1 = log c /\ registry c1 = registry c /\
    server_window_size c1 = server_window_size c)
    by (unfold c1, charge_window; by destruct (Window.update _ _ _) as [w [x|]]).
  destruct Hc1 as (E1 & E2 & E3 & E4). rewrite E1, Hh, Hg. cbn [orb]. cbv zeta iota.
  eexists. split; [reflexivity|].
  unfold SettingsManager.finished, SettingsManager.acknowledged. cbn [SettingsManager.settings_handler]. rewrite Hh.
  cbn -[update_window u32 make_window Z.div Z.mul]. rewrite E2, E3, E4. split_and!; try done. by rewrite <- !app_assoc.
Qed.

(** ** Sending *)

(** The number of bytes of some frames. *)
Definition frame_bytes_total (bs : list buffer) : Z := Z.of_nat (length (concat (data_view <$> bs))).

Lemma frame_bytes_cons b bs :
  frame_bytes_total (b :: bs) = Z.of_nat (length (data_view b)) + frame_bytes_total bs.
Proof. unfold frame_bytes_total. cbn [fmap list_fmap concat]. rewrite length_app. lia. Qed.

Lemma take_commands_split q : forall window,
  let '(sent, rest, _, all) := take_commands q window in q = sent ++ rest /\ all = bool_decide (rest = []).
Proof.
  induction q as [|b q IH]; intros window; cbn [take_commands]; [done|].
  destruct (_ <? _); [done|]. specialize (IH (u64 (window - Z.of_nat (length (data_view b))))).
  destruct (take_commands q _) as [[[sent rest] w] all]. destruct IH as [-> ->]. done.
Qed.

(** Frames of the queue are sent before those of the streams. *)
Lemma get_tx_data_queue c c' out :
  get_tx_data c = Ok (c', out) ->
  is_connected_flag c' = is_connected_flag c /\ start_disconnect_flag c' = start_disconnect_flag c /\
  tx_command_queue c `prefix_of` out ++ tx_command_queue c' /\ start_connecting_flag c' = start_connecting_flag c.
Proof.
  unfold get_tx_data. pose proof (take_commands_split (tx_command_queue c) (server_window_size c)) as Hs.
  destruct (take_commands _ _) as [[[sent rest] w] all]. destruct Hs as [-> ->].
  destruct (bool_decide_reflect (rest = [])) as [->|Hne]; cbn [negb]; [|by intros [= <- <-]].
  destruct (_ <=? _); [|by intros [= <- <-]]. intros Hg.
  apply outcome_bind_ok in Hg as ([[[[r e] frames] used] eff] & _ & [= <- <-]).
  split_and!; [done|done| |done]. cbn. rewrite !app_nil_r. by apply prefix_app_r.
Qed.

Lemma take_commands_spec q : forall window, fits 64 window ->
  let '(sent, rest, window', all) := take_commands q window in
  q = sent ++ rest /\ window' = window - frame_bytes_total sent /\ 0 <= window' /\ all = bool_decide (rest = []) /\
  match rest with b :: _ => window' < Z.of_nat (length (data_view b)) | [] => True end.
Proof.
  induction q as [|b q IH]; intros window Hw; cbn [take_commands].
  { unfold fits in Hw. change (frame_bytes_total []) with 0. split_and!; (done || lia). }
  destruct (Z.ltb_spec window (Z.of_nat (length (data_view b)))) as [Hlt|Hge].
  { unfold fits in Hw. change (frame_bytes_total []) with 0. split_and!; (done || lia). }
  assert (Hw' : fits 64 (window - Z.of_nat (length (data_view b)))) by (unfold fits in *; lia).
  unfold u64. rewrite wrap_small by done. specialize (IH _ Hw').
  destruct (take_commands q _) as [[[sent rest] window'] all]. destruct IH as (-> & -> & H0 & -> & Hr).
  rewrite frame_bytes_cons. split_and!; (done || lia).
Qed.

(** Nothing but the queue, and it fits. *)
Lemma get_tx_data_idle c :
  fits 64 (server_window_size c) -> queue (registry c) = [] ->
  frame_bytes_total (tx_command_queue c) <= server_window_size c ->
  get_tx_data c = Ok (set_tx (server_window_size c - frame_bytes_total (tx_command_queue c)) [] c, tx_command_queue c).
Proof.
  intros Hw Hq Ht. unfold get_tx_data. pose proof (take_commands_spec (tx_command_queue c) _ Hw) as Hs.
  destruct (take_commands _ _) as [[[sent rest] window] all]. destruct Hs as (Hsr & Hwin & H0 & -> & Hr).
  assert (rest = []) as ->.
  { destruct rest as [|b rest]; [done|]. exfalso. rewrite Hsr in Ht.
    unfold frame_bytes_total in Ht, Hwin. rewrite fmap_app, concat_app, length_app in Ht. cbn [fmap list_fmap concat] in Ht.
    rewrite length_app in Ht. lia. }
  rewrite app_nil_r in Hsr. rewrite Hsr, <- Hwin. rewrite bool_decide_eq_true_2 by done. cbn [negb].
  assert (Hf : fits 64 window) by (unfold fits, frame_bytes_total in *; lia).
  assert (Hu : u64 (window - 0) = window) by (rewrite Z.sub_0_r; by apply wrap_small).
  destruct (_ <=? _); [|done]. unfold get_data. destruct c as [d e m [rm rq rs] lw sw q o ph cf nf df ec dh l].
  cbn [registry queue set_tx server_window_size settings encoder decoder stream_map store] in *. subst rq.
  destruct (_ <? 16); cbn [turns mbind outcome_bind tn_next tn_store tn_encoder tn_out tn_used tn_effects];
    cbn; rewrite Hu, app_nil_r; unfold emit; cbn; by rewrite app_nil_r.
Qed.

(** C13: What is sent. The frames of the command queue go first, in order, as many as the window of the peer
    allows, and their bytes are taken off the window; what does not fit stays queued. As long as the
    first one left does not fit, nothing else is sent, not even an acknowledgement, and no stream gets a
    turn. When the queue is empty and at least 18 bytes are left, the streams get a turn
    within the window and the maximal frame size. *)
Theorem client_transmit c :
  fits 64 (server_window_size c) ->
  let local := SettingsManager.local_settings (settings c) in
  exists sent window,
    window = server_window_size c - frame_bytes_total sent /\ 0 <= window /\
    ((exists b rest, tx_command_queue c = sent ++ b :: rest /\ window < Z.of_nat (length (data_view b)) /\
        get_tx_data c = Ok (set_tx window (b :: rest) c, sent))
     \/ (tx_command_queue c = sent /\
        let limit := Z.min window (max_frame_size local) in
        if limit <? 18 then get_tx_data c = Ok (set_tx window [] c, sent)
        else match get_data fresh (encoder c) limit (registry c), get_tx_data c with
             | Ok (r, e, frames, used, eff), Ok (c', out) =>
                 out = sent ++ frames /\ registry c' = r /\ encoder c' = e /\ tx_command_queue c' = [] /\
                 server_window_size c' = u64 (window - used)
             | Ok _, _ | _, Ok _ => False
             | _, _ => True
             end)).
Proof.
  intros Hw local. unfold get_tx_data. pose proof (take_commands_spec (tx_command_queue c) _ Hw) as Ht.
  destruct (take_commands _ _) as [[[sent rest] window] all]. destruct Ht as (Hq & Hwin & H0 & -> & Hr).
  exists sent, window. split_and!; [done|done|]. destruct rest as [|b rest].
  - right. rewrite app_nil_r in Hq. rewrite bool_decide_eq_true_2 by done. cbn [negb]. split; [done|]. cbv zeta.
    cbn [server_window_size settings set_tx registry encoder]. fold local. change (HEADER_SIZE * 2) with 18.
    rewrite Z.leb_antisym. destruct (_ <? 18); cbn [negb]; [done|].
    destruct (get_data _ _ _ _) as [[[[[r e] frames] used] eff]| | |]; cbn [mbind outcome_bind]; done.
  - left. exists b, rest. rewrite bool_decide_eq_false_2 by done. done.
Qed.

(** ** Errors of the peer *)

Lemma read_loop_bad fuel x e :
  9 <= sp_len (incomming_bytes x) ->
  (fa ← from_buffer (incomming_bytes x); check fa (sink_limit (FrameSink := client_sink) (rx_state x))) = Throw e ->
  read_loop (Sink := client_sink) fresh heap addr (S fuel) x = Ok (x, Some e).
Proof.
  intros Hl He. cbn [read_loop]. unfold min_size, HEADER_SIZE. rewrite (proj2 (Z.ltb_ge _ _)) by lia.
  destruct (from_buffer _) as [fa|e'| |]; cbn [mbind outcome_bind attempt] in *; try done; [|congruence].
  destruct (check fa _); cbn [attempt]; try done. congruence.
Qed.

Lemma check_bad s limit :
  span_ok s -> 9 <= sp_len s -> 9 < wire_type (sp_bytes s) \/ limit < be_combine (take 3 (sp_bytes s)) ->
  exists e, (fa ← from_buffer s; check fa limit) = Throw e /\
    error_of e = make_error_code (if 9 <? wire_type (sp_bytes s) then PROTOCOL_ERROR else FRAME_SIZE_ERROR).
Proof.
  intros Hs Hl Hbad. destruct (span_header s Hs Hl) as (Hp & Ht & _). rewrite <- Hp, <- Ht in *.
  pose proof (payload_size_fits s Hs) as Hf. unfold from_buffer, min_size, frame_size, HEADER_SIZE, subspan_count, fits in *.
  rewrite (proj2 (Z.ltb_ge _ _)) by lia.
  rewrite (proj2 (Z.leb_le 0 _)), (proj2 (Z.leb_le _ (_ - 0))) by lia. cbn [andb mbind outcome_bind].
  unfold check. cbn [fa_buffer]. rewrite Z.add_0_r.
  change (type_field (Span _ _ _)) with (type_field s). change (payload_size (Span _ _ _)) with (payload_size s).
  change (frame_type_value CONTINUATION) with 9. destruct (Z.ltb_spec 9 (type_field s)) as [H9|H9]; [by eexists|].
  rewrite (proj2 (Z.ltb_lt limit _)) by lia. by eexists.
Qed.

(** C19: A frame of an unknown type, or longer than the maximal frame size announced, at the front of the
    input. The bytes stay in the buffer. The first time, the disconnection is
    started: the error is kept for the end of the connection and a GOAWAY frame is queued and written;
    but while the settings are being exchanged, only the handler of the exchange gets the error, no GOAWAY is
    queued and no error is kept. When the disconnection has been started before, nothing happens. *)
Theorem client_bad_header b c :
  (forall x, is_byte (heap x)) -> buffer_ok b -> 9 <= b_offset b ->
  9 < wire_type (data_view b) \/
    max_frame_size (SettingsManager.local_settings (settings c)) < be_combine (take 3 (data_view b)) ->
  let ec := make_error_code (if 9 <? wire_type (data_view b) then PROTOCOL_ERROR else FRAME_SIZE_ERROR) in
  exists c', on_read (Sink := client_sink) fresh heap addr b c = Ok (b, c') /\
    registry c' = registry c /\
    if start_disconnect_flag c then c' = c
    else start_disconnect_flag c' = true /\
      match SettingsManager.settings_handler (settings c) with
      | None =>
          connection_error_code c' = ec /\ tx_command_queue c' = tx_command_queue c ++ [goaway fresh IS_OK 1 []] /\
          log c' = log c ++ [SettingsTimer SettingsManager.CancelTimer; InitWrite]
      | Some h =>
          connection_error_code c' = connection_error_code c /\ tx_command_queue c' = tx_command_queue c /\
          log c' = log c ++ [SettingsTimer SettingsManager.CancelTimer; CallSettings h ec]
      end.
Proof.
  intros Hh Hb Hl Hbad ec. pose proof (data_span_ok heap addr b Hh Hb) as Hok.
  pose proof (data_span_bytes heap addr b Hb) as Hsb. rewrite <- Hsb in Hbad.
  destruct (check_bad _ _ Hok Hl Hbad) as (e & He & Hec). rewrite Hsb in Hec. fold ec in Hec.
  exists (initiate_disconnect ec None c). split.
  - unfold on_read. change (sp_len (data_span heap addr b)) with (b_offset b). unfold min_size, HEADER_SIZE.
    rewrite (proj2 (Z.ltb_ge _ _)) by lia.
    rewrite (read_loop_bad _ (Rx _ 0 b c) e) by done. cbn [mbind outcome_bind rx_state incomming_bytes used_bytes io_buff].
    change (sp_len (data_span heap addr b)) with (b_offset b). rewrite (proj2 (Z.eqb_neq _ 0)) by lia.
    cbn [Z.eqb negb sink_error client_sink]. by rewrite Hec.
  - unfold initiate_disconnect. destruct (start_disconnect_flag c); [done|].
    unfold SettingsManager.cancel, SettingsManager.finished. cbn [settings set_flags].
    destruct (SettingsManager.settings_handler (settings c)) as [h|] eqn:Eh; cbn [run_settings app].
    + rewrite on_settings_synced_failed by (unfold ec; by destruct (9 <? _)).
      cbn. rewrite <- app_assoc. done.
    + cbn -[goaway]. rewrite <- app_assoc. done.
Qed.
End client.
Arguments base_client : clear implicits.
Arguments action : clear implicits.

(** ** Examples *)

Section examples.
#[local] Existing Instance IndexedDynamicTable.linear_search.
#[local] Abbreviation fresh := (fun _ : Z => 7).
#[local] Abbreviation heap := (fun _ : Z => 0).
#[local] Abbreviation moved := (fun r : response => r).

Definition example_request : request := Request [HeaderField (str ":method") (str "GET") DEFAULT] [] [] 0 30000.

(** A connected client, and one that has sent a request. *)
Definition example_client : base_client nat := set_flags true true false make_client.
Definition example_sent : base_client nat :=
  match initiate_send example_request 1%nat example_client with Ok c => c | _ => make_client end.

Lemma example_reachable : rtc (client_step fresh heap 0 moved) make_client example_client.
Proof. apply rtc_once, (CFlags _ _ _ _ make_client true true false). Qed.

Lemma client_request_witness :
  exists p, get_stream (native_to_big 1) (registry example_sent) = Some p /\
    queue (registry example_sent) = [Some p] /\ client_id_order example_sent = 2.
Proof.
  pose proof (client_request fresh heap 0 moved example_client example_request 1%nat example_reachable) as Hr.
  destruct Hr as [_ Hr]. destruct Hr as (_ & _ & Ho & _ & (p & Hp & _ & Hq) & _); [reflexivity|].
  exists p. split; [exact Hp|]. split; [exact Hq|exact Ho].
Defined.

Lemma client_streams_witness :
  exists s, store (registry example_sent) !! 0%nat = Some s /\ http_id s = native_to_big 1 /\
    (has_tx_data s = true <-> Some 0%nat ∈ queue (registry example_sent)).
Proof.
  assert (Hr : rtc (client_step fresh heap 0 moved) make_client example_sent).
  { eapply rtc_r; [exact example_reachable|].
    apply (CSend _ _ _ _ example_client example_request 1%nat); [reflexivity|discriminate|reflexivity]. }
  destruct (client_streams fresh heap 0 moved example_sent Hr) as [_ Hs].
  destruct (Hs (native_to_big 1) 0%nat) as (s & k & H1 & H2 & _ & _ & H3); [reflexivity|].
  exists s. split; [exact H1|]. split; [exact H2|exact H3].
Defined.

(** A PING frame of the peer. *)
Definition ping_bytes_of (flags : Z) : list Z := rfc_frame 6 flags 0 [1; 2; 3; 4; 5; 6; 7; 8].

Lemma client_ping_frame_witness :
  on_receive_frame fresh moved (span_of heap 100 (ping_bytes_of 0)) example_client =
    Done (send_command (Buffer 17 17 (ping_bytes_of 1))
      (charge_window fresh 17 example_client)).
Proof.
  apply (client_ping_frame fresh moved (span_of heap 100 (ping_bytes_of 0)) 0 0 [1; 2; 3; 4; 5; 6; 7; 8] example_client).
  - apply span_of_ok; [by split|]. repeat constructor; by vm_compute.
  - apply sp_bytes_place.
  - by split.
  - reflexivity.
Defined.

(** A client whose settings have been sent and which has got those of the peer. *)
Definition example_syncing : base_client nat :=
  set_settings (SettingsManager.SettingsManager default_settings default_settings true false true (Some 5%nat)) example_client.

Lemma client_settings_synced_witness :
  exists c, on_receive_frame fresh moved (SettingsManager.example_frame 1 []) example_syncing = Done c /\
    log c = [SettingsTimer SettingsManager.CancelTimer; InitWrite; CallSettings 5%nat NoError] /\
    Window.current (local_window c) = 6553500 /\ length (tx_command_queue c) = 1%nat.
Proof.
  destruct (client_settings_synced fresh moved (SettingsManager.example_frame 1 []) 1 [] example_syncing 5%nat)
    as (c & H1 & H2 & H3 & H4 & _); [|reflexivity..|].
  - apply SettingsManager.example_peer_frame; [by split|constructor|done].
  - exists c. split; [exact H1|]. split; [exact H4|]. split; [by rewrite H2|by rewrite H3].
Defined.

(** Twenty bytes of window for two frames of 17 bytes. *)
Definition example_blocked : base_client nat := set_tx 20 [ping fresh []; ping fresh []] example_client.

Lemma client_transmit_witness :
  get_tx_data fresh example_blocked = Ok (set_tx 3 [ping fresh []] example_client, [ping fresh []]).
Proof.
  destruct (client_transmit fresh example_blocked) as (sent & window & -> & H0 & [(b & rest & Hq & Hb & ->)|[Hq _]]);
    [by split| |].
  - destruct sent as [|b1 [|b2 sent]].
    + exfalso. apply (f_equal (hd moved_from)) in Hq. cbn in Hq. subst b. vm_compute in Hb. discriminate.
    + injection Hq as <- <- <-. reflexivity.
    + exfalso. apply (f_equal length) in Hq. rewrite length_app in Hq. cbn in Hq. lia.
  - exfalso. rewrite <- Hq in H0. vm_compute in H0. by apply H0.
Defined.

(** A frame of type 10. *)
Definition example_unknown : buffer := Buffer 9 64 ([0; 0; 0; 10; 0; 0; 0; 0; 1] ++ repeat 7 55).

Lemma client_bad_header_witness :
  exists c, on_read (Sink := client_sink fresh heap 0 moved) fresh heap 0 example_unknown example_client
      = Ok (example_unknown, c) /\
    connection_error_code c = make_error_code PROTOCOL_ERROR /\ length (tx_command_queue c) = 1%nat.
Proof.
  destruct (client_bad_header fresh heap 0 moved example_unknown example_client) as (c & H1 & _ & _ & H2 & H3 & _).
  - by split.
  - split; [simpl; lia|]. split; [reflexivity|]. repeat constructor; by vm_compute.
  - simpl; lia.
  - left. reflexivity.
  - exists c. split; [exact H1|]. split; [exact H2|by rewrite H3].
Defined.
End examples.
