(* ===== verification/ClientReading.v ===== *)
(** * Reading the frames of a connection (base_client::on_read with base_client's handlers)

    The client is an instance of the handler interface of [Reassembly]: frames that belong to
    the connection and not to a stream (PING, PRIORITY, GOAWAY, WINDOW_UPDATE of stream 0) are
    handled without exception, with an effect that depends on their bytes only. So a
    sequence of such frames has the same effect however it is cut into reads. *)
From S2P Require Import Prelude Memory Utils Buffer Protocol Frame FrameBuilder.
From S2P Require Import Request Response Stream StreamRegistry Reassembly BaseClient.
From S2P Require Window SettingsManager IndexedDynamicTable.
Import IndexedDynamicTable (SetSearch).
Import Window (dummy_window).

(** The frames of a connection: a request for an answer, two kinds that are ignored, and more window. *)
Inductive control_frame : Type :=
| Ping (flags : Z) (body : list Z)
| Priority (flags id : Z) (body : list Z)
| Goaway (flags id : Z) (body : list Z)
| WindowUpdate (flags increment : Z).

Definition control_bytes (k : control_frame) : list Z :=
  match k with
  | Ping flags body => rfc_frame 6 flags 0 body
  | Priority flags id body => rfc_frame 2 flags id body
  | Goaway flags id body => rfc_frame 7 flags id body
  | WindowUpdate flags n => rfc_frame 8 flags 0 (be_split 4 n)
  end.

(** Well-formed frames, no longer than the limit. *)
Definition control_ok (limit : Z) (k : control_frame) : Prop :=
  match k with
  | Ping flags body =>
      fits 8 flags /\ has_flag flags ACK = false /\ bytes_ok body /\ Z.of_nat (length body) <= limit
  | Priority flags id body | Goaway flags id body =>
      fits 8 flags /\ fits 32 id /\ bytes_ok body /\ Z.of_nat (length body) <= limit
  | WindowUpdate flags n => fits 8 flags /\ fits 32 n /\ 4 <= limit
  end.

(** The answers to the pings, and the window gained. *)
Definition acks (ks : list control_frame) : list (list Z) :=
  omap (fun k => match k with Ping flags body => Some (rfc_frame 6 (Z.lor flags ACK) 0 body) | _ => None end) ks.
Fixpoint gained (ks : list control_frame) : Z :=
  match ks with
  | [] => 0
  | WindowUpdate _ n :: ks => n + gained ks
  | _ :: ks => gained ks
  end.
(** What the frames do to the receive window. *)
Definition window_ops (ks : list control_frame) : list Window.window_op :=
  ks ≫= fun k => [Window.Received (Z.of_nat (length (control_bytes k))); Window.Update].

(** ** Bytes of frames *)

Lemma rfc_frame_cons t flags id body :
  rfc_frame t flags id body =
    be_split 3 (Z.of_nat (length body)) ++ t :: flags :: be_split 4 id ++ body.
Proof. done. Qed.

Lemma rfc_frame_wire t flags id body :
  Z.of_nat (length body) < 2 ^ 24 ->
  let f := rfc_frame t flags id body in
  wire_type f = t /\ be_combine (take 3 f) = Z.of_nat (length body) /\ wire_size f = length f /\
  length f = (9 + length body)%nat.
Proof.
  intros Hl f. assert (Hc : be_combine (take 3 f) = Z.of_nat (length body)).
  { unfold f. rewrite rfc_frame_cons, take_app_length' by (by rewrite length_be_split).
    rewrite be_combine_split. apply wrap_small. unfold fits. lia. }
  assert (Hn : length f = (9 + length body)%nat)
    by (unfold f, rfc_frame; rewrite !length_app, !length_be_split; simpl; lia).
  split_and!; [done|done| |done]. unfold wire_size, HEADER_SIZE. rewrite Hc, Hn. lia.
Qed.

(** A sequence of whole frames is cut into these frames. *)
Definition whole (f : list Z) : Prop := bytes_ok f /\ (9 <= length f)%nat /\ wire_size f = length f.

Lemma frames_whole fs : Forall whole fs -> frames (concat fs) = fs /\ remainder (concat fs) = [].
Proof.
  induction fs as [|f fs IH]; intros Hf; [done|]. apply Forall_cons in Hf as [(Hb & H9 & Hw) Hf].
  destruct (IH Hf) as [IH1 IH2]. cbn [concat].
  assert (Hbs : bytes_ok (f ++ concat fs)).
  { apply Forall_app. split; [done|]. apply Forall_concat. eapply Forall_impl; [exact Hf|]. by intros x [Hx _]. }
  destruct (frames_step _ Hbs) as [-> ->].
  assert (Hws : wire_size (f ++ concat fs) = length f) by (unfold wire_size in *; by rewrite take_app_le by lia).
  assert (E : incomplete (f ++ concat fs) = false).
  { unfold incomplete. rewrite Hws, length_app. apply orb_false_iff. split; apply Nat.ltb_ge; lia. }
  rewrite E, Hws, take_app_length, drop_app_length, IH1, IH2. done.
Qed.

Lemma control_wire limit k :
  limit < 2 ^ 24 -> control_ok limit k ->
  whole (control_bytes k) /\ header_ok limit (control_bytes k) /\ wire_type (control_bytes k) <> 0.
Proof.
  intros Hlim Hk.
  assert (Hw : forall t flags id body, is_byte t -> t <= 9 -> t <> 0 -> fits 8 flags -> bytes_ok body ->
    Z.of_nat (length body) <= limit ->
    let f := rfc_frame t flags id body in whole f /\ header_ok limit f /\ wire_type f <> 0).
  { intros t flags id body Ht Ht9 Ht0 Hf Hb Hl f. destruct (rfc_frame_wire t flags id body) as (H1 & H2 & H3 & H4); [lia|].
    fold f in H1, H2, H3, H4. split_and!; [|intros _; lia|by rewrite H1].
    split_and!; [by apply rfc_frame_bytes|lia|done]. }
  destruct k as [flags body|flags id body|flags id body|flags n]; cbn [control_bytes control_ok] in *.
  - destruct Hk as (Hf & _ & Hb & Hl). by apply Hw.
  - destruct Hk as (Hf & _ & Hb & Hl). by apply Hw.
  - destruct Hk as (Hf & _ & Hb & Hl). by apply Hw.
  - destruct Hk as (Hf & _ & Hl). apply Hw; try done; apply be_split_bytes_ok || (rewrite length_be_split; lia).
Qed.

(** ** The client as the handler of these frames *)

Section reading.
Context {SS : SetSearch} {H : Type}.
Context (fresh : Z -> Z) (heap : Z -> Z) (addr : Z) (moved_response : response -> response).
Context (limit : Z) (Hlimit : limit < 2 ^ 24).
Implicit Types c : base_client H.

(** The receive window, the window of the peer and the frames to send. *)
Abbreviation observation := (dummy_window * Z * list (list Z))%type.
Definition client_obs c : observation :=
  (local_window c, server_window_size c, data_view <$> tx_command_queue c).

Definition charge_spec (n : Z) (o : observation) : observation :=
  let '(w, window, q) := o in
  let '(w, upd) := Window.update fresh 0 (Window.dec n w) in
  (w, window, q ++ (data_view <$> option_list upd)).

Definition control_spec (f : list Z) (o : observation) : observation :=
  let '(w, window, q) := charge_spec (Z.of_nat (length f)) o in
  if wire_type f =? 6 then (w, window, q ++ [<[4%nat := Z.lor (nth 4 f 0) ACK]> f])
  else if wire_type f =? 8 then (w, u64 (window + be_combine (take 4 (drop 9 f))), q)
  else (w, window, q).

Definition control_good (f : list Z) (o : observation) : Prop :=
  exists k, control_ok limit k /\ f = control_bytes k.

Lemma charge_obs n c : client_obs (charge_window fresh n c) = charge_spec n (client_obs c).
Proof.
  unfold charge_window, charge_spec, client_obs. destruct (Window.update _ _ _) as [w [b|]].
  - cbn [send_command set_tx set_local_window local_window server_window_size tx_command_queue option_list].
    by rewrite fmap_app.
  - cbn [option_list fmap list_fmap]. by rewrite app_nil_r.
Qed.

(** Streams, codec and settings are as they were, and nothing has been called. *)
Definition same_setup c c' : Prop :=
  settings c' = settings c /\ start_disconnect_flag c' = start_disconnect_flag c.
Definition same_streams c c' : Prop :=
  registry c' = registry c /\ log c' = log c /\ decoder c' = decoder c /\ encoder c' = encoder c /\ same_setup c c'.

Lemma charge_window_same n c : same_streams c (charge_window fresh n c).
Proof. unfold same_streams, same_setup, charge_window. by destruct (Window.update _ _ _) as [w [b|]]. Qed.

(** A frame whose bytes are a span is parsed. *)
Lemma parsed t flags id body s :
  fits 32 id -> Z.of_nat (length body) < 2 ^ 24 -> span_ok s -> sp_bytes s = rfc_frame (frame_type_value t) flags id body ->
  exists fa, from_buffer s = Ok fa /\ get_frame t fa = Ok (fa_buffer fa) /\ flags_field (fa_buffer fa) = flags /\
    stream_id_field (fa_buffer fa) = native_to_big id /\ span_ok (fa_buffer fa) /\
    sp_bytes (fa_buffer fa) = rfc_frame (frame_type_value t) flags id body /\
    sp_len (fa_buffer fa) = 9 + Z.of_nat (length body).
Proof.
  intros Hid Hl Hs Hb.
  destruct (rfc_frame_parses t flags id body (fun s' => flags_field s' = flags /\ stream_id_field s' = native_to_big id /\
    span_ok s' /\ sp_len s' = 9 + Z.of_nat (length body)) Hid Hl ltac:(by intros) s [] (Z.of_nat (length body)) Hs)
    as (fa & H1 & _ & _ & H2 & H3 & H4 & H5 & H6 & H7).
  { by rewrite app_nil_r. }
  { destruct (rfc_frame_wire (frame_type_value t) flags id body Hl) as (_ & _ & _ & ->). lia. }
  by exists fa.
Qed.

Definition client_handlers : FrameSink (base_client H) := client_sink fresh heap addr moved_response.

(** A frame of the connection is handled, and does not touch the streams, the codec and the settings. *)
Lemma control_handled k s c :
  control_ok limit k -> span_ok s -> sp_bytes s = control_bytes k ->
  exists c', on_receive_frame fresh moved_response s c = Done c' /\
    client_obs c' = control_spec (sp_bytes s) (client_obs c) /\ same_streams c c'.
Proof.
  intros Hk Hs Hb.
  assert (Hlen : sp_len s = Z.of_nat (length (sp_bytes s))) by (rewrite length_sp_bytes; destruct Hs; lia).
  pose proof (charge_window_same (sp_len s) c) as Hsame. unfold control_spec. rewrite <- Hlen, <- charge_obs.
  set (c1 := charge_window fresh (sp_len s) c).
  destruct k as [flags body|flags id body|flags id body|flags n]; cbn [control_bytes control_ok] in *.
  - destruct Hk as (Hf & Hack & Hbo & Hl). destruct (rfc_frame_wire 6 flags 0 body ltac:(lia)) as (Ht & _).
    destruct (parsed PING flags 0 body s) as (fa & H1 & H2 & H3 & _); [by split|lia|done|done|].
    rewrite (on_receive_frame_type _ _ PING _ _ fa H1 (get_frame_type _ _ _ H2)). fold c1. cbn [frame_handler].
    unfold on_receive_ping, with_frame. rewrite H1. cbn [mbind outcome_bind]. rewrite H2, H3, Hack, Hb, Ht.
    eexists. split; [reflexivity|]. split; [|done]. unfold client_obs.
    cbn [send_command set_tx local_window server_window_size tx_command_queue Z.eqb Pos.eqb].
    rewrite fmap_app, Hlen, Hb, copied_buffer. f_equal. f_equal. cbn [fmap list_fmap]. f_equal.
    unfold data_view. cbn [b_offset b_memory write_at]. rewrite Nat2Z.id, take_ge; [done|].
    rewrite !length_app, length_take, length_drop. simpl. lia.
  - destruct Hk as (Hf & Hid & Hbo & Hl). destruct (rfc_frame_wire 2 flags id body ltac:(lia)) as (Ht & _).
    destruct (parsed PRIORITY flags id body s) as (fa & H1 & H2 & _); [done|lia|done|done|].
    rewrite (on_receive_frame_type _ _ PRIORITY _ _ fa H1 (get_frame_type _ _ _ H2)). fold c1.
    eexists. split; [reflexivity|]. rewrite Hb, Ht. done.
  - destruct Hk as (Hf & Hid & Hbo & Hl). destruct (rfc_frame_wire 7 flags id body ltac:(lia)) as (Ht & _).
    destruct (parsed GOAWAY flags id body s) as (fa & H1 & H2 & _); [done|lia|done|done|].
    rewrite (on_receive_frame_type _ _ GOAWAY _ _ fa H1 (get_frame_type _ _ _ H2)). fold c1.
    eexists. split; [reflexivity|]. rewrite Hb, Ht. done.
  - destruct Hk as (Hf & Hn & Hl). pose proof (length_be_split 4 n) as Hl4.
    destruct (rfc_frame_wire 8 flags 0 (be_split 4 n) ltac:(lia)) as (Ht & _).
    destruct (parsed WINDOW_UPDATE flags 0 (be_split 4 n) s) as (fa & H1 & H2 & _ & H4 & H5 & H6 & H7);
      [by split|lia|done|done|].
    rewrite (on_receive_frame_type _ _ WINDOW_UPDATE _ _ fa H1 (get_frame_type _ _ _ H2)). fold c1. cbn [frame_handler].
    unfold on_receive_window_update, with_frame. rewrite H1. cbn [mbind outcome_bind]. rewrite H2, H4.
    change (native_to_big 0) with 0. cbn [Z.eqb]. eexists. split; [reflexivity|]. split; [|done].
    rewrite Hb, Ht. unfold client_obs. cbn [set_tx local_window server_window_size tx_command_queue Z.eqb Pos.eqb].
    do 4 f_equal. unfold window_size, HEADER_SIZE. rewrite sp_slice_bytes by lia. by rewrite H6.
Qed.

#[local] Instance control_laws : SinkLaws client_handlers (fun c => eq (client_obs c)) control_spec control_good.
Proof.
  split.
  { intros b c o _ Ht _ (k & Hk & Hb). destruct (control_wire limit k Hlimit Hk) as (_ & _ & Hne). by rewrite Hb in Ht. }
  intros s c o Hs _ <- (k & Hk & Hb). destruct (control_handled k s c Hk Hs Hb) as (c' & H1 & H2 & _ & _ & _ & _ & H3 & _).
  exists c'. split_and!; [done|done|]. cbn [sink_limit client_handlers client_sink]. by rewrite H3.
Qed.

(** The effect of a frame: window updates of the client's own, then the answer. *)
Lemma control_spec_frame k w window q :
  control_ok limit k ->
  let '(w1, upd) := Window.update fresh 0 (Window.dec (Z.of_nat (length (control_bytes k))) w) in
  control_spec (control_bytes k) (w, window, q) =
    (w1, (match k with WindowUpdate _ n => u64 (window + n) | _ => window end),
     q ++ (data_view <$> option_list upd) ++ acks [k]).
Proof.
  intros Hk. unfold control_spec, charge_spec. destruct (Window.update _ _ _) as [w1 upd].
  destruct k as [flags body|flags id body|flags id body|flags n]; cbn [control_bytes control_ok] in *;
    match goal with |- context [wire_type ?f] => change (wire_type f) with (nth 3 f 0); cbn [nth] end.
  - rewrite <- app_assoc. reflexivity.
  - change (nth 3 (rfc_frame 2 flags id body) 0) with 2. cbn. by rewrite app_nil_r.
  - change (nth 3 (rfc_frame 7 flags id body) 0) with 7. cbn. by rewrite app_nil_r.
  - destruct Hk as (_ & Hn & _). change (nth 3 (rfc_frame 8 flags 0 (be_split 4 n)) 0) with 8.
    change (8 =? 6) with false. change (8 =? 8) with true. cbv iota.
    replace (be_combine (take 4 (drop 9 (rfc_frame 8 flags 0 (be_split 4 n))))) with n.
    + cbn [acks omap list_omap]. by rewrite app_nil_r.
    + change (take 4 (drop 9 (rfc_frame 8 flags 0 (be_split 4 n)))) with (be_split 4 n).
      rewrite be_combine_split. by rewrite wrap_small.
Qed.

(** The client's own window updates. *)
Lemma update_type w w1 upd :
  Window.update fresh 0 w = (w1, upd) -> Forall (fun f => wire_type f = 8) (data_view <$> option_list upd).
Proof.
  unfold Window.update. destruct (negb _); intros [= <- <-]; cbn [option_list fmap list_fmap]; [constructor|].
  constructor; [|constructor]. change 0 with (native_to_big 0) at 1. by rewrite update_window_bytes by (by split).
Qed.

(** Pings and the other frames of a list. *)
Abbreviation pings q := (filter (fun f => wire_type f = 6) q).
Abbreviation others q := (filter (fun f => wire_type f <> 6) q).

Lemma filter_updates q : Forall (fun f => wire_type f = 8) q -> pings q = [] /\ others q = q.
Proof.
  induction 1 as [|f q Hf _ [IH1 IH2]]; [done|].
  rewrite filter_cons_False by lia. rewrite filter_cons_True by lia. by rewrite IH1, IH2.
Qed.

Lemma filter_acks ks : pings (acks ks) = acks ks /\ others (acks ks) = [].
Proof.
  induction ks as [|k ks [IH1 IH2]]; [done|]. destruct k as [flags body| | |]; cbn [acks omap list_omap]; try done.
  fold (acks ks). rewrite filter_cons_True by done. rewrite filter_cons_False by (by intros Hn; apply Hn).
  by rewrite IH1, IH2.
Qed.

Lemma control_run ks : forall w window q, Forall (control_ok limit) ks -> fits 64 window ->
  let r := Window.run fresh 0 (window_ops ks) w in
  exists q', foldl (fun o f => control_spec f o) (w, window, q) (control_bytes <$> ks)
      = (r.1, u64 (window + gained ks), q ++ q') /\
    pings q' = acks ks /\ others q' = data_view <$> r.2.
Proof.
  induction ks as [|k ks IH]; intros w window q Hks Hw.
  { exists []. cbn -[u64]. rewrite app_nil_r, Z.add_0_r. unfold u64. by rewrite wrap_small. }
  apply Forall_cons in Hks as [Hk Hks]. cbn [fmap list_fmap foldl window_ops mbind list_bind app Window.run].
  pose proof (control_spec_frame k w window q Hk) as Hs.
  destruct (Window.update fresh 0 _) as [w1 upd] eqn:Eu. rewrite Hs. fold (window_ops ks).
  set (window1 := match k with WindowUpdate _ n => u64 (window + n) | _ => window end).
  assert (Hw1 : fits 64 window1) by (unfold window1; destruct k; try done; apply wrap_fits; lia).
  destruct (IH w1 window1 (q ++ (data_view <$> option_list upd) ++ acks [k]) Hks Hw1) as (q' & Hf & Hp & Ho).
  exists (((data_view <$> option_list upd) ++ acks [k]) ++ q'). rewrite Hf, !filter_app.
  destruct (filter_updates _ (update_type _ _ _ Eu)) as [-> ->], (filter_acks [k]) as [-> ->].
  destruct (Window.run fresh 0 (window_ops ks) w1) as [w2 out]. cbn [fst snd] in *.
  assert (Hg : u64 (window1 + gained ks) = u64 (window + gained (k :: ks))).
  { unfold window1. destruct k; try done. cbn [gained]. unfold u64, wrap. rewrite Zplus_mod_idemp_l. f_equal. lia. }
  rewrite Hp, Ho, Hg, fmap_app, app_nil_r, <- !app_assoc. split_and!; [done|by destruct k|done].
Qed.

(** C10: However the bytes are cut into reads, a sequence of connection frames has exactly its effect: each PING is
    answered, in order, by the same frame with the ACK flag; the WINDOW_UPDATE frames add up to the window of
    the peer; the receive window is charged with every frame and its updates are queued in between;
    PRIORITY and GOAWAY do nothing. Nothing of the input is left. *)
Theorem client_reads_control ks chunks b c :
  (forall i, is_byte (fresh i)) -> (forall i, is_byte (heap i)) ->
  limit = max_frame_size (SettingsManager.local_settings (settings c)) -> fits 64 (server_window_size c) ->
  rx_ready [] b -> Forall (control_ok limit) ks -> concat chunks = ks ≫= control_bytes ->
  chunks_fit (Sink := client_handlers) fresh heap addr chunks b c ->
  let r := Window.run fresh 0 (window_ops ks) (local_window c) in
  exists b' c' q, read_all (Sink := client_handlers) fresh heap addr chunks b c = Ok (b', c') /\ data_view b' = [] /\
    data_view <$> tx_command_queue c' = (data_view <$> tx_command_queue c) ++ q /\
    pings q = acks ks /\ others q = data_view <$> r.2 /\
    local_window c' = r.1 /\ server_window_size c' = u64 (server_window_size c + gained ks).
Proof.
  intros Hfr Hhe Hlim Hw Hb Hks Hc Hfit r.
  assert (Hwh : Forall whole (control_bytes <$> ks)).
  { apply Forall_fmap. eapply Forall_impl; [exact Hks|]. intros k Hk. by apply (control_wire limit). }
  assert (Hcc : concat chunks = concat (control_bytes <$> ks)).
  { rewrite Hc. clear. induction ks as [|k ks IH]; [done|]. cbn [mbind list_bind fmap list_fmap concat].
    f_equal. exact IH. }
  destruct (frames_whole _ Hwh) as [Hfs Hrem].
  assert (Hbytes : Forall (Forall is_byte) chunks).
  { apply Forall_concat. rewrite Hcc. apply Forall_concat. eapply Forall_impl; [exact Hwh|]. by intros f [Hf _]. }
  destruct (read_all_frames (Sink := client_handlers) (fun c => eq (client_obs c)) control_spec control_good fresh Hfr heap Hhe addr
    chunks [] b c (client_obs c))
    as (b' & c' & Hr & Ho & (_ & Hb' & _)); try done.
  - change (concat chunks) with ([] ++ concat chunks) in Hcc. rewrite Hcc. split; rewrite ?Hfs, ?Hrem.
    + apply Forall_fmap. eapply Forall_impl; [exact Hks|]. intros k Hk.
      change (sink_limit c) with (max_frame_size (SettingsManager.local_settings (settings c))). rewrite <- Hlim.
      by apply (control_wire limit).
    + intros Hl. simpl in Hl. lia.
  - change (concat chunks) with ([] ++ concat chunks) in Hcc. rewrite Hcc, Hfs. clear - Hks.
    generalize (client_obs c). induction Hks as [|k ks Hk _ IH]; intros o; [done|]. split; [by exists k|apply IH].
  - change (concat chunks) with ([] ++ concat chunks) in Hcc. rewrite Hcc, Hfs in Ho. rewrite Hcc, Hrem in Hb'.
    destruct (control_run ks (local_window c) (server_window_size c) (data_view <$> tx_command_queue c) Hks Hw)
      as (q & Hq & Hp & Hq8). unfold apply_frames, client_obs in Ho. rewrite Hq in Ho. injection Ho as H1 H2 H3.
    by exists b', c', q.
Qed.
End reading.

(** A PING and a WINDOW_UPDATE frame, cut in the middle of the first. *)
Section example.
#[local] Existing Instance IndexedDynamicTable.linear_search.

Definition example_control : list control_frame := [Ping 0 [1; 2; 3; 4; 5; 6; 7; 8]; WindowUpdate 0 1000].
Definition example_chunks : list (list Z) :=
  let bytes := example_control ≫= control_bytes in [take 12 bytes; drop 12 bytes].

Lemma client_reads_control_witness :
  exists b c q, read_all (Sink := client_handlers (fun _ => 7) (fun _ => 0) 100 (fun r => r)) (fun _ => 7) (fun _ => 0) 100
      example_chunks (input_buffer (fun _ => 7)) example_client = Ok (b, c) /\
    data_view <$> tx_command_queue c = q /\
    filter (fun f => wire_type f = 6) q = [rfc_frame 6 1 0 [1; 2; 3; 4; 5; 6; 7; 8]] /\
    server_window_size c = 66535.
Proof.
  destruct (client_reads_control (fun _ => 7) (fun _ => 0) 100 (fun r => r) 16384 ltac:(lia) example_control example_chunks
    (input_buffer (fun _ => 7)) example_client) as (b & c & q & H1 & _ & H2 & H3 & _ & _ & H4).
  - by split.
  - by split.
  - reflexivity.
  - by split.
  - split; [apply buffer_new_ok; [by split|lia]|done].
  - repeat (apply Forall_cons; split); [..|by apply Forall_nil];
      cbn; split_and!; try done; repeat constructor; by vm_compute.
  - reflexivity.
  - vm_compute. repeat split; discriminate.
  - exists b, c, q. split; [exact H1|]. split; [exact H2|]. split; [exact H3|exact H4].
Defined.
End example.
