(* ===== verification/ClientWindow.v ===== *)
(** * Flow control of a connection (base_client::on_receive_frame, dummy_window)

    The receive window of a whole client: every frame it is given, whatever its type and content and
    whatever comes of it, is charged to the window before it is handled, and the handlers leave the
    window alone. So what is known of the window of [Window] holds for the client: the
    peer gets back exactly the credit it has used. *)
From S2P Require Import Prelude Memory Utils Buffer HeaderField Protocol Frame FrameBuilder.
From S2P Require Import Request Response Stream StreamRegistry Reassembly BaseClient ClientReading.
From S2P Require Window SettingsManager IndexedDynamicTable.
Import IndexedDynamicTable (SetSearch).
Import Window (Received, Update, window_ok, honoured, sum_list_z).

(** Frames as [on_read] hands them over: the buffer of a DATA frame, the bytes of any other. *)
Inductive received : Type := ReceivedData (b : buffer) | ReceivedFrame (s : span).

Definition received_bytes (f : received) : Z :=
  match f with ReceivedData b => Z.of_nat (length (data_view b)) | ReceivedFrame s => sp_len s end.
Definition received_ok (f : received) : Prop :=
  match f with ReceivedData b => True | ReceivedFrame s => span_ok s end.
Definition received_ops (fs : list received) : list Window.window_op :=
  fs ≫= fun f => [Received (received_bytes f); Update].

(** The WINDOW_UPDATE frames among some frames. *)
Definition window_updates (q : list buffer) : list (list Z) := filter (fun f => wire_type f = 8) (data_view <$> q).

Lemma window_updates_app q1 q2 : window_updates (q1 ++ q2) = window_updates q1 ++ window_updates q2.
Proof. unfold window_updates. by rewrite fmap_app, filter_app. Qed.

Lemma received_total fs : Window.received (received_ops fs) = sum_list_z (received_bytes <$> fs).
Proof.
  induction fs as [|f fs IH]; [done|]. unfold received_ops in *. rewrite bind_cons, fmap_cons.
  cbn [app Window.received]. rewrite IH. done.
Qed.

(** The type of a frame that is parsed. *)
Lemma from_buffer_type data fa :
  span_ok data -> from_buffer data = Ok fa -> type_field (fa_buffer fa) = wire_type (sp_bytes data).
Proof.
  intros Hs. unfold from_buffer. destruct (Z.ltb_spec (sp_len data) min_size) as [|Hl]; [done|]. intros Hf.
  destruct (span_header data Hs Hl) as (_ & <- & _). unfold subspan_count in Hf.
  destruct (_ && _); [|done]. cbn [mbind outcome_bind] in Hf. injection Hf as <-. cbn [fa_buffer].
  unfold type_field, sp_get. cbn [sp_mem sp_base]. by rewrite Z.add_0_r.
Qed.

Section window.
Context {SS : SetSearch} {H : Type} (fresh : Z -> Z) (heap : Z -> Z) (addr : Z) (moved_response : response -> response).
Implicit Types c : base_client H.

Definition handle (f : received) c : handled (base_client H) :=
  match f with
  | ReceivedData b => on_receive_data_frame fresh heap addr moved_response b c
  | ReceivedFrame s => on_receive_frame fresh moved_response s c
  end.

(** Frames handled one after the other, with or without an exception. *)
Inductive handles : list received -> base_client H -> base_client H -> Prop :=
| HandlesNil c : handles [] c c
| HandlesDone f fs c c1 c' : handle f c = Done c1 -> handles fs c1 c' -> handles (f :: fs) c c'
| HandlesRaised f fs c e c1 c' : handle f c = Raised e c1 -> handles fs c1 c' -> handles (f :: fs) c c'.

(** No synchronisation of settings is under way. *)
Definition settled_settings c : Prop := SettingsManager.settings_handler (settings c) = None.

(** A change that leaves the window alone. *)
Record same_window c c' : Prop := {
  sw_window : local_window c' = local_window c;
  sw_settings : settled_settings c -> settled_settings c';
  sw_queue : exists q, tx_command_queue c' = tx_command_queue c ++ q /\ window_updates q = [];
}.

#[local] Instance same_window_preorder : PreOrder same_window.
Proof.
  split.
  - intros c. split; [done|done|]. exists []. by rewrite app_nil_r.
  - intros c1 c2 c3 [A1 A2 (q1 & A3 & A4)] [B1 B2 (q2 & B3 & B4)]. split; [congruence|auto|]. exists (q1 ++ q2).
    by rewrite B3, A3, app_assoc, window_updates_app, A4, B4.
Qed.

Lemma same_window_queued q c c' :
  local_window c' = local_window c -> settings c' = settings c -> tx_command_queue c' = tx_command_queue c ++ q ->
  window_updates q = [] -> same_window c c'.
Proof. intros H1 H2 H3 H4. split; [done|unfold settled_settings; by rewrite H2|]. by exists q. Qed.

Lemma same_window_fields c c' :
  local_window c' = local_window c -> settings c' = settings c -> tx_command_queue c' = tx_command_queue c -> same_window c c'.
Proof. intros H1 H2 H3. apply (same_window_queued []); try done. by rewrite app_nil_r. Qed.

Lemma for_stream_window id method c : lands (same_window c) (for_stream id method c).
Proof.
  unfold for_stream. destruct (invoke_for_stream id method (registry c)) as [[[r b] eff]| | |]; try done; cbn [lands];
    by apply same_window_fields.
Qed.

(** Settings without a synchronisation call no handler. *)
Lemma settings_window data c : settled_settings c -> lands (same_window c) (on_receive_settings fresh data c).
Proof.
  unfold settled_settings, on_receive_settings, SettingsManager.on_settings_frame. intros Hs. set (m := settings c) in *.
  destruct (from_buffer data) as [fa|e| |]; try done; cbn [mbind outcome_bind]; [|by cbn [lands]].
  destruct (get_frame SETTINGS fa) as [frame|e| |]; try done; cbn [mbind outcome_bind]; [|by cbn [lands]].
  destruct (has_flag (flags_field frame) ACK).
  - unfold SettingsManager.finished. cbn [SettingsManager.settings_handler]. rewrite Hs.
    destruct (_ || _); cbn [lands run_settings]; (split; [done|done|exists []; by rewrite app_nil_r]).
  - cbn [lands run_settings]. split; [done|by intros|]. exists [settings_ack fresh]. by split.
Qed.

Lemma ping_window data c : span_ok data -> lands (same_window c) (on_receive_ping fresh data c).
Proof.
  intros Hs. unfold on_receive_ping, with_frame. destruct (from_buffer data) as [fa|e| |] eqn:Hf; try done; [|by cbn [lands mbind outcome_bind]].
  cbn [mbind outcome_bind]. destruct (get_frame PING fa) as [frame|e| |] eqn:Hg; try done; [|by cbn [lands]].
  apply get_frame_type in Hg. rewrite (from_buffer_type _ _ Hs Hf) in Hg.
  destruct (has_flag _ _); [destruct (ping_handler c); cbn [lands]; by apply same_window_fields|].
  cbn [lands]. eapply same_window_queued; [done|done|reflexivity|].
  assert (Hlen : sp_len data = Z.of_nat (length (sp_bytes data))) by (rewrite length_sp_bytes; destruct Hs; lia).
  rewrite Hlen, copied_buffer. unfold window_updates. cbn [fmap list_fmap]. rewrite filter_cons_False; [done|].
  unfold data_view. cbn [write_at b_offset b_memory]. rewrite Nat2Z.id.
  intros Ht. revert Hg Ht. generalize (sp_bytes data). intros l. unfold wire_type.
  do 4 (destruct l as [|? l]; [done|]). cbn [nth]. intros -> Ht. cbn in Ht. done.
Qed.

Lemma handle_window f c :
  settled_settings c -> received_ok f -> lands (same_window (charge_window fresh (received_bytes f) c)) (handle f c).
Proof.
  intros Hs Hok. assert (Hs1 : settled_settings (charge_window fresh (received_bytes f) c)).
  { unfold settled_settings, charge_window. by destruct (Window.update _ _ _) as [w [b|]]. }
  destruct f as [b|data]; cbn [handle received_bytes received_ok] in *.
  - unfold on_receive_data_frame, on_receive_data. apply with_frame_lands; [done|]. intros frame. apply for_stream_window.
  - unfold on_receive_frame. set (c1 := charge_window fresh (sp_len data) c) in *.
    cut (forall h, h ∈ frame_handlers fresh moved_response -> lands (same_window c1) (h data c1)).
    { intros Hh. destruct (from_buffer data) as [fa|e| |]; [|by cbn [lands]|done..].
      destruct (frame_handlers fresh moved_response !! _) as [h|] eqn:Eh; [|done]. by apply list_elem_of_lookup_2, Hh in Eh. }
    intros h Hh. unfold frame_handlers in Hh. repeat (apply elem_of_cons in Hh as [->|Hh]); [..|by apply not_elem_of_nil in Hh].
    + by cbn [on_receive_data_not_reachable lands].
    + apply with_frame_lands; [done|]. intros frame. apply with_fields_lands; [intros d; by apply same_window_fields|].
      intros d fields. eapply lands_impl; [|apply for_stream_window]. intros c2 Hc2. etransitivity; [|exact Hc2]. by apply same_window_fields.
    + by cbn [on_receive_priority lands].
    + apply with_frame_lands; [done|]. intros frame. apply for_stream_window.
    + by apply settings_window.
    + cbn [on_receive_push lands]. by eapply same_window_queued.
    + by apply ping_window.
    + by cbn [on_receive_goaway lands].
    + apply with_frame_lands; [done|]. intros frame. destruct (_ =? 0); [cbn [lands]; by apply same_window_fields|apply for_stream_window].
    + apply with_frame_lands; [done|]. intros frame. apply with_fields_lands; [intros d; by apply same_window_fields|].
      intros d fields. eapply lands_impl; [|apply for_stream_window]. intros c2 Hc2. etransitivity; [|exact Hc2]. by apply same_window_fields.
Qed.

(** The window of the client after the frames, and the updates it has queued. *)
Lemma handles_run fs c c' :
  handles fs c c' -> settled_settings c -> Forall received_ok fs ->
  let r := Window.run fresh 0 (received_ops fs) (local_window c) in
  local_window c' = r.1 /\ exists q, tx_command_queue c' = tx_command_queue c ++ q /\ window_updates q = data_view <$> r.2.
Proof.
  assert (Hstep : forall f fs c c1 c', settled_settings c -> received_ok f -> lands (eq c1) (handle f c) -> handle f c <> Stuck ->
    (settled_settings c1 -> let r := Window.run fresh 0 (received_ops fs) (local_window c1) in local_window c' = r.1 /\
      exists q, tx_command_queue c' = tx_command_queue c1 ++ q /\ window_updates q = data_view <$> r.2) ->
    let r := Window.run fresh 0 (received_ops (f :: fs)) (local_window c) in local_window c' = r.1 /\
      exists q, tx_command_queue c' = tx_command_queue c ++ q /\ window_updates q = data_view <$> r.2).
  { clear fs c c'. intros f fs c c1 c' Hs Hok Hl Hns IH. pose proof (handle_window f c Hs Hok) as Hw.
    assert (Hsw : same_window (charge_window fresh (received_bytes f) c) c1) by (destruct (handle f c); cbn in Hl; by subst).
    destruct Hsw as [W1 W2 (q1 & W3 & W4)]. unfold charge_window in *. unfold received_ops. rewrite bind_cons. cbn [app Window.run].
    fold (received_ops fs). destruct (Window.update fresh 0 (Window.dec (received_bytes f) (local_window c))) as [w b] eqn:Eu.
    pose proof (update_type _ _ _ _ Eu) as Hty.
    assert (Hb : window_updates (option_list b) = data_view <$> option_list b).
    { unfold window_updates. destruct b as [b|]; [|done]. change (option_list (Some b)) with [b] in *. cbn [fmap list_fmap] in *.
      apply Forall_cons in Hty as [Hty _]. by rewrite filter_cons_True. }
    assert (Hlw : local_window c1 = w) by (rewrite W1; by destruct b).
    assert (Hset : settled_settings c1) by (apply W2; by destruct b).
    assert (Hq : tx_command_queue c1 = tx_command_queue c ++ option_list b ++ q1).
    { rewrite W3. destruct b; cbn [send_command set_tx set_local_window tx_command_queue option_list]; by rewrite <- ?app_assoc. }
    destruct (IH Hset) as (R1 & q2 & R2 & R3). rewrite Hlw in R1, R3.
    destruct (Window.run fresh 0 (received_ops fs) w) as [w' out]. cbn [fst snd] in *. split; [done|].
    exists (option_list b ++ q1 ++ q2). rewrite R2, Hq, <- !app_assoc. split; [done|].
    by rewrite !window_updates_app, Hb, W4, R3, fmap_app. }
  intros Hh. induction Hh as [c|f fs c c1 c' Hd Hh IH|f fs c e c1 c' Hr Hh IH]; intros Hs Hok.
  - cbn. split; [done|]. exists []. by rewrite app_nil_r.
  - apply Forall_cons in Hok as [Hf Hok]. apply (Hstep f fs c c1 c'); rewrite ?Hd; try done. intros Hs1. by apply IH.
  - apply Forall_cons in Hok as [Hf Hok]. apply (Hstep f fs c c1 c'); rewrite ?Hr; try done. intros Hs1. by apply IH.
Qed.

(** C26: Flow control of a connection. Let no settings synchronisation be under way and the receive window be full and below 2^31
    bytes with a positive trigger. Whatever frames a peer sends, of any type and content, whether they are
    handled or end in an exception: as long as each of them keeps to the credit the peer has, the WINDOW_UPDATE
    frames the client queues for the connection among its other frames are well formed, each with an
    increment of at least the trigger and at most the window; what is left of the window is exactly
    what was announced less all bytes received; and after every frame less than the trigger is outstanding. So the
    peer never runs out of credit, and no byte of it is lost or invented. *)
Theorem client_credit (c c' : base_client H) fs :
  let w := local_window c in
  handles fs c c' -> settled_settings c -> Forall received_ok fs ->
  window_ok w -> Window.current w = Window.w_max_size w -> honoured (received_ops fs) w -> fs <> [] ->
  exists q incs, tx_command_queue c' = tx_command_queue c ++ q /\
    window_updates q = (fun inc => rfc_frame 8 0 0 (be_split 4 inc)) <$> incs /\
    Forall (fun inc => Window.w_trigger_size w <= inc <= Window.w_max_size w) incs /\
    window_ok (local_window c') /\
    Window.current (local_window c') = Window.w_max_size w - sum_list_z (received_bytes <$> fs) + sum_list_z incs /\
    Window.w_max_size w - Window.current (local_window c') < Window.w_trigger_size w.
Proof.
  intros w Hh Hs Hok Hw Hfull Hhon Hne. destruct (handles_run fs c c' Hh Hs Hok) as (R1 & q & R2 & R3).
  destruct (Window.run_conservation fresh 0 (received_ops fs) w) as (incs & Hr); [by split|done|done|done|].
  change (native_to_big 0) with 0 in Hr. fold w in R1, R3. destruct (Window.run fresh 0 (received_ops fs) w) as [w' out].
  destruct Hr as (H1 & H2 & H3 & H4 & H5). cbn [fst snd] in R1, R3. rewrite received_total in H4.
  exists q, incs. rewrite R1. split_and!; try done; [by rewrite R3|]. apply H5.
  destruct fs as [|f fs _] using rev_ind; [done|]. unfold received_ops. rewrite bind_app. cbn [mbind list_bind app]. by rewrite last_app_cons.
Qed.
End window.

(** ** Example *)

Section example.
#[local] Existing Instance IndexedDynamicTable.linear_search.

(** A client with a window of 100 bytes and a trigger of 25, and two frames: a PING, and one that raises an exception. *)
Definition small_client : base_client nat := set_local_window (Window.make_window 100 25) example_client.
Definition ping_bytes : list Z := rfc_frame 6 0 0 [1; 2; 3; 4; 5; 6; 7; 8].
Definition bad_bytes : list Z := rfc_frame 1 0 1 [255; 255; 255; 255; 255; 255; 255].
Definition example_received : list received :=
  [ReceivedFrame (span_of (fun _ => 0) 0 ping_bytes); ReceivedFrame (span_of (fun _ => 0) 0 bad_bytes)].

Lemma example_handled : exists c', handles (fun _ => 7) (fun _ => 0) 100 (fun r => r) example_received small_client c'.
Proof.
  eexists. eapply HandlesDone; [vm_compute; reflexivity|]. eapply HandlesRaised; [vm_compute; reflexivity|]. apply HandlesNil.
Qed.

Lemma client_credit_witness :
  exists c' q incs, handles (fun _ => 7) (fun _ => 0) 100 (fun r => r) example_received small_client c' /\
    tx_command_queue c' = q /\ window_updates q = (fun inc => rfc_frame 8 0 0 (be_split 4 inc)) <$> incs /\
    Window.current (local_window c') = 100 - 33 + sum_list_z incs /\ 100 - Window.current (local_window c') < 25.
Proof.
  destruct example_handled as [c' Hh].
  destruct (client_credit (fun _ => 7) (fun _ => 0) 100 (fun r => r) small_client c' example_received)
    as (q & incs & H1 & H2 & _ & _ & H3 & H4).
  - exact Hh.
  - reflexivity.
  - unfold example_received. repeat (apply Forall_cons; split; [apply span_of_ok; [by split|apply bytes_okb; vm_compute; reflexivity]|]). by apply Forall_nil.
  - by vm_compute.
  - reflexivity.
  - vm_compute. repeat split; discriminate.
  - discriminate.
  - exists c', q, incs. split; [exact Hh|]. split; [exact H1|]. split; [exact H2|]. split; [exact H3|exact H4].
Defined.
End example.
