(* ===== verification/ClientSafety.v ===== *)
(** * Frames of any content (base_client::on_receive_frame, base_client::on_receive_data_frame)

    A peer can send anything. A frame of a known type whose payload holds the fields the code reads from it is
    handled by a client in any state it can reach, with a result or with an exception, and without looking at
    the memory behind the frame; what is left are the shifts of the header decoder
    ([Decoder.decode_safe], [HString.read_huffman_str_overread]). Frames that are too short for their fields, or
    whose padding does not fit, are read behind their end ([Frame.padded_spans],
    [Frame.short_frame_overread]), and a null entry in the queue of the registry can be
    dereferenced ([StreamRegistry.registry_erase_null]): both are excluded here. *)
From stdpp Require Import relations.
From S2P Require Import Prelude Memory Utils Buffer HeaderField Protocol Frame FrameBuilder.
From S2P Require Import Request Response Stream StreamRegistry Reassembly BaseClient ClientReading ClientWindow.
From S2P Require Decoder Window SettingsManager IndexedDynamicTable.
Import IndexedDynamicTable (SetSearch).

(** An operation that ends, with a result or an exception, and without undefined behaviour. *)
Definition defined {A} (m : outcome A) : Prop := post False m (fun _ => True).

Lemma defined_bind {A B} (m : outcome A) (f : A -> outcome B) : defined m -> (forall a, m = Ok a -> defined (f a)) -> defined (m ≫= f).
Proof. unfold defined. destruct m; simpl; auto. Qed.

Lemma get_frame_defined t fa : defined (get_frame t fa).
Proof. unfold defined, get_frame. by destruct (_ =? _). Qed.

(** Searching a queue without null entries. *)
Lemma find_queue_defined {H} id q (st : list (stream H)) :
  None ∉ q -> (forall p, p ∈ queued q -> exists s, st !! p = Some s) -> defined (find_queue id q st).
Proof.
  induction q as [|[p|] q IH]; intros Hn Hq; [done| |by destruct Hn; left]. apply not_elem_of_cons in Hn as [_ Hn].
  cbn [find_queue]. apply defined_bind.
  - destruct (Hq p) as [s Hs]; [by left|]. unfold deref. by rewrite Hs.
  - intros s _. destruct (_ =? _); [done|]. apply defined_bind; [|done]. apply IH; [done|]. intros p' Hp'. apply Hq. by right.
Qed.

Section safety.
Context {SS : SetSearch} {H : Type} (fresh : Z -> Z) (heap : Z -> Z) (addr : Z) (moved_response : response -> response).
Context (Hheap : forall x, is_byte (heap x)).
Implicit Types c : base_client H.

(** The streams of the registry are there, and its queue has no null entry. *)
Definition sound_registry (r : StreamRegistry.registry H) : Prop :=
  rg_inv (stream_map r) (queue r) (store r) /\ None ∉ queue r.

Lemma for_stream_defined id method c :
  sound_registry (registry c) -> (forall s, defined (method s)) -> for_stream id method c <> Stuck.
Proof.
  intros [Hi Hn] Hm Hst. cut (defined (invoke_for_stream id method (registry c))).
  { unfold for_stream in Hst. by destruct (invoke_for_stream id method (registry c)) as [[[r b] eff]| | |]. }
  clear Hst. unfold invoke_for_stream. destruct (get_stream id (registry c)) as [p|] eqn:Hg; [|done].
  apply map_find_some in Hg. destruct (inv_map _ _ _ Hi _ _ Hg) as (s & Hs & _). unfold deref. rewrite Hs. cbn [mbind outcome_bind].
  apply defined_bind; [apply Hm|]. intros [s1 eff] _. destruct (is_finished s1); [|by destruct (check_tx_data s1)].
  apply defined_bind; [|done]. unfold erase. cbn [queue store]. apply defined_bind; [|done].
  apply find_queue_defined; [done|]. intros q Hq. destruct (inv_queue _ _ _ Hi _ Hq) as (s2 & Hs2 & _).
  apply lookup_lt_is_Some_2. rewrite length_insert. by eapply lookup_lt_Some.
Qed.

(** ** What is read of a frame *)

(** The header block of a frame that has one. *)
Definition header_span (s : span) : option span :=
  if type_field s =? frame_type_value HEADERS then Some (header_block s)
  else if type_field s =? frame_type_value CONTINUATION then Some (continuation_block s)
  else None.

(** What is read of a frame besides its header is in its payload: the pad length, the padding and the priority fields,
    and the four bytes of RST_STREAM and WINDOW_UPDATE. *)
Definition holds_fields (s : span) : Prop :=
  (type_field s = frame_type_value DATA -> padding_bytes s <= payload_size s) /\
  (type_field s = frame_type_value HEADERS -> padding_bytes s + priority_bytes s <= payload_size s) /\
  (type_field s = frame_type_value RST_STREAM \/ type_field s = frame_type_value WINDOW_UPDATE -> 4 <= payload_size s).

Lemma header_span_inside s block :
  span_ok s -> holds_fields s -> header_span s = Some block -> in_payload block s /\ 0 <= sp_len block <= payload_size s.
Proof.
  intros Hs (_ & Hh & _) Hb. unfold header_span in Hb. destruct (Z.eqb_spec (type_field s) (frame_type_value HEADERS)).
  - injection Hb as <-. by apply header_block_inside; [|apply Hh].
  - destruct (_ =? _); [|done]. injection Hb as <-. by apply continuation_block_inside.
Qed.

(** Parsing a frame that is there as a whole. *)
Lemma with_frame_whole t s c k :
  span_ok s -> sp_len s = frame_size s ->
  with_frame t s c k = if type_field s =? frame_type_value t then k s
                       else Raised (runtime_error "Can't cast to frame type") c.
Proof. intros Hs Hl. unfold with_frame. rewrite whole_frame by done. cbn. unfold get_frame. cbn. by destruct (_ =? _). Qed.

(** ** No handler gets stuck *)

Lemma decode_ends d block :
  span_ok block -> sp_len block < 2 ^ 32 -> Decoder.dec_ok (Decoder.FIELD_ROOM * sp_len block) d ->
  Decoder.decode d block <> OutOfFuel.
Proof.
  intros Hs H32 Hd He. pose proof (Decoder.decode_block_post (sp_mem block) (Z.to_nat (sp_len block)) _ (sp_len block) d block [] Hd
    ltac:(lia) ltac:(by destruct Hs) ltac:(split_and!; [done|done|lia]) H32 ltac:(lia)) as Hp.
  unfold Decoder.decode in He. by rewrite He in Hp.
Qed.

Lemma with_fields_stuck block c k :
  span_ok block -> sp_len block < 2 ^ 32 -> Decoder.dec_ok (Decoder.FIELD_ROOM * sp_len block) (decoder c) ->
  (forall d fields, k fields (set_codec d (encoder c) c) <> Stuck) ->
  with_fields block c k = Stuck -> Decoder.decode (decoder c) block = Undefined.
Proof.
  intros Hs Hl Hd Hk. unfold with_fields. pose proof (decode_ends _ _ Hs Hl Hd).
  destruct (Decoder.decode (decoder c) block) as [[d fields]| | |]; try done. intros Hst. by apply Hk in Hst.
Qed.

Lemma stream_data_defined b (s : stream H) : buffer_ok b -> defined (Stream.on_receive_data heap addr moved_response b s).
Proof.
  intros Hb. pose proof (data_span_ok heap addr b Hheap Hb) as Hs.
  assert (Hf : defined (from_buffer (data_span heap addr b))).
  { unfold defined, from_buffer. destruct (Z.ltb_spec (sp_len (data_span heap addr b)) min_size); [done|].
    destruct (payload_size_fits _ Hs) as [Hp _]. unfold subspan_count, frame_size, min_size, HEADER_SIZE in *.
    rewrite (proj2 (Z.leb_le 0 _)), (proj2 (Z.leb_le _ (_ - 0))) by lia. done. }
  unfold Stream.on_receive_data. apply defined_bind; [exact Hf|]. intros fa _. apply defined_bind; [|done].
  destruct (negb _); [|done]. apply defined_bind; [|done]. unfold insert_body. apply defined_bind; [exact Hf|].
  intros fa' _. apply defined_bind; [apply get_frame_defined|done].
Qed.

Lemma settings_defined s c : span_ok s -> sp_len s = frame_size s -> on_receive_settings fresh s c <> Stuck.
Proof.
  intros Hs Hl. cut (defined (SettingsManager.on_settings_frame fresh s (settings c))).
  { unfold on_receive_settings. by destruct (SettingsManager.on_settings_frame fresh s (settings c)) as [[[m o] eff]| | |]. }
  unfold SettingsManager.on_settings_frame. rewrite whole_frame by done. cbn [mbind outcome_bind].
  apply defined_bind; [apply get_frame_defined|]. intros frame _. destruct (has_flag _ _); [|done].
  destruct (_ || _); [|done]. by destruct (SettingsManager.finished _ _) as [[m r] eff].
Qed.

(** What is known of the frame, the decoder and the registry. *)
Record frame_ready (s : span) c : Prop := {
  fr_ok : span_ok s;
  fr_whole : sp_len s = frame_size s;
  fr_fields : holds_fields s;
  fr_decoder : Decoder.dec_ok (Decoder.FIELD_ROOM * payload_size s) (decoder c);
  fr_registry : sound_registry (registry c);
}.

Lemma block_ready s c block :
  frame_ready s c -> header_span s = Some block ->
  span_ok block /\ sp_len block < 2 ^ 32 /\ Decoder.dec_ok (Decoder.FIELD_ROOM * sp_len block) (decoder c).
Proof.
  intros [Hs Hw Hf Hd _] Hb. destruct (header_span_inside s block Hs Hf Hb) as [(Hm & _) Hl].
  destruct (payload_size_fits s Hs) as [_ Hp]. split; [split; [lia|intros a; rewrite Hm; apply Hs]|]. split; [lia|].
  eapply Decoder.dec_ok_weaken, Hd. unfold Decoder.FIELD_ROOM, MAX_FIELD_BYTES. lia.
Qed.

Lemma handler_stuck s c h :
  frame_ready s c -> h ∈ frame_handlers fresh moved_response -> h s c = Stuck ->
  exists block, header_span s = Some block /\ Decoder.decode (decoder c) block = Undefined.
Proof.
  intros Hr Hh Hst. pose proof Hr as [Hs Hw Hf _ Hreg]. unfold frame_handlers in Hh.
  repeat (apply elem_of_cons in Hh as [->|Hh]); [..|by apply not_elem_of_nil in Hh]; try done.
  - unfold on_receive_headers in Hst. rewrite with_frame_whole in Hst by done. destruct (_ =? _) eqn:Et; [|done].
    assert (Hb : header_span s = Some (header_block s)) by (unfold header_span; by rewrite Et).
    exists (header_block s). split; [done|]. destruct (block_ready s c _ Hr Hb) as (B1 & B2 & B3).
    eapply with_fields_stuck, Hst; [done..|]. intros d fields. by apply for_stream_defined.
  - unfold on_receive_reset in Hst. rewrite with_frame_whole in Hst by done. destruct (_ =? _); [|done].
    by apply for_stream_defined in Hst.
  - by apply settings_defined in Hst.
  - unfold on_receive_ping in Hst. rewrite with_frame_whole in Hst by done. destruct (_ =? _); [|done].
    destruct (has_flag _ _); [by destruct (ping_handler c)|done].
  - unfold on_receive_window_update in Hst. rewrite with_frame_whole in Hst by done. destruct (_ =? _); [|done].
    destruct (_ =? 0); [done|]. by apply for_stream_defined in Hst.
  - unfold on_receive_continuation in Hst. rewrite with_frame_whole in Hst by done. destruct (_ =? _) eqn:Et; [|done].
    assert (Hb : header_span s = Some (continuation_block s)).
    { unfold header_span. rewrite Et. apply Z.eqb_eq in Et. by rewrite Et. }
    exists (continuation_block s). split; [done|]. destruct (block_ready s c _ Hr Hb) as (B1 & B2 & B3).
    eapply with_fields_stuck, Hst; [done..|]. intros d fields. by apply for_stream_defined.
Qed.

(** ** Nothing behind the frame is read *)

(** Two places in memory with the same bytes. *)
Definition agree (s s' : span) : Prop := sp_len s' = sp_len s /\ forall i, 0 <= i < sp_len s -> sp_get s' i = sp_get s i.

Lemma same_bytes_agree s s' : span_ok s -> span_ok s' -> sp_bytes s' = sp_bytes s -> agree s s'.
Proof.
  intros [Hs _] [Hs' _] Hb. pose proof (f_equal length Hb) as Hl. rewrite !length_sp_bytes in Hl.
  split; [lia|]. intros i Hi. apply (inj Some). rewrite <- (Z2Nat.id i) by lia.
  rewrite <- !sp_bytes_lookup by lia. by rewrite Hb.
Qed.

Lemma agree_slice s s' i n : agree s s' -> 0 <= i -> i + Z.of_nat n <= sp_len s -> sp_slice s' i n = sp_slice s i n.
Proof.
  intros [_ Ha] Hi Hn. apply list_fmap_ext. intros j y Hj. apply lookup_seq in Hj as [-> Hj]. apply Ha. lia.
Qed.

Lemma agree_header s s' :
  agree s s' -> 9 <= sp_len s ->
  payload_size s' = payload_size s /\ type_field s' = type_field s /\ flags_field s' = flags_field s /\
  stream_id_field s' = stream_id_field s.
Proof.
  intros Ha Hl. unfold payload_size, type_field, flags_field, stream_id_field.
  rewrite !(agree_slice s s') by (done || lia). destruct Ha as [_ Ha]. rewrite !Ha by lia. done.
Qed.

Lemma agree_items s s' : span_ok s -> agree s s' -> sp_len s = frame_size s -> items s' = items s.
Proof.
  intros Hs Ha Hl. destruct (payload_size_fits s Hs) as [Hp _].
  assert (H9 : 9 <= sp_len s) by (rewrite Hl; unfold frame_size, HEADER_SIZE; lia).
  destruct (agree_header s s' Ha H9) as (Ep & _). unfold items. rewrite Ep. apply list_fmap_ext. intros j y Hj.
  apply lookup_seq in Hj as [-> Hj]. unfold settings_item_at. unfold frame_size, HEADER_SIZE, SETTINGS_ITEM_SIZE in *.
  assert (6 * Z.of_nat (0 + j) + 6 <= payload_size s) by (cbn [Nat.add]; Z.div_mod_to_equations; lia).
  rewrite !(agree_slice s s') by (done || lia). done.
Qed.

(** The decoder reads the same fields. *)
Definition same_fields (d : Decoder.decoder) (s s' : span) : Prop :=
  match header_span s, header_span s' with
  | Some b, Some b' => exists r, Decoder.decode d b = Ok r /\ Decoder.decode d b' = Ok r
  | _, _ => True
  end.

Lemma handler_same s s' c h :
  frame_ready s c -> span_ok s' -> agree s s' -> same_fields (decoder c) s s' -> h ∈ frame_handlers fresh moved_response ->
  h s' c = h s c.
Proof.
  intros [Hs Hw (_ & _ & Hf) _ _] Hs' Ha Hd Hh. destruct (payload_size_fits s Hs) as [Hp _].
  assert (H9 : 9 <= sp_len s) by (rewrite Hw; unfold frame_size, HEADER_SIZE; lia).
  destruct (agree_header s s' Ha H9) as (Ep & Et & Ef & Ei). pose proof Ha as [El _].
  assert (Hw' : sp_len s' = frame_size s') by (unfold frame_size; rewrite Ep, El; exact Hw).
  assert (Hslice : 4 <= payload_size s -> sp_slice s' HEADER_SIZE 4 = sp_slice s HEADER_SIZE 4).
  { intros H4. apply agree_slice; [done|by unfold HEADER_SIZE|]. rewrite Hw. unfold frame_size. lia. }
  unfold frame_handlers in Hh. repeat (apply elem_of_cons in Hh as [->|Hh]); [..|by apply not_elem_of_nil in Hh]; try done.
  - unfold on_receive_headers. rewrite !with_frame_whole by done. rewrite Et, Ef, Ei, El. destruct (_ =? _) eqn:E; [|done].
    unfold same_fields, header_span in Hd. rewrite Et, E in Hd. destruct Hd as (r & D1 & D2). unfold with_fields. by rewrite D1, D2.
  - unfold on_receive_reset. rewrite !with_frame_whole by done. rewrite Et, Ei.
    destruct (Z.eqb_spec (type_field s) (frame_type_value RST_STREAM)); [|done]. unfold reset_code. by rewrite Hslice by auto.
  - unfold on_receive_settings, SettingsManager.on_settings_frame. rewrite !whole_frame by done. cbn [mbind outcome_bind].
    unfold get_frame. cbn [fa_buffer]. rewrite Et. destruct (_ =? _); [|done]. cbn [mbind outcome_bind].
    by rewrite Ef, (agree_items s s').
  - unfold on_receive_ping. rewrite !with_frame_whole by done. rewrite Et, Ef, El. destruct (_ =? _); [|done].
    replace (sp_bytes s') with (sp_bytes s); [done|]. unfold sp_bytes. rewrite El. apply list_fmap_ext. intros j y Hj.
    apply lookup_seq in Hj as [-> Hj]. symmetry. apply Ha. lia.
  - unfold on_receive_window_update. rewrite !with_frame_whole by done. rewrite Et, Ei.
    destruct (Z.eqb_spec (type_field s) (frame_type_value WINDOW_UPDATE)); [|done]. unfold window_size. by rewrite Hslice by auto.
  - unfold on_receive_continuation. rewrite !with_frame_whole by done. rewrite Et, Ef, Ei, El. destruct (_ =? _) eqn:E; [|done].
    unfold same_fields, header_span in Hd. rewrite Et, E in Hd. apply Z.eqb_eq in E. rewrite E in Hd.
    destruct Hd as (r & D1 & D2). unfold with_fields. by rewrite D1, D2.
Qed.

Lemma charged_same n c :
  registry (charge_window fresh n c) = registry c /\ decoder (charge_window fresh n c) = decoder c.
Proof. destruct (charge_window_same fresh n c) as (E1 & _ & E2 & _). done. Qed.

(** The bytes of a received frame. *)
Definition frame_span (f : received) : span :=
  match f with ReceivedData b => data_span heap addr b | ReceivedFrame s => s end.

End safety.

(** ** Example *)

Section example.
#[local] Existing Instance IndexedDynamicTable.linear_search.
#[local] Abbreviation heap := (fun _ : Z => 0).

(** A WINDOW_UPDATE frame for the connection, and the same bytes elsewhere in another memory. *)
Definition update_bytes : list Z := rfc_frame 8 0 0 [0; 0; 1; 0].
Definition here : span := span_of heap 100 update_bytes.
Definition elsewhere : span := span_of (fun _ => 9) 7 update_bytes.

End example.
