(* ===== verification/ClientSending.v ===== *)
(** * Requests on the wire (base_client::initiate_send and base_client::get_tx_data)

    What the peer gets of requests: the client sends them, the registry gives their streams a
    turn, the streams build HEADERS and DATA frames with the client's encoder, and the peer decodes
    the header blocks, in the order of the frames, with its decoder. *)
From S2P Require Import Prelude Memory Utils Buffer HeaderField Protocol Frame FrameBuilder.
From S2P Require Import Request Stream IndexedDynamicTable HpackSync HpackCodec StreamHeaders StreamRegistry BaseClient.
From S2P Require Streambuf Encoder Decoder Window SettingsManager.
Import Streambuf (contents).

(** ** Requests *)

(** The body of a request. *)
Definition request_body (rq : request) : list Z := concat (span_list rq).

(** A request that can be sent: it has header fields, all of which the peer can decode, and its
    slices are not empty. *)
Record request_ok (conf : Encoder.encoder_config) (rq : request) : Prop := {
  ro_headers : raw_headers rq <> [];
  ro_fields : Forall (field_wf conf) (raw_headers rq);
  ro_count : Z.of_nat (length (raw_headers rq)) < 2 ^ 23;
  ro_slices : length (body_list rq) = length (span_list rq);
  ro_nonempty : Forall (fun slice => slice <> []) (span_list rq);
  ro_size : rq_size rq = Z.of_nat (length (request_body rq));
  ro_max : Z.of_nat (length (request_body rq)) < 2 ^ 64;
}.

(** Room that is enough for a request. *)
Definition request_room (rq : request) : Z :=
  9 + wire_bounds (raw_headers rq) +
  match request_body rq with [] => 0 | body => 18 + Z.of_nat (length body) end.

(** The frames of a request on stream [id] with the header block [block]. *)
Definition request_frames (id : Z) (rq : request) (block : list Z) : list Z :=
  match request_body rq with
  | [] => rfc_frame 1 (Z.lor END_HEADERS END_STREAM) id block
  | body => rfc_frame 1 END_HEADERS id block ++ rfc_frame 0 END_STREAM id body
  end.

Lemma request_room_bounds rq : 9 + wire_bounds (raw_headers rq) <= request_room rq.
Proof. unfold request_room. destruct (request_body rq); lia. Qed.

Lemma request_room_nonneg rq : 0 <= request_room rq.
Proof. pose proof (request_room_bounds rq). pose proof (wire_bounds_nonneg (raw_headers rq)). lia. Qed.

Lemma request_room_headers conf rq : request_ok conf rq -> 25 <= request_room rq.
Proof.
  intros Hok. pose proof (request_room_bounds rq). pose proof (ro_headers _ _ Hok) as Hh.
  destruct (raw_headers rq) as [|f fs]; [done|]. change (wire_bounds (f :: fs)) with (wire_bound f + wire_bounds fs) in *.
  pose proof (wire_bounds_nonneg fs). unfold wire_bound in *. lia.
Qed.

Lemma nonempty_slices_nil (spans : list (list Z)) :
  Forall (fun slice => slice <> []) spans -> concat spans = [] -> spans = [].
Proof. intros [|x l Hx _]; [done|]. cbn [concat]. intros [-> _]%app_eq_nil. done. Qed.

(** The body list is empty exactly when there is no body. *)
Lemma request_no_body conf rq : request_ok conf rq -> (body_list rq = [] <-> request_body rq = []).
Proof.
  intros []. unfold request_body. split; intros Hn.
  - rewrite Hn in ro_slices0. by destruct (span_list rq).
  - rewrite (nonempty_slices_nil _ ro_nonempty0 Hn) in ro_slices0. by destruct (body_list rq).
Qed.

Section sending.
Context {SS : SetSearch} {H : Type} (fresh : Z -> Z) (Hfresh : forall i, is_byte (fresh i)).
Context (m : Z -> Z) (Hm : forall x, is_byte (m x)) (a : Z).

(** ** The turn of a stream *)

(** A stream none of whose frames has been sent. *)
Record unsent_request (s : stream H) (id : Z) (rq : request) : Prop := {
  ur_id : http_id s = native_to_big id;
  ur_fits : fits 32 id;
  ur_request : m_request s = rq;
  ur_first : is_cointinuation s = false;
  ur_state : http_state s <> HALF_CLOSED;
  ur_window : Window.need_update (Stream.local_window s) = false;
  ur_offset : send_body_offset s = 0;
}.

(** What [prepare_headers] leaves of a stream whose fields are all sent. *)
Lemma prepare_headers_stream e limit (s : stream H) r :
  prepare_headers fresh e limit s = Ok r -> is_cointinuation s = false -> raw_headers (m_request s) <> [] ->
  raw_headers (m_request (sent_stream r)) = [] ->
  let rq := m_request s in
  sent_stream r = set_cointinuation false
    (set_request (send_body_offset s) (Request [] (body_list rq) (span_list rq) (rq_size rq) (timeout_value rq)) s) /\
  sent_effects r = [ExpiresAfter (timeout_value rq)].
Proof.
  intros Hr Hc Hne Hnil rq. unfold prepare_headers in Hr. apply outcome_bind_ok in Hr as ([e' [bufs n]] & _ & Hr).
  destruct (n =? 0); [by injection Hr as <-|].
  apply outcome_bind_ok in Hr as (rq' & Hcm & Hr). unfold commit_headers in Hcm.
  destruct (_ <=? _); [|done]. injection Hcm as <-.
  cbn [set_request is_cointinuation header_list body_list http_id timeout_value] in Hr. rewrite Hc in Hr.
  set (rest := drop _ _) in *. cbn [set_cointinuation is_cointinuation] in Hr.
  rewrite (andb_comm (negb _)) in Hr. rewrite andb_negb_r in Hr. cbv iota in Hr. injection Hr as <-.
  cbn [sent_stream m_request raw_headers header_list] in *. cbn in Hnil. split; [by rewrite Hnil|done].
Qed.

(** The header frame of a request that fits. *)
Lemma request_headers e d l (s : stream H) id rq room :
  unsent_request s id rq -> request_ok (Encoder.config e) rq -> codec_sync room e d ->
  FIELD_ROOM * Z.of_nat (length (raw_headers rq)) <= room -> 9 + wire_bounds (raw_headers rq) <= l < 2 ^ 23 ->
  exists r block d', prepare_headers fresh e l s = Ok r /\
    Decoder.decode d (span_of m a block) = Ok (d', raw_headers rq) /\
    codec_sync (room - FIELD_ROOM * Z.of_nat (length (raw_headers rq))) (sent_encoder r) d' /\
    Encoder.config (sent_encoder r) = Encoder.config e /\
    contents (sent_out r) = rfc_frame 1 (match request_body rq with [] => Z.lor END_HEADERS END_STREAM | _ => END_HEADERS end) id block /\
    sent_used r = 9 + Z.of_nat (length block) /\ Z.of_nat (length block) <= wire_bounds (raw_headers rq) /\
    sent_stream r = set_cointinuation false
      (set_request 0 (Request [] (body_list rq) (span_list rq) (rq_size rq) (timeout_value rq)) s) /\
    sent_effects r = [ExpiresAfter (timeout_value rq)].
Proof.
  intros [] Hok Hsync Hroom Hl. pose proof (ro_count _ _ Hok) as Hcount. rewrite <- ur_request0 in *.
  assert (Hov : headers_overhead s = 9) by (unfold headers_overhead; by rewrite ur_first0).
  pose proof (wire_bounds_nonneg (raw_headers (m_request s))) as Hw.
  destruct (headers_frame fresh Hfresh e d l s id room m a)
    as (r & n & block & d' & H1 & H2 & H3 & H4 & [H5 H6] & H7 & H8 & H9); try done; try apply Hok; [lia|lia|].
  rewrite H8 in * by lia. clear H8 n H2. rewrite Nat2Z.id, firstn_all in *.
  rewrite drop_all in H5. pose proof (prepare_headers_stream e l s r H1 ur_first0 (ro_headers _ _ Hok) H5) as [Hs Heff]. cbv zeta in Hs, Heff.
  rewrite (proj2 (Z.eqb_neq _ 0)) in H6.
  2: { pose proof (ro_headers _ _ Hok). by destruct (raw_headers (m_request s)). }
  rewrite Z.eqb_refl, ur_first0 in H6. cbn [andb] in H6. rewrite app_nil_r in H6. destruct H6 as (H6 & H8 & _).
  exists r, block, d'. split_and!; try done.
  - rewrite H6. f_equal. unfold headers_flags. rewrite ur_first0. pose proof (request_no_body _ _ Hok) as Hb.
    destruct (body_list (m_request s)), (request_body (m_request s)); try done; [by destruct Hb as [Hb _]; specialize (Hb eq_refl)|].
    by destruct Hb as [_ Hb]; specialize (Hb eq_refl).
  - rewrite H8, length_rfc_frame. lia.
  - by rewrite Hs, ur_offset0.
Qed.

(** The DATA frame of a body that fits. *)
Lemma request_data e l (s : stream H) id conf rq :
  http_id s = native_to_big id -> fits 32 id -> request_ok conf rq -> request_body rq <> [] ->
  m_request s = Request [] (body_list rq) (span_list rq) (rq_size rq) (timeout_value rq) -> send_body_offset s = 0 ->
  9 + Z.of_nat (length (request_body rq)) <= l < 2 ^ 23 ->
  exists frame spans, prepare_body fresh e l s =
      Ok (Sent (set_request 0 (Request [] [] spans (rq_size rq) (timeout_value rq)) s) e [frame] 0 []) /\
    data_view frame = rfc_frame 0 END_STREAM id (request_body rq).
Proof.
  intros Hid Hf Hok Hne Hrq Hoff Hl. pose proof Hok as [].
  assert (Hun : stream_unsent s = request_body rq) by (unfold stream_unsent, unsent; by rewrite Hrq, Hoff).
  destruct (prepare_body_frame fresh e l s id) as (frame & spans & blocks & off & H1 & H2 & H3 & H4 & H5 & H6 & H7);
    rewrite ?Hun; try done.
  - unfold body_ok. rewrite Hrq, Hoff. split_and!; [done|by left|]. cbn [span_list]. fold (request_body rq). lia.
  - unfold no_slice_done. by rewrite Hrq.
  - destruct (request_body rq); [done|]. cbn [length] in *. lia.
  - rewrite Hun in *. rewrite Z.min_r in * by lia. rewrite Z.eqb_refl, Nat2Z.id in *. rewrite firstn_all in H2.
    rewrite drop_all in H3. rewrite Hrq in H1, H6. cbn [header_list rq_size timeout_value span_list] in H1, H6.
    assert (spans = [] /\ off = 0) as [-> ->].
    { pose proof (f_equal length H3) as H8. cbn [length] in H8. pose proof (length_unsent _ _ H5) as H9.
      destruct H5 as [->|H5].
      - split; [|done]. eapply nonempty_slices_nil; [|by apply length_zero_iff_nil; lia].
        destruct H6 as [k Hk]. rewrite Hk in ro_nonempty0. by apply Forall_app in ro_nonempty0 as [_ ?].
      - exfalso. destruct spans; [lia|]. cbn [concat] in H9. rewrite length_app in H9. lia. }
    destruct blocks; [|done]. by exists frame, [].
Qed.

(** The stream of a request whose header fields have been sent. *)
Definition headers_sent (s : stream H) (rq : request) : stream H :=
  set_cointinuation false (set_request 0 (Request [] (body_list rq) (span_list rq) (rq_size rq) (timeout_value rq))
    (Stream.set_local_window (Stream.local_window s) (set_state OPEN (set_scheduled false s)))).

(** The first turn of a request: all its fields go into a HEADERS frame, and a body follows if
    there is room for a frame. *)
Lemma request_turn_headers e d limit (s : stream H) id rq room :
  unsent_request s id rq -> request_ok (Encoder.config e) rq -> codec_sync room e d ->
  FIELD_ROOM * Z.of_nat (length (raw_headers rq)) <= room ->
  let l := Z.min limit (remote_window s) in
  9 + wire_bounds (raw_headers rq) <= l < 2 ^ 23 ->
  exists e' out block d', let eff := [ExpiresAfter (timeout_value rq)] in
    Decoder.decode d (span_of m a block) = Ok (d', raw_headers rq) /\
    codec_sync (room - FIELD_ROOM * Z.of_nat (length (raw_headers rq))) e' d' /\
    Encoder.config e' = Encoder.config e /\
    contents out = rfc_frame 1 (match request_body rq with [] => Z.lor END_HEADERS END_STREAM | _ => END_HEADERS end) id block /\
    Z.of_nat (length block) <= wire_bounds (raw_headers rq) /\
    let used := 9 + Z.of_nat (length block) in
    Stream.get_tx_data fresh e limit s =
      (r ← (if negb (rq_size rq =? 0) && (18 <=? l - used)
            then r ← prepare_body fresh e' (l - used) (headers_sent s rq);
                 Ok (Sent (sent_stream r) (sent_encoder r) (out ++ sent_out r) (u64 (used + sent_used r))
                       (eff ++ sent_effects r))
            else Ok (Sent (headers_sent s rq) e' out used eff));
       Ok (Sent (set_remote_window (u64 (remote_window (sent_stream r) - sent_used r)) (sent_stream r))
             (sent_encoder r) (sent_out r) (sent_used r) (sent_effects r))).
Proof.
  intros Hu Hok Hsync Hroom l Hl. pose proof Hu as [].
  unfold Stream.get_tx_data. change (http_state (set_scheduled false s)) with (http_state s).
  change (remote_window (set_scheduled false s)) with (remote_window s). rewrite bool_decide_eq_false_2 by done.
  fold l. pose proof (request_room_headers _ _ Hok) as H25.
  assert (Hw : 25 <= 9 + wire_bounds (raw_headers rq)).
  { pose proof (ro_headers _ _ Hok) as Hh. destruct (raw_headers rq) as [|f fs]; [done|].
    change (wire_bounds (f :: fs)) with (wire_bound f + wire_bounds fs). pose proof (wire_bounds_nonneg fs).
    unfold wire_bound. lia. }
  rewrite (proj2 (Z.leb_gt l 16)) by lia. unfold Window.update.
  change (Stream.local_window (set_state OPEN (set_scheduled false s))) with (Stream.local_window s).
  rewrite ur_window0. cbn [negb]. set (s1 := Stream.set_local_window _ _).
  assert (Hu1 : unsent_request s1 id rq) by (by constructor).
  destruct (request_headers e d l s1 id rq room Hu1 Hok Hsync Hroom) as (r & block & d' & H1 & H2 & H3 & H4 & H5 & H6 & H7 & H8 & H9);
    [lia|].
  exists (sent_encoder r), (sent_out r), block, d'. split_and!; try done. cbv zeta.
  destruct (raw_headers (m_request s1)) as [|f fs] eqn:Eh.
  { exfalso. apply (ro_headers _ _ Hok). by rewrite (ur_request _ _ _ Hu1) in Eh. }
  rewrite H1. cbn [mbind outcome_bind]. rewrite H6, H8, H9. change (buffers_size (option_list None)) with 0.
  change (headers_sent s rq) with (set_cointinuation false (set_request 0
    (Request [] (body_list rq) (span_list rq) (rq_size rq) (timeout_value rq)) s1)).
  set (s2 := set_cointinuation false _). set (used := 9 + Z.of_nat (length block)) in *.
  assert (Hused : u64 (0 + used) = used) by (apply wrap_small; unfold fits, used; lia).
  change (raw_headers (m_request s2)) with (@nil header_field). change (body_size (m_request s2)) with (rq_size rq).
  rewrite Hused. rewrite (bool_decide_eq_true_2 ([] = [])) by done. cbn [andb option_list app].
  replace (u64 (l - used)) with (l - used) by (symmetry; apply wrap_small; unfold fits, used; lia).
  change (2 * HEADER_SIZE) with 18. destruct (negb _ && _); [|done].
  by destruct (prepare_body _ _ _ _) as [[]| | |].
Qed.

(** What sending leaves to the response: the handler and the response, and the stream is open. *)
Definition still_waiting (s s' : stream H) : Prop :=
  respone_handler s' = respone_handler s /\ m_response s' = m_response s /\ http_state s' = OPEN.

(** A request that fits is sent in one turn. *)
Lemma request_turn e d limit (s : stream H) id rq room :
  unsent_request s id rq -> request_ok (Encoder.config e) rq -> codec_sync room e d ->
  FIELD_ROOM * Z.of_nat (length (raw_headers rq)) <= room ->
  request_room rq <= Z.min limit (remote_window s) < 2 ^ 23 ->
  exists r block d', Stream.get_tx_data fresh e limit s = Ok r /\
    Decoder.decode d (span_of m a block) = Ok (d', raw_headers rq) /\
    codec_sync (room - FIELD_ROOM * Z.of_nat (length (raw_headers rq))) (sent_encoder r) d' /\
    Encoder.config (sent_encoder r) = Encoder.config e /\
    contents (sent_out r) = request_frames id rq block /\
    sent_used r = 9 + Z.of_nat (length block) /\ Z.of_nat (length block) <= wire_bounds (raw_headers rq) /\
    has_tx_data (sent_stream r) = false /\ still_waiting s (sent_stream r) /\
    sent_effects r = [ExpiresAfter (timeout_value rq)].
Proof.
  intros Hu Hok Hsync Hroom Hl. pose proof Hu as []. pose proof (request_room_bounds rq) as Hrb.
  set (l := Z.min limit (remote_window s)) in *.
  destruct (request_turn_headers e d limit s id rq room Hu Hok Hsync Hroom)
    as (e' & out & block & d' & H1 & H2 & H3 & H4 & H5 & ->); [fold l; lia|].
  fold l. set (used := 9 + Z.of_nat (length block)) in *. rewrite (ro_size _ _ Hok).
  unfold request_frames, request_room in *. destruct (request_body rq) as [|b body] eqn:Eb.
  - cbn [length Z.of_nat Z.eqb negb andb mbind outcome_bind]. eexists _, block, d'. split; [reflexivity|].
    split_and!; try done. apply (request_no_body _ _ Hok) in Eb.
    unfold has_tx_data. cbn -[bool_decide Window.need_update]. by rewrite ur_window0, Eb.
  - rewrite (proj2 (Z.eqb_neq _ 0)) by done. cbn [negb andb].
    rewrite (proj2 (Z.leb_le _ _)) by (unfold used; lia).
    destruct (request_data e' (l - used) (headers_sent s rq) id (Encoder.config e) rq) as (frame & spans & -> & Hv);
      try done; [by rewrite Eb|rewrite Eb; unfold used; lia|].
    cbn [mbind outcome_bind sent_stream sent_encoder sent_out sent_used sent_effects]. eexists _, block, d'.
    split; [reflexivity|]. cbn [sent_stream sent_encoder sent_out sent_used]. split_and!; try done.
    + rewrite Streambuf.contents_app, H4. f_equal. rewrite <- Eb, <- Hv. apply app_nil_r.
    + rewrite Z.add_0_r. apply wrap_small. unfold fits, used. lia.
    + unfold has_tx_data. cbn -[bool_decide Window.need_update]. by rewrite ur_window0.
Qed.

(** ** The turn of a registry *)

(** The peer decodes header blocks one after the other. *)
Fixpoint decode_blocks (d : Decoder.decoder) (blocks : list (list Z)) : outcome (Decoder.decoder * list header) :=
  match blocks with
  | [] => Ok (d, [])
  | block :: blocks =>
      '(d, h) ← Decoder.decode d (span_of m a block);
      '(d, hs) ← decode_blocks d blocks;
      Ok (d, h :: hs)
  end.

(** Room for all requests, and the bytes the windows are charged with. *)
Definition total_room (rqs : list request) : Z := foldr (fun rq n => request_room rq + n) 0 rqs.
Definition total_headers (rqs : list request) : Z :=
  foldr (fun rq n => Z.of_nat (length (raw_headers rq)) + n) 0 rqs.
Definition headers_bytes (blocks : list (list Z)) : Z :=
  foldr (fun block n => 9 + Z.of_nat (length block) + n) 0 blocks.

(** The frames of requests on consecutive streams of a client. *)
Fixpoint requests_frames (k : Z) (rqs : list request) (blocks : list (list Z)) : list Z :=
  match rqs, blocks with
  | rq :: rqs, block :: blocks => request_frames (2 * k - 1) rq block ++ requests_frames (k + 1) rqs blocks
  | _, _ => []
  end.

Lemma total_room_nonneg rqs : 0 <= total_room rqs.
Proof. induction rqs as [|rq rqs IH]; simpl; [lia|]. pose proof (request_room_nonneg rq). lia. Qed.

Lemma total_room_some conf rqs : rqs <> [] -> Forall (request_ok conf) rqs -> 25 <= total_room rqs.
Proof.
  intros Hne Hok. destruct Hok as [|rq rqs Hrq _]; [done|]. change (25 <= request_room rq + total_room rqs).
  pose proof (total_room_nonneg rqs). pose proof (request_room_headers _ _ Hrq). lia.
Qed.

Lemma headers_bytes_nonneg blocks : 0 <= headers_bytes blocks.
Proof. induction blocks as [|block blocks IH]; simpl; lia. Qed.

Lemma total_headers_nonneg rqs : 0 <= total_headers rqs.
Proof. induction rqs as [|rq rqs IH]; simpl; lia. Qed.

(** Streams [ps] with unsent requests on the identifiers from [k] on, and enough window. *)
Fixpoint waiting (st : list (stream H)) (k : Z) (ps : list ptr) (rqs : list request) : Prop :=
  match ps, rqs with
  | [], [] => True
  | p :: ps, rq :: rqs =>
      (exists s, st !! p = Some s /\ unsent_request s (2 * k - 1) rq /\ request_room rq <= remote_window s) /\
      waiting st (k + 1) ps rqs
  | _, _ => False
  end.

Lemma waiting_insert st p s ps : forall k rqs, p ∉ ps -> waiting st k ps rqs -> waiting (<[p := s]> st) k ps rqs.
Proof.
  induction ps as [|q ps IH]; intros k [|rq rqs] Hn; try done. apply not_elem_of_cons in Hn as [Hne Hn].
  intros [(s' & Hs' & Hw) Hr]. split; [|by apply IH]. exists s'. by rewrite list_lookup_insert_ne by done.
Qed.

(** What a turn leaves of the streams it serves, and the timers it starts. *)
Definition left_waiting (st st' : list (stream H)) (ps : list ptr) : Prop :=
  (forall p, p ∈ ps -> exists s s', st !! p = Some s /\ st' !! p = Some s' /\ still_waiting s s') /\
  (forall q, q ∉ ps -> st' !! q = st !! q).
Definition timers (ps : list ptr) (rqs : list request) : list (ptr * effect H) :=
  zip_with (fun p rq => (p, ExpiresAfter (timeout_value rq))) ps rqs.

Lemma left_waiting_cons st st' p ps s s1 :
  p ∉ ps -> st !! p = Some s -> still_waiting s s1 -> left_waiting (<[p := s1]> st) st' ps -> left_waiting st st' (p :: ps).
Proof.
  intros Hp Hs Hw [H1 H2]. split.
  - intros q [->|Hq]%elem_of_cons.
    + exists s, s1. split; [done|]. split; [|done]. rewrite H2 by done. apply list_lookup_insert_eq. by eapply lookup_lt_Some.
    + destruct (H1 q Hq) as (s2 & s3 & E1 & E2 & E3). exists s2, s3. split; [|done].
      rewrite list_lookup_insert_ne in E1; [done|]. by intros ->.
  - intros q [Hne Hq]%not_elem_of_cons. rewrite H2 by done. by apply list_lookup_insert_ne.
Qed.

Lemma turns_requests rqs : forall limit k ps t d room,
  NoDup ps -> waiting (tn_store t) k ps rqs -> Forall (request_ok (Encoder.config (tn_encoder t))) rqs ->
  codec_sync room (tn_encoder t) d -> FIELD_ROOM * total_headers rqs <= room ->
  0 <= tn_used t -> tn_used t + total_room rqs <= limit < 2 ^ 23 ->
  exists t' blocks d', turns fresh limit (Some <$> ps) t = Ok t' /\
    decode_blocks d blocks = Ok (d', raw_headers <$> rqs) /\
    codec_sync (room - FIELD_ROOM * total_headers rqs) (tn_encoder t') d' /\
    contents (tn_out t') = contents (tn_out t) ++ requests_frames k rqs blocks /\
    length blocks = length rqs /\ tn_next t' = tn_next t /\
    tn_used t' = tn_used t + headers_bytes blocks /\ headers_bytes blocks <= total_room rqs /\
    left_waiting (tn_store t) (tn_store t') ps /\ tn_effects t' = tn_effects t ++ timers ps rqs.
Proof.
  induction rqs as [|rq rqs IH]; intros limit k ps t d room Hnd Hwait Hok Hsync Hroom Hu0 Hlim.
  { destruct ps; [|done]. exists t, [], d. cbn [fmap list_fmap turns decode_blocks total_headers foldr headers_bytes requests_frames].
    rewrite !app_nil_r. split_and!; try done; try lia; [by replace (room - _) with room by lia|].
    split; [by intros p ?%elem_of_nil|done]. }
  destruct ps as [|p ps]; [done|]. apply NoDup_cons in Hnd as [Hp Hnd].
  destruct Hwait as [(s & Hs & Hun & Hrw) Hwait]. apply Forall_cons in Hok as [Hrq Hok].
  cbn [total_headers total_room foldr] in *. fold (total_headers rqs) (total_room rqs) in *.
  pose proof (total_room_nonneg rqs) as Hn1. pose proof (total_headers_nonneg rqs) as Hn2.
  pose proof (request_room_nonneg rq) as Hn3.
  rewrite fmap_cons. cbn [turns]. unfold take_turn, deref. rewrite Hs. cbn [mbind outcome_bind].
  assert (Htx : has_tx_data s = true).
  { unfold has_tx_data. rewrite (ur_request _ _ _ Hun).
    rewrite (bool_decide_eq_false_2 (header_list rq = [])) by apply (ro_headers _ _ Hrq). cbn [negb].
    by rewrite orb_true_r. }
  rewrite Htx. cbn [negb].
  replace (u64 (limit - tn_used t)) with (limit - tn_used t) by (symmetry; apply wrap_small; unfold fits; lia).
  destruct (request_turn (tn_encoder t) d (limit - tn_used t) s (2 * k - 1) rq room Hun Hrq Hsync)
    as (r & block & d1 & -> & H2 & H3 & H4 & H5 & H6 & H7 & H8 & H9 & H10); [unfold FIELD_ROOM, MAX_FIELD_BYTES in *; lia|lia|].
  cbn [mbind outcome_bind]. unfold check_tx_data. rewrite H8, andb_false_r.
  pose proof (request_room_bounds rq) as Hb.
  set (t1 := Turn _ _ _ _ _ _). cbn [mbind outcome_bind].
  assert (Hused : tn_used t1 = tn_used t + (9 + Z.of_nat (length block))).
  { unfold t1. cbn [tn_used]. rewrite H6. apply wrap_small. unfold fits. lia. }
  destruct (IH limit (k + 1) ps t1 d1 (room - FIELD_ROOM * Z.of_nat (length (raw_headers rq))))
    as (t' & blocks & d' & -> & R2 & R3 & R4 & R5 & R6 & R7 & R8 & R9 & R10); try done.
  - by apply waiting_insert.
  - unfold t1. cbn [tn_encoder]. by rewrite H4.
  - unfold FIELD_ROOM, MAX_FIELD_BYTES in *. lia.
  - lia.
  - lia.
  - exists t', (block :: blocks), d'. rewrite fmap_cons. cbn [decode_blocks requests_frames headers_bytes foldr length].
    fold (headers_bytes blocks). rewrite H2. cbn [mbind outcome_bind]. rewrite R2, R4, R5. unfold t1 at 1. cbn [tn_out].
    rewrite Streambuf.contents_app, H5, <- app_assoc. split_and!; try done; try lia;
      [|by apply (left_waiting_cons _ _ _ _ s (sent_stream r))|by rewrite R10; unfold t1; cbn [tn_effects]; rewrite H10, <- app_assoc].
    by replace (room - _) with (room - FIELD_ROOM * Z.of_nat (length (raw_headers rq)) - FIELD_ROOM * total_headers rqs) by lia.
Qed.

(** ** The client *)

Fixpoint send_requests (rqs : list (request * H)) (c : base_client H) : outcome (base_client H) :=
  match rqs with
  | [] => Ok c
  | (rq, h) :: rqs => c ← initiate_send rq h c; send_requests rqs c
  end.

(** The windows new streams get: the peer's is large enough for the requests, ours needs no update. *)
Record windows_ok (c : base_client H) (rqs : list request) : Prop := {
  wo_remote : Forall (fun rq => request_room rq <= initial_window_size (SettingsManager.remote_settings (settings c))) rqs;
  wo_local : 4 <= initial_window_size (SettingsManager.local_settings (settings c)) < 2 ^ 32;
}.

(** What sending requests does not change. *)
Definition same_connection (c c' : base_client H) : Prop :=
  settings c' = settings c /\ encoder c' = encoder c /\ decoder c' = decoder c /\
  server_window_size c' = server_window_size c /\ tx_command_queue c' = tx_command_queue c.

Lemma new_request_unsent id remote local rq (h : H) :
  fits 32 id -> 4 <= local < 2 ^ 32 -> unsent_request (make_stream (native_to_big id) remote local rq h) id rq.
Proof.
  intros Hf Hl. constructor; try done. cbn [make_stream Stream.local_window]. unfold Window.need_update, Window.make_window.
  cbn [Window.w_max_size Window.w_size Window.w_trigger_size]. rewrite Z.sub_diag.
  change (u32 0) with 0. unfold u32. rewrite wrap_small by (unfold fits; Z.div_mod_to_equations; lia).
  apply Z.leb_gt. Z.div_mod_to_equations. lia.
Qed.

(** Streams [ps] with unsent requests on the identifiers from [k] on, and the window of a new stream. *)
Fixpoint unsent_all (remote : Z) (st : list (stream H)) (k : Z) (ps : list ptr) (rqs : list request) : Prop :=
  match ps, rqs with
  | [], [] => True
  | p :: ps, rq :: rqs =>
      (exists s, st !! p = Some s /\ unsent_request s (2 * k - 1) rq /\ remote_window s = remote) /\
      unsent_all remote st (k + 1) ps rqs
  | _, _ => False
  end.

Lemma unsent_all_waiting remote st ps : forall k rqs,
  Forall (fun rq => request_room rq <= remote) rqs -> unsent_all remote st k ps rqs -> waiting st k ps rqs.
Proof.
  induction ps as [|q ps IH]; intros k [|rq rqs] Hr; try done. apply Forall_cons in Hr as [Hrq Hr].
  intros [(s & Hs & Hu & <-) Ha]. split; [by exists s|by apply IH].
Qed.

Lemma send_requests_unsent rqs : forall c,
  is_connected_flag c = true -> 1 <= client_id_order c -> client_id_order c + Z.of_nat (length rqs) <= 2 ^ 31 ->
  4 <= initial_window_size (SettingsManager.local_settings (settings c)) < 2 ^ 32 ->
  let new := seq (length (store (registry c))) (length rqs) in
  exists c', send_requests rqs c = Ok c' /\ same_connection c c' /\
    store (registry c) `prefix_of` store (registry c') /\
    queue (registry c') = queue (registry c) ++ (Some <$> new) /\
    unsent_all (initial_window_size (SettingsManager.remote_settings (settings c))) (store (registry c'))
      (client_id_order c) new rqs.*1.
Proof.
  induction rqs as [|[rq h] rqs IH]; intros c Hcon Ho Hk Hl new.
  { exists c. split; [done|]. split; [by split_and!|]. split; [done|]. split; [by rewrite app_nil_r|done]. }
  cbn [length] in Hk. rewrite fmap_cons in *.
  cbn [send_requests]. unfold initiate_send. rewrite Hcon. cbn [negb]. rewrite get_next_stream_id_eq by lia.
  unfold new_stream. cbn [settings set_id_order registry mbind outcome_bind].
  set (s := make_stream _ _ _ _ _). set (c1 := init_write _).
  destruct (IH c1) as (c' & -> & (H1 & H2 & H3 & H4 & H5) & H6 & H7 & H8); [done| | |done|].
  - change (client_id_order c1) with (client_id_order c + 1). lia.
  - change (client_id_order c1) with (client_id_order c + 1). lia.
  - change (store (registry c1)) with (store (registry c) ++ [s]) in *.
    change (queue (registry c1)) with (queue (registry c) ++ [Some (length (store (registry c)))]) in H7.
    rewrite length_app in H7, H8. cbn [length] in H7, H8. rewrite Nat.add_1_r in H7, H8.
    exists c'. split; [done|]. split; [by split_and!|]. split; [etrans; [|done]; by exists [s]|].
    split; [rewrite H7; unfold new; cbn [length seq]; by rewrite fmap_cons, <- app_assoc|].
    unfold new. cbn [length seq unsent_all]. split; [|done]. exists s. split.
    + eapply prefix_lookup_Some; [|done]. by apply list_lookup_middle.
    + split; [|done]. apply new_request_unsent; [unfold fits; lia|done].
Qed.

Lemma send_requests_spec rqs c :
  is_connected_flag c = true -> 1 <= client_id_order c -> client_id_order c + Z.of_nat (length rqs) <= 2 ^ 31 ->
  windows_ok c rqs.*1 ->
  let new := seq (length (store (registry c))) (length rqs) in
  exists c', send_requests rqs c = Ok c' /\ same_connection c c' /\
    store (registry c) `prefix_of` store (registry c') /\
    queue (registry c') = queue (registry c) ++ (Some <$> new) /\
    waiting (store (registry c')) (client_id_order c) new rqs.*1.
Proof.
  intros Hcon Ho Hk [Hr Hl] new. destruct (send_requests_unsent rqs c Hcon Ho Hk Hl) as (c' & H1 & H2 & H3 & H4 & H5).
  exists c'. split_and!; try done. by eapply unsent_all_waiting.
Qed.

(** All of the queue fits. *)
Lemma take_commands_all q window :
  fits 64 window -> frame_bytes_total q <= window -> take_commands q window = (q, [], window - frame_bytes_total q, true).
Proof.
  intros Hw Ht. pose proof (take_commands_spec q window Hw) as Hs.
  destruct (take_commands q window) as [[[sent rest] w] all]. destruct Hs as (Hq & -> & H0 & -> & Hr).
  destruct rest as [|b rest]; [rewrite app_nil_r in Hq; by subst|]. exfalso. rewrite Hq in Ht.
  unfold frame_bytes_total in *. rewrite fmap_app, concat_app, length_app, fmap_cons in Ht. cbn [concat] in Ht.
  rewrite length_app in Ht. lia.
Qed.

(** The turn in which requests are sent that wait in the queue. *)
Lemma requests_turn (c : base_client H) k ps rqs d room :
  let limit := Z.min (server_window_size c - frame_bytes_total (tx_command_queue c)) (max_frame_size (SettingsManager.local_settings (settings c))) in
  NoDup ps -> queue (registry c) = Some <$> ps -> waiting (store (registry c)) k ps rqs -> rqs <> [] ->
  fits 64 (server_window_size c) -> Forall (request_ok (Encoder.config (encoder c))) rqs -> total_room rqs <= limit < 2 ^ 23 ->
  codec_sync room (encoder c) d -> FIELD_ROOM * total_headers rqs <= room ->
  exists c' out blocks d', get_tx_data fresh c = Ok (c', out) /\
    contents out = contents (tx_command_queue c) ++ requests_frames k rqs blocks /\ length blocks = length rqs /\
    decode_blocks d blocks = Ok (d', raw_headers <$> rqs) /\
    codec_sync (room - FIELD_ROOM * total_headers rqs) (encoder c') d' /\
    queue (registry c') = [] /\ tx_command_queue c' = [] /\
    server_window_size c' = server_window_size c - frame_bytes_total (tx_command_queue c) - headers_bytes blocks /\
    fits 64 (server_window_size c') /\ stream_map (registry c') = stream_map (registry c) /\
    left_waiting (store (registry c)) (store (registry c')) ps /\
    log c' = log c ++ map (fun '(p, e) => StreamEffect p e) (timers ps rqs) /\
    settings c' = settings c /\ decoder c' = decoder c /\ start_disconnect_flag c' = start_disconnect_flag c.
Proof.
  intros limit Hnd Hq Hwait Hne Hw Hok Hlim Hsync Hroom. set (window := server_window_size c - _) in *.
  assert (Hroom25 : 25 <= total_room rqs) by (by apply (total_room_some (Encoder.config (encoder c)))).
  assert (Hw0 : 0 <= window) by lia.
  assert (Hcmd : frame_bytes_total (tx_command_queue c) <= server_window_size c) by (unfold window in Hw0; lia).
  unfold get_tx_data. rewrite take_commands_all by done. fold window. cbn [negb].
  set (c1 := set_tx window [] c). change (server_window_size c1) with window. change (settings c1) with (settings c). fold limit.
  rewrite (proj2 (Z.leb_le _ _)) by (unfold HEADER_SIZE; lia). unfold get_data.
  rewrite (proj2 (Z.ltb_ge _ _)) by lia. change (registry c1) with (registry c). change (encoder c1) with (encoder c). rewrite Hq.
  destruct (turns_requests rqs limit k ps (Turn (store (registry c)) (encoder c) [] 0 [] []) d room)
    as (t' & blocks & d' & -> & R2 & R3 & R4 & R5 & R6 & R7 & R8 & R9 & R10); try done.
  cbn [mbind outcome_bind]. eexists _, _, blocks, d'. split; [reflexivity|].
  assert (Hsw : u64 (window - tn_used t') = window - headers_bytes blocks).
  { rewrite R7. cbn [tn_used]. rewrite Z.add_0_l.
    apply wrap_small. pose proof (headers_bytes_nonneg blocks). unfold fits, window, frame_bytes_total in *. lia. }
  rewrite Streambuf.contents_app, R4. split_and!; try done.
  - apply wrap_fits. lia.
  - change (log c ++ map (fun '(p, e) => StreamEffect p e) (tn_effects t') =
      log c ++ map (fun '(p, e) => StreamEffect p e) (timers ps rqs)). by rewrite R10.
Qed.

End sending.

(** ** Example *)

(** A GET request, and a POST request with a body of two slices, on a new connection. *)
Definition example_requests : list (request * nat) :=
  [(Request request3 [] [] 0 30000, 1%nat);
   (Request request1 [string_block (str "hello, "); string_block (str "world")] [str "hello, "; str "world"] 12 30000, 2%nat)].

Lemma example_requests_ok :
  Forall (request_ok (Encoder.config (encoder example_client))) example_requests.*1.
Proof.
  assert (Hok : forall fs blocks n, fs <> [] -> forallb (field_wfb Encoder.default_config) fs = true ->
    Z.of_nat (length fs) < 2 ^ 23 -> Forall (fun slice => slice <> []) (map Request.block_bytes blocks) ->
    Z.of_nat (length (concat (map Request.block_bytes blocks))) = n -> n < 2 ^ 64 ->
    request_ok Encoder.default_config (Request fs blocks (map Request.block_bytes blocks) n 30000)).
  { intros fs blocks n H1 H2 H3 H4 <- H6. split; try done; [by apply fields_wfb_ok|symmetry; apply length_map]. }
  apply Forall_cons. split; [|apply Forall_cons; split; [|by apply Forall_nil]].
  - by apply (Hok request3 [] 0).
  - apply (Hok request1 [string_block (str "hello, "); string_block (str "world")] 12); try done.
    apply Forall_cons. split; [done|]. by apply Forall_singleton.
Qed.

