(* ===== verification/ClientUpload.v ===== *)
(** * Uploads (base_client::get_tx_data over several turns)

    A request whose body does not fit one frame: the first turn to send takes the HEADERS frame and the
    beginning of the body, and each later one a DATA frame, until the last one ends the stream. The
    number of turns is bounded by the size of the body and the windows. *)
From S2P Require Import Prelude Memory Utils Buffer HeaderField Protocol Frame FrameBuilder.
From S2P Require Import Request Stream IndexedDynamicTable HpackSync HpackCodec StreamHeaders StreamRegistry BaseClient.
From S2P Require Import ClientSending.
From S2P Require Streambuf Encoder Decoder Window SettingsManager.
Import Streambuf (contents).

Section upload.
Context {SS : SetSearch} {H : Type} (fresh : Z -> Z) (Hfresh : forall i, is_byte (fresh i)).
Context (m : Z -> Z) (Hm : forall x, is_byte (m x)) (a : Z).

(** [n] turns to send. *)
Fixpoint transmit (n : nat) (c : base_client H) : outcome (base_client H * list buffer) :=
  match n with
  | O => Ok (c, [])
  | S n =>
      '(c, out) ← get_tx_data fresh c;
      '(c, rest) ← transmit n c;
      Ok (c, out ++ rest)
  end.

(** ** A turn in which one stream is served *)

(** The registry after the turn of the stream [p]. *)
Definition served_registry (r : StreamRegistry.registry H) (p : ptr) (x : sent H) : StreamRegistry.registry H :=
  let '(s, again) := check_tx_data (sent_stream x) in
  Registry (stream_map r) (if again then [Some p] else []) (<[p := s]> (store r)).

Lemma get_data_single e limit (r : StreamRegistry.registry H) p s x :
  16 <= limit -> fits 64 limit -> queue r = [Some p] -> store r !! p = Some s -> has_tx_data s = true ->
  Stream.get_tx_data fresh e limit s = Ok x -> fits 64 (sent_used x) ->
  get_data fresh e limit r =
    Ok (served_registry r p x, sent_encoder x, sent_out x, sent_used x, tagged p (sent_effects x)).
Proof.
  intros Hl Hf Hq Hp Htx Hx Hu.
  unfold get_data. rewrite (proj2 (Z.ltb_ge _ _)) by lia. rewrite Hq. cbn [turns]. unfold take_turn, deref.
  cbn [tn_store tn_encoder tn_used tn_out tn_effects tn_next]. rewrite Hp. cbn [mbind outcome_bind]. rewrite Htx. cbn [negb].
  rewrite Z.sub_0_r. replace (u64 limit) with limit by (symmetry; by apply wrap_small). rewrite Hx. cbn [mbind outcome_bind].
  unfold served_registry. replace (u64 (0 + sent_used x)) with (sent_used x) by (symmetry; by apply wrap_small).
  by destruct (check_tx_data (sent_stream x)) as [s' []].
Qed.

(** What is left of the window of the peer after the commands, and the limit of a turn. *)
Definition turn_window (c : base_client H) : Z := server_window_size c - frame_bytes_total (tx_command_queue c).
Definition turn_limit (c : base_client H) : Z :=
  Z.min (turn_window c) (max_frame_size (SettingsManager.local_settings (settings c))).

(** The client after a turn in which it sends its commands and the stream [p] sends [x]. *)
Definition served (c : base_client H) (p : ptr) (x : sent H) : base_client H :=
  set_tx (u64 (turn_window c - sent_used x)) []
    (emit (map (fun '(p, e) => StreamEffect p e) (tagged p (sent_effects x)))
      (set_codec (decoder c) (sent_encoder x) (set_registry (served_registry (registry c) p x) c))).

Lemma get_tx_data_served (c : base_client H) p s x :
  fits 64 (server_window_size c) -> 18 <= turn_limit c ->
  queue (registry c) = [Some p] -> store (registry c) !! p = Some s -> has_tx_data s = true ->
  Stream.get_tx_data fresh (encoder c) (turn_limit c) s = Ok x -> fits 64 (sent_used x) ->
  get_tx_data fresh c = Ok (served c p x, tx_command_queue c ++ sent_out x).
Proof.
  intros Hw Hl Hq Hp Htx Hx Hu. unfold turn_limit in Hl.
  assert (Hle : frame_bytes_total (tx_command_queue c) <= server_window_size c) by (unfold turn_window in Hl; lia).
  assert (Hf : fits 64 (turn_limit c)).
  { unfold turn_limit, turn_window, fits, frame_bytes_total in *. lia. }
  assert (Hg : get_data fresh (encoder c) (turn_limit c) (registry c) =
    Ok (served_registry (registry c) p x, sent_encoder x, sent_out x, sent_used x, tagged p (sent_effects x)))
    by (apply (get_data_single _ _ _ _ s); try done; unfold turn_limit; lia).
  unfold get_tx_data. rewrite take_commands_all by done. cbn [negb]. set (c1 := set_tx _ [] c).
  change (Z.min (server_window_size c1) _) with (turn_limit c).
  rewrite (proj2 (Z.leb_le _ _)) by (unfold turn_limit, HEADER_SIZE; lia).
  change (encoder c1) with (encoder c). change (registry c1) with (registry c). rewrite Hg. by cbn [mbind outcome_bind].
Qed.

Lemma get_tx_data_single c p s x :
  fits 64 (server_window_size c) -> 18 <= turn_limit c ->
  queue (registry c) = [Some p] -> store (registry c) !! p = Some s -> has_tx_data s = true ->
  Stream.get_tx_data fresh (encoder c) (turn_limit c) s = Ok x -> fits 64 (sent_used x) ->
  exists c', get_tx_data fresh c = Ok (c', tx_command_queue c ++ sent_out x) /\
    (if has_tx_data (sent_stream x)
     then queue (registry c') = [Some p] /\ store (registry c') !! p = Some (set_scheduled true (sent_stream x))
     else queue (registry c') = []) /\
    encoder c' = sent_encoder x /\ settings c' = settings c /\ tx_command_queue c' = [] /\
    server_window_size c' = u64 (turn_window c - sent_used x).
Proof.
  intros Hw Hl Hq Hp Htx Hx Hu. exists (served c p x). rewrite (get_tx_data_served c p s x) by done.
  destruct (get_tx_data_same _ _ _ _ _ Hx) as [_ Hs]. cbn [is_scheduled set_scheduled] in Hs.
  pose proof (lookup_lt_Some _ _ _ Hp) as Hlt. split_and!; try done.
  unfold served, served_registry. cbn [registry set_tx emit set_codec set_registry]. unfold check_tx_data. rewrite Hs. cbn [negb andb].
  destruct (has_tx_data (sent_stream x)); cbn [queue store]; [|done]. split; [done|]. by apply list_lookup_insert_eq.
Qed.

(** Nothing is left to send. *)
Lemma get_tx_data_nothing (c : base_client H) :
  fits 64 (server_window_size c) -> tx_command_queue c = [] -> queue (registry c) = [] -> get_tx_data fresh c = Ok (c, []).
Proof.
  intros Hw Ht Hq.
  rewrite get_tx_data_idle; [|done|done|rewrite Ht; unfold fits in Hw; unfold frame_bytes_total; simpl; lia].
  rewrite Ht. change (frame_bytes_total []) with 0. rewrite Z.sub_0_r. destruct c. cbn in Ht. by subst.
Qed.

Lemma transmit_idle n c :
  fits 64 (server_window_size c) -> tx_command_queue c = [] -> queue (registry c) = [] -> transmit n c = Ok (c, []).
Proof.
  intros Hw Ht Hq. induction n as [|n IH]; [done|]. cbn [transmit].
  rewrite get_tx_data_nothing by done. cbn [mbind outcome_bind]. by rewrite IH.
Qed.

(** ** The rest of a body *)

(** The only work of the client is the body [blk] of the stream [id], from [offset] on; [l] is what
    the windows and the frame size allow in a turn. *)
Record uploading (c : base_client H) (p : ptr) (id : Z) (blk : block_type) (offset l : Z) : Prop := {
  up_commands : tx_command_queue c = [];
  up_queue : queue (registry c) = [Some p];
  up_window : fits 64 (server_window_size c);
  up_stream : exists s, store (registry c) !! p = Some s /\ single s blk offset /\ http_id s = native_to_big id /\
    fits 64 (remote_window s) /\ Z.min (turn_limit c) (remote_window s) = l;
}.

(** The frame of the bytes [rest], as far as they fit into a frame of [l] bytes. *)
Definition data_frame_of (id l : Z) (rest : list Z) : list Z :=
  let n := Z.min (l - 9) (Z.of_nat (length rest)) in
  rfc_frame 0 (if n =? Z.of_nat (length rest) then END_STREAM else 0) id (take (Z.to_nat n) rest).

Lemma upload_turn c p id blk offset l :
  uploading c p id blk offset l -> fits 32 id -> 18 <= l < 2 ^ 23 ->
  let rest := drop (Z.to_nat offset) (Request.block_bytes blk) in
  let n := Z.min (l - 9) (Z.of_nat (length rest)) in
  exists c' frame, get_tx_data fresh c = Ok (c', [frame]) /\ data_view frame = data_frame_of id l rest /\
    server_window_size c' = server_window_size c /\ encoder c' = encoder c /\ tx_command_queue c' = [] /\
    (if n =? Z.of_nat (length rest) then queue (registry c') = [] else uploading c' p id blk (offset + n) l).
Proof.
  intros [Ht Hq Hw (s & Hp & Hsg & Hid & Hrw & Hlim)] Hf Hl rest n.
  destruct (single_step fresh (encoder c) (turn_limit c) s id blk offset Hsg Hid Hf Hrw)
    as (frame & s' & Hx & Hv & Hi & Hr & _ & Hc); [rewrite Hlim; lia|]. rewrite Hlim in Hv, Hc. fold rest n in Hv, Hc.
  destruct (get_tx_data_single c p s _ Hw ltac:(lia) Hq Hp (single_busy _ _ _ Hsg) Hx)
    as (c' & Hg & Hreg & He & Hs & Htx & Hsw); [by split|].
  rewrite Ht in Hg. cbn [sent_out sent_encoder sent_used sent_stream app] in *. rewrite Z.sub_0_r in Hsw.
  assert (Hsw' : server_window_size c' = server_window_size c).
  { rewrite Hsw. unfold turn_window. rewrite Ht. change (frame_bytes_total []) with 0. rewrite Z.sub_0_r. by apply wrap_small. }
  exists c', frame. split_and!; try done. destruct (n =? _).
  - by rewrite (drained_idle _ Hc) in Hreg.
  - rewrite (single_busy _ _ _ Hc) in Hreg. destruct Hreg as [Hq' Hp'].
    split; [done|done|by rewrite Hsw'|]. eexists. split; [exact Hp'|].
    split; [by destruct Hc; constructor|]. cbn [http_id remote_window set_scheduled].
    split; [by rewrite Hi|]. rewrite Hr. split; [done|].
    rewrite <- Hlim. unfold turn_limit, turn_window. by rewrite Htx, Hsw', Hs, Ht.
Qed.

(** The payloads fit the frames. *)
Definition payloads_fit (l : Z) (ds : list (list Z)) : Prop := Forall (fun d => 9 + Z.of_nat (length d) <= l) ds.

(** The bytes from a frame on, as a list of frames. *)
Lemma data_frames_cons id l rest ds :
  9 <= l -> Z.of_nat (length rest) <> Z.min (l - 9) (Z.of_nat (length rest)) -> ds <> [] ->
  data_frame_of id l rest ++ concat (data_frames id ds) =
  concat (data_frames id (take (Z.to_nat (Z.min (l - 9) (Z.of_nat (length rest)))) rest :: ds)).
Proof.
  intros Hl Hne Hds. unfold data_frame_of. rewrite (proj2 (Z.eqb_neq _ _)) by lia. by destruct ds.
Qed.

Lemma upload_turns p id blk l n : forall c offset,
  uploading c p id blk offset l -> fits 32 id -> 18 <= l < 2 ^ 23 ->
  Z.of_nat (length (Request.block_bytes blk)) - offset <= Z.of_nat n * (l - 9) ->
  exists c' out ds, transmit n c = Ok (c', out) /\ contents out = concat (data_frames id ds) /\ ds <> [] /\
    concat ds = drop (Z.to_nat offset) (Request.block_bytes blk) /\ payloads_fit l ds /\
    server_window_size c' = server_window_size c /\ encoder c' = encoder c /\ tx_command_queue c' = [] /\
    queue (registry c') = [].
Proof.
  induction n as [|n IH]; intros c offset Hu Hf Hl Hn.
  { destruct (up_stream _ _ _ _ _ _ Hu) as (s & _ & [] & _). lia. }
  destruct (upload_turn c p id blk offset l Hu Hf Hl) as (c1 & frame & Hg & Hv & Hsw & He & Htx & Hc).
  assert (Hoff : 0 <= offset) by (destruct (up_stream _ _ _ _ _ _ Hu) as (s & _ & [] & _); lia).
  assert (Hlr : Z.of_nat (length (drop (Z.to_nat offset) (Request.block_bytes blk))) =
    Z.of_nat (length (Request.block_bytes blk)) - offset).
  { destruct (up_stream _ _ _ _ _ _ Hu) as (s & _ & [] & _). rewrite length_drop. lia. }
  set (rest := drop (Z.to_nat offset) (Request.block_bytes blk)) in *. set (k := Z.min (l - 9) (Z.of_nat (length rest))) in *.
  cbn [transmit]. rewrite Hg. cbn [mbind outcome_bind].
  destruct (Z.eqb_spec k (Z.of_nat (length rest))) as [Hk|Hk].
  - rewrite transmit_idle by (rewrite ?Hsw; first [done|apply Hu]). cbn [mbind outcome_bind].
    exists c1, [frame], [rest]. split; [done|]. change (contents [frame]) with (data_view frame ++ []). cbn [data_frames concat].
    rewrite !app_nil_r. split_and!; try done.
    + rewrite Hv. unfold data_frame_of. fold k. rewrite Hk, Z.eqb_refl. by rewrite take_ge by lia.
    + apply Forall_singleton. lia.
  - destruct (IH c1 (offset + k) Hc Hf Hl) as (c' & out & ds & -> & H1 & H2 & H3 & H4 & H5 & H6 & H7 & H8); [lia|].
    cbn [mbind outcome_bind]. exists c', ([frame] ++ out), (take (Z.to_nat k) rest :: ds). split; [done|].
    rewrite Streambuf.contents_app, H1. change (contents [frame]) with (data_view frame ++ []). rewrite app_nil_r, Hv.
    split; [apply data_frames_cons; [lia|fold k; lia|done]|]. split; [done|]. split; [|split_and!; try congruence].
    + cbn [concat]. rewrite H3. rewrite Z2Nat.inj_add by lia. rewrite <- drop_drop. apply take_drop.
    + apply Forall_cons. split; [|done]. rewrite length_take. lia.
Qed.

(** ** The request *)

(** A request with a body of one slice. *)
Definition one_slice (rq : request) (blk : block_type) : Prop :=
  body_list rq = [blk] /\ span_list rq = [Request.block_bytes blk].

Lemma one_slice_body rq blk : one_slice rq blk -> request_body rq = Request.block_bytes blk.
Proof. intros [_ Hs]. unfold request_body. rewrite Hs. apply app_nil_r. Qed.

Lemma headers_sent_single (s : stream H) id conf rq blk :
  unsent_request s id rq -> request_ok conf rq -> one_slice rq blk -> single (headers_sent s rq) blk 0.
Proof.
  intros [] Hok Hone. pose proof (one_slice_body _ _ Hone) as Hb. destruct Hone as [H1 H2], Hok.
  assert (Hne : Request.block_bytes blk <> []).
  { rewrite H2 in ro_nonempty. by apply Forall_cons in ro_nonempty as [? _]. }
  rewrite Hb in *. constructor; try done.
  destruct (Request.block_bytes blk); [done|]. cbn [length]. lia.
Qed.

(** The turn in which a request starts. *)
Lemma upload_start e d limit (s : stream H) id rq blk room :
  unsent_request s id rq -> request_ok (Encoder.config e) rq -> one_slice rq blk -> fits 64 (remote_window s) ->
  codec_sync room e d -> FIELD_ROOM * Z.of_nat (length (raw_headers rq)) <= room ->
  let l := Z.min limit (remote_window s) in
  27 + wire_bounds (raw_headers rq) <= l < 2 ^ 23 ->
  exists x block d', Stream.get_tx_data fresh e limit s = Ok x /\
    Decoder.decode d (span_of m a block) = Ok (d', raw_headers rq) /\
    codec_sync (room - FIELD_ROOM * Z.of_nat (length (raw_headers rq))) (sent_encoder x) d' /\
    Encoder.config (sent_encoder x) = Encoder.config e /\ Z.of_nat (length block) <= wire_bounds (raw_headers rq) /\
    let used := 9 + Z.of_nat (length block) in
    let n := Z.min (l - used - 9) (Z.of_nat (length (Request.block_bytes blk))) in
    contents (sent_out x) = rfc_frame 1 END_HEADERS id block ++ data_frame_of id (l - used) (Request.block_bytes blk) /\
    sent_used x = used /\ http_id (sent_stream x) = native_to_big id /\
    remote_window (sent_stream x) = remote_window s - used /\
    (if n =? Z.of_nat (length (Request.block_bytes blk)) then drained (sent_stream x) else single (sent_stream x) blk n).
Proof.
  intros Hu Hok Hone Hrw Hsync Hroom l Hl.
  destruct (request_turn_headers fresh Hfresh m Hm a e d limit s id rq room Hu Hok Hsync Hroom)
    as (e' & out & block & d' & H1 & H2 & H3 & H4 & H5 & ->); [fold l; lia|].
  fold l. set (used := 9 + Z.of_nat (length block)) in *. pose proof (headers_sent_single _ _ _ _ _ Hu Hok Hone) as Hsg.
  rewrite (one_slice_body _ _ Hone) in H4. pose proof (sg_size _ _ _ Hsg) as Hsz. pose proof (sg_range _ _ _ Hsg) as Hrange.
  change (rq_size rq = Z.of_nat (length (Request.block_bytes blk))) in Hsz.
  rewrite (proj2 (Z.eqb_neq _ 0)) by lia. cbn [negb andb]. rewrite (proj2 (Z.leb_le _ _)) by (unfold used; lia).
  destruct (single_body fresh e' (l - used) (headers_sent s rq) id blk 0 Hsg (ur_id _ _ _ Hu) (ur_fits _ _ _ Hu))
    as (frame & s' & -> & Hv & Hi & Hr & _ & Hc); [unfold used; lia|].
  cbn [mbind outcome_bind sent_stream sent_encoder sent_out sent_used sent_effects].
  change (Z.to_nat 0) with 0%nat in Hv, Hc. rewrite drop_0 in Hv, Hc.
  replace (u64 (used + 0)) with used by (rewrite Z.add_0_r; symmetry; apply wrap_small; unfold fits, used; lia).
  eexists _, block, d'. split; [reflexivity|]. cbn [sent_stream sent_encoder sent_out sent_used]. split_and!; try done.
  - rewrite Streambuf.contents_app, H4. change (contents [frame]) with (data_view frame ++ []). rewrite app_nil_r, Hv.
    destruct (Request.block_bytes blk); [simpl in Hrange; lia|done].
  - cbn [set_remote_window http_id]. rewrite Hi. apply Hu.
  - cbn [set_remote_window remote_window]. rewrite Hr. apply wrap_small.
    change (remote_window (headers_sent s rq)) with (remote_window s). unfold fits, used in *. lia.
  - rewrite Z.add_0_l in Hc. destruct (_ =? _); [by apply set_remote_drained|by apply set_remote_single].
Qed.

(** The same turn for the client. *)
Lemma upload_first c p (s : stream H) id rq blk d room :
  unsent_request s id rq -> request_ok (Encoder.config (encoder c)) rq -> one_slice rq blk -> fits 64 (remote_window s) ->
  fits 64 (server_window_size c) -> queue (registry c) = [Some p] -> store (registry c) !! p = Some s ->
  codec_sync room (encoder c) d -> FIELD_ROOM * Z.of_nat (length (raw_headers rq)) <= room ->
  let limit := Z.min (turn_limit c) (remote_window s) in
  27 + wire_bounds (raw_headers rq) <= limit < 2 ^ 23 ->
  exists c' out block d' l, get_tx_data fresh c = Ok (c', tx_command_queue c ++ out) /\
    Decoder.decode d (span_of m a block) = Ok (d', raw_headers rq) /\
    codec_sync (room - FIELD_ROOM * Z.of_nat (length (raw_headers rq))) (encoder c') d' /\
    Z.of_nat (length block) <= wire_bounds (raw_headers rq) /\ tx_command_queue c' = [] /\
    let used := 9 + Z.of_nat (length block) in
    let n := Z.min (limit - used - 9) (Z.of_nat (length (Request.block_bytes blk))) in
    contents out = rfc_frame 1 END_HEADERS id block ++ data_frame_of id (limit - used) (Request.block_bytes blk) /\
    server_window_size c' = turn_window c - used /\ limit - used <= l <= limit /\
    (if n =? Z.of_nat (length (Request.block_bytes blk)) then queue (registry c') = [] else uploading c' p id blk n l).
Proof.
  intros Hu Hok Hone Hrem Hw Hq Hp Hsync Hroom limit Hl. pose proof (wire_bounds_nonneg (raw_headers rq)) as Hwb.
  destruct (upload_start (encoder c) d (turn_limit c) s id rq blk room Hu Hok Hone Hrem Hsync Hroom)
    as (x & block & d' & Hx & Hd & Hsync' & _ & Hblock & Hout & Hused & Hid & Hrw & Hc); [fold limit; lia|].
  fold limit in Hout, Hc. set (used := 9 + Z.of_nat (length block)) in *.
  assert (Htx : has_tx_data s = true).
  { unfold has_tx_data. rewrite (ur_request _ _ _ Hu), (bool_decide_eq_false_2 (header_list rq = [])) by apply (ro_headers _ _ Hok).
    cbn [negb]. by rewrite orb_true_r. }
  destruct (get_tx_data_single c p s x Hw ltac:(lia) Hq Hp Htx Hx)
    as (c2 & Hg & Hreg & He & Hs & Ht & Hsw); [rewrite Hused; unfold fits, used; lia|].
  assert (Hfit : fits 64 (turn_window c - used)).
  { unfold limit, turn_limit in Hl. unfold fits, turn_window, frame_bytes_total, used in *. lia. }
  rewrite Hused in Hsw. unfold u64 in Hsw. rewrite wrap_small in Hsw by done.
  exists c2, (sent_out x), block, d', (Z.min (turn_limit c2) (remote_window s - used)). rewrite He.
  assert (Hl2 : limit - used <= Z.min (turn_limit c2) (remote_window s - used) <= limit).
  { unfold limit, turn_limit, turn_window in *. rewrite Ht, Hs, Hsw. change (frame_bytes_total []) with 0. unfold used. lia. }
  split_and!; try done. intros u n. split_and!; try done; try apply Hl2. unfold n, u. clear n u. fold used. destruct (_ =? _).
  - by rewrite (drained_idle _ Hc) in Hreg.
  - rewrite (single_busy _ _ _ Hc) in Hreg. destruct Hreg as [Hq2 Hp2].
    split; [done|done|by rewrite Hsw|]. eexists. split; [exact Hp2|]. cbn [http_id remote_window set_scheduled]. rewrite Hrw.
    split_and!; [by destruct Hc; constructor|done| |done]. unfold fits, limit, used in *. lia.
Qed.

(** Uploads complete. A request with a body of one slice of any size, sent on a connected client with no other stream
    to serve, whose windows have room for the waiting commands, the header fields and 27 bytes more: if
    [n] turns to send can carry the body, each of them [share] bytes, then [n] turns send everything. The peer
    gets the commands, a HEADERS frame of RFC 7540 on the next odd stream identifier, from which its
    decoder reads exactly the fields of the request, and DATA frames whose payloads are, in
    order, exactly the bytes of the body, none longer than the maximal frame size; only the last one ends
    the stream. Nothing is left to send. The window of the peer is charged for the commands and the HEADERS
    frame, but not for the body. *)
Theorem client_upload (c : base_client H) rq h blk d room n :
  let k := client_id_order c in
  let remote := initial_window_size (SettingsManager.remote_settings (settings c)) in
  let local := SettingsManager.local_settings (settings c) in
  let limit := Z.min (turn_limit c) remote in
  let share := limit - 18 - wire_bounds (raw_headers rq) in
  is_connected_flag c = true -> queue (registry c) = [] -> 1 <= k < 2 ^ 31 ->
  fits 64 (server_window_size c) -> fits 64 remote -> 4 <= initial_window_size local < 2 ^ 32 ->
  request_ok (Encoder.config (encoder c)) rq -> one_slice rq blk ->
  9 <= share -> limit < 2 ^ 23 -> Z.of_nat (length (request_body rq)) <= Z.of_nat n * share ->
  codec_sync room (encoder c) d -> FIELD_ROOM * Z.of_nat (length (raw_headers rq)) <= room ->
  exists c1 c2 out block d' ds,
    initiate_send rq h c = Ok c1 /\ transmit n c1 = Ok (c2, out) /\
    contents out = contents (tx_command_queue c) ++ rfc_frame 1 END_HEADERS (2 * k - 1) block ++
      concat (data_frames (2 * k - 1) ds) /\
    Decoder.decode d (span_of m a block) = Ok (d', raw_headers rq) /\
    concat ds = request_body rq /\ ds <> [] /\ payloads_fit (max_frame_size local) ds /\
    codec_sync (room - FIELD_ROOM * Z.of_nat (length (raw_headers rq))) (encoder c2) d' /\
    queue (registry c2) = [] /\ tx_command_queue c2 = [] /\
    server_window_size c2 = turn_window c - (9 + Z.of_nat (length block)).
Proof.
  intros k remote local limit share Hcon Hq Hk Hw Hrem Hloc Hok Hone Hshare Hlim Hn Hsync Hroom.
  unfold initiate_send. rewrite Hcon. cbn [negb]. rewrite get_next_stream_id_eq by done. fold k.
  unfold new_stream. cbn [settings set_id_order registry]. set (s := make_stream _ _ _ rq h). set (c1 := init_write _).
  exists c1. set (p := length (store (registry c))). set (id := 2 * k - 1).
  assert (Hf : fits 32 id) by (unfold fits, id; lia).
  assert (Hu : unsent_request s id rq) by (by apply new_request_unsent).
  assert (Hp : store (registry c1) !! p = Some s) by (by apply list_lookup_middle).
  assert (Hq1 : queue (registry c1) = [Some p]) by (cbn; by rewrite Hq).
  destruct (upload_first c1 p s id rq blk d room Hu Hok Hone Hrem Hw Hq1 Hp Hsync Hroom)
    as (c2 & out1 & block & d' & l & Hg & Hd & Hsync' & Hblock & Ht & Hout & Hsw & Hl & Hc).
  { change (remote_window s) with remote. change (turn_limit c1) with (turn_limit c). fold limit. lia. }
  change (remote_window s) with remote in *. change (turn_limit c1) with (turn_limit c) in *.
  change (turn_window c1) with (turn_window c) in Hsw. change (tx_command_queue c1) with (tx_command_queue c) in Hg.
  fold limit in Hout, Hl, Hc. set (used := 9 + Z.of_nat (length block)) in *.
  pose proof (sg_range _ _ _ (headers_sent_single _ _ _ _ _ Hu Hok Hone)) as Hpos.
  rewrite (one_slice_body _ _ Hone) in *. set (body := Request.block_bytes blk) in *.
  set (sent := Z.min (limit - used - 9) (Z.of_nat (length body))) in *.
  destruct n as [|n]; [lia|]. cbn [transmit]. rewrite Hg. cbn [mbind outcome_bind].
  assert (Hmfs : limit <= max_frame_size local) by (unfold limit, turn_limit, local; lia).
  destruct (Z.eqb_spec sent (Z.of_nat (length body))) as [Hall|Hsome].
  - rewrite transmit_idle; [|rewrite Hsw; unfold limit, turn_limit, turn_window, fits, frame_bytes_total, used in *; lia|done..].
    cbn [mbind outcome_bind]. eexists c2, _, block, d', [body]. split; [done|]. split; [reflexivity|]. split_and!; try done.
    + rewrite app_nil_r, Streambuf.contents_app, Hout. cbn [data_frames concat]. rewrite app_nil_r. do 2 f_equal.
      unfold data_frame_of. fold sent. rewrite Hall, Z.eqb_refl. by rewrite take_ge by lia.
    + apply app_nil_r.
    + apply Forall_singleton. unfold used in *. lia.
  - destruct (upload_turns p id blk l n c2 sent Hc Hf) as (c3 & out & ds & -> & H1 & H2 & H3 & H4 & H5 & H6 & H7 & H8).
    { unfold used in *. lia. }
    { fold body. unfold sent, share, used in *. nia. }
    cbn [mbind outcome_bind]. eexists c3, _, block, d', (take (Z.to_nat sent) body :: ds). split; [done|]. split; [reflexivity|].
    fold body in H3. rewrite H6, H5, Hsw. split_and!; try done.
    + rewrite !Streambuf.contents_app, Hout, H1, <- !app_assoc. do 2 f_equal. apply data_frames_cons; [unfold used in *; lia|fold sent; lia|done].
    + cbn [concat]. rewrite H3. apply take_drop.
    + apply Forall_cons. split; [rewrite length_take; unfold used in *; lia|]. eapply Forall_impl; [exact H4|].
      cbv beta. intros y Hy. lia.
Qed.
End upload.

(** ** Example *)

(** A body of 40000 bytes on a new connection: three turns. *)
Definition upload_body : block_type := string_block (replicate (Z.to_nat 40000) 65).
Definition upload_request : request :=
  Request request1 [upload_body] [Request.block_bytes upload_body] 40000 30000.

Lemma slice_request_ok fs bytes n :
  fs <> [] -> forallb (field_wfb Encoder.default_config) fs = true -> Z.of_nat (length fs) < 2 ^ 23 ->
  Z.of_nat (length bytes) = n -> 0 < n < 2 ^ 64 ->
  request_ok Encoder.default_config (Request fs [string_block bytes] [bytes] n 30000).
Proof.
  intros H1 H2 H3 <- H5. split; try done.
  - by apply fields_wfb_ok.
  - apply Forall_singleton. intros ->. cbn [length] in H5. lia.
  - unfold request_body. cbn. by rewrite app_nil_r.
  - unfold request_body. cbn -[Z.pow]. rewrite app_nil_r. apply H5.
Qed.

Lemma upload_request_ok : request_ok Encoder.default_config upload_request.
Proof.
  refine (slice_request_ok request1 (replicate (Z.to_nat 40000) 65) 40000 _ _ _ _ _); [done|done|done| |done].
  rewrite length_replicate. lia.
Qed.

Lemma client_upload_witness :
  exists c1 c2 out block d' ds,
    initiate_send upload_request 1%nat example_client = Ok c1 /\ transmit zero_memory 3 c1 = Ok (c2, out) /\
    contents out = rfc_frame 1 END_HEADERS 1 block ++ concat (data_frames 1 ds) /\
    Decoder.decode Decoder.make_decoder (span_of zero_memory 0 block) = Ok (d', request1) /\
    concat ds = replicate (Z.to_nat 40000) 65 /\ payloads_fit 16384 ds /\ queue (registry c2) = [] /\
    server_window_size c2 = 65535 - (9 + Z.of_nat (length block)).
Proof.
  destruct (client_upload zero_memory zero_memory_ok zero_memory zero_memory_ok 0 example_client
    upload_request 1%nat upload_body Decoder.make_decoder (2 ^ 40) 3)
    as (c1 & c2 & out & block & d' & ds & H1 & H2 & H3 & H4 & H5 & _ & H6 & _ & H7 & _ & H8).
  - reflexivity.
  - reflexivity.
  - by vm_compute.
  - by vm_compute.
  - by vm_compute.
  - by vm_compute.
  - exact upload_request_ok.
  - by split.
  - by vm_compute.
  - by vm_compute.
  - unfold request_body, upload_request, upload_body. cbn [span_list concat Request.block_bytes].
    rewrite app_nil_r, length_replicate. by vm_compute.
  - exact new_codec_sync.
  - by vm_compute.
  - exists c1, c2, out, block, d', ds. unfold request_body, upload_request, upload_body in H5.
    cbn [span_list concat Request.block_bytes] in H5. rewrite app_nil_r in H5. split_and!; assumption.
Defined.
