(* ===== verification/ClientUploads.v ===== *)
(** * Uploads side by side (base_client::get_tx_data, stream_registry::get_data)

    Several requests with large bodies share the turns to send. Each turn serves every stream that has
    something left, once, in the order of the queue; since DATA frames are not counted, every
    stream may fill a frame up to the limit of the whole turn. So uploads side by side
    take no more turns than the largest of them. *)
From S2P Require Import Prelude Memory Utils Buffer HeaderField Protocol Frame FrameBuilder.
From S2P Require Import Request Response Stream IndexedDynamicTable HpackSync HpackCodec StreamHeaders StreamRegistry BaseClient.
From S2P Require Import ClientSending ClientUpload.
From S2P Require Streambuf Encoder Decoder Window SettingsManager.
Import Streambuf (contents).

(** ** The schedule *)

(** A stream in the middle of its body: the offset, and the window the peer has left it. *)
Record upload : Type := Upload { ul_ptr : ptr; ul_id : Z; ul_block : block_type; ul_offset : Z; ul_remote : Z }.

Definition ul_rest (u : upload) : list Z := drop (Z.to_nat (ul_offset u)) (Request.block_bytes (ul_block u)).

(** What it sends when [l] bytes are allowed, and what is left. *)
Definition ul_sent (l : Z) (u : upload) : Z := Z.min (l - 9) (Z.of_nat (length (ul_rest u))).
Definition ul_frame (l : Z) (u : upload) : Z * list Z := (ul_id u, data_frame_of (ul_id u) l (ul_rest u)).
Definition ul_left (l : Z) (u : upload) : list upload :=
  if ul_sent l u =? Z.of_nat (length (ul_rest u)) then []
  else [Upload (ul_ptr u) (ul_id u) (ul_block u) (ul_offset u + ul_sent l u) (ul_remote u)].

(** A turn with a limit serves every stream; [n] turns. *)
Definition ul_max (limit : Z) (u : upload) : Z := Z.min limit (ul_remote u).
Definition round (limit : Z) (us : list upload) : list (Z * list Z) := (fun u => ul_frame (ul_max limit u) u) <$> us.
Definition after_round (limit : Z) (us : list upload) : list upload := us ≫= fun u => ul_left (ul_max limit u) u.
Fixpoint schedule (limit : Z) (n : nat) (us : list upload) : list (Z * list Z) :=
  match n with
  | O => []
  | S n => round limit us ++ schedule limit n (after_round limit us)
  end.

(** The frames of one stream. *)
Definition frames_of (id : Z) (ws : list (Z * list Z)) : list (list Z) := (filter (fun x => x.1 = id) ws).*2.

Lemma frames_of_app id ws1 ws2 : frames_of id (ws1 ++ ws2) = frames_of id ws1 ++ frames_of id ws2.
Proof. unfold frames_of. by rewrite filter_app, fmap_app. Qed.

Lemma frames_of_none id ws : Forall (fun x => x.1 <> id) ws -> frames_of id ws = [].
Proof.
  induction 1 as [|x ws Hx _ IH]; [done|]. unfold frames_of in *. by rewrite filter_cons_False.
Qed.

(** What is left after a turn is a part of what was there. *)
Lemma ul_left_in l u v :
  v ∈ ul_left l u -> v = Upload (ul_ptr u) (ul_id u) (ul_block u) (ul_offset u + ul_sent l u) (ul_remote u) /\
    ul_sent l u <> Z.of_nat (length (ul_rest u)).
Proof.
  unfold ul_left. destruct (Z.eqb_spec (ul_sent l u) (Z.of_nat (length (ul_rest u)))); [by intros ?%elem_of_nil|].
  by intros ->%list_elem_of_singleton.
Qed.

Lemma after_round_in limit us v : v ∈ after_round limit us -> exists u, u ∈ us /\ v ∈ ul_left (ul_max limit u) u.
Proof. intros (u & H1 & H2)%list_elem_of_bind. by exists u. Qed.

Section sublist.
Context {A : Type} (f : upload -> A) (Hf : forall p id b o o' r, f (Upload p id b o r) = f (Upload p id b o' r)).

Lemma after_round_sublist limit us : (f <$> after_round limit us) `sublist_of` (f <$> us).
Proof.
  induction us as [|u us IH]; [done|]. unfold after_round in *. rewrite bind_cons, fmap_app, fmap_cons.
  unfold ul_left at 1. destruct (_ =? _); [by constructor|]. cbn [fmap list_fmap app].
  destruct u as [p id b o r]. cbn [ul_ptr ul_id ul_block ul_offset ul_remote]. rewrite (Hf _ _ _ _ o). by constructor.
Qed.
End sublist.

(** The frames of a stream are the pieces of its body, in order. *)
Lemma round_other limit id us : Forall (fun u => ul_id u <> id) us -> frames_of id (round limit us) = [].
Proof. intros Hu. apply frames_of_none. unfold round. by apply Forall_fmap. Qed.

Lemma schedule_other limit n id : forall us, Forall (fun u => ul_id u <> id) us -> frames_of id (schedule limit n us) = [].
Proof.
  induction n as [|n IH]; intros us Hu; [done|]. cbn [schedule]. rewrite frames_of_app, round_other, IH; [done| |done].
  apply Forall_forall. intros v (u & Hin & Hv)%after_round_in. apply ul_left_in in Hv as [-> _].
  rewrite Forall_forall in Hu. exact (Hu u Hin).
Qed.

Lemma round_stream limit us u : NoDup (ul_id <$> us) -> u ∈ us -> frames_of (ul_id u) (round limit us) = [(ul_frame (ul_max limit u) u).2].
Proof.
  intros Hnd (us1 & us2 & ->)%list_elem_of_split. rewrite fmap_app, fmap_cons in Hnd.
  apply NoDup_app in Hnd as (_ & Hx & Hnd). apply NoDup_cons in Hnd as [Hn _].
  unfold round. rewrite fmap_app, fmap_cons, frames_of_app. fold (round limit us1) (round limit us2).
  rewrite round_other by (apply Forall_forall; intros v Hv E; apply (Hx (ul_id u)); [rewrite <- E; by apply list_elem_of_fmap_2|by left]).
  unfold frames_of. rewrite filter_cons_True by done. fold (frames_of (ul_id u) (round limit us2)).
  rewrite fmap_cons. fold (frames_of (ul_id u) (round limit us2)).
  rewrite round_other; [done|]. apply Forall_forall. intros v Hv E. apply Hn. rewrite <- E. by apply list_elem_of_fmap_2.
Qed.

Lemma ul_left_rest l u v :
  9 <= l -> 0 <= ul_offset u -> v ∈ ul_left l u ->
  ul_rest v = drop (Z.to_nat (ul_sent l u)) (ul_rest u) /\ 0 <= ul_offset v /\ ul_rest v <> [] /\
  ul_sent l u = l - 9 /\ Z.of_nat (length (ul_rest v)) = Z.of_nat (length (ul_rest u)) - (l - 9).
Proof.
  intros Hl Ho [-> Hne]%ul_left_in. assert (Hs : ul_sent l u = l - 9) by (unfold ul_sent in *; lia).
  assert (Hlt : l - 9 < Z.of_nat (length (ul_rest u))) by (unfold ul_sent in *; lia).
  assert (Hr : ul_rest (Upload (ul_ptr u) (ul_id u) (ul_block u) (ul_offset u + ul_sent l u) (ul_remote u)) =
    drop (Z.to_nat (ul_sent l u)) (ul_rest u)).
  { unfold ul_rest at 1 2. cbn [ul_offset ul_block]. rewrite drop_drop. f_equal. lia. }
  rewrite Hr, Hs. assert (Hlen : Z.of_nat (length (drop (Z.to_nat (l - 9)) (ul_rest u))) = Z.of_nat (length (ul_rest u)) - (l - 9))
    by (rewrite length_drop; lia).
  split_and!; try done; [cbn [ul_offset]; lia|]. intros E. rewrite E in Hlen. cbn in Hlen. lia.
Qed.

(** A frame, and the frames of what is left. *)
Lemma pieces_first l mx u ds :
  9 <= l <= mx ->
  (if ul_sent l u =? Z.of_nat (length (ul_rest u)) then ds = []
   else ds <> [] /\ concat ds = drop (Z.to_nat (ul_sent l u)) (ul_rest u) /\ payloads_fit mx ds) ->
  exists ds', (ul_frame l u).2 :: data_frames (ul_id u) ds = data_frames (ul_id u) ds' /\ concat ds' = ul_rest u /\
    ds' <> [] /\ payloads_fit mx ds'.
Proof.
  intros Hl Hds. cbn [ul_frame snd]. unfold data_frame_of. fold (ul_sent l u). revert Hds.
  destruct (Z.eqb_spec (ul_sent l u) (Z.of_nat (length (ul_rest u)))) as [E|E].
  - intros ->. exists [ul_rest u]. rewrite E, take_ge by lia. split_and!; [done|apply app_nil_r|done|].
    apply Forall_singleton. unfold ul_sent in E. lia.
  - intros (Hne & Hc & Hp). exists (take (Z.to_nat (ul_sent l u)) (ul_rest u) :: ds). split_and!; [by destruct ds| |done|].
    + cbn [concat]. rewrite Hc. apply take_drop.
    + apply Forall_cons. split; [|done]. rewrite length_take. unfold ul_sent. lia.
Qed.

(** A body that fits [n] frames is sent completely in [n] turns, whatever else is uploaded. *)
Lemma schedule_stream limit n : forall us u,
  NoDup (ul_id <$> us) -> u ∈ us -> 9 < ul_max limit u -> 0 <= ul_offset u -> ul_rest u <> [] ->
  Z.of_nat (length (ul_rest u)) <= Z.of_nat n * (ul_max limit u - 9) ->
  exists ds, frames_of (ul_id u) (schedule limit n us) = data_frames (ul_id u) ds /\ concat ds = ul_rest u /\ ds <> [] /\
    payloads_fit (ul_max limit u) ds.
Proof.
  induction n as [|n IH]; intros us u Hnd Hu Hl Ho Hne Hn; [by destruct (ul_rest u)|].
  cbn [schedule]. rewrite frames_of_app, round_stream by done. set (l := ul_max limit u) in *.
  assert (Hnd' : NoDup (ul_id <$> after_round limit us)) by (eapply sublist_NoDup; [exact Hnd|by apply after_round_sublist]).
  destruct (Z.eqb_spec (ul_sent l u) (Z.of_nat (length (ul_rest u)))) as [E|E].
  - rewrite schedule_other.
    + apply (pieces_first l l u []); [lia|]. by rewrite (proj2 (Z.eqb_eq _ _)).
    + apply Forall_forall. intros v (w & Hw & Hv)%after_round_in Eid. apply ul_left_in in Hv as [-> Hs]. cbn [ul_id] in Eid.
      assert (w = u) as ->; [|by fold l in Hs].
      apply list_elem_of_lookup in Hu as [i Hi]. apply list_elem_of_lookup in Hw as [j Hj].
      assert (i = j) as <-; [|congruence]. eapply (NoDup_lookup (ul_id <$> us)); [done|..]; rewrite list_lookup_fmap, ?Hi, ?Hj; cbn; by rewrite ?Eid.
  - set (v := Upload (ul_ptr u) (ul_id u) (ul_block u) (ul_offset u + ul_sent l u) (ul_remote u)).
    assert (Hv : v ∈ ul_left l u) by (unfold ul_left; rewrite (proj2 (Z.eqb_neq _ _)) by done; by left).
    destruct (ul_left_rest l u v ltac:(lia) Ho Hv) as (R1 & R2 & R3 & R4 & R5).
    destruct (IH (after_round limit us) v Hnd') as (ds & D1 & D2 & D3 & D4); try done.
    { unfold after_round. apply list_elem_of_bind. by exists u. }
    { change (ul_max limit v) with l. rewrite R5. lia. }
    change (ul_id v) with (ul_id u) in D1. change (ul_max limit v) with l in D4. rewrite D1.
    apply (pieces_first l l u ds); [lia|]. rewrite (proj2 (Z.eqb_neq _ _)) by done. by rewrite <- R1.
Qed.

Section uploads.
Context {SS : SetSearch} {H : Type} (fresh : Z -> Z) (Hfresh : forall i, is_byte (fresh i)).
Context (m : Z -> Z) (Hm : forall x, is_byte (m x)) (a : Z).

(** ** The turns *)

(** The stream is in the store, with a body of one slice. *)
Definition upload_in (st : list (stream H)) (u : upload) : Prop :=
  fits 32 (ul_id u) /\ exists s, st !! ul_ptr u = Some s /\ single s (ul_block u) (ul_offset u) /\
    http_id s = native_to_big (ul_id u) /\ remote_window s = ul_remote u /\ fits 64 (ul_remote u).

Lemma upload_in_offset st u : upload_in st u -> 0 <= ul_offset u /\ ul_rest u <> [].
Proof.
  intros (_ & s & _ & [] & _). split; [lia|]. intros E. apply (f_equal length) in E. unfold ul_rest in E.
  rewrite length_drop in E. cbn in E. lia.
Qed.

Lemma upload_in_insert st p s u : ul_ptr u <> p -> upload_in st u -> upload_in (<[p := s]> st) u.
Proof. intros Hp (Hf & s' & Hs & Hr). split; [done|]. exists s'. by rewrite list_lookup_insert_ne. Qed.

Lemma take_turn_upload limit (t : turn) u :
  tn_used t = 0 -> fits 64 limit -> upload_in (tn_store t) u -> 18 <= ul_max limit u < 2 ^ 23 ->
  exists s frame, take_turn fresh limit (ul_ptr u) t =
      Ok (Turn (<[ul_ptr u := s]> (tn_store t)) (tn_encoder t) (tn_out t ++ [frame]) 0 (tn_effects t)
            (tn_next t ++ (Some ∘ ul_ptr <$> ul_left (ul_max limit u) u))) /\
    data_view frame = (ul_frame (ul_max limit u) u).2 /\
    Forall (upload_in (<[ul_ptr u := s]> (tn_store t))) (ul_left (ul_max limit u) u).
Proof.
  intros Hu0 Hlim (Hf & s & Hs & Hsg & Hid & Hrw & Hr64) Hl.
  destruct (single_step fresh (tn_encoder t) limit s (ul_id u) (ul_block u) (ul_offset u) Hsg Hid Hf)
    as (frame & s' & Hx & Hv & Hi & Hr & Hsch & Hc); [by rewrite Hrw|rewrite Hrw; unfold ul_max in Hl; lia|].
  rewrite Hrw in Hv, Hc. fold (ul_max limit u) (ul_rest u) in Hv, Hc. fold (ul_sent (ul_max limit u) u) in Hv, Hc.
  change (data_view frame = (ul_frame (ul_max limit u) u).2) in Hv.
  unfold take_turn, deref. rewrite Hs. cbn [mbind outcome_bind]. rewrite (single_busy _ _ _ Hsg). cbn [negb].
  rewrite Hu0, Z.sub_0_r. replace (u64 limit) with limit by (symmetry; by apply wrap_small). rewrite Hx. cbn [mbind outcome_bind].
  cbn [sent_stream sent_encoder sent_out sent_used sent_effects]. unfold check_tx_data. rewrite Hsch. cbn [negb andb].
  change (tagged (ul_ptr u) []) with (@nil (ptr * effect H)). rewrite app_nil_r. unfold ul_left.
  destruct (ul_sent (ul_max limit u) u =? _).
  - rewrite (drained_idle _ Hc). eexists _, frame. cbn [fmap list_fmap]. rewrite app_nil_r.
    split; [reflexivity|]. split; [exact Hv|by apply Forall_nil].
  - rewrite (single_busy _ _ _ Hc). eexists _, frame. split; [reflexivity|]. split; [exact Hv|]. apply Forall_singleton.
    split; [done|]. eexists. split; [apply list_lookup_insert_eq; by eapply lookup_lt_Some|].
    cbn [ul_block ul_offset ul_id ul_remote http_id remote_window set_scheduled]. split_and!; try done.
    + by destruct Hc; constructor.
    + by rewrite Hi.
    + by rewrite Hr.
Qed.

Lemma turns_uploads limit us : forall t,
  tn_used t = 0 -> fits 64 limit -> NoDup (ul_ptr <$> us) -> Forall (upload_in (tn_store t)) us ->
  Forall (fun u => 18 <= ul_max limit u < 2 ^ 23) us ->
  exists t', turns fresh limit (Some ∘ ul_ptr <$> us) t = Ok t' /\ contents (tn_out t') = contents (tn_out t) ++ concat (round limit us).*2 /\
    tn_used t' = 0 /\ tn_encoder t' = tn_encoder t /\ tn_effects t' = tn_effects t /\
    tn_next t' = tn_next t ++ (Some ∘ ul_ptr <$> after_round limit us) /\
    Forall (upload_in (tn_store t')) (after_round limit us) /\
    forall v, ul_ptr v ∉ (ul_ptr <$> us) -> upload_in (tn_store t) v -> upload_in (tn_store t') v.
Proof.
  induction us as [|u us IH]; intros t Hu0 Hlim Hnd Hin Hl.
  { exists t. cbn. rewrite !app_nil_r. by split_and!. }
  rewrite fmap_cons in Hnd. apply NoDup_cons in Hnd as [Hn Hnd]. apply Forall_cons in Hin as [Hu Hin].
  apply Forall_cons in Hl as [Hlu Hl].
  destruct (take_turn_upload limit t u Hu0 Hlim Hu Hlu) as (s & frame & Ht & Hv & Hleft).
  rewrite fmap_cons. cbn [turns compose]. rewrite Ht. cbn [mbind outcome_bind]. set (t1 := Turn _ _ _ _ _ _) in *.
  destruct (IH t1) as (t' & -> & R1 & R2 & R3 & R4 & R5 & R6 & R7); try done.
  { apply Forall_forall. intros v Hv'. apply upload_in_insert; [|by rewrite Forall_forall in Hin; apply Hin].
    intros E. apply Hn. rewrite <- E. by apply list_elem_of_fmap_2. }
  exists t'. split; [done|]. rewrite R1, R3, R4, R5. unfold t1. cbn [tn_out tn_encoder tn_effects tn_next].
  unfold round, after_round in *. rewrite bind_cons, fmap_app, !fmap_cons, Streambuf.contents_app. cbn [concat].
  change (contents [frame]) with (data_view frame ++ []). rewrite app_nil_r, Hv, <- !app_assoc. split_and!; try done.
  - apply Forall_app. split; [|done]. apply Forall_forall. intros v Hv'. apply R7.
    + apply ul_left_in in Hv' as [-> _]. exact Hn.
    + by rewrite Forall_forall in Hleft; apply Hleft.
  - intros v Hv' Hv2. apply not_elem_of_cons in Hv' as [Hne Hv']. apply R7; [done|]. by apply upload_in_insert.
Qed.

(** The only work of the client is these uploads. *)
Record uploading_all (c : base_client H) (us : list upload) : Prop := {
  ua_commands : tx_command_queue c = [];
  ua_queue : queue (registry c) = Some ∘ ul_ptr <$> us;
  ua_window : fits 64 (server_window_size c);
  ua_distinct : NoDup (ul_ptr <$> us);
  ua_streams : Forall (upload_in (store (registry c))) us;
  ua_limits : Forall (fun u => 18 <= ul_max (turn_limit c) u < 2 ^ 23) us;
}.

Lemma turn_limit_idle (c : base_client H) :
  tx_command_queue c = [] ->
  turn_limit c = Z.min (server_window_size c) (max_frame_size (SettingsManager.local_settings (settings c))).
Proof. intros Ht. unfold turn_limit, turn_window. rewrite Ht. unfold frame_bytes_total. simpl. by rewrite Z.sub_0_r. Qed.

Lemma uploads_turn c us :
  uploading_all c us -> exists c' out, get_tx_data fresh c = Ok (c', out) /\
    contents out = concat (round (turn_limit c) us).*2 /\ uploading_all c' (after_round (turn_limit c) us) /\
    turn_limit c' = turn_limit c /\ server_window_size c' = server_window_size c /\ encoder c' = encoder c.
Proof.
  intros [Ht Hq Hw Hnd Hin Hl]. pose proof (turn_limit_idle c Ht) as Htl. destruct us as [|u us].
  { exists c, []. by rewrite get_tx_data_nothing. }
  set (us' := u :: us) in *.
  assert (H18 : 18 <= turn_limit c) by (apply Forall_cons in Hl as [Hl _]; unfold ul_max in Hl; lia).
  assert (Hfl : fits 64 (turn_limit c)) by (unfold fits in *; lia).
  unfold get_tx_data. rewrite Ht, take_commands_all by (done || (unfold frame_bytes_total; simpl; unfold fits in Hw; lia)).
  change (frame_bytes_total []) with 0. rewrite Z.sub_0_r. cbn [negb]. set (c1 := set_tx _ [] c).
  change (Z.min (server_window_size c1) _) with (Z.min (server_window_size c) (max_frame_size (SettingsManager.local_settings (settings c)))).
  rewrite <- Htl, (proj2 (Z.leb_le _ _)) by (unfold HEADER_SIZE; lia). unfold get_data.
  rewrite (proj2 (Z.ltb_ge _ _)) by lia. change (registry c1) with (registry c). change (encoder c1) with (encoder c). rewrite Hq.
  destruct (turns_uploads (turn_limit c) us' (Turn (store (registry c)) (encoder c) [] 0 [] []))
    as (t' & -> & R1 & R2 & R3 & R4 & R5 & R6 & _); try done.
  cbn [mbind outcome_bind]. eexists _, _. split; [reflexivity|]. rewrite R2.
  assert (Hsw : u64 (server_window_size c - 0) = server_window_size c) by (rewrite Z.sub_0_r; by apply wrap_small).
  set (c' := set_tx _ _ _).
  assert (Hw' : server_window_size c' = server_window_size c) by exact Hsw.
  assert (Htl' : turn_limit c' = turn_limit c) by (rewrite Htl, turn_limit_idle by done; by rewrite Hw').
  split; [exact R1|]. split_and!; try done. split; try done; [by rewrite Hw'| |].
  - eapply sublist_NoDup; [exact Hnd|]. by apply after_round_sublist.
  - rewrite Htl'. apply Forall_forall. intros v (w & Hw2 & Hv)%after_round_in. apply ul_left_in in Hv as [-> _].
    rewrite Forall_forall in Hl. exact (Hl w Hw2).
Qed.

Fixpoint after_rounds (limit : Z) (n : nat) (us : list upload) : list upload :=
  match n with O => us | S n => after_rounds limit n (after_round limit us) end.

Lemma uploads_turns n : forall c us,
  uploading_all c us -> exists c' out, transmit fresh n c = Ok (c', out) /\
    contents out = concat (schedule (turn_limit c) n us).*2 /\ uploading_all c' (after_rounds (turn_limit c) n us) /\
    server_window_size c' = server_window_size c /\ encoder c' = encoder c.
Proof.
  induction n as [|n IH]; intros c us Hu; [by exists c, []|].
  destruct (uploads_turn c us Hu) as (c1 & out1 & Hg & Ho & Hu1 & Htl & Hw & He).
  destruct (IH c1 _ Hu1) as (c' & out & Ht & Ho' & Hu' & Hw' & He'). cbn [transmit schedule after_rounds].
  rewrite Hg. cbn [mbind outcome_bind]. rewrite Ht. cbn [mbind outcome_bind]. exists c', (out1 ++ out).
  rewrite Htl in Ho', Hu'. rewrite Streambuf.contents_app, Ho, Ho', fmap_app, concat_app. split_and!; try done; congruence.
Qed.

(** Every body that fits its turns is sent. *)
Lemma after_rounds_done limit n : forall us,
  Forall (fun u => 9 < ul_max limit u /\ 0 <= ul_offset u /\ ul_rest u <> [] /\
    Z.of_nat (length (ul_rest u)) <= Z.of_nat n * (ul_max limit u - 9)) us -> after_rounds limit n us = [].
Proof.
  induction n as [|n IH]; intros us Hu.
  - destruct us as [|u us]; [done|]. apply Forall_cons in Hu as [(_ & _ & Hne & Hn) _]. by destruct (ul_rest u).
  - apply IH. apply Forall_forall. intros v (u & Hin & Hv)%after_round_in. rewrite Forall_forall in Hu.
    destruct (Hu u Hin) as (Hl & Ho & Hne & Hn). destruct (ul_left_rest (ul_max limit u) u v ltac:(lia) Ho Hv) as (R1 & R2 & R3 & R4 & R5).
    assert (Hm' : ul_max limit v = ul_max limit u) by (by apply ul_left_in in Hv as [-> _]).
    rewrite Hm', R5. split_and!; try done. lia.
Qed.

(** ** The turn in which the requests start *)

(** A request in its first turn: its stream, slice and header block, what is allowed for its DATA frame, and
    the window that is left. *)
Record start : Type := Start {
  sr_ptr : ptr; sr_id : Z; sr_request : request; sr_slice : block_type; sr_block : list Z; sr_limit : Z; sr_remote : Z;
}.
Definition start_upload (x : start) : upload := Upload (sr_ptr x) (sr_id x) (sr_slice x) 0 (sr_remote x).
Definition start_frames (x : start) : list (Z * list Z) :=
  [(sr_id x, rfc_frame 1 END_HEADERS (sr_id x) (sr_block x)); ul_frame (sr_limit x) (start_upload x)].
Definition start_left (x : start) : list upload := ul_left (sr_limit x) (start_upload x).
Definition start_used (x : start) : Z := 9 + Z.of_nat (length (sr_block x)).

(** The bytes of the header frames at most. *)
Definition total_bounds (rqs : list request) : Z := foldr (fun rq n => 9 + wire_bounds (raw_headers rq) + n) 0 rqs.

Lemma total_bounds_nonneg rqs : 0 <= total_bounds rqs.
Proof. induction rqs as [|rq rqs IH]; [done|]. cbn [total_bounds foldr]. pose proof (wire_bounds_nonneg (raw_headers rq)). unfold total_bounds in IH. lia. Qed.

Lemma take_turn_start limit (t : turn) p (s : stream H) id rq blk d room :
  tn_store t !! p = Some s -> unsent_request s id rq -> request_ok (Encoder.config (tn_encoder t)) rq -> one_slice rq blk ->
  fits 64 (remote_window s) -> codec_sync room (tn_encoder t) d -> FIELD_ROOM * Z.of_nat (length (raw_headers rq)) <= room ->
  fits 64 limit -> 0 <= tn_used t ->
  let l := Z.min (limit - tn_used t) (remote_window s) in
  27 + wire_bounds (raw_headers rq) <= l < 2 ^ 23 ->
  exists x s' t' d', take_turn fresh limit p t = Ok t' /\ sr_ptr x = p /\ sr_id x = id /\ sr_request x = rq /\ sr_slice x = blk /\
    Decoder.decode d (span_of m a (sr_block x)) = Ok (d', raw_headers rq) /\
    codec_sync (room - FIELD_ROOM * Z.of_nat (length (raw_headers rq))) (tn_encoder t') d' /\
    Encoder.config (tn_encoder t') = Encoder.config (tn_encoder t) /\
    start_used x <= 9 + wire_bounds (raw_headers rq) /\ sr_limit x = l - start_used x /\ sr_remote x = remote_window s - start_used x /\
    tn_used t' = tn_used t + start_used x /\ contents (tn_out t') = contents (tn_out t) ++ concat (start_frames x).*2 /\
    tn_next t' = tn_next t ++ (Some ∘ ul_ptr <$> start_left x) /\ tn_store t' = <[p := s']> (tn_store t) /\
    Forall (upload_in (tn_store t')) (start_left x).
Proof.
  intros Hs Hu Hok Hone Hrem Hsync Hroom Hlim Hu0 l Hl. pose proof (wire_bounds_nonneg (raw_headers rq)) as Hwb.
  destruct (upload_start fresh Hfresh m Hm a (tn_encoder t) d (limit - tn_used t) s id rq blk room Hu Hok Hone Hrem Hsync Hroom)
    as (y & block & d' & Hx & Hd & Hs' & Hcfg & Hb & Hout & Hused & Hid & Hrw & Hc); [fold l; lia|].
  fold l in Hout, Hc. set (x := Start p id rq blk block (l - (9 + Z.of_nat (length block))) (remote_window s - (9 + Z.of_nat (length block)))).
  assert (Hsched : is_scheduled (sent_stream y) = false) by (by destruct (get_tx_data_same _ _ _ _ _ Hx) as [_ ?]).
  assert (Htx : has_tx_data s = true).
  { unfold has_tx_data. rewrite (ur_request _ _ _ Hu), (bool_decide_eq_false_2 (header_list rq = [])) by apply (ro_headers _ _ Hok).
    cbn [negb]. by rewrite orb_true_r. }
  assert (Hrest : ul_rest (start_upload x) = Request.block_bytes blk) by (unfold ul_rest, x; cbn; apply drop_0).
  assert (Hused' : u64 (tn_used t + sent_used y) = tn_used t + start_used x).
  { rewrite Hused. unfold start_used, x. cbn [sr_block]. apply wrap_small. unfold fits in *. lia. }
  assert (Hleft : start_left x = if Z.min (l - (9 + Z.of_nat (length block)) - 9) (Z.of_nat (length (Request.block_bytes blk))) =?
      Z.of_nat (length (Request.block_bytes blk)) then []
    else [Upload p id blk (Z.min (l - (9 + Z.of_nat (length block)) - 9) (Z.of_nat (length (Request.block_bytes blk)))) (sr_remote x)]).
  { unfold start_left, ul_left, ul_sent. rewrite Hrest. done. }
  unfold take_turn, deref. rewrite Hs. cbn [mbind outcome_bind]. rewrite Htx. cbn [negb].
  replace (u64 (limit - tn_used t)) with (limit - tn_used t) by (symmetry; apply wrap_small; unfold fits in *; lia).
  rewrite Hx. cbn [mbind outcome_bind]. unfold check_tx_data. rewrite Hsched. cbn [negb andb]. rewrite Hused'.
  assert (Hcont : contents (tn_out t ++ sent_out y) = contents (tn_out t) ++ concat (start_frames x).*2).
  { rewrite Streambuf.contents_app, Hout. cbn [start_frames fmap list_fmap snd concat ul_frame]. rewrite Hrest, app_nil_r. done. }
  cbv zeta in Hc. exists x. rewrite Hleft. destruct (_ =? _).
  - rewrite (drained_idle _ Hc). exists (sent_stream y). eexists _, d'. split; [reflexivity|].
    cbn [tn_encoder tn_used tn_out tn_next tn_store fmap list_fmap]. rewrite app_nil_r.
    split_and!; try done. unfold start_used, x. cbn [sr_block]. lia.
  - rewrite (single_busy _ _ _ Hc). exists (set_scheduled true (sent_stream y)). eexists _, d'. split; [reflexivity|].
    cbn [tn_encoder tn_used tn_out tn_next tn_store fmap list_fmap compose ul_ptr].
    split_and!; try done; [unfold start_used, x; cbn [sr_block]; lia|]. apply Forall_singleton.
    split; [apply Hu|]. eexists. split; [apply list_lookup_insert_eq; by eapply lookup_lt_Some|].
    cbn [ul_block ul_offset ul_id ul_remote http_id remote_window set_scheduled]. split_and!; try done.
    + by destruct Hc; constructor.
    + unfold x. cbn [sr_remote]. unfold fits in *. lia.
Qed.

Lemma unsent_all_insert remote st p (s : stream H) ps : forall k rqs,
  p ∉ ps -> unsent_all remote st k ps rqs -> unsent_all remote (<[p := s]> st) k ps rqs.
Proof.
  induction ps as [|q ps IH]; intros k [|rq rqs] Hn; try done. apply not_elem_of_cons in Hn as [Hne Hn].
  intros [(s' & Hs' & Hw) Hr]. split; [|by apply IH]. exists s'. by rewrite list_lookup_insert_ne by done.
Qed.

(** What is known of the requests after the turn. *)
Definition start_ok (share limit remote : Z) (x : start) : Prop :=
  share + 9 <= sr_limit x <= limit /\ sr_remote x = remote - start_used x /\
  0 <= start_used x <= 9 + wire_bounds (raw_headers (sr_request x)).
Definition starts_ids (k : Z) (xs : list start) : Prop :=
  forall i x, xs !! i = Some x -> sr_id x = 2 * (k + Z.of_nat i) - 1.

Lemma turns_starts remote share limit rqs : forall blks k ps t d room,
  NoDup ps -> unsent_all remote (tn_store t) k ps rqs -> Forall (request_ok (Encoder.config (tn_encoder t))) rqs ->
  Forall2 one_slice rqs blks -> fits 64 remote -> codec_sync room (tn_encoder t) d -> FIELD_ROOM * total_headers rqs <= room ->
  fits 64 limit -> 0 <= tn_used t -> 9 <= share ->
  share + 9 + total_bounds rqs <= Z.min (limit - tn_used t) remote -> Z.min limit remote < 2 ^ 23 ->
  exists xs t' d', turns fresh limit (Some <$> ps) t = Ok t' /\
    sr_ptr <$> xs = ps /\ sr_request <$> xs = rqs /\ sr_slice <$> xs = blks /\ starts_ids k xs /\
    decode_blocks m a d (sr_block <$> xs) = Ok (d', raw_headers <$> rqs) /\
    codec_sync (room - FIELD_ROOM * total_headers rqs) (tn_encoder t') d' /\
    Forall (start_ok share limit remote) xs /\
    tn_used t' = tn_used t + headers_bytes (sr_block <$> xs) /\ headers_bytes (sr_block <$> xs) <= total_bounds rqs /\
    contents (tn_out t') = contents (tn_out t) ++ concat (xs ≫= start_frames).*2 /\
    tn_next t' = tn_next t ++ (Some ∘ ul_ptr <$> (xs ≫= start_left)) /\
    Forall (upload_in (tn_store t')) (xs ≫= start_left) /\
    forall v, ul_ptr v ∉ ps -> upload_in (tn_store t) v -> upload_in (tn_store t') v.
Proof.
  induction rqs as [|rq rqs IH]; intros blks k ps t d room Hnd Hun Hok Hsl Hrem Hsync Hroom Hlim Hu0 Hsh Hmin Hmax.
  { destruct ps; [|done]. apply Forall2_nil_inv_l in Hsl as ->. exists [], t, d. cbn [fmap list_fmap turns decode_blocks mbind list_bind concat headers_bytes foldr].
    rewrite !app_nil_r. split_and!; try done; try lia. replace (room - _) with room; [done|]. cbn [total_headers foldr]. lia. }
  destruct ps as [|p ps]; [done|]. apply NoDup_cons in Hnd as [Hp Hnd].
  destruct Hun as [(s & Hs & Hus & Hrw) Hun]. apply Forall_cons in Hok as [Hrq Hok].
  apply Forall2_cons_inv_l in Hsl as (blk & blks' & Hone & Hsl & ->).
  cbn [total_headers total_bounds foldr] in *. fold (total_headers rqs) (total_bounds rqs) in *.
  pose proof (total_bounds_nonneg rqs) as Hn1. pose proof (total_headers_nonneg rqs) as Hn2.
  pose proof (wire_bounds_nonneg (raw_headers rq)) as Hn3.
  destruct (take_turn_start limit t p s (2 * k - 1) rq blk d room Hs Hus Hrq Hone)
    as (x & s' & t1 & d1 & Ht & X1 & X2 & X3 & X4 & X5 & X6 & X7 & X8 & X9 & X10 & X11 & X12 & X13 & X14 & X15); try done;
    [by rewrite Hrw|unfold FIELD_ROOM, MAX_FIELD_BYTES in *; lia|rewrite Hrw; lia|].
  rewrite Hrw in X9, X10. rewrite fmap_cons. cbn [turns]. rewrite Ht. cbn [mbind outcome_bind].
  assert (Hx0 : 0 <= start_used x) by (unfold start_used; lia).
  destruct (IH blks' (k + 1) ps t1 d1 (room - FIELD_ROOM * Z.of_nat (length (raw_headers rq))))
    as (xs & t' & d' & -> & R1 & R2 & R3 & R4 & R5 & R6 & R7 & R8 & R9 & R10 & R11 & R12 & R13); try done.
  - rewrite X14. by apply unsent_all_insert.
  - by rewrite X7.
  - unfold FIELD_ROOM, MAX_FIELD_BYTES in *. lia.
  - lia.
  - lia.
  - exists (x :: xs), t', d'. rewrite !fmap_cons, !bind_cons, X1, X3, X4, R1, R2, R3.
    cbn [decode_blocks headers_bytes foldr]. fold (headers_bytes (sr_block <$> xs)).
    rewrite X5. cbn [mbind outcome_bind]. rewrite R5. cbn [mbind outcome_bind].
    change (9 + Z.of_nat (length (sr_block x))) with (start_used x).
    rewrite R8, R10, R11, X11, X12, X13, !fmap_app, concat_app, <- !app_assoc. split_and!; try done; try lia.
    + intros [|i] y Hy; [injection Hy as <-; rewrite X2; lia|]. rewrite (R4 i y Hy). lia.
    + by replace (room - FIELD_ROOM * (Z.of_nat (length (raw_headers rq)) + total_headers rqs))
        with (room - FIELD_ROOM * Z.of_nat (length (raw_headers rq)) - FIELD_ROOM * total_headers rqs) by lia.
    + apply Forall_cons. split; [|done]. unfold start_ok. rewrite X3. lia.
    + apply Forall_app. split; [|done]. apply Forall_forall. intros v Hv. apply R13.
      * unfold start_left in Hv. apply ul_left_in in Hv as [-> _]. cbn [start_upload ul_ptr]. by rewrite X1.
      * by rewrite Forall_forall in X15; apply X15.
    + intros v [Hne Hv]%not_elem_of_cons Hin. apply R13; [done|]. rewrite X14. by apply upload_in_insert.
Qed.

(** The streams that go on after the turn are streams of the turn. *)
Lemma starts_left_sublist {A} (f : upload -> A) (g : start -> A) xs :
  (forall p id b o o' r, f (Upload p id b o r) = f (Upload p id b o' r)) -> (forall x, f (start_upload x) = g x) ->
  (f <$> (xs ≫= start_left)) `sublist_of` (g <$> xs).
Proof.
  intros Hf Hg. induction xs as [|x xs IH]; [done|]. rewrite bind_cons, fmap_app, fmap_cons. unfold start_left at 1, ul_left.
  destruct (_ =? _); [by constructor|]. cbn [fmap list_fmap app]. rewrite (Hf _ _ _ _ 0), <- Hg. by constructor.
Qed.

Lemma starts_ids_nodup k xs : starts_ids k xs -> NoDup (sr_id <$> xs).
Proof.
  intros Hid. apply NoDup_alt. intros i j z Hi Hj. rewrite list_lookup_fmap in Hi, Hj.
  destruct (xs !! i) as [x|] eqn:Ei; [|done]. destruct (xs !! j) as [y|] eqn:Ej; [|done].
  apply Hid in Ei, Ej. injection Hi as <-. injection Hj as Hj. lia.
Qed.

Lemma starts_other id xs : Forall (fun x => sr_id x <> id) xs -> frames_of id (xs ≫= start_frames) = [].
Proof. intros Hx. apply frames_of_none. induction Hx as [|x xs Hx _ IH]; [by apply Forall_nil|]. by repeat constructor. Qed.

Lemma starts_stream xs x : NoDup (sr_id <$> xs) -> x ∈ xs -> frames_of (sr_id x) (xs ≫= start_frames) = (start_frames x).*2.
Proof.
  intros Hnd (xs1 & xs2 & ->)%list_elem_of_split. rewrite fmap_app, fmap_cons in Hnd.
  apply NoDup_app in Hnd as (_ & Hx & Hnd). apply NoDup_cons in Hnd as [Hn _].
  rewrite bind_app, bind_cons, !frames_of_app. rewrite !starts_other.
  - unfold frames_of. unfold start_frames. rewrite !filter_cons_True by done. done.
  - apply Forall_forall. intros v Hv E. apply Hn. rewrite <- E. by apply list_elem_of_fmap_2.
  - apply Forall_forall. intros v Hv E. apply (Hx (sr_id x)); [rewrite <- E; by apply list_elem_of_fmap_2|by left].
Qed.

(** The frames of one request, over all turns. *)
Lemma start_stream limit share mx n xs k x :
  starts_ids k xs -> x ∈ xs -> 9 <= share -> share + 9 <= sr_limit x <= mx -> share + 9 <= ul_max limit (start_upload x) <= mx ->
  Request.block_bytes (sr_slice x) <> [] -> Z.of_nat (length (Request.block_bytes (sr_slice x))) <= Z.of_nat (S n) * share ->
  exists ds, frames_of (sr_id x) ((xs ≫= start_frames) ++ schedule limit n (xs ≫= start_left)) =
      rfc_frame 1 END_HEADERS (sr_id x) (sr_block x) :: data_frames (sr_id x) ds /\
    concat ds = Request.block_bytes (sr_slice x) /\ ds <> [] /\ payloads_fit mx ds.
Proof.
  intros Hid Hx Hsh Hl1 Hl2 Hne Hlen. pose proof (starts_ids_nodup _ _ Hid) as Hnd.
  rewrite frames_of_app, starts_stream by done. cbn [start_frames fmap list_fmap snd app].
  assert (Hrest : ul_rest (start_upload x) = Request.block_bytes (sr_slice x)) by apply drop_0.
  assert (Hnd' : NoDup (ul_id <$> (xs ≫= start_left))).
  { eapply sublist_NoDup; [exact Hnd|]. by apply starts_left_sublist. }
  rewrite <- Hrest in *. change (sr_id x) with (ul_id (start_upload x)).
  destruct (Z.eqb_spec (ul_sent (sr_limit x) (start_upload x)) (Z.of_nat (length (ul_rest (start_upload x))))) as [E|E].
  - rewrite schedule_other.
    + destruct (pieces_first (sr_limit x) mx (start_upload x) []) as (ds & D1 & D2 & D3 & D4); [lia|by rewrite (proj2 (Z.eqb_eq _ _))|].
      exists ds. by rewrite <- D1.
    + apply Forall_forall. intros v (y & Hv & Hy)%list_elem_of_bind Eid. apply ul_left_in in Hv as [-> Hs].
      cbn [ul_id start_upload] in Eid. assert (y = x) as ->; [|done].
      apply list_elem_of_lookup in Hx as [i Hi]. apply list_elem_of_lookup in Hy as [j Hj].
      assert (i = j) as <-; [|congruence].
      eapply (NoDup_lookup (sr_id <$> xs)); [done|..]; rewrite list_lookup_fmap, ?Hi, ?Hj; cbn; by rewrite ?Eid.
  - set (v := Upload (sr_ptr x) (sr_id x) (sr_slice x) (0 + ul_sent (sr_limit x) (start_upload x)) (sr_remote x)).
    assert (Hv : v ∈ start_left x) by (unfold start_left, ul_left; rewrite (proj2 (Z.eqb_neq _ _)) by done; by left).
    destruct (ul_left_rest (sr_limit x) (start_upload x) v ltac:(lia) ltac:(done) Hv) as (R1 & R2 & R3 & R4 & R5).
    destruct (schedule_stream limit n (xs ≫= start_left) v Hnd') as (ds & D1 & D2 & D3 & D4); try done.
    { apply list_elem_of_bind. by exists x. }
    { change (ul_max limit v) with (ul_max limit (start_upload x)). lia. }
    { change (ul_max limit v) with (ul_max limit (start_upload x)). rewrite R5. nia. }
    change (ul_id v) with (ul_id (start_upload x)) in D1. rewrite D1.
    destruct (pieces_first (sr_limit x) mx (start_upload x) ds) as (ds' & E1 & E2 & E3 & E4); [lia| |].
    { rewrite (proj2 (Z.eqb_neq _ _)) by done. rewrite <- R1. split_and!; try done.
      eapply Forall_impl; [exact D4|]. intros y Hy. cbv beta in *. change (ul_max limit v) with (ul_max limit (start_upload x)) in Hy. lia. }
    exists ds'. by rewrite <- E1.
Qed.

(** The client after the turn in which the requests start. *)
Lemma uploads_start_turn (c : base_client H) remote share ps rqs blks k d room :
  let limit := turn_limit c in
  queue (registry c) = Some <$> ps -> NoDup ps -> unsent_all remote (store (registry c)) k ps rqs ->
  Forall (request_ok (Encoder.config (encoder c))) rqs -> Forall2 one_slice rqs blks -> fits 64 (server_window_size c) ->
  fits 64 remote -> codec_sync room (encoder c) d -> FIELD_ROOM * total_headers rqs <= room -> 9 <= share ->
  share + 9 + total_bounds rqs <= Z.min limit remote < 2 ^ 23 ->
  exists xs c' out d', get_tx_data fresh c = Ok (c', out) /\
    contents out = contents (tx_command_queue c) ++ concat (xs ≫= start_frames).*2 /\
    sr_ptr <$> xs = ps /\ sr_request <$> xs = rqs /\ sr_slice <$> xs = blks /\ starts_ids k xs /\
    decode_blocks m a d (sr_block <$> xs) = Ok (d', raw_headers <$> rqs) /\
    codec_sync (room - FIELD_ROOM * total_headers rqs) (encoder c') d' /\ Forall (start_ok share limit remote) xs /\
    Forall (fun x => share + 9 <= ul_max (turn_limit c') (start_upload x)) xs /\
    uploading_all c' (xs ≫= start_left) /\ turn_limit c' <= limit /\
    server_window_size c' = turn_window c - headers_bytes (sr_block <$> xs) /\ settings c' = settings c.
Proof.
  intros limit Hq Hnd Hun Hok Hsl Hw Hrem Hsync Hroom Hsh Hmin. pose proof (total_bounds_nonneg rqs) as Htb.
  assert (Hcmd : frame_bytes_total (tx_command_queue c) <= server_window_size c) by (unfold limit, turn_limit, turn_window in Hmin; lia).
  assert (Hfl : fits 64 limit) by (unfold limit, turn_limit, turn_window, fits, frame_bytes_total in *; lia).
  unfold get_tx_data. rewrite take_commands_all by done. cbn [negb]. set (c1 := set_tx _ [] c).
  change (Z.min (server_window_size c1) _) with limit.
  rewrite (proj2 (Z.leb_le _ _)) by (unfold HEADER_SIZE; lia). unfold get_data.
  rewrite (proj2 (Z.ltb_ge _ _)) by lia. change (registry c1) with (registry c). change (encoder c1) with (encoder c). rewrite Hq.
  destruct (turns_starts remote share limit rqs blks k ps (Turn (store (registry c)) (encoder c) [] 0 [] []) d room)
    as (xs & t' & d' & -> & R1 & R2 & R3 & R4 & R5 & R6 & R7 & R8 & R9 & R10 & R11 & R12 & _);
    [done..|cbn [tn_used]; lia|lia|].
  cbn [mbind outcome_bind]. set (c' := set_tx _ _ _). exists xs, c'. eexists _, d'. split; [reflexivity|].
  rewrite Streambuf.contents_app, R10. cbn [tn_out tn_next tn_used] in *. change (contents []) with (@nil Z). rewrite app_nil_l in *.
  pose proof (headers_bytes_nonneg (sr_block <$> xs)) as Hh0.
  assert (Hsw : server_window_size c' = turn_window c - headers_bytes (sr_block <$> xs)).
  { change (u64 (turn_window c - tn_used t') = turn_window c - headers_bytes (sr_block <$> xs)). rewrite R8, Z.add_0_l.
    apply wrap_small. unfold limit, turn_limit, turn_window, fits, frame_bytes_total in *. lia. }
  assert (Htl : turn_limit c' = Z.min (turn_window c - headers_bytes (sr_block <$> xs))
    (max_frame_size (SettingsManager.local_settings (settings c)))) by (rewrite turn_limit_idle by done; by rewrite Hsw).
  assert (Hmx : Forall (fun x => share + 9 <= ul_max (turn_limit c') (start_upload x)) xs).
  { apply Forall_forall. intros x Hx. rewrite Forall_forall in R7. destruct (R7 x Hx) as (_ & E2 & E3).
    assert (Hu : start_used x <= headers_bytes (sr_block <$> xs)).
    { clear - Hx. induction Hx as [x xs|x y xs _ IH]; rewrite fmap_cons; cbn [headers_bytes foldr];
        fold (headers_bytes (sr_block <$> xs)); unfold start_used in *; [|lia].
      pose proof (headers_bytes_nonneg (sr_block <$> xs)). lia. }
    unfold ul_max. cbn [start_upload ul_remote]. rewrite Htl, E2. unfold limit, turn_limit in *. lia. }
  assert (Hle : turn_limit c' <= limit) by (rewrite Htl; unfold limit, turn_limit; lia).
  split_and!; try done. split; try done.
  - rewrite Hsw. unfold limit, turn_limit, turn_window, fits, frame_bytes_total in *. lia.
  - eapply sublist_NoDup; [exact Hnd|]. rewrite <- R1. by apply starts_left_sublist.
  - apply Forall_forall. intros v (x & Hv & Hx)%list_elem_of_bind. apply ul_left_in in Hv as [-> _].
    rewrite Forall_forall in Hmx, R7. pose proof (Hmx x Hx) as H1. destruct (R7 x Hx) as (_ & E2 & E3).
    change (ul_max _ _) with (ul_max (turn_limit c') (start_upload x)). split; [lia|].
    unfold ul_max in *. cbn [start_upload ul_remote] in *. rewrite E2. lia.
Qed.

(** ** The theorem *)

(** The HEADERS frames in the order in which they are sent. *)
Definition header_frames (ws : list (Z * list Z)) : list (Z * list Z) := filter (fun x => nth 3 x.2 0 = 1) ws.

Lemma header_frames_data limit n : forall us, header_frames (schedule limit n us) = [].
Proof.
  induction n as [|n IH]; intros us; [done|]. cbn [schedule]. unfold header_frames in *. rewrite filter_app, IH, app_nil_r.
  unfold round. induction us as [|u us IHu]; [done|]. rewrite fmap_cons, filter_cons_False; [done|]. by unfold ul_frame, data_frame_of.
Qed.

Lemma header_frames_start xs : header_frames (xs ≫= start_frames) = (fun x => (sr_id x, rfc_frame 1 END_HEADERS (sr_id x) (sr_block x))) <$> xs.
Proof.
  induction xs as [|x xs IH]; [done|]. rewrite bind_cons, fmap_cons, <- IH. unfold header_frames, start_frames.
  cbn [app]. rewrite filter_cons_True by done. rewrite filter_cons_False; [done|]. by unfold ul_frame, data_frame_of.
Qed.

Definition new_headers (k : Z) (blocks : list (list Z)) : list (Z * list Z) :=
  imap (fun i block => let id := 2 * (k + Z.of_nat i) - 1 in (id, rfc_frame 1 END_HEADERS id block)) blocks.

Lemma starts_headers xs : forall k, starts_ids k xs ->
  (fun x => (sr_id x, rfc_frame 1 END_HEADERS (sr_id x) (sr_block x))) <$> xs = new_headers k (sr_block <$> xs).
Proof.
  intros k Hid. apply list_eq. intros i. unfold new_headers. rewrite list_lookup_imap, !list_lookup_fmap.
  destruct (xs !! i) as [x|] eqn:Ei; [|done]. cbn. by rewrite (Hid i x Ei).
Qed.

Lemma schedule_ids limit n : forall us, Forall (fun x => x.1 ∈ ul_id <$> us) (schedule limit n us).
Proof.
  induction n as [|n IH]; intros us; [by apply Forall_nil|]. cbn [schedule]. apply Forall_app. split.
  - unfold round. apply Forall_fmap, Forall_forall. intros u Hu. exact (list_elem_of_fmap_2 ul_id us u Hu).
  - eapply Forall_impl; [apply IH|]. intros x (v & -> & Hv)%list_elem_of_fmap. apply after_round_in in Hv as (u & Hu & Hv).
    apply ul_left_in in Hv as [-> _]. cbn [ul_id]. by apply list_elem_of_fmap_2.
Qed.

(** The slices of the requests that have started, and their identifiers. *)
Lemma starts_slices conf xs n share :
  Forall (request_ok conf) (sr_request <$> xs) -> Forall2 one_slice (sr_request <$> xs) (sr_slice <$> xs) ->
  Forall (fun rq => Z.of_nat (length (request_body rq)) <= Z.of_nat n * share) (sr_request <$> xs) ->
  forall x, x ∈ xs -> one_slice (sr_request x) (sr_slice x) /\
    Z.of_nat (length (Request.block_bytes (sr_slice x))) <= Z.of_nat n * share /\ Request.block_bytes (sr_slice x) <> [].
Proof.
  intros Hok Hsl Hn x [i Hi]%list_elem_of_lookup.
  assert (H1 : (sr_request <$> xs) !! i = Some (sr_request x)) by (by rewrite list_lookup_fmap, Hi).
  assert (H2 : (sr_slice <$> xs) !! i = Some (sr_slice x)) by (by rewrite list_lookup_fmap, Hi).
  pose proof (Forall2_lookup_lr _ _ _ _ _ _ Hsl H1 H2) as Hone. pose proof (Forall_lookup_1 _ _ _ _ Hn H1) as Hb. cbv beta in Hb.
  pose proof (ro_nonempty _ _ (Forall_lookup_1 _ _ _ _ Hok H1)) as Hne. rewrite (one_slice_body _ _ Hone) in Hb.
  split; [done|]. split; [done|]. destruct Hone as [_ Hsp]. rewrite Hsp in Hne. by apply Forall_cons in Hne as [? _].
Qed.

Lemma starts_done limit share xs n :
  (forall x, x ∈ xs -> share + 9 <= sr_limit x /\ share + 9 <= ul_max limit (start_upload x) /\
    Z.of_nat (length (Request.block_bytes (sr_slice x))) <= Z.of_nat (S n) * share) -> 9 <= share ->
  after_rounds limit n (xs ≫= start_left) = [].
Proof.
  intros Hxs Hsh. apply after_rounds_done, Forall_forall. intros v (x & Hv & Hx)%list_elem_of_bind.
  destruct (Hxs x Hx) as (S1 & S2 & Hb).
  destruct (ul_left_rest (sr_limit x) (start_upload x) v ltac:(lia) ltac:(done) Hv) as (_ & V2 & V3 & _ & V5).
  assert (Hvm : ul_max limit v = ul_max limit (start_upload x)) by (by apply ul_left_in in Hv as [-> _]).
  change (ul_rest (start_upload x)) with (Request.block_bytes (sr_slice x)) in V5. rewrite Hvm, V5. split_and!; [lia|done|done|nia].
Qed.

Lemma starts_frames_ids k xs limit n :
  starts_ids k xs ->
  Forall (fun x => exists i, (i < length xs)%nat /\ x.1 = 2 * (k + Z.of_nat i) - 1)
    ((xs ≫= start_frames) ++ schedule limit n (xs ≫= start_left)).
Proof.
  intros Hk. assert (Hids : forall x, x ∈ xs -> exists i, (i < length xs)%nat /\ sr_id x = 2 * (k + Z.of_nat i) - 1).
  { intros x [i Hi]%list_elem_of_lookup. exists i. split; [by eapply lookup_lt_Some|by apply Hk]. }
  apply Forall_app. split.
  - apply Forall_forall. intros y (x & Hy & Hx)%list_elem_of_bind. destruct (Hids x Hx) as (i & Hi & Hid). exists i. split; [done|].
    unfold start_frames in Hy. apply elem_of_cons in Hy as [->|Hy]; [done|]. by apply list_elem_of_singleton in Hy as ->.
  - eapply Forall_impl; [apply schedule_ids|]. intros y (v & Hy & Hv)%list_elem_of_fmap. apply list_elem_of_bind in Hv as (x & Hv & Hx).
    destruct (Hids x Hx) as (i & Hi & Hid). exists i. split; [done|]. rewrite Hy. by apply ul_left_in in Hv as [-> _].
Qed.

(** C4: Uploads side by side. Requests with bodies of one slice of any sizes, sent at once on a connected client with no other
    stream to serve, whose windows have room for the waiting commands, all header fields and 18 bytes more:
    if [n] turns to send can carry the largest body, each of them [share] bytes, then [n] turns send all
    of them, however many there are. The peer gets the commands; HEADERS frames of RFC 7540 on the next odd
    stream identifiers, in the order of the requests, from which its decoder reads exactly their fields; and on
    the stream of each request, after its HEADERS frame, DATA frames whose payloads are, in order, exactly the bytes
    of its body, none longer than the maximal frame size; only the last one ends the stream. Nothing else
    is sent and nothing is left to send. The window of the peer is charged for the commands and the
    HEADERS frames, but not for the bodies. *)
Theorem client_uploads (c : base_client H) rqs blks d room n :
  let k := client_id_order c in
  let remote := initial_window_size (SettingsManager.remote_settings (settings c)) in
  let local := SettingsManager.local_settings (settings c) in
  let share := Z.min (turn_limit c) remote - 9 - total_bounds rqs.*1 in
  is_connected_flag c = true -> queue (registry c) = [] -> 1 <= k -> k + Z.of_nat (length rqs) <= 2 ^ 31 -> rqs <> [] ->
  fits 64 (server_window_size c) -> fits 64 remote -> 4 <= initial_window_size local < 2 ^ 32 ->
  Forall (request_ok (Encoder.config (encoder c))) rqs.*1 -> Forall2 one_slice rqs.*1 blks ->
  9 <= share -> Z.min (turn_limit c) remote < 2 ^ 23 ->
  Forall (fun rq => Z.of_nat (length (request_body rq)) <= Z.of_nat n * share) rqs.*1 ->
  codec_sync room (encoder c) d -> FIELD_ROOM * total_headers rqs.*1 <= room ->
  exists c1 c2 out ws blocks d',
    send_requests rqs c = Ok c1 /\ transmit fresh n c1 = Ok (c2, out) /\
    contents out = contents (tx_command_queue c) ++ concat ws.*2 /\
    header_frames ws = new_headers k blocks /\ decode_blocks m a d blocks = Ok (d', raw_headers <$> rqs.*1) /\
    (forall i rq, rqs.*1 !! i = Some rq -> let id := 2 * (k + Z.of_nat i) - 1 in
      exists block ds, blocks !! i = Some block /\ frames_of id ws = rfc_frame 1 END_HEADERS id block :: data_frames id ds /\
        concat ds = request_body rq /\ ds <> [] /\ payloads_fit (max_frame_size local) ds) /\
    Forall (fun x => exists i, (i < length rqs)%nat /\ x.1 = 2 * (k + Z.of_nat i) - 1) ws /\
    codec_sync (room - FIELD_ROOM * total_headers rqs.*1) (encoder c2) d' /\
    queue (registry c2) = [] /\ tx_command_queue c2 = [] /\
    server_window_size c2 = turn_window c - headers_bytes blocks.
Proof.
  intros k remote local share Hcon Hq Hk Hlen Hne Hw Hrem Hloc Hok Hsl Hsh Hmax Hn Hsync Hroom.
  destruct (send_requests_unsent rqs c Hcon Hk Hlen Hloc) as (c1 & Hs & (E1 & E2 & E3 & E4 & E5) & _ & Hq1 & Hun).
  rewrite Hq in Hq1. fold remote k in Hun. set (ps := seq _ _) in *.
  assert (Htl : turn_limit c1 = turn_limit c) by (unfold turn_limit, turn_window; by rewrite E1, E4, E5).
  assert (Htw : turn_window c1 = turn_window c) by (unfold turn_window; by rewrite E4, E5).
  destruct (uploads_start_turn c1 remote share ps rqs.*1 blks k d room)
    as (xs & c2 & out1 & d' & Hg & Ho & R1 & R2 & R3 & R4 & R5 & R6 & R7 & R8 & R9 & R10 & R11 & R12);
    [done|apply NoDup_seq|done|by rewrite E2|done|by rewrite E4|done|by rewrite E2|done|done|rewrite Htl; unfold share in *; lia|].
  rewrite Htl in R7, R10. rewrite E5 in Ho. rewrite Htw in R11. rewrite <- R2, <- R3 in Hsl. rewrite <- R2 in Hok, Hn.
  pose proof (starts_slices _ _ _ _ Hok Hsl Hn) as Hxs.
  assert (Hxl : length xs = length rqs) by (apply (f_equal length) in R2; by rewrite !length_fmap in R2).
  destruct n as [|n].
  { exfalso. destruct rqs, xs as [|x xs]; try done. destruct (Hxs x) as (_ & Hb & Hb0); [by left|].
    destruct (Request.block_bytes _); [done|]. cbn in Hb. lia. }
  destruct (uploads_turns n c2 (xs ≫= start_left) R9) as (c3 & out2 & Ht2 & Ho2 & Hu3 & Hw3 & He3).
  set (ws := (xs ≫= start_frames) ++ schedule (turn_limit c2) n (xs ≫= start_left)).
  assert (Hstart : forall x, x ∈ xs -> share + 9 <= sr_limit x <= turn_limit c /\
    share + 9 <= ul_max (turn_limit c2) (start_upload x) <= turn_limit c).
  { intros x Hx. rewrite Forall_forall in R7, R8. destruct (R7 x Hx) as (H1 & _ & H3). pose proof (R8 x Hx) as H2.
    cbv beta in H2. unfold ul_max in *. lia. }
  rewrite (starts_done _ share) in Hu3;
    [|intros x Hx; destruct (Hxs x Hx) as (_ & Hb & _), (Hstart x Hx) as (S1 & S2); split_and!; [apply S1|apply S2|done]|done].
  exists c1, c3, (out1 ++ out2), ws, (sr_block <$> xs), d'. cbn [transmit]. rewrite Hg. cbn [mbind outcome_bind].
  rewrite Ht2. cbn [mbind outcome_bind]. rewrite Hw3, He3, <- Hxl. split_and!; try done.
  - rewrite Streambuf.contents_app, Ho, Ho2, <- app_assoc. unfold ws. by rewrite fmap_app, concat_app.
  - unfold ws, header_frames. rewrite filter_app. fold (header_frames (xs ≫= start_frames)) (header_frames (schedule (turn_limit c2) n (xs ≫= start_left))).
    rewrite header_frames_data, app_nil_r, header_frames_start. by apply starts_headers.
  - intros i rq Hi. rewrite <- R2, list_lookup_fmap in Hi. destruct (xs !! i) as [x|] eqn:Ei; [|done]. injection Hi as <-.
    assert (Hx : x ∈ xs) by (by eapply list_elem_of_lookup_2). destruct (Hxs x Hx) as (Hone & Hb & Hbne), (Hstart x Hx) as (S1 & S2).
    destruct (start_stream (turn_limit c2) share (turn_limit c) n xs k x) as (ds & D1 & D2 & D3 & D4); try done.
    exists (sr_block x), ds. rewrite list_lookup_fmap, Ei, <- (R4 i x Ei), (one_slice_body _ _ Hone). split_and!; try done.
    eapply Forall_impl; [exact D4|]. intros y Hy. cbv beta in *. unfold turn_limit in Hy. unfold local. lia.
  - by apply starts_frames_ids.
  - by rewrite (ua_queue _ _ Hu3).
  - apply Hu3.
Qed.
End uploads.

(** ** Example *)

(** Two bodies of 40000 and 20000 bytes: three turns, as many as the larger takes alone. *)
Definition second_body : block_type := string_block (replicate (Z.to_nat 20000) 66).
Definition second_request : request := Request request1 [second_body] [Request.block_bytes second_body] 20000 30000.
Definition two_uploads : list (request * nat) := [(upload_request, 1%nat); (second_request, 2%nat)].

Lemma second_request_ok : request_ok Encoder.default_config second_request.
Proof.
  refine (slice_request_ok request1 (replicate (Z.to_nat 20000) 66) 20000 _ _ _ _ _); [done|done|done| |done].
  rewrite length_replicate. lia.
Qed.

Lemma first_bytes : request_body upload_request = replicate (Z.to_nat 40000) 65.
Proof. apply app_nil_r. Qed.

Lemma second_bytes : request_body second_request = replicate (Z.to_nat 20000) 66.
Proof. apply app_nil_r. Qed.

Lemma client_uploads_witness :
  exists c1 c2 out ws blocks ds1 ds2,
    send_requests two_uploads example_client = Ok c1 /\ transmit zero_memory 3 c1 = Ok (c2, out) /\ contents out = concat ws.*2 /\
    header_frames ws = new_headers 1 blocks /\
    (exists block, frames_of 1 ws = rfc_frame 1 END_HEADERS 1 block :: data_frames 1 ds1) /\ concat ds1 = replicate (Z.to_nat 40000) 65 /\
    (exists block, frames_of 3 ws = rfc_frame 1 END_HEADERS 3 block :: data_frames 3 ds2) /\ concat ds2 = replicate (Z.to_nat 20000) 66 /\
    queue (registry c2) = [].
Proof.
  destruct (client_uploads zero_memory zero_memory_ok zero_memory zero_memory_ok 0 example_client
    two_uploads [upload_body; second_body] Decoder.make_decoder (2 ^ 40) 3)
    as (c1 & c2 & out & ws & blocks & d' & H1 & H2 & H3 & H4 & _ & H5 & _ & _ & H6 & _).
  - reflexivity.
  - reflexivity.
  - by vm_compute.
  - by vm_compute.
  - discriminate.
  - by vm_compute.
  - by vm_compute.
  - by vm_compute.
  - apply Forall_cons; split; [exact upload_request_ok|]. apply Forall_cons; split; [exact second_request_ok|by apply Forall_nil].
  - by repeat constructor.
  - by vm_compute.
  - by vm_compute.
  - change (two_uploads.*1) with [upload_request; second_request].
    apply Forall_cons; split; [|apply Forall_cons; split; [|by apply Forall_nil]].
    + cbv beta. rewrite first_bytes, length_replicate. by vm_compute.
    + cbv beta. rewrite second_bytes, length_replicate. by vm_compute.
  - exact new_codec_sync.
  - by vm_compute.
  - destruct (H5 0%nat upload_request eq_refl) as (block1 & ds1 & _ & F1 & F2 & _).
    destruct (H5 1%nat second_request eq_refl) as (block2 & ds2 & _ & G1 & G2 & _).
    exists c1, c2, out, ws, blocks, ds1, ds2. split; [exact H1|]. split; [exact H2|]. split; [exact H3|]. split; [exact H4|].
    split; [exists block1; exact F1|]. split; [rewrite <- first_bytes; exact F2|]. split; [exists block2; exact G1|].
    split; [rewrite <- second_bytes; exact G2|exact H6].
Defined.
