(* ===== verification/ClientReceiving.v ===== *)
(** * Responses through the client (base_client::on_receive_frame, stream, response)

    What the user gets of a response: the peer sends a HEADERS frame with a header block of its
    encoder, and DATA frames; the client decodes the block, finds the stream and calls the
    handler of the request when a frame ends the stream. *)
From S2P Require Import Prelude Memory Utils Buffer HeaderField Protocol Frame FrameBuilder.
From S2P Require Import Request Response Stream IndexedDynamicTable HpackSync HpackCodec StreamRegistry Reassembly BaseClient ClientReading.
From S2P Require Streambuf Encoder Decoder Window SettingsManager.
Import Streambuf (contents).

(** A buffer with a DATA frame of stream [id] with the data [d], perhaps padded. *)
Definition stream_data (id : Z) (last : bool) (b : buffer) (d : list Z) : Prop :=
  buffer_ok b /\ exists flags pad,
    data_view b = rfc_frame 0 flags id (data_payload pad d) /\
    Z.of_nat (length (data_payload pad d)) < 2 ^ 24 /\ has_flag flags END_STREAM = last /\
    match pad with
    | None => has_flag flags PADDED = false
    | Some p => has_flag flags PADDED = true /\ Z.of_nat (length p) < 256
    end.

Lemma stream_data_holds id last b d : fits 32 id -> stream_data id last b d -> holds_data b d.
Proof.
  intros Hf (Hb & flags & pad & Hv & Hl & _ & Hp). split; [done|]. by exists flags, id, pad.
Qed.

(** DATA frames of a stream, the last of which ends it. *)
Fixpoint data_sequence (id : Z) (bs : list buffer) (ds : list (list Z)) : Prop :=
  match bs, ds with
  | [b], [d] => stream_data id true b d
  | b :: bs, d :: ds => stream_data id false b d /\ data_sequence id bs ds
  | _, _ => False
  end.

(** A response with these fields and this body so far. *)
Record response_so_far (fs : header) (body : list Z) (r : response) : Prop := {
  rf_headers : response_headers r = fs;
  rf_status : status r = match List.find is_status fs with Some hf => m_value hf | None => [] end;
  rf_body : body_range r = body;
  rf_size : response_body_size r = Z.of_nat (length body);
  rf_blocks : Forall (fun b => 0 <= sp_len (bb_span b)) (body_blocks r);
}.

Section receiving.
Context {SS : SetSearch} {H : Type} (fresh : Z -> Z) (heap : Z -> Z) (addr : Z).
Context (Hheap : forall x, is_byte (heap x)) (moved_response : response -> response).
Implicit Types (c : base_client H) (s : stream H).

(** ** Streams *)

Lemma data_parses id last b d :
  fits 32 id -> stream_data id last b d ->
  exists fa, from_buffer (data_span heap addr b) = Ok fa /\ get_frame DATA fa = Ok (fa_buffer fa) /\
    stream_id_field (fa_buffer fa) = native_to_big id /\ has_flag (flags_field (fa_buffer fa)) END_STREAM = last /\
    (payload_size (fa_buffer fa) = 0 -> d = []).
Proof.
  intros Hf (Hb & flags & pad & Hv & Hl & <- & _).
  destruct (rfc_frame_parses DATA flags id (data_payload pad d)
    (fun s : span => stream_id_field s = native_to_big id /\ flags_field s = flags /\
       payload_size s = Z.of_nat (length (data_payload pad d))) Hf Hl ltac:(by intros)
    (data_span heap addr b) [] (2 ^ 24)) as (fa & H1 & _ & _ & H2 & _ & H3 & H4 & H5).
  - by apply data_span_ok.
  - by rewrite app_nil_r, data_span_bytes.
  - rewrite length_rfc_frame. lia.
  - exists fa. split_and!; try done; [by rewrite H4|]. rewrite H5. unfold data_payload. destruct pad; [done|].
    by destruct d.
Qed.

Lemma insert_body_so_far fs body r id last b d :
  fits 32 id -> stream_data id last b d -> response_so_far fs body r ->
  Z.of_nat (length body) + Z.of_nat (length d) < 2 ^ 64 ->
  exists r', insert_body heap addr b r = Ok r' /\ response_so_far fs (body ++ d) r'.
Proof.
  intros Hf Hd [] Hl. apply stream_data_holds in Hd; [|done].
  destruct (insert_body_data heap addr Hheap b d r Hd) as (span & -> & Hby & Hsp). eexists. split; [reflexivity|].
  split; try done; cbn [body_blocks].
  - unfold body_range in *. cbn [body_blocks]. rewrite bind_app. cbn [mbind list_bind bb_span].
    by rewrite Hby, app_nil_r, <- rf_body0.
  - unfold response_body_size in *. cbn [rs_size]. rewrite rf_size0, Hsp, length_app. unfold u64.
    rewrite wrap_small; unfold fits; lia.
  - apply Forall_app. split; [done|]. apply Forall_singleton. cbn [bb_span]. lia.
Qed.

(** What a frame does to a stream that waits for a response: it goes on waiting, or the response is complete. *)
Definition progress (h : H) (fs : header) (body : list Z) (last : bool) s (x : stream H * list (effect H)) : Prop :=
  let '(s', eff) := x in
  http_state s' = (if last then HALF_CLOSED else http_state s) /\ http_id s' = http_id s /\
  if last then respone_handler s' = None /\
    exists r, eff = [CancelTimer; Invoke h NoError r] /\ response_so_far fs body r
  else respone_handler s' = Some h /\ eff = [] /\ response_so_far fs body (m_response s').

Lemma end_stream_progress h fs body flags s s1 :
  respone_handler s1 = Some h -> http_state s1 = http_state s -> http_id s1 = http_id s ->
  response_so_far fs body (m_response s1) ->
  progress h fs body (has_flag flags END_STREAM) s (end_stream moved_response flags s1).
Proof.
  intros Hh Hst Hid Hr. unfold end_stream. destruct (has_flag flags END_STREAM); [|by split_and!].
  unfold finished. cbn [set_state respone_handler m_response]. rewrite Hh. cbn. split_and!; try done. by exists (m_response s1).
Qed.

Lemma stream_receives_data h fs body id last b d s :
  fits 32 id -> stream_data id last b d -> respone_handler s = Some h -> response_so_far fs body (m_response s) ->
  Z.of_nat (length body) + Z.of_nat (length d) < 2 ^ 64 ->
  exists x, Stream.on_receive_data heap addr moved_response b s = Ok x /\ progress h fs (body ++ d) last s x.
Proof.
  intros Hf Hd Hh Hr Hl. unfold Stream.on_receive_data.
  destruct (data_parses id last b d Hf Hd) as (fa & -> & _ & _ & <- & Hz). cbn [mbind outcome_bind].
  destruct (Z.eqb_spec (payload_size (fa_buffer fa)) 0) as [E|E]; cbn [negb].
  - rewrite (Hz E), app_nil_r. eexists. split; [reflexivity|]. by apply end_stream_progress.
  - destruct (insert_body_so_far fs body (m_response s) id _ b d Hf Hd Hr Hl) as (r' & Hi & Hr').
    change (m_response (Stream.set_local_window _ s)) with (m_response s). rewrite Hi.
    cbn [mbind outcome_bind]. eexists. split; [reflexivity|]. by apply end_stream_progress.
Qed.

Lemma stream_receives_headers h fs flags n s :
  respone_handler s = Some h -> m_response s = empty_response ->
  progress h fs [] (has_flag flags END_STREAM) s (Stream.on_receive_headers moved_response fs flags n s).
Proof.
  intros Hh Hr. unfold Stream.on_receive_headers. apply end_stream_progress; try done.
  cbn [set_response Stream.set_local_window m_response]. rewrite Hr. by split.
Qed.

(** ** The client *)

(** A stream of the client waits for (the rest of) a response. *)
Definition awaiting c (p : ptr) (id : Z) (h : H) (R : response -> Prop) : Prop :=
  get_stream (native_to_big id) (registry c) = Some p /\
  exists s, store (registry c) !! p = Some s /\ respone_handler s = Some h /\ http_state s <> CLOSED /\ R (m_response s).

(** The response is complete: the timer is cancelled and the handler is called, once, with the fields and the body. *)
Definition completed c c' (p : ptr) (id : Z) (h : H) (fs : header) (body : list Z) : Prop :=
  exists r, log c' = log c ++ [StreamEffect p CancelTimer; StreamEffect p (Invoke h NoError r)] /\
    response_headers r = fs /\ body_range r = body /\ body_as r = body /\
    status r = match List.find is_status fs with Some hf => m_value hf | None => [] end /\
  get_stream (native_to_big id) (registry c') = Some p /\
  exists s, store (registry c') !! p = Some s /\ respone_handler s = None /\ http_state s = HALF_CLOSED.

(** The streams other than the one at [p], and what is registered. *)
Definition others_same (p : ptr) c c' : Prop :=
  (forall id, get_stream id (registry c') = get_stream id (registry c)) /\
  (forall q, q <> p -> store (registry c') !! q = store (registry c) !! q).

Definition frame_received c c' (p : ptr) (id : Z) (h : H) (fs : header) (body : list Z) (last : bool) : Prop :=
  decoder c' = decoder c /\ encoder c' = encoder c /\ same_setup c c' /\ others_same p c c' /\
  if last then completed c c' p id h fs body
  else log c' = log c /\ awaiting c' p id h (response_so_far fs body).

Lemma so_far_complete fs body r :
  response_so_far fs body r -> Z.of_nat (length body) < 2 ^ 64 -> body_as r = body.
Proof. intros [] Hl. rewrite body_as_range; [done|done|by rewrite rf_size0, rf_body0|by rewrite rf_size0]. Qed.

(** A frame is passed to the stream that waits for it. *)
Lemma for_stream_progress c p id h (R : response -> Prop) fs body last method :
  awaiting c p id h R -> Z.of_nat (length body) < 2 ^ 64 ->
  (forall s, respone_handler s = Some h -> R (m_response s) -> exists x, method s = Ok x /\ progress h fs body last s x) ->
  exists c', for_stream (native_to_big id) method c = Done c' /\ frame_received c c' p id h fs body last.
Proof.
  intros (Hg & s & Hs & Hh & Hst & HR) Hl Hm. destruct (Hm s Hh HR) as ([s1 eff] & Hx & Hst1 & Hid1 & Hlast).
  unfold for_stream, invoke_for_stream. rewrite Hg. unfold deref. rewrite Hs. cbn [mbind outcome_bind]. rewrite Hx.
  cbn [mbind outcome_bind]. unfold is_finished. rewrite bool_decide_eq_false_2 by (rewrite Hst1; by destruct last).
  destruct (check_tx_data s1) as [s2 again] eqn:Ec.
  assert (Hs2 : respone_handler s2 = respone_handler s1 /\ http_state s2 = http_state s1 /\ m_response s2 = m_response s1).
  { unfold check_tx_data in Ec. destruct (_ && _) in Ec; by injection Ec as <- <-. }
  destruct Hs2 as (E1 & E2 & E3). eexists. split; [reflexivity|]. do 3 (split; [done|]).
  set (r' := if again then _ else _). split.
  { split; [intros id'; unfold r'; by destruct again|]. intros q Hq. unfold r'.
    destruct again; cbn [registry emit set_registry enqueue store]; by apply list_lookup_insert_ne. }
  assert (Hg' : get_stream (native_to_big id) r' = Some p) by (unfold r'; by destruct again).
  assert (Hst' : store r' !! p = Some s2).
  { unfold r'. destruct again; cbn [enqueue store]; apply list_lookup_insert_eq; by eapply lookup_lt_Some. }
  destruct last.
  - destruct Hlast as (Hn & r & -> & Hr). exists r. pose proof (so_far_complete _ _ _ Hr Hl). destruct Hr.
    split; [done|]. split_and!; try done. exists s2. split_and!; [done|by rewrite E1|by rewrite E2].
  - destruct Hlast as (Hn & -> & Hr). split; [apply app_nil_r|]. split; [done|]. exists s2.
    split_and!; [done|by rewrite E1|by rewrite E2, Hst1|by rewrite E3].
Qed.

(** Charging the window of the connection first makes no difference. *)
Lemma frame_received_charged n c c' p id h fs body last :
  frame_received (charge_window fresh n c) c' p id h fs body last -> frame_received c c' p id h fs body last.
Proof.
  unfold frame_received, completed, same_setup, others_same.
  destruct (charge_window_same fresh n c) as (-> & -> & -> & -> & -> & ->). done.
Qed.

Lemma awaiting_same c c' p id h R : same_streams c c' -> awaiting c p id h R -> awaiting c' p id h R.
Proof. unfold awaiting. by intros (-> & _). Qed.

Lemma client_receives_data c p id h fs body last b d :
  fits 32 id -> stream_data id last b d -> awaiting c p id h (response_so_far fs body) ->
  Z.of_nat (length body) + Z.of_nat (length d) < 2 ^ 64 ->
  exists c', on_receive_data_frame fresh heap addr moved_response b c = Done c' /\
    frame_received c c' p id h fs (body ++ d) last.
Proof.
  intros Hf Hd Ha Hl. unfold on_receive_data_frame, on_receive_data, with_frame.
  destruct (data_parses id last b d Hf Hd) as (fa & -> & H2 & H3 & _). cbn [mbind outcome_bind]. rewrite H2, H3.
  destruct (for_stream_progress (charge_window fresh (Z.of_nat (length (data_view b))) c) p id h
    (response_so_far fs body) fs (body ++ d) last (Stream.on_receive_data heap addr moved_response b)) as (c' & -> & Hc').
  - by apply (awaiting_same c), Ha; apply charge_window_same.
  - rewrite length_app. lia.
  - intros s Hh Hr. by apply (stream_receives_data h fs body id last b d s).
  - exists c'. split; [done|]. by apply frame_received_charged in Hc'.
Qed.

(** Frames of a response, handled one after the other. *)
Fixpoint receive_data (bs : list buffer) c : handled (base_client H) :=
  match bs with
  | [] => Done c
  | b :: bs =>
      match on_receive_data_frame fresh heap addr moved_response b c with
      | Done c => receive_data bs c
      | x => x
      end
  end.
Definition receive_response (headers : span) (bs : list buffer) c : handled (base_client H) :=
  match on_receive_frame fresh moved_response headers c with
  | Done c => receive_data bs c
  | x => x
  end.

Lemma receive_data_sequence id bs : forall ds c p h fs body,
  fits 32 id -> data_sequence id bs ds -> awaiting c p id h (response_so_far fs body) ->
  Z.of_nat (length body) + Z.of_nat (length (concat ds)) < 2 ^ 64 ->
  exists c', receive_data bs c = Done c' /\ frame_received c c' p id h fs (body ++ concat ds) true.
Proof.
  induction bs as [|b bs IH]; intros ds c p h fs body Hf Hseq Ha Hl; [done|].
  destruct ds as [|d ds]; [by destruct bs|]. cbn [receive_data concat] in *. rewrite length_app in Hl.
  assert (Hcase : (bs = [] /\ ds = [] /\ stream_data id true b d) \/ (stream_data id false b d /\ data_sequence id bs ds)).
  { destruct bs as [|b' bs], ds as [|d' ds]; cbn in Hseq; try tauto; by left. }
  destruct Hcase as [(-> & -> & Hd)|[Hd Hseq']].
  - destruct (client_receives_data c p id h fs body true b d Hf Hd Ha) as (c' & -> & Hc'); [lia|].
    exists c'. split; [done|]. cbn [concat]. by rewrite app_nil_r.
  - destruct (client_receives_data c p id h fs body false b d Hf Hd Ha) as (c1 & -> & E1 & E2 & [E3 E5] & [E6 E7] & E4 & Ha1); [lia|].
    destruct (IH ds c1 p h fs (body ++ d) Hf Hseq' Ha1) as (c' & -> & F1 & F2 & F3 & [F4 F5] & F6); [rewrite length_app; lia|].
    exists c'. split; [done|]. rewrite app_assoc. unfold frame_received, completed, same_setup, others_same in *.
    rewrite E1, E2, E3, E4, E5 in *. split; [done|]. split; [done|]. split; [done|]. split; [|done].
    split; [intros i; by rewrite F4|]. intros q Hq. by rewrite F5, E7.
Qed.

(** A HEADERS frame without padding and priority, and its block. *)
Lemma headers_parse data flags id block :
  span_ok data -> sp_bytes data = rfc_frame 1 flags id block -> fits 32 id -> Z.of_nat (length block) < 2 ^ 24 ->
  has_flag flags PADDED = false -> has_flag flags FLAG_PRIORITY = false ->
  exists fa, from_buffer data = Ok fa /\ get_frame HEADERS fa = Ok (fa_buffer fa) /\
    stream_id_field (fa_buffer fa) = native_to_big id /\ flags_field (fa_buffer fa) = flags /\
    span_ok (header_block (fa_buffer fa)) /\ sp_bytes (header_block (fa_buffer fa)) = block.
Proof.
  intros Hs Hb Hf Hl Hp Hq.
  destruct (rfc_frame_parses HEADERS flags id block (fun s : span => stream_id_field s = native_to_big id /\
    flags_field s = flags /\ span_ok (header_block s) /\ sp_bytes (header_block s) = block) Hf Hl)
    with (s := data) (rest := @nil Z) (max_frame_size := 2 ^ 24) as (fa & H1 & _ & _ & H2 & _ & H3).
  - intros s [Hs0 Hs1] Hby Hn Hps Hfl Hsid. unfold header_block. rewrite Hfl, Hp, Hq, Hps, !Z.sub_0_r, Z.add_0_r.
    split_and!; [done|done| |].
    + split; [|exact Hs1]. cbn [tail_span sp_len]. unfold u64. rewrite wrap_small; unfold fits; lia.
    + pose proof (tail_body _ _ _ _ _ _ 0 Hby Hn) as Ht. rewrite Z.sub_0_r in Ht. apply Ht; lia.
  - done.
  - by rewrite app_nil_r.
  - rewrite length_rfc_frame. lia.
  - by exists fa.
Qed.

(** The HEADERS frame of a response, whose block the decoder turns into [fs]. *)
Lemma client_receives_headers c p id h fs d' data flags block :
  awaiting c p id h (eq empty_response) -> fits 32 id ->
  (forall src, span_ok src -> sp_bytes src = block -> Decoder.decode (decoder c) src = Ok (d', fs)) ->
  span_ok data -> sp_bytes data = rfc_frame 1 flags id block -> Z.of_nat (length block) < 2 ^ 24 ->
  has_flag flags PADDED = false -> has_flag flags FLAG_PRIORITY = false ->
  exists c', on_receive_frame fresh moved_response data c = Done c' /\
    decoder c' = d' /\ encoder c' = encoder c /\ same_setup c c' /\ others_same p c c' /\
    if has_flag flags END_STREAM then completed c c' p id h fs []
    else log c' = log c /\ awaiting c' p id h (response_so_far fs []).
Proof.
  intros Ha Hf Hdec Hs Hby Hl Hp Hq. destruct (headers_parse data flags id block) as (fa & H1 & H2 & H3 & H4 & H5 & H6); try done.
  rewrite (on_receive_frame_type _ _ HEADERS _ _ fa H1 (get_frame_type _ _ _ H2)).
  cbn [frame_handler]. unfold on_receive_headers, with_frame. rewrite H1. cbn [mbind outcome_bind]. rewrite H2.
  pose proof (charge_window_same fresh (sp_len data) c) as (E1 & E2 & E3 & E4 & E5). unfold with_fields.
  rewrite E3, (Hdec _ H5 H6), E4, H3, H4. set (c1 := set_codec _ _ _).
  destruct (for_stream_progress c1 p id h (eq empty_response) fs [] (has_flag flags END_STREAM)
    (fun s => Ok (Stream.on_receive_headers moved_response fs flags (sp_len data) s))) as (c2 & -> & D1 & D2 & D3 & D6 & D4).
  - change (awaiting (charge_window fresh (sp_len data) c) p id h (eq empty_response)).
    by apply (awaiting_same c), Ha; apply charge_window_same.
  - done.
  - intros s Hh Hr. eexists. split; [reflexivity|]. by apply stream_receives_headers.
  - change (decoder c1) with d' in D1. change (encoder c1) with (encoder c) in D2.
    change (same_setup (charge_window fresh (sp_len data) c) c2) in D3.
    change (others_same p (charge_window fresh (sp_len data) c) c2) in D6.
    assert (D5 : same_setup c c2) by (destruct D3, E5; split; congruence). unfold others_same in D6. rewrite E1 in D6.
    unfold completed in *. change (log c1) with (log (charge_window fresh (sp_len data) c)) in D4. rewrite E2 in D4.
    by exists c2.
Qed.

Lemma wire_bounds_count fs : Z.of_nat (length fs) <= wire_bounds fs.
Proof.
  induction fs as [|f fs IH]; [done|]. change (wire_bounds (f :: fs)) with (wire_bound f + wire_bounds fs).
  cbn [length]. unfold wire_bound. lia.
Qed.

(** From the peer to the user. A request waits for its response, and the peer's encoder agrees with the client's
    decoder: the peer can encode any fields it is allowed to send, with enough room in one block. When
    this block arrives in a HEADERS frame, followed by DATA frames, padded or not, of which the last one
    ends the stream (or the HEADERS frame does, and there are none), all frames are handled without an
    exception, and with the last one the timer is cancelled and the handler of the request is called once,
    without an error, with exactly the fields, their status and the data in order. Encoder and decoder
    agree again. The stream however stays registered. *)
Theorem client_response_delivered c p id h e room fs limit :
  awaiting c p id h (eq empty_response) -> fits 32 id -> codec_sync room e (decoder c) ->
  FIELD_ROOM * Z.of_nat (length fs) <= room -> Forall (field_wf (Encoder.config e)) fs ->
  wire_bounds fs <= limit < 2 ^ 23 -> (forall i, is_byte (fresh i)) ->
  exists e' bufs, Encoder.encode fresh e fs limit = Ok (e', (bufs, Z.of_nat (length fs))) /\ bytes_ok (contents bufs) /\
    forall data flags bs ds,
      span_ok data -> sp_bytes data = rfc_frame 1 flags id (contents bufs) ->
      has_flag flags PADDED = false -> has_flag flags FLAG_PRIORITY = false ->
      (if has_flag flags END_STREAM then bs = [] /\ ds = [] else data_sequence id bs ds) ->
      Z.of_nat (length (concat ds)) < 2 ^ 64 ->
      exists c', receive_response data bs c = Done c' /\ completed c c' p id h fs (concat ds) /\
        encoder c' = encoder c /\ codec_sync (room - FIELD_ROOM * Z.of_nat (length fs)) e' (decoder c').
Proof.
  intros Ha Hf Hsync Hroom Hwf Hlim Hfresh. pose proof (wire_bounds_count fs) as Hcount.
  destruct (encode_decode_any fresh Hfresh e (decoder c) fs limit room)
    as (e' & bufs & n & d' & He & Hbo & Hdec & _ & Hs' & _ & _ & _ & Hall & Hb); [done|done|done|lia|lia|].
  rewrite Hall in * by lia. rewrite Nat2Z.id, firstn_all in Hdec. exists e', bufs. split; [done|]. split; [done|].
  intros data flags bs ds Hs Hby Hp Hq Hlast Hl.
  destruct (client_receives_headers c p id h fs d' data flags (contents bufs)) as (c2 & Hc2 & D1 & D2 & D3 & _ & D4); try done;
    [lia|].
  unfold receive_response. rewrite Hc2. destruct (has_flag flags END_STREAM).
  - destruct Hlast as [-> ->]. exists c2. split; [done|]. split; [done|]. by rewrite D1.
  - destruct D4 as [D4 D5]. destruct (receive_data_sequence id bs ds c2 p h fs [] Hf Hlast D5) as (c' & -> & F1 & F2 & F3 & _ & F4).
    { by rewrite Z.add_0_l. }
    exists c'. split; [done|]. rewrite F1, F2, D1, D2. split; [|done]. unfold completed in *. by rewrite D4 in F4.
Qed.
End receiving.

(** ** Example *)

(** A response of two fields and two DATA frames, the first one padded, for the first request of a client. *)
Definition example_fields : header := [field ":status" "200" DEFAULT; field "content-type" "text/plain" DEFAULT].
Definition example_data (flags : Z) (payload : list Z) : buffer :=
  (commit_span (rfc_frame 0 flags 1 payload) (buffer_new zero_memory 64)).1.
Definition example_frames : list buffer :=
  [example_data 8 ([2] ++ str "hello, " ++ [0; 0]); example_data END_STREAM (str "world")].

Lemma example_frames_sequence : data_sequence 1 example_frames [str "hello, "; str "world"].
Proof.
  split; [split; [|exists 8, (Some [0; 0])]|split; [|exists END_STREAM, None]]; try (by repeat split).
  all: split; [by vm_compute|]; split; [done|]; apply Forall_forall; intros x Hx; vm_compute in Hx.
  all: repeat (apply elem_of_cons in Hx as [->|Hx]; [by split|]); by apply not_elem_of_nil in Hx.
Qed.

Lemma client_response_delivered_witness :
  exists e' bufs c', Encoder.encode zero_memory Encoder.make_encoder example_fields 1000 = Ok (e', (bufs, 2)) /\
    receive_response zero_memory zero_memory 0 (fun r => r)
      (span_of zero_memory 0 (rfc_frame 1 END_HEADERS 1 (contents bufs))) example_frames example_sent = Done c' /\
    completed example_sent c' 0 1 1%nat example_fields (str "hello, world").
Proof.
  destruct (client_response_delivered zero_memory zero_memory 0 zero_memory_ok (fun r => r) example_sent 0 1 1%nat
    Encoder.make_encoder (2 ^ 40) example_fields 1000) as (e' & bufs & He & Hb & Hr).
  - split; [reflexivity|]. eexists. split; [reflexivity|]. by split_and!.
  - by split.
  - exact new_codec_sync.
  - by vm_compute.
  - apply fields_wfb_ok. vm_compute. reflexivity.
  - by vm_compute.
  - exact zero_memory_ok.
  - destruct (Hr (span_of zero_memory 0 (rfc_frame 1 END_HEADERS 1 (contents bufs))) END_HEADERS example_frames
      [str "hello, "; str "world"]) as (c' & H1 & H2 & _).
    + apply span_of_ok; [exact zero_memory_ok|]. clear He Hr; by apply rfc_frame_bytes.
    + apply sp_bytes_place.
    + done.
    + done.
    + exact example_frames_sequence.
    + done.
    + exists e', bufs, c'. split; [exact He|]. split; [exact H1|exact H2].
Defined.

(** ** Header blocks of several frames *)

(** The header block of the example, and what the client does with a first part of it. *)
Definition example_block : list Z := [136; 95; 135; 73; 124; 165; 138; 232; 25; 170].
Definition receive_part (flags : Z) (n : nat) : handled (base_client nat) :=
  on_receive_frame zero_memory (fun r => r) (span_of zero_memory 0 (rfc_frame 1 flags 1 (take n example_block))) example_sent.

(** A header block may be cut into a HEADERS frame and CONTINUATION frames at any byte, and ends with END_HEADERS. The
    client decodes every part on its own: a part that ends inside a field is a compression error of the
    connection, although the block as a whole is valid; and a response without body is complete
    with its HEADERS frame, so that the handler gets only the fields of the first part. *)
Theorem header_block_parts :
  (exists d, Decoder.decode Decoder.make_decoder (span_of zero_memory 0 example_block) = Ok (d, example_fields)) /\
  (exists what c, receive_part 0 5 = Raised (system_error (make_error_code COMPRESSION_ERROR) what) c) /\
  (exists c r, receive_part END_STREAM 1 = Done c /\ StreamEffect 0 (Invoke 1%nat NoError r) ∈ log c /\
     response_headers r = [field ":status" "200" DEFAULT]).
Proof.
  split; [eexists; vm_compute; reflexivity|]. split; [eexists _, _; vm_compute; reflexivity|].
  destruct (receive_part END_STREAM 1) as [c|e c|] eqn:Ec; [|by vm_compute in Ec..].
  exists c, (insert_headers [field ":status" "200" DEFAULT] empty_response). split; [done|]. split; [|done].
  apply (f_equal (fun h => match h with Done c => log c | _ => [] end)) in Ec. rewrite <- Ec. vm_compute. right. right. left.
Qed.
