(* ===== verification/ResponseReading.v ===== *)
(** * Reading a response (base_client::on_read with the handlers of a stream's frames)

    The bytes of a response and of connection frames between them, cut into reads in any way. The
    client simulates the progress of the response: it waits for the HEADERS frame, collects
    the data, or has called the handler. *)
From S2P Require Import Prelude Memory Utils Buffer HeaderField Protocol Frame FrameBuilder.
From S2P Require Import Request Response Stream IndexedDynamicTable HpackSync HpackCodec StreamRegistry Reassembly BaseClient.
From S2P Require Import ClientReading ClientReceiving.
From S2P Require Streambuf Encoder Decoder SettingsManager.
Import Streambuf (contents).

(** Frames of the response, and frames of the connection. *)
Inductive item : Type :=
| Control (k : control_frame)
| Headers (flags : Z) (block : list Z)
| Data (flags : Z) (pad : option (list Z)) (d : list Z).

Definition item_bytes (id : Z) (it : item) : list Z :=
  match it with
  | Control k => control_bytes k
  | Headers flags block => rfc_frame 1 flags id block
  | Data flags pad d => rfc_frame 0 flags id (data_payload pad d)
  end.

(** The progress of a response. *)
Inductive phase : Type := Waiting | Body (body : list Z) | Complete (body : list Z).

Definition advance (ph : phase) (it : item) : phase :=
  match ph, it with
  | Waiting, Headers flags _ => if has_flag flags END_STREAM then Complete [] else Body []
  | Body body, Data flags _ d => if has_flag flags END_STREAM then Complete (body ++ d) else Body (body ++ d)
  | ph, _ => ph
  end.

(** Frames a peer may send in a phase; the fields of the response are in one block. *)
Definition item_ok (limit : Z) (block : list Z) (ph : phase) (it : item) : Prop :=
  match it with
  | Control k => control_ok limit k
  | Headers flags block' =>
      ph = Waiting /\ block' = block /\ fits 8 flags /\ bytes_ok block /\ Z.of_nat (length block) <= limit /\
      has_flag flags PADDED = false /\ has_flag flags FLAG_PRIORITY = false
  | Data flags pad d =>
      (exists body, ph = Body body /\ Z.of_nat (length body) + Z.of_nat (length d) < 2 ^ 64) /\
      fits 8 flags /\ bytes_ok (data_payload pad d) /\ Z.of_nat (length (data_payload pad d)) <= limit /\
      match pad with
      | None => has_flag flags PADDED = false
      | Some p => has_flag flags PADDED = true /\ Z.of_nat (length p) < 256
      end
  end.

(** The frames of a whole response in order, with connection frames anywhere. *)
Fixpoint in_order (limit : Z) (block : list Z) (ph : phase) (items : list item) (body : list Z) : Prop :=
  match items with
  | [] => ph = Complete body
  | it :: items => item_ok limit block ph it /\ in_order limit block (advance ph it) items body
  end.

(** Abstract state: the phase and the frames to come. *)
Definition item_step (f : list Z) (o : phase * list item) : phase * list item :=
  match o.2 with
  | [] => o
  | it :: items => (advance o.1 it, items)
  end.

Lemma response_item_wire limit block id ph it :
  limit < 2 ^ 24 -> item_ok limit block ph it ->
  whole (item_bytes id it) /\ header_ok limit (item_bytes id it) /\
  (wire_type (item_bytes id it) = 0 <-> exists flags pad d, it = Data flags pad d).
Proof.
  intros Hlim Hit.
  assert (Hw : forall t flags body, is_byte t -> t <= 9 -> fits 8 flags -> bytes_ok body -> Z.of_nat (length body) <= limit ->
    let f := rfc_frame t flags id body in whole f /\ header_ok limit f /\ wire_type f = t).
  { intros t flags body Ht Ht9 Hf Hb Hl f. destruct (rfc_frame_wire t flags id body) as (H1 & H2 & H3 & H4); [lia|].
    fold f in H1, H2, H3, H4. split_and!; [|intros _; lia|done].
    split_and!; [by apply rfc_frame_bytes|lia|done]. }
  destruct it as [k|flags block'|flags pad d]; cbn [item_bytes item_ok] in *.
  - destruct (control_wire limit k Hlim Hit) as (H1 & H2 & H3). split_and!; [done|done|].
    split; [done|]. by intros (flags & pad & d & ?).
  - destruct Hit as (_ & -> & Hf & Hb & Hl & _). destruct (Hw 1 flags block) as (H1 & H2 & ->); try done.
    split_and!; [done|done|]. split; [done|]. by intros (? & ? & ? & ?).
  - destruct Hit as (_ & Hf & Hb & Hl & _). destruct (Hw 0 flags (data_payload pad d)) as (H1 & H2 & ->); try done.
    split_and!; [done|done|]. split; [by eexists _, _, _|done].
Qed.

Section reading.
Context {SS : SetSearch} {H : Type} (fresh : Z -> Z) (heap : Z -> Z) (addr : Z) (moved_response : response -> response).
Context (Hfresh : forall i, is_byte (fresh i)) (Hheap : forall i, is_byte (heap i)).
Implicit Types c : base_client H.

(** A request on stream [id], with the response to come: its block and the fields it stands for. *)
Context (c0 : base_client H) (p : ptr) (id : Z) (h : H) (limit : Z) (block : list Z) (fs : header) (d' : Decoder.decoder).
Context (Hid : fits 32 id) (Hlimit : limit < 2 ^ 24).
Context (Hdec : forall src, span_ok src -> sp_bytes src = block -> Decoder.decode (decoder c0) src = Ok (d', fs)).

(** The client in a phase. *)
Definition in_phase c (ph : phase) : Prop :=
  same_setup c0 c /\ encoder c = encoder c0 /\
  match ph with
  | Waiting => awaiting c p id h (eq empty_response) /\ log c = log c0 /\ decoder c = decoder c0
  | Body body => awaiting c p id h (response_so_far fs body) /\ log c = log c0 /\ decoder c = d'
  | Complete body => completed c0 c p id h fs body /\ decoder c = d'
  end.

Definition item_sim c (o : phase * list item) : Prop := in_phase c o.1.
Definition item_good (f : list Z) (o : phase * list item) : Prop :=
  exists it items, o.2 = it :: items /\ f = item_bytes id it /\ item_ok limit block o.1 it.

Lemma same_setup_trans (c1 c2 c3 : base_client H) : same_setup c1 c2 -> same_setup c2 c3 -> same_setup c1 c3.
Proof. intros [A1 A2] [B1 B2]. split; congruence. Qed.

Lemma in_phase_same c c' ph : same_streams c c' -> in_phase c ph -> in_phase c' ph.
Proof.
  intros Hs (H1 & H2 & H3). pose proof Hs as (E1 & E2 & E3 & E4 & E5). split; [by apply (same_setup_trans _ c)|]. split; [by rewrite E4|].
  destruct ph as [|body|body].
  - destruct H3 as (Ha & Hl & Hd). rewrite E2, E3. split; [|done]. by apply (awaiting_same c).
  - destruct H3 as (Ha & Hl & Hd). rewrite E2, E3. split; [|done]. by apply (awaiting_same c).
  - destruct H3 as (Ha & Hd). rewrite E3. split; [|done]. unfold completed in *. by rewrite E1, E2.
Qed.

Lemma completed_from c c' body : log c = log c0 -> completed c c' p id h fs body -> completed c0 c' p id h fs body.
Proof. unfold completed. by intros ->. Qed.

#[local] Instance response_laws :
  SinkLaws (client_handlers fresh heap addr moved_response) item_sim item_step item_good.
Proof.
  split.
  - intros b c [ph items] Hb Ht Hsim (it & items' & Eit & Hv & Hok). cbn [snd fst] in *. subst items.
    destruct (response_item_wire limit block id ph it Hlimit Hok) as (_ & _ & Hw). rewrite Hv in Ht.
    apply Hw in Ht as (flags & pad & d & ->). destruct Hok as ((body & -> & Hl) & Hf & Hbo & Hlen & Hp).
    destruct Hsim as (S1 & S2 & Ha & S3 & S4).
    assert (Hd : stream_data id (has_flag flags END_STREAM) b d) by (split; [done|]; exists flags, pad; split_and!; (done || lia)).
    destruct (client_receives_data fresh heap addr Hheap moved_response c p id h fs body _ b d Hid Hd Ha Hl)
      as (c' & Hc' & F1 & F2 & F3 & _ & F4).
    exists c'. split; [exact Hc'|]. split; [|cbn [sink_limit client_handlers client_sink]; by rewrite (proj1 F3)].
    unfold item_sim, item_step. cbn [snd fst advance]. split; [by apply (same_setup_trans _ c)|]. split; [by rewrite F2|].
    destruct (has_flag flags END_STREAM); rewrite F1; [split; [|done]; by apply (completed_from c)|].
    destruct F4 as [F4 F5]. split_and!; [done|by rewrite F4|done].
  - intros s c [ph items] Hs Ht Hsim (it & items' & Eit & Hv & Hok). cbn [snd fst] in *. subst items.
    destruct (response_item_wire limit block id ph it Hlimit Hok) as (_ & _ & Hw). rewrite Hv in Ht. unfold item_sim, item_step.
    cbn [snd fst]. destruct it as [k|flags block'|flags pad d].
    + destruct (control_handled fresh moved_response limit Hlimit k s c Hok Hs Hv) as (c' & Hc' & _ & Hsame).
      exists c'. split; [exact Hc'|]. split; [|destruct Hsame as (_ & _ & _ & _ & E & _); cbn; by rewrite E].
      assert (advance ph (Control k) = ph) as -> by (by destruct ph). by apply (in_phase_same c).
    + destruct Hok as (-> & -> & Hf & Hbo & Hl & Hp & Hq). destruct Hsim as (S1 & S2 & Ha & S3 & S4).
      destruct (client_receives_headers fresh moved_response c p id h fs d' s flags block)
        as (c' & Hc' & F1 & F2 & F3 & _ & F4); try done; [by rewrite S4|lia|].
      exists c'. split; [exact Hc'|]. split; [|cbn; by rewrite (proj1 F3)].
      split; [by apply (same_setup_trans _ c)|]. split; [by rewrite F2|]. cbn [advance].
      destruct (has_flag flags END_STREAM); [split; [|done]; by apply (completed_from c)|].
      destruct F4 as [F4 F5]. split_and!; [done|by rewrite F4|done].
    + exfalso. apply Ht, Hw. by eexists _, _, _.
Qed.

(** The frames of a response are good one after the other, and complete it. *)
Lemma items_good items body : forall ph,
  in_order limit block ph items body ->
  all_good item_step item_good (item_bytes id <$> items) (ph, items) /\
  (apply_frames item_step (item_bytes id <$> items) (ph, items)).1 = Complete body /\
  Forall whole (item_bytes id <$> items) /\ Forall (header_ok limit) (item_bytes id <$> items).
Proof.
  induction items as [|it items IH]; intros ph; [done|]. rewrite fmap_cons. intros [Hok Hin].
  destruct (IH _ Hin) as (I1 & I2 & I3 & I4), (response_item_wire limit block id ph it Hlimit Hok) as (W1 & W2 & _).
  split_and!; [|exact I2|by apply Forall_cons..]. split; [|exact I1]. by exists it, items.
Qed.

(** One read: the frames it completes advance the response, and the rest of the bytes is still to come. *)
Lemma in_order_app items1 items2 body : forall ph,
  in_order limit block ph (items1 ++ items2) body -> in_order limit block (foldl advance ph items1) items2 body.
Proof. induction items1 as [|it items1 IH]; intros ph; [done|]. intros [_ Hin]. by apply IH. Qed.

Lemma apply_items items1 items2 : forall ph,
  apply_frames item_step (item_bytes id <$> items1) (ph, items1 ++ items2) = (foldl advance ph items1, items2).
Proof. induction items1 as [|it items1 IH]; intros ph; [done|]. exact (IH (advance ph it)). Qed.

Lemma read_part items body ph w chunk rest b c :
  limit = max_frame_size (SettingsManager.local_settings (settings c0)) -> in_phase c ph ->
  in_order limit block ph items body -> w ++ chunk ++ rest = concat (item_bytes id <$> items) -> rx_ready w b ->
  Z.of_nat (length chunk) <= prepare_size b ->
  exists b' c' items1 items2 w', items = items1 ++ items2 /\
    on_data_read (Sink := client_handlers fresh heap addr moved_response) fresh heap addr chunk b c = Ok (b', c') /\
    in_phase c' (foldl advance ph items1) /\ rx_ready w' b' /\ incomplete w' = true /\
    w' ++ rest = concat (item_bytes id <$> items2).
Proof.
  intros Hlim Hph Hin Hw Hb Hfit. destruct (items_good _ _ _ Hin) as (I1 & _ & I3 & I4).
  destruct (frames_whole _ I3) as [Hfs Hrem]. rewrite <- Hw, app_assoc in Hfs, Hrem.
  assert (Hbytes : bytes_ok ((w ++ chunk) ++ rest)).
  { rewrite <- app_assoc, Hw. apply Forall_concat. eapply Forall_impl; [exact I3|]. by intros f [Hf _]. }
  apply Forall_app in Hbytes as [Hwc Hrest]. destruct (frames_app (w ++ chunk) rest Hwc Hrest) as [Hfa Hra].
  rewrite Hfs in Hfa. rewrite Hrem in Hra.
  apply fmap_app_inv in Hfa as (items1 & items2 & E1 & E2 & ->).
  rewrite fmap_app in I1, I4. apply all_good_app in I1 as [I1 _]. apply Forall_app in I4 as [I4 I5].
  pose proof (remainder_bytes _ Hwc) as Hrb. pose proof (frames_concat (remainder (w ++ chunk) ++ rest)) as Hfc.
  rewrite <- Hra, app_nil_r, E2 in Hfc.
  assert (Hsetl : sink_limit (FrameSink := client_handlers fresh heap addr moved_response) c = limit).
  { destruct Hph as ((Hs & _) & _). cbn. by rewrite Hs. }
  destruct (on_data_read_frames (Sink := client_handlers fresh heap addr moved_response) item_sim item_step item_good fresh
    Hfresh heap Hheap addr w chunk b c (ph, items1 ++ items2)) as (b' & c' & Hr & Hb' & Hs & _); rewrite ?Hsetl, ?E1; try done.
  - by apply Forall_app in Hwc as [_ ?].
  - split; [by rewrite E1|].
    apply (acceptable_rest _ _ rest); [done|done|by apply remainder_incomplete|].
    split; [by rewrite E2|]. rewrite <- Hra. intros H9. simpl in H9. lia.
  - rewrite E1, apply_items in Hs. exists b', c', items1, items2, (remainder (w ++ chunk)).
    split_and!; try done; [by apply remainder_incomplete|]. symmetry. apply Hfc. by apply Forall_app.
Qed.

Lemma read_response items body chunks b :
  limit = max_frame_size (SettingsManager.local_settings (settings c0)) -> awaiting c0 p id h (eq empty_response) ->
  in_order limit block Waiting items body -> concat chunks = concat (item_bytes id <$> items) -> rx_ready [] b ->
  chunks_fit (Sink := client_handlers fresh heap addr moved_response) fresh heap addr chunks b c0 ->
  exists b' c', read_all (Sink := client_handlers fresh heap addr moved_response) fresh heap addr chunks b c0 = Ok (b', c') /\
    data_view b' = [] /\ in_phase c' (Complete body).
Proof.
  intros Hlim Ha Hin Hc Hb Hfit. destruct (items_good _ _ _ Hin) as (I1 & I2 & I3 & I4).
  destruct (frames_whole _ I3) as [Hfs Hrem].
  assert (Hbytes : Forall (Forall is_byte) chunks).
  { apply Forall_concat. rewrite Hc. apply Forall_concat. eapply Forall_impl; [exact I3|]. by intros f [Hf _]. }
  destruct (read_all_frames (Sink := client_handlers fresh heap addr moved_response) item_sim item_step item_good fresh
    Hfresh heap Hheap addr chunks [] b c0 (Waiting, items)) as (b' & c' & Hr & Hs & (_ & Hb' & _)); try done;
    change ([] ++ concat chunks) with (concat chunks) in *; rewrite ?Hc, ?Hfs in *.
  - split; rewrite ?Hfs, ?Hrem; [|intros Hl; simpl in Hl; lia]. by rewrite Hlim in I4.
  - done.
  - exists b', c'. rewrite Hrem in Hb'. unfold item_sim in Hs. by rewrite I2 in Hs.
Qed.
End reading.

(** Reading a response. A request waits for its response, and the peer's encoder agrees with the client's
    decoder: the peer can encode its fields in one block. Let the HEADERS frame with this block and the DATA
    frames of the response, padded or not, of which the last one ends the stream, arrive in order, with any
    connection frames between them, and cut into reads in any way. Then reading succeeds; the handler of
    the request has been called once, without an error, with exactly the fields, their status and the
    data; nothing else has been called; and encoder and decoder agree again. *)
Theorem client_reads_response {SS : SetSearch} {H : Type} fresh heap addr moved_response
    (c : base_client H) p id h e room fs size limit :
  (forall i, is_byte (fresh i)) -> (forall i, is_byte (heap i)) ->
  awaiting c p id h (eq empty_response) -> fits 32 id -> codec_sync room e (decoder c) ->
  FIELD_ROOM * Z.of_nat (length fs) <= room -> Forall (field_wf (Encoder.config e)) fs -> wire_bounds fs <= size < 2 ^ 24 ->
  limit = max_frame_size (SettingsManager.local_settings (settings c)) -> limit < 2 ^ 24 ->
  exists e' bufs, Encoder.encode fresh e fs size = Ok (e', (bufs, Z.of_nat (length fs))) /\
    forall items body chunks b,
      in_order limit (contents bufs) Waiting items body -> concat chunks = concat (item_bytes id <$> items) ->
      rx_ready [] b -> chunks_fit (Sink := client_handlers fresh heap addr moved_response) fresh heap addr chunks b c ->
      exists b' c',
        read_all (Sink := client_handlers fresh heap addr moved_response) fresh heap addr chunks b c = Ok (b', c') /\
        data_view b' = [] /\ completed c c' p id h fs body /\
        codec_sync (room - FIELD_ROOM * Z.of_nat (length fs)) e' (decoder c').
Proof.
  intros Hfresh Hheap Ha Hid Hsync Hroom Hwf Hsize Hlim Hl24. pose proof (wire_bounds_count fs) as Hcount.
  destruct (encode_decode_any fresh Hfresh e (decoder c) fs size room)
    as (e' & bufs & n & d' & He & _ & Hdec & _ & Hs' & _ & _ & _ & Hall & _); [done|done|done|lia|lia|].
  rewrite Hall in * by lia. rewrite Nat2Z.id, firstn_all in Hdec. exists e', bufs. split; [done|].
  intros items body chunks b Hin Hc Hb Hfit.
  destruct (read_response fresh heap addr moved_response Hfresh Hheap c p id h limit (contents bufs) fs d' Hid Hl24 Hdec
    items body chunks b) as (b' & c' & Hr & Hv & _ & _ & Hco & Hd); try done.
  exists b', c'. by rewrite Hd.
Qed.

(** ** Example *)

(** The response of [ClientReceiving] between connection frames, in three reads that cut frames. *)
Definition example_items : list item :=
  [Control (Ping 0 [1; 2; 3; 4; 5; 6; 7; 8]); Headers END_HEADERS example_block; Data 8 (Some [0; 0]) (str "hello, ");
   Control (WindowUpdate 0 1000); Data END_STREAM None (str "world")].
Definition example_reads : list (list Z) :=
  let bytes := concat (item_bytes 1 <$> example_items) in
  [take 30 bytes; take 20 (drop 30 bytes); drop 50 bytes].

(** Decides the conditions on a concrete frame. *)
Ltac decide_item :=
  match goal with
  | |- bytes_ok _ => apply bytes_okb; vm_compute; reflexivity
  | |- fits _ _ => split; decide_item
  | |- _ <= _ => apply Z.leb_le; vm_compute; reflexivity
  | |- _ < _ => apply Z.ltb_lt; vm_compute; reflexivity
  | |- _ = _ => vm_compute; reflexivity
  | |- exists body, _ = Body body /\ _ => eexists; split; [reflexivity|]; decide_item
  | |- _ /\ _ => split; decide_item
  end.

Lemma example_items_in_order : in_order 16384 example_block Waiting example_items (str "hello, world").
Proof.
  unfold example_items. repeat (split; [cbn [item_ok advance control_ok]; decide_item|]). vm_compute. reflexivity.
Qed.

Lemma client_reads_response_witness :
  exists b' c', read_all (Sink := client_handlers zero_memory zero_memory 100 (fun r => r)) zero_memory zero_memory 100
      example_reads (input_buffer zero_memory) example_sent = Ok (b', c') /\
    data_view b' = [] /\ completed example_sent c' 0 1 1%nat example_fields (str "hello, world").
Proof.
  destruct (client_reads_response zero_memory zero_memory 100 (fun r => r) example_sent 0 1 1%nat Encoder.make_encoder (2 ^ 40)
    example_fields 1000 16384 zero_memory_ok zero_memory_ok) as (e' & bufs & He & Hr).
  - split; [reflexivity|]. eexists. split; [reflexivity|]. by split_and!.
  - by split.
  - exact new_codec_sync.
  - by vm_compute.
  - apply fields_wfb_ok. vm_compute. reflexivity.
  - by vm_compute.
  - reflexivity.
  - lia.
  - assert (Hb : contents bufs = example_block) by (vm_compute in He; by injection He as _ <-). clear He.
    rewrite Hb in Hr.
    destruct (Hr example_items (str "hello, world") example_reads (input_buffer zero_memory)) as (b' & c' & H1 & H2 & H3 & _).
    + exact example_items_in_order.
    + vm_compute. reflexivity.
    + split; [apply buffer_new_ok; [exact zero_memory_ok|lia]|done].
    + vm_compute. repeat split; discriminate.
    + exists b', c'. split; [exact H1|]. split; [exact H2|exact H3].
Defined.
