(* ===== verification/ClientMultiplex.v ===== *)
(** * Responses side by side (base_client::on_read with the handlers of several streams)

    Several requests wait for their responses, and the peer answers in any order: the frames of
    the streams are interleaved, with connection frames between them, and their bytes are cut into
    reads in any way. The header blocks change the decoder that all streams share, so they are
    decoded in the order of the HEADERS frames; everything else of a stream is its own. The client
    simulates a list of phases, one for each stream. *)
From S2P Require Import Prelude Memory Utils Buffer HeaderField Protocol Frame FrameBuilder.
From S2P Require Import Request Response Stream IndexedDynamicTable HpackSync HpackCodec StreamRegistry Reassembly BaseClient.
From S2P Require Import ClientReading ClientSending ClientReceiving ResponseReading.
From S2P Require Streambuf Encoder Decoder SettingsManager.
Import Streambuf (contents).

(** ** The frames of several streams *)

(** An item, and the number of the response it belongs to (of no meaning for a connection frame). *)
Abbreviation tagged := (nat * item)%type.
Implicit Types (items : list tagged) (bodies : list (list Z)).

Definition is_headers (it : item) : bool := match it with Headers _ _ => true | _ => false end.
Definition ends (it : item) : bool :=
  match it with
  | Control _ => false
  | Headers flags _ | Data flags _ _ => has_flag flags END_STREAM
  end.

(** The frames of one response; the responses in the order of their HEADERS frames, and of their ends. *)
Definition of_stream (i : nat) items : list item := (filter (fun x => x.1 = i) items).*2.
Definition heads items : list nat := (filter (fun x => is_headers x.2) items).*1.
Definition ended items : list nat := (filter (fun x => ends x.2) items).*1.

(** The rest of the frames of several responses: the frames of each of them are in order, whatever is between
    them, and the next HEADERS frames are those of response [n] and the following ones. *)
Record interleaved (limit : Z) (blocks : list (list Z)) (phs : list phase) (n : nat) items bodies : Prop := {
  il_tags : Forall (fun x => (x.1 < length blocks)%nat) items;
  il_streams : forall i block, blocks !! i = Some block ->
    exists ph body, phs !! i = Some ph /\ bodies !! i = Some body /\ in_order limit block ph (of_stream i items) body;
  il_heads : heads items = seq n (length blocks - n);
}.

(** Whole responses, listed in the order of their header blocks. *)
Definition multiplexed (limit : Z) (blocks : list (list Z)) items bodies : Prop :=
  length bodies = length blocks /\ interleaved limit blocks (replicate (length blocks) Waiting) 0 items bodies.

(** The next frame. *)
Definition next_head (it : item) (n : nat) : nat := if is_headers it then S n else n.

Lemma of_stream_cons i x items : of_stream i (x :: items) = (if decide (x.1 = i) then [x.2] else []) ++ of_stream i items.
Proof. unfold of_stream. rewrite filter_cons. by destruct (decide _). Qed.
Lemma heads_cons x items : heads (x :: items) = (if is_headers x.2 then [x.1] else []) ++ heads items.
Proof. unfold heads. rewrite filter_cons. by destruct (is_headers _). Qed.
Lemma ended_cons x items : ended (x :: items) = (if ends x.2 then [x.1] else []) ++ ended items.
Proof. unfold ended. rewrite filter_cons. by destruct (ends _). Qed.

Lemma interleaved_cons limit blocks phs n i it items bodies :
  length phs = length blocks -> interleaved limit blocks phs n ((i, it) :: items) bodies ->
  exists block ph, blocks !! i = Some block /\ phs !! i = Some ph /\ item_ok limit block ph it /\
    (is_headers it = true -> i = n) /\ interleaved limit blocks (<[i := advance ph it]> phs) (next_head it n) items bodies.
Proof.
  intros Hlen [Ht Hs Hh]. apply Forall_cons in Ht as [Hi Ht]. cbn [fst] in Hi.
  destruct (lookup_lt_is_Some_2 blocks i Hi) as [block Hb]. destruct (Hs i block Hb) as (ph & body & Hph & Hbo & Hin).
  rewrite of_stream_cons, decide_True in Hin by done. destruct Hin as [Hok Hin].
  rewrite heads_cons in Hh. cbn [fst snd] in Hh. exists block, ph. split; [done|]. split; [done|]. split; [done|].
  assert (Hn : (is_headers it = true -> i = n) /\ heads items = seq (next_head it n) (length blocks - next_head it n)).
  { unfold next_head. destruct (is_headers it); [|by split]. destruct (length blocks - n)%nat as [|k] eqn:Ek; [done|].
    injection Hh as -> Hh. split; [done|]. rewrite Hh. f_equal. lia. }
  split; [apply Hn|]. split; [done| |apply Hn]. intros j block' Hj. destruct (decide (j = i)) as [->|Hne].
  - exists (advance ph it), body. rewrite Hb in Hj. injection Hj as <-. split; [|done].
    apply list_lookup_insert_eq. by eapply lookup_lt_Some.
  - destruct (Hs j block' Hj) as (ph' & body' & H1 & H2 & H3). exists ph', body'.
    rewrite of_stream_cons, decide_False in H3 by done. by rewrite list_lookup_insert_ne.
Qed.

Lemma interleaved_nil limit blocks phs n bodies :
  length phs = length blocks -> length bodies = length blocks -> interleaved limit blocks phs n [] bodies ->
  phs = Complete <$> bodies.
Proof.
  intros H1 H2 [_ Hs _]. apply list_eq_same_length with (length blocks); [by rewrite length_fmap|done|].
  intros i ph ph' Hi Hp Hp'. destruct (lookup_lt_is_Some_2 blocks i Hi) as [block Hb].
  destruct (Hs i block Hb) as (ph1 & body & E1 & E2 & E3). rewrite list_lookup_fmap, E2 in Hp'.
  rewrite E1 in Hp. injection Hp as <-. by injection Hp' as <-.
Qed.

Lemma interleaved_nil_heads limit blocks phs n bodies : interleaved limit blocks phs n [] bodies -> (length blocks <= n)%nat.
Proof. intros [_ _ Hh]. cbn in Hh. destruct (length blocks - n)%nat eqn:E; [lia|done]. Qed.

(** Every response ends once. *)
Definition is_complete (ph : phase) : bool := match ph with Complete _ => true | _ => false end.

Lemma advance_complete limit block ph it :
  item_ok limit block ph it ->
  if is_complete ph then ends it = false /\ advance ph it = ph else is_complete (advance ph it) = ends it.
Proof.
  destruct it as [k|flags blk|flags pad d]; cbn [item_ok ends]; [by destruct ph| |].
  - intros (-> & _). cbn. by destruct (has_flag flags END_STREAM).
  - intros ((body & -> & _) & _). cbn. by destruct (has_flag flags END_STREAM).
Qed.

Lemma ended_once limit blocks bodies items : forall phs n,
  length phs = length blocks -> length bodies = length blocks -> interleaved limit blocks phs n items bodies ->
  NoDup (ended items) /\ forall i, i ∈ ended items <-> exists ph, phs !! i = Some ph /\ is_complete ph = false.
Proof.
  induction items as [|[i it] items IH]; intros phs n Hl1 Hl2 Hin.
  { apply interleaved_nil in Hin as ->; [|done..]. split; [constructor|]. intros i. rewrite elem_of_nil.
    split; [done|]. intros (ph & Hph & Hc). rewrite list_lookup_fmap in Hph. by destruct (bodies !! i); simplify_eq/=. }
  destruct (interleaved_cons _ _ _ _ _ _ _ _ Hl1 Hin) as (block & ph & Hb & Hph & Hok & _ & Hin').
  destruct (IH _ _ ltac:(by rewrite length_insert) Hl2 Hin') as [Hnd Hel]. apply advance_complete in Hok.
  assert (Hlt : (i < length phs)%nat) by (by eapply lookup_lt_Some).
  assert (Hi : i ∈ ended items <-> is_complete (advance ph it) = false).
  { rewrite Hel, list_lookup_insert_eq by done. split; [by intros (ph' & [= <-] & ?)|by eauto]. }
  assert (Hj : forall j, j <> i -> j ∈ ended items <-> exists ph, phs !! j = Some ph /\ is_complete ph = false).
  { intros j Hne. by rewrite Hel, list_lookup_insert_ne by done. }
  rewrite ended_cons. cbn [fst snd]. split.
  - destruct (ends it) eqn:Ee; [|done]. apply NoDup_cons. split; [|done]. rewrite Hi. destruct (is_complete ph); [by destruct Hok|].
    by rewrite Hok.
  - intros j. rewrite elem_of_app. destruct (decide (j = i)) as [->|Hne].
    + rewrite Hi, Hph. transitivity (is_complete ph = false); [|split; [by eauto|by intros (? & [= <-] & ?)]].
      destruct (is_complete ph) eqn:Ec.
      * destruct Hok as [-> ->]. rewrite Ec, elem_of_nil. tauto.
      * rewrite Hok. destruct (ends it); rewrite ?list_elem_of_singleton; tauto.
    + rewrite Hj by done. destruct (ends it); rewrite ?list_elem_of_singleton, ?elem_of_nil; tauto.
Qed.

Lemma multiplexed_ended limit blocks items bodies :
  multiplexed limit blocks items bodies -> ended items ≡ₚ seq 0 (length blocks).
Proof.
  intros [Hl Hin]. destruct (ended_once _ _ _ _ _ _ (length_replicate _ _) Hl Hin) as [Hnd Hel].
  apply NoDup_Permutation; [done|apply NoDup_seq|]. intros i. rewrite Hel, elem_of_seq. split.
  - intros (ph & [_ Hi]%lookup_replicate & _). lia.
  - intros Hi. exists Waiting. split; [apply lookup_replicate; split; [done|lia]|done].
Qed.

(** ** The requests that wait *)

(** The stream of a request, its handler, and the fields of the response. *)
Record exchange (H : Type) : Type := Exchange { x_ptr : ptr; x_id : Z; x_handler : H; x_fields : header }.
Arguments Exchange {H} _ _ _ _.
Arguments x_ptr {H} _.
Arguments x_id {H} _.
Arguments x_handler {H} _.
Arguments x_fields {H} _.

(** The bytes of a tagged item. *)
Definition tagged_bytes {H} (xs : list (exchange H)) (x : nat * item) : list Z :=
  match xs !! x.1 with Some e => item_bytes (x_id e) x.2 | None => [] end.

(** The peer encodes the fields of the responses one after the other. *)
Fixpoint encode_blocks {SS : SetSearch} (fresh : Z -> Z) (e : Encoder.encoder) (size : Z) (fss : list header) :
    outcome (Encoder.encoder * list (list Z)) :=
  match fss with
  | [] => Ok (e, [])
  | fs :: fss =>
      '(e, (bufs, _)) ← Encoder.encode fresh e fs size;
      '(e, blocks) ← encode_blocks fresh e size fss;
      Ok (e, contents bufs :: blocks)
  end.

(** A decoder turns the blocks into the fields of the responses, and ends as [d']. *)
Fixpoint decodes {SS : SetSearch} (d : Decoder.decoder) (fss : list header) (blocks : list (list Z)) (d' : Decoder.decoder) : Prop :=
  match fss, blocks with
  | [], [] => d = d'
  | fs :: fss, block :: blocks => exists d1,
      (forall src, span_ok src -> sp_bytes src = block -> Decoder.decode d src = Ok (d1, fs)) /\ decodes d1 fss blocks d'
  | _, _ => False
  end.

Definition fields_count (fss : list header) : Z := Z.of_nat (length (concat fss)).

Lemma encode_blocks_decodes {SS : SetSearch} fresh (Hfresh : forall i, is_byte (fresh i)) size fss : forall e d room,
  codec_sync room e d -> FIELD_ROOM * fields_count fss <= room -> Forall (Forall (field_wf (Encoder.config e))) fss ->
  Forall (fun fs => wire_bounds fs <= size) fss -> size < 2 ^ 24 ->
  exists e' blocks d', encode_blocks fresh e size fss = Ok (e', blocks) /\ decodes d fss blocks d' /\
    length blocks = length fss /\ codec_sync (room - FIELD_ROOM * fields_count fss) e' d'.
Proof.
  induction fss as [|fs fss IH]; intros e d room Hsync Hroom Hwf Hsz Hsize.
  { exists e, [], d. split_and!; try done. unfold fields_count. cbn. by rewrite Z.sub_0_r. }
  apply Forall_cons in Hwf as [Hwf Hwfs]. apply Forall_cons in Hsz as [Hs Hsz]. cbv beta in Hs.
  assert (Hc : fields_count (fs :: fss) = Z.of_nat (length fs) + fields_count fss)
    by (unfold fields_count; cbn [concat]; rewrite length_app; lia).
  assert (H0 : 0 <= fields_count fss) by (unfold fields_count; lia). rewrite Hc, Z.mul_add_distr_l in *.
  assert (Hp : 0 <= FIELD_ROOM * fields_count fss) by (apply Z.mul_nonneg_nonneg; done).
  pose proof (wire_bounds_count fs) as Hcount.
  destruct (encode_decode_any fresh Hfresh e d fs size room)
    as (e1 & bufs & n & d1 & He & _ & Hdec & Hcfg & Hs' & _ & _ & _ & Hall & _); [done|lia|done|lia|lia|].
  rewrite Hall in * by lia. rewrite Nat2Z.id, firstn_all in Hdec.
  destruct (IH e1 d1 _ Hs') as (e' & blocks & d' & Hb & Hd & Hl & Hs2); [lia|by rewrite Hcfg|done|done|].
  exists e', (contents bufs :: blocks), d'. cbn [encode_blocks]. rewrite He. cbn [mbind outcome_bind]. rewrite Hb.
  split; [done|]. split; [by exists d1|]. split; [by cbn [length]; f_equal|].
  by rewrite Z.sub_add_distr.
Qed.

Section multiplex.
Context {SS : SetSearch} {H : Type} (fresh : Z -> Z) (heap : Z -> Z) (addr : Z) (moved_response : response -> response).
Context (Hfresh : forall i, is_byte (fresh i)) (Hheap : forall i, is_byte (heap i)).
Implicit Types (c : base_client H) (x : exchange H).

Context (c0 : base_client H) (xs : list (exchange H)) (limit : Z) (blocks : list (list Z)) (d' : Decoder.decoder).

(** A response delivered to the handler of its request: one call, after the timer is cancelled. *)
Definition call (xr : exchange H * response) : list (action H) :=
  [StreamEffect (x_ptr xr.1) CancelTimer; StreamEffect (x_ptr xr.1) (Invoke (x_handler xr.1) NoError xr.2)].
Definition answer (x : exchange H) (body : list Z) (r : response) : Prop :=
  response_headers r = x_fields x /\ body_as r = body /\
  status r = match List.find is_status (x_fields x) with Some hf => m_value hf | None => [] end.
Definition answered (phs : list phase) (i : nat) (xr : exchange H * response) : Prop :=
  xs !! i = Some xr.1 /\ exists body, phs !! i = Some (Complete body) /\ answer xr.1 body xr.2.

(** The stream of a request in each phase. *)
Definition half_closed c x : Prop :=
  get_stream (native_to_big (x_id x)) (registry c) = Some (x_ptr x) /\
  exists s, store (registry c) !! x_ptr x = Some s /\ respone_handler s = None /\ http_state s = HALF_CLOSED.
Definition stream_phase c x (ph : phase) : Prop :=
  match ph with
  | Waiting => awaiting c (x_ptr x) (x_id x) (x_handler x) (eq empty_response)
  | Body body => awaiting c (x_ptr x) (x_id x) (x_handler x) (response_so_far (x_fields x) body)
  | Complete _ => half_closed c x
  end.

(** The client when the responses are in the phases [phs], [n] blocks are decoded and those of [fin] have ended. *)
Record in_phases c (phs : list phase) (n : nat) (fin : list nat) : Prop := {
  ip_setup : same_setup c0 c;
  ip_encoder : encoder c = encoder c0;
  ip_decoder : decodes (decoder c) (drop n (x_fields <$> xs)) (drop n blocks) d';
  ip_log : exists calls, log c = log c0 ++ (calls ≫= call) /\ Forall2 (answered phs) fin calls;
  ip_streams : Forall2 (stream_phase c) xs phs;
}.
Context (Hlimit : limit < 2 ^ 24) (Hids : Forall (fun x => fits 32 (x_id x)) xs) (Hptrs : NoDup (x_ptr <$> xs)).
Context (Hblocks : length blocks = length xs).

Lemma other_stream c c' x y ph :
  others_same (x_ptr x) c c' -> x_ptr y <> x_ptr x -> stream_phase c y ph -> stream_phase c' y ph.
Proof.
  intros [H1 H2] Hne. destruct ph; unfold stream_phase, awaiting, half_closed; by rewrite H1, H2.
Qed.

Lemma streams_moved c c' i x phs ph :
  others_same (x_ptr x) c c' -> xs !! i = Some x -> Forall2 (stream_phase c) xs phs -> stream_phase c' x ph ->
  Forall2 (stream_phase c') xs (<[i := ph]> phs).
Proof.
  intros Ho Hi Hs Hx. apply Forall2_same_length_lookup_2; [rewrite length_insert; by eapply Forall2_length|].
  intros j y ph' Hj Hp. apply list_lookup_insert_Some in Hp as [(-> & <- & _)|[Hne Hp]].
  - rewrite Hi in Hj. by injection Hj as <-.
  - apply (other_stream c c' x); [done| |by eapply Forall2_lookup_lr].
    intros He. apply Hne. eapply (NoDup_lookup (x_ptr <$> xs)); [done|..]; rewrite list_lookup_fmap, ?Hi, ?Hj; cbn; by rewrite ?He.
Qed.

Lemma answered_moved i ph phs fin calls :
  (forall ph', phs !! i = Some ph' -> is_complete ph' = false) -> Forall2 (answered phs) fin calls ->
  Forall2 (answered (<[i := ph]> phs)) fin calls.
Proof.
  intros Hi Hf. eapply Forall2_impl; [exact Hf|]. intros j xr [Hx (body & Hp & Ha)]. split; [done|]. exists body. split; [|done].
  rewrite list_lookup_insert_ne; [done|]. intros <-. by apply Hi in Hp.
Qed.

(** Connection frames change no phase. *)
Lemma in_phases_same c c' phs n fin : same_streams c c' -> in_phases c phs n fin -> in_phases c' phs n fin.
Proof.
  intros (E1 & E2 & E3 & E4 & E5) []. split; [by apply (same_setup_trans _ c)|by rewrite E4|by rewrite E3|by rewrite E2|].
  eapply Forall2_impl; [done|]. intros x ph. destruct ph; unfold stream_phase, awaiting, half_closed; by rewrite E1.
Qed.

(** A frame moves its stream to the next phase, and no other. *)
Definition moved c c' x (body : list Z) (last : bool) : Prop :=
  if last then completed c c' (x_ptr x) (x_id x) (x_handler x) (x_fields x) body
  else log c' = log c /\ awaiting c' (x_ptr x) (x_id x) (x_handler x) (response_so_far (x_fields x) body).

Lemma in_phases_moved c c' phs n n' fin i x ph body last :
  in_phases c phs n fin -> xs !! i = Some x -> phs !! i = Some ph -> is_complete ph = false ->
  same_setup c c' -> encoder c' = encoder c -> others_same (x_ptr x) c c' ->
  decodes (decoder c') (drop n' (x_fields <$> xs)) (drop n' blocks) d' -> moved c c' x body last ->
  in_phases c' (<[i := (if last then Complete body else Body body)]> phs) n' (fin ++ if last then [i] else []).
Proof.
  intros [I1 I2 I3 (calls & Hl & Hc) I5] Hi Hp Hnc Hset Henc Ho Hd Hm.
  assert (Hc' : forall ph', Forall2 (answered (<[i := ph']> phs)) fin calls)
    by (intros ph'; apply answered_moved; [|done]; intros ph1; rewrite Hp; by intros [= <-]).
  split; [by apply (same_setup_trans _ c)|by rewrite Henc|done| |apply (streams_moved c c' i x); try done].
  - destruct last.
    + destruct Hm as (r & Hl' & R1 & _ & R2 & R3 & _). exists (calls ++ [(x, r)]). split.
      { by rewrite Hl', Hl, bind_app, <- app_assoc. }
      apply Forall2_app; [done|]. constructor; [|constructor]. split; [done|]. exists body.
      split; [apply list_lookup_insert_eq; by eapply lookup_lt_Some|]. by split.
    + destruct Hm as [Hl' _]. rewrite app_nil_r. exists calls. by rewrite Hl'.
  - destruct last; [|apply Hm]. destruct Hm as (r & _ & _ & _ & _ & _ & Hm). exact Hm.
Qed.

(** The abstract state: the phases, the number of decoded blocks, the ended responses, and the frames to come. *)
Record progress : Type := Progress { pg_phases : list phase; pg_next : nat; pg_ended : list nat; pg_items : list tagged }.

Definition mx_step (f : list Z) (o : progress) : progress :=
  match pg_items o with
  | [] => o
  | (i, it) :: items =>
      Progress (from_option (fun ph => <[i := advance ph it]> (pg_phases o)) (pg_phases o) (pg_phases o !! i))
        (next_head it (pg_next o)) (pg_ended o ++ if ends it then [i] else []) items
  end.
Definition mx_sim c (o : progress) : Prop := in_phases c (pg_phases o) (pg_next o) (pg_ended o).
Definition mx_good (f : list Z) (o : progress) : Prop :=
  exists i it items x block ph, pg_items o = (i, it) :: items /\ xs !! i = Some x /\ blocks !! i = Some block /\
    pg_phases o !! i = Some ph /\ f = item_bytes (x_id x) it /\ item_ok limit block ph it /\ (is_headers it = true -> i = pg_next o).

Lemma mx_data b c x body flags pad d :
  item_ok limit [] (Body body) (Data flags pad d) -> fits 32 (x_id x) -> buffer_ok b ->
  data_view b = item_bytes (x_id x) (Data flags pad d) ->
  awaiting c (x_ptr x) (x_id x) (x_handler x) (response_so_far (x_fields x) body) ->
  exists c', on_receive_data_frame fresh heap addr moved_response b c = Done c' /\ decoder c' = decoder c /\
    encoder c' = encoder c /\ same_setup c c' /\ others_same (x_ptr x) c c' /\
    moved c c' x (body ++ d) (has_flag flags END_STREAM).
Proof.
  intros ((body' & [= <-] & Hl) & Hf & Hbo & Hlen & Hp) Hid Hb Hv Ha. cbn [item_bytes] in Hv.
  assert (Hd : stream_data (x_id x) (has_flag flags END_STREAM) b d) by (split; [done|]; exists flags, pad; split_and!; (done || lia)).
  apply (client_receives_data fresh heap addr Hheap moved_response c (x_ptr x) (x_id x) (x_handler x) (x_fields x) body _ b d Hid Hd Ha Hl).
Qed.

#[local] Instance multiplex_laws :
  SinkLaws (client_handlers fresh heap addr moved_response) mx_sim mx_step mx_good.
Proof.
  split.
  - intros b c [phs n fin items] Hb Ht Hsim (i & it & items' & x & block & ph & Ei & Hx & Hbl & Hph & Hv & Hok & Hn).
    cbn [pg_phases pg_next pg_ended pg_items] in *. subst items.
    destruct (response_item_wire limit block (x_id x) ph it Hlimit Hok) as (_ & _ & Hw). rewrite Hv in Ht.
    apply Hw in Ht as (flags & pad & d & ->). pose proof Hok as ((body & -> & _) & _).
    pose proof (Forall2_lookup_lr _ _ _ _ _ _ (ip_streams _ _ _ _ Hsim) Hx Hph) as Ha.
    destruct (mx_data b c x body flags pad d) as (c' & Hc' & F1 & F2 & F3 & F4 & F5); try done;
      [by apply (Forall_lookup_1 _ _ _ _ Hids Hx)|].
    exists c'. split; [exact Hc'|]. split; [|cbn [sink_limit client_handlers client_sink]; by rewrite (proj1 F3)].
    unfold mx_sim, mx_step. cbn [pg_phases pg_next pg_ended pg_items]. rewrite Hph. cbn [from_option advance next_head is_headers ends].
    apply (in_phases_moved c c' phs n n fin i x (Body body)); try done. rewrite F1. apply Hsim.
  - intros s c [phs n fin items] Hs Ht Hsim (i & it & items' & x & block & ph & Ei & Hx & Hbl & Hph & Hv & Hok & Hn).
    cbn [pg_phases pg_next pg_ended pg_items] in *. subst items.
    destruct (response_item_wire limit block (x_id x) ph it Hlimit Hok) as (_ & _ & Hw). rewrite Hv in Ht.
    unfold mx_sim, mx_step. cbn [pg_phases pg_next pg_ended pg_items]. rewrite Hph. cbn [from_option].
    destruct it as [k|flags block'|flags pad d]; cbn [ends next_head is_headers] in *.
    + destruct (control_handled fresh moved_response limit Hlimit k s c Hok Hs Hv) as (c' & Hc' & _ & Hsame).
      exists c'. split; [exact Hc'|]. split; [|destruct Hsame as (_ & _ & _ & _ & E & _); cbn; by rewrite E].
      assert (advance ph (Control k) = ph) as -> by (by destruct ph).
      rewrite list_insert_id, app_nil_r by done. by apply (in_phases_same c).
    + specialize (Hn eq_refl). subst n. destruct Hok as (-> & -> & Hf & Hbo & Hl & Hp & Hq).
      pose proof (Forall2_lookup_lr _ _ _ _ _ _ (ip_streams _ _ _ _ Hsim) Hx Hph) as Ha.
      pose proof (ip_decoder _ _ _ _ Hsim) as Hd. unfold next_head. cbn [is_headers].
      rewrite (drop_S _ (x_fields x) i), (drop_S _ block i) in Hd by (rewrite ?list_lookup_fmap, ?Hx; done).
      destruct Hd as (d1 & Hdec & Hd).
      destruct (client_receives_headers fresh moved_response c (x_ptr x) (x_id x) (x_handler x) (x_fields x) d1 s flags block)
        as (c' & Hc' & F1 & F2 & F3 & F4 & F5); try done; [by apply (Forall_lookup_1 _ _ _ _ Hids Hx)|lia|].
      exists c'. split; [exact Hc'|]. split; [|cbn; by rewrite (proj1 F3)]. cbn [advance].
      apply (in_phases_moved c c' phs i (S i) fin i x Waiting); try done. by rewrite F1.
    + exfalso. apply Ht, Hw. by eexists _, _, _.
Qed.

(** Interleaved responses are good, and complete. *)
Lemma mx_items items bodies : forall phs n fin,
  length phs = length blocks -> length bodies = length blocks -> interleaved limit blocks phs n items bodies ->
  let fs := tagged_bytes xs <$> items in
  all_good mx_step mx_good fs (Progress phs n fin items) /\
  (exists n', (length blocks <= n')%nat /\ apply_frames mx_step fs (Progress phs n fin items) = Progress (Complete <$> bodies) n' (fin ++ ended items) []) /\
  Forall whole fs /\ Forall (header_ok limit) fs.
Proof.
  induction items as [|[i it] items IH]; intros phs n fin Hl1 Hl2 Hin; cbv zeta.
  { pose proof (interleaved_nil_heads _ _ _ _ _ Hin). apply interleaved_nil in Hin as ->; [|done..]. split_and!; try done.
    exists n. by rewrite app_nil_r. }
  destruct (interleaved_cons _ _ _ _ _ _ _ _ Hl1 Hin) as (block & ph & Hb & Hph & Hok & Hn & Hin').
  destruct (lookup_lt_is_Some_2 xs i) as [x Hx]; [rewrite <- Hblocks; by eapply lookup_lt_Some|].
  destruct (IH _ _ (fin ++ if ends it then [i] else []) ltac:(by rewrite length_insert) Hl2 Hin') as (I1 & (n' & Hn' & I2) & I3 & I4).
  destruct (response_item_wire limit block (x_id x) ph it Hlimit Hok) as (W1 & W2 & _).
  assert (Ht : tagged_bytes xs (i, it) = item_bytes (x_id x) it) by (unfold tagged_bytes; cbn [fst snd]; by rewrite Hx).
  assert (Hst : mx_step (tagged_bytes xs (i, it)) (Progress phs n fin ((i, it) :: items)) =
    Progress (<[i:=advance ph it]> phs) (next_head it n) (fin ++ (if ends it then [i] else [])) items).
  { unfold mx_step. cbn [pg_phases pg_next pg_ended pg_items]. by rewrite Hph. }
  rewrite !fmap_cons. split_and!.
  - split; [|by rewrite Hst]. exists i, it, items, x, block, ph. by split_and!.
  - exists n'. split; [done|]. unfold apply_frames. cbn [foldl]. rewrite Hst. unfold apply_frames in I2. rewrite I2, ended_cons.
    cbn [fst snd]. by rewrite <- app_assoc.
  - apply Forall_cons. by rewrite Ht.
  - apply Forall_cons. by rewrite Ht.
Qed.

Lemma read_multiplexed items bodies chunks b :
  limit = max_frame_size (SettingsManager.local_settings (settings c0)) -> multiplexed limit blocks items bodies ->
  decodes (decoder c0) (x_fields <$> xs) blocks d' ->
  Forall (fun x => awaiting c0 (x_ptr x) (x_id x) (x_handler x) (eq empty_response)) xs ->
  concat chunks = concat (tagged_bytes xs <$> items) -> rx_ready [] b ->
  chunks_fit (Sink := client_handlers fresh heap addr moved_response) fresh heap addr chunks b c0 ->
  exists b' c' n, read_all (Sink := client_handlers fresh heap addr moved_response) fresh heap addr chunks b c0 = Ok (b', c') /\
    data_view b' = [] /\ in_phases c' (Complete <$> bodies) n (ended items) /\ (length blocks <= n)%nat.
Proof.
  intros Hlim [Hl Hin] Hdec Ha Hc Hb Hfit.
  destruct (mx_items items bodies _ 0 [] (length_replicate _ _) Hl Hin) as (I1 & (n & Hn & I2) & I3 & I4).
  destruct (frames_whole _ I3) as [Hfs Hrem].
  assert (Hbytes : Forall (Forall is_byte) chunks).
  { apply Forall_concat. rewrite Hc. apply Forall_concat. eapply Forall_impl; [exact I3|]. by intros f [Hf _]. }
  destruct (read_all_frames (Sink := client_handlers fresh heap addr moved_response) mx_sim mx_step mx_good fresh
    Hfresh heap Hheap addr chunks [] b c0 (Progress (replicate (length blocks) Waiting) 0 [] items))
    as (b' & c' & Hr & Hs & (_ & Hb' & _)); try done;
    change ([] ++ concat chunks) with (concat chunks) in *; rewrite ?Hc, ?Hfs in *.
  - split; rewrite ?Hfs, ?Hrem; [|intros Hl0; simpl in Hl0; lia]. by rewrite Hlim in I4.
  - split; try done; [exists []; split; [by rewrite app_nil_r|constructor]|]. apply Forall2_same_length_lookup_2.
    + cbn [pg_phases]. by rewrite length_replicate, Hblocks.
    + cbn [pg_phases]. intros i x ph Hx [-> _]%lookup_replicate. by apply (Forall_lookup_1 _ _ _ _ Ha Hx).
  - done.
  - exists b', c', n. rewrite Hrem in Hb'. unfold mx_sim in Hs. by rewrite I2 in Hs.
Qed.

(** One read: the frames it completes advance their responses, and the rest of the bytes is still to come. *)
Lemma interleaved_app items1 items2 bodies : forall phs n,
  length phs = length blocks -> interleaved limit blocks phs n (items1 ++ items2) bodies ->
  forall fin, exists phs' n', length phs' = length blocks /\
    apply_frames mx_step (tagged_bytes xs <$> items1) (Progress phs n fin (items1 ++ items2)) =
      Progress phs' n' (fin ++ ended items1) items2 /\
    interleaved limit blocks phs' n' items2 bodies.
Proof.
  induction items1 as [|[i it] items1 IH]; intros phs n Hl Hin fin.
  { exists phs, n. split_and!; [done| |done]. cbn. by rewrite app_nil_r. }
  destruct (interleaved_cons _ _ _ _ _ _ _ _ Hl Hin) as (block & ph & _ & Hph & _ & _ & Hin').
  destruct (IH _ _ ltac:(by rewrite length_insert) Hin' (fin ++ if ends it then [i] else [])) as (phs' & n' & L & E & F).
  exists phs', n'. split; [done|]. split; [|done]. rewrite fmap_cons, ended_cons. cbn [fst snd app]. rewrite app_assoc, <- E.
  unfold apply_frames. cbn [foldl]. f_equal. unfold mx_step. cbn [pg_phases pg_next pg_ended pg_items]. by rewrite Hph.
Qed.

Lemma read_multiplexed_part items bodies phs n fin w chunk rest b c :
  limit = max_frame_size (SettingsManager.local_settings (settings c0)) -> in_phases c phs n fin ->
  length phs = length blocks -> length bodies = length blocks -> interleaved limit blocks phs n items bodies ->
  w ++ chunk ++ rest = concat (tagged_bytes xs <$> items) -> rx_ready w b -> Z.of_nat (length chunk) <= prepare_size b ->
  exists b' c' items1 items2 w' phs' n', items = items1 ++ items2 /\
    on_data_read (Sink := client_handlers fresh heap addr moved_response) fresh heap addr chunk b c = Ok (b', c') /\
    in_phases c' phs' n' (fin ++ ended items1) /\ length phs' = length blocks /\
    interleaved limit blocks phs' n' items2 bodies /\ rx_ready w' b' /\ incomplete w' = true /\
    w' ++ rest = concat (tagged_bytes xs <$> items2).
Proof.
  intros Hlim Hph Hl Hlb Hin Hw Hb Hfit. destruct (mx_items items bodies phs n fin Hl Hlb Hin) as (I1 & _ & I3 & I4).
  destruct (frames_whole _ I3) as [Hfs Hrem]. rewrite <- Hw, app_assoc in Hfs, Hrem.
  assert (Hbytes : bytes_ok ((w ++ chunk) ++ rest)).
  { rewrite <- app_assoc, Hw. apply Forall_concat. eapply Forall_impl; [exact I3|]. by intros f [Hf _]. }
  apply Forall_app in Hbytes as [Hwc Hrest]. destruct (frames_app (w ++ chunk) rest Hwc Hrest) as [Hfa Hra].
  rewrite Hfs in Hfa. rewrite Hrem in Hra. apply fmap_app_inv in Hfa as (items1 & items2 & E1 & E2 & ->).
  rewrite fmap_app in I1, I4. apply all_good_app in I1 as [I1 _]. apply Forall_app in I4 as [I4 I5].
  pose proof (remainder_bytes _ Hwc) as Hrb. pose proof (frames_concat (remainder (w ++ chunk) ++ rest)) as Hfc.
  rewrite <- Hra, app_nil_r, E2 in Hfc.
  destruct (interleaved_app items1 items2 bodies phs n Hl Hin fin) as (phs' & n' & L & E & F).
  assert (Hsetl : sink_limit (FrameSink := client_handlers fresh heap addr moved_response) c = limit).
  { cbn. by rewrite (proj1 (ip_setup _ _ _ _ Hph)). }
  destruct (on_data_read_frames (Sink := client_handlers fresh heap addr moved_response) mx_sim mx_step mx_good fresh
    Hfresh heap Hheap addr w chunk b c (Progress phs n fin (items1 ++ items2))) as (b' & c' & Hr & Hb' & Hs & _);
    rewrite ?Hsetl, ?E1; try done.
  - by apply Forall_app in Hwc as [_ ?].
  - split; [by rewrite E1|].
    apply (acceptable_rest _ _ rest); [done|done|by apply remainder_incomplete|].
    split; [by rewrite E2|]. rewrite <- Hra. intros H9. simpl in H9. lia.
  - rewrite E1, E in Hs. exists b', c', items1, items2, (remainder (w ++ chunk)), phs', n'.
    split_and!; try done; [by apply remainder_incomplete|]. symmetry. apply Hfc. by apply Forall_app.
Qed.
End multiplex.


(** ** Example *)

(** The two requests of [ClientSending], and their responses: the one of stream 3 begins first, and ends first. *)
Definition example_waiting : base_client nat :=
  match send_requests example_requests example_client with Ok c => c | _ => make_client end.
Definition more_fields : header := [field ":status" "404" DEFAULT; field "content-type" "text/plain" DEFAULT].
Definition example_exchanges : list (exchange nat) :=
  [Exchange 1 3 2%nat example_fields; Exchange 0 1 1%nat more_fields].
Definition more_block : list Z := [141; 190].
Definition example_tagged : list (nat * item) :=
  [(0%nat, Headers END_HEADERS example_block); (0%nat, Data 8 (Some [0; 0]) (str "hello, ")); (1%nat, Headers END_HEADERS more_block);
   (0%nat, Control (Ping 0 [1; 2; 3; 4; 5; 6; 7; 8])); (1%nat, Data 0 None (str "not "));
   (0%nat, Data END_STREAM None (str "world")); (1%nat, Data END_STREAM None (str "found"))].
Definition example_bodies : list (list Z) := [str "hello, world"; str "not found"].
Definition tagged_reads : list (list Z) :=
  let bytes := concat (tagged_bytes example_exchanges <$> example_tagged) in [take 25 bytes; take 40 (drop 25 bytes); drop 65 bytes].

(** The frames of each of the two streams. *)
Definition example_first : list item :=
  [Headers END_HEADERS example_block; Data 8 (Some [0; 0]) (str "hello, "); Control (Ping 0 [1; 2; 3; 4; 5; 6; 7; 8]);
   Data END_STREAM None (str "world")].
Definition example_second : list item :=
  [Headers END_HEADERS more_block; Data 0 None (str "not "); Data END_STREAM None (str "found")].

Lemma example_first_in_order : in_order 16384 example_block Waiting example_first (str "hello, world").
Proof.
  unfold example_first. repeat (split; [cbn [item_ok advance control_ok]; decide_item|]). vm_compute. reflexivity.
Qed.

Lemma example_second_in_order : in_order 16384 more_block Waiting example_second (str "not found").
Proof.
  unfold example_second. repeat (split; [cbn [item_ok advance control_ok]; decide_item|]). vm_compute. reflexivity.
Qed.

Lemma example_multiplexed : multiplexed 16384 [example_block; more_block] example_tagged example_bodies.
Proof.
  assert (E0 : of_stream 0 example_tagged = example_first) by reflexivity.
  assert (E1 : of_stream 1 example_tagged = example_second) by reflexivity.
  split; [done|]. split; [|intros [|[|i]] block Hb|reflexivity].
  - repeat (apply Forall_cons; split; [cbn; lia|]). by apply Forall_nil.
  - injection Hb as <-. exists Waiting, (str "hello, world"). rewrite E0. split_and!; [done|done|exact example_first_in_order].
  - injection Hb as <-. exists Waiting, (str "not found"). rewrite E1. split_and!; [done|done|exact example_second_in_order].
  - done.
Qed.

