(* ===== verification/ClientSession.v ===== *)
(** * Sessions (client_session.h)

    A session drives a [base_client] over a transport. Asynchronous operations that have been
    started and not completed are the elements of [pending]; completing one runs its completion
    handler. [co_init] is a coroutine with two suspension points: it waits for the transport
    to connect ([TConnect]) and for the settings to be exchanged (a handler [Resume]). The
    transport is not under src/: which task completes when, with which error and which bytes, is
    left open, and every choice is a step of [session_step].

    What the client does to its surroundings is in its log; [settle] carries it out: a call of
    [init_write], the continuation of [co_init], or a call of a handler of the user, which
    is recorded in [notices]. [written] collects all buffers handed to the transport. *)
From stdpp Require Import relations.
From S2P Require Import Prelude Memory Utils Buffer HeaderField Protocol Frame FrameBuilder.
From S2P Require Import Request Response Stream StreamRegistry Reassembly BaseClient.
From S2P Require Window SettingsManager IndexedDynamicTable.
Import IndexedDynamicTable (SetSearch).

Section session.
Context {SS : SetSearch} {U : Type}.
Context (fresh : Z -> Z) (heap : Z -> Z) (addr : Z) (moved_response : response -> response).

(** Completion handlers: one of the user, or the rest of [co_init], which completes a token of the user. *)
Inductive handler : Type := User (u : U) | Resume (token : U).

Inductive task : Type :=
| TInit (token : U)
| TConnect (token : U)
| TRead
| TTransmit
| TWrite (buffers : list buffer)
| TDisconnect.

(** Calls of the user's handlers. An exception in [co_init] reaches the token as an exception. *)
Inductive notice : Type :=
| Connected (token : U) (ec : boost_error)
| ConnectThrew (token : U) (ec : boost_error)
| Shutdown (h : U) (ec : boost_error)
| ClientAction (a : action handler).

Record session : Type := Session {
  base : base_client handler;
  input_buffer : buffer;
  tx_running_flag : bool;
  tx_routine_done : bool;
  tx_queue_sent : list buffer;
  shutdown_handler : option U;
  pending : list task;
  notices : list notice;
  written : list buffer;
}.

Definition new_session : session :=
  Session make_client (buffer_new fresh 64) false false [] None [] [] [].

(** Assignments to the members. *)
Definition set_base (c : base_client handler) (s : session) : session :=
  Session c (input_buffer s) (tx_running_flag s) (tx_routine_done s) (tx_queue_sent s) (shutdown_handler s)
    (pending s) (notices s) (written s).
Definition set_input (b : buffer) (s : session) : session :=
  Session (base s) b (tx_running_flag s) (tx_routine_done s) (tx_queue_sent s) (shutdown_handler s)
    (pending s) (notices s) (written s).
Definition set_tx_flags (running done : bool) (s : session) : session :=
  Session (base s) (input_buffer s) running done (tx_queue_sent s) (shutdown_handler s)
    (pending s) (notices s) (written s).
Definition set_sent (q : list buffer) (s : session) : session :=
  Session (base s) (input_buffer s) (tx_running_flag s) (tx_routine_done s) q (shutdown_handler s)
    (pending s) (notices s) (written s).
Definition set_shutdown (h : option U) (s : session) : session :=
  Session (base s) (input_buffer s) (tx_running_flag s) (tx_routine_done s) (tx_queue_sent s) h
    (pending s) (notices s) (written s).
Definition set_pending (p : list task) (s : session) : session :=
  Session (base s) (input_buffer s) (tx_running_flag s) (tx_routine_done s) (tx_queue_sent s) (shutdown_handler s)
    p (notices s) (written s).
Definition notify (n : notice) (s : session) : session :=
  Session (base s) (input_buffer s) (tx_running_flag s) (tx_routine_done s) (tx_queue_sent s) (shutdown_handler s)
    (pending s) (notices s ++ [n]) (written s).
Definition set_written (w : list buffer) (s : session) : session :=
  Session (base s) (input_buffer s) (tx_running_flag s) (tx_routine_done s) (tx_queue_sent s) (shutdown_handler s)
    (pending s) (notices s) w.
Definition start (t : task) (s : session) : session := set_pending (pending s ++ [t]) s.

(** The flags of the client. *)
Definition set_connected (s : session) : session :=
  let c := base s in set_base (set_flags true (start_connecting_flag c) (start_disconnect_flag c) c) s.
Definition set_connecting (s : session) : session :=
  let c := base s in set_base (set_flags (is_connected_flag c) true (start_disconnect_flag c) c) s.
Definition set_disconnecting (s : session) : session :=
  let c := base s in set_base (set_flags (is_connected_flag c) (start_connecting_flag c) true c) s.
Definition set_error (ec : boost_error) (s : session) : session :=
  let c := base s in set_base (set_disconnect ec (disconnect_handler c) c) s.

(** ** What the client asks for *)

Definition init_write (s : session) : session :=
  if tx_running_flag s then s else start TTransmit (set_tx_flags true (tx_routine_done s) s).

(** [co_init] after the settings exchange: an error is thrown. *)
Definition resume_init (token : U) (ec : boost_error) (s : session) : session :=
  if failed ec then notify (ConnectThrew token ec) s
  else notify (Connected token NoError) (set_error NoError (set_connected s)).

Definition perform (s : session) (a : action handler) : session :=
  match a with
  | InitWrite => init_write s
  | CallSettings (Resume token) ec => resume_init token ec s
  | a => notify (ClientAction a) s
  end.

Definition clear_log (c : base_client handler) : base_client handler :=
  BaseClient (decoder c) (encoder c) (settings c) (registry c) (local_window c) (server_window_size c)
    (tx_command_queue c) (client_id_order c) (ping_handler c) (is_connected_flag c) (start_connecting_flag c)
    (start_disconnect_flag c) (connection_error_code c) (disconnect_handler c) [].
Definition settle (s : session) : session :=
  foldl perform (set_base (clear_log (base s)) s) (log (base s)).

(** ** Connecting *)

(** [co_init] up to its first suspension. *)
Definition co_init (token : U) (s : session) : session :=
  if is_connected_flag (base s) then notify (Connected token (AsioError already_connected)) s
  else if start_connecting_flag (base s) then notify (Connected token (AsioError in_progress)) s
  else start (TConnect token) (set_connecting s).

Definition async_connect (h token : U) (s : session) : session :=
  start (TInit token) (set_shutdown (Some h) s).

Definition init_read (s : session) : session :=
  if start_disconnect_flag (base s) then s else start TRead s.

(** [co_init] after the transport has connected, up to the settings exchange. *)
Definition on_connected (token : U) (ec : boost_error) (s : session) : session :=
  if failed ec then notify (ConnectThrew token ec) s
  else
    let s := set_error NoError (set_tx_flags false false s) in
    let s := set_base (write_initial_frames fresh (base s)) s in
    let s := init_read s in
    match initiate_sync_settings fresh true (Resume token) (base s) with
    | Ok c => settle (set_base c s)
    | Throw e => notify (ConnectThrew token (error_of e)) s
    | _ => s
    end.

(** ** Reading *)

(** The handlers of the client. *)
Definition session_sink : FrameSink (base_client handler) := client_sink fresh heap addr moved_response.

(** [on_data_read]; [on_read] calls [init_write] unless there is no whole header. *)
Definition on_data_read (ec : boost_error) (chunk : list Z) (s : session) : outcome session :=
  if negb (failed ec) then
    let b := (commit (Z.of_nat (length chunk)) (write_at (b_offset (input_buffer s)) chunk (input_buffer s))).1 in
    '(b', c) ← on_read (Sink := session_sink) fresh heap addr b (base s);
    let s := settle (set_base c s) in
    let s := if b_offset b <? min_size then s else init_write s in
    Ok (init_read (set_input b' s))
  else if negb (start_disconnect_flag (base s)) then Ok (set_error ec (set_disconnecting s))
  else Ok s.

(** ** Writing *)

Definition check_shutdown (s : session) : session :=
  if tx_routine_done s then start TDisconnect s else s.

(** The function [init_write] posts. *)
Definition transmit (s : session) : outcome session :=
  '(c, tx_queue) ← get_tx_data fresh (base s);
  let s := settle (set_base c s) in
  match tx_queue with
  | [] =>
      let s := set_tx_flags false (tx_routine_done s) s in
      if start_disconnect_flag (base s) then Ok (check_shutdown (set_tx_flags (tx_running_flag s) true s)) else Ok s
  | _ =>
      let s := set_written (written s ++ tx_queue) (set_sent (tx_queue_sent s ++ tx_queue) s) in
      Ok (start (TWrite tx_queue) s)
  end.

Definition on_data_write (ec : boost_error) (s : session) : session :=
  if negb (failed ec) then init_write (set_tx_flags false (tx_routine_done s) (set_sent [] s))
  else
    let s := if negb (start_disconnect_flag (base s)) then set_error ec (set_disconnecting s) else s in
    set_tx_flags false true s.

(** The transport is closed. [disconnect_handler] can be called once. *)
Definition on_disconnected (s : session) : outcome session :=
  let ec := connection_error_code (base s) in
  c ← cleanup_after_disconnect moved_response ec (base s);
  let s := settle (set_base c s) in
  let s := match shutdown_handler s with Some h => notify (Shutdown h ec) s | None => s end in
  match disconnect_handler (base s) with
  | Some h =>
      Ok (notify (ClientAction (CallDisconnect h))
            (set_base (set_disconnect (connection_error_code (base s)) None (base s)) s))
  | None => Ok s
  end.

(** ** Operations of the user; an exception goes to the caller *)

Definition async_disconnect (u : U) (s : session) : session :=
  settle (set_base (initiate_disconnect fresh NoError (Some (User u)) (base s)) s).

Definition async_send (rq : request) (u : U) (s : session) : outcome session :=
  c ← initiate_send rq (User u) (base s); Ok (settle (set_base c s)).

Definition async_ping (u : U) (s : session) : outcome session :=
  c ← initiate_ping fresh (User u) (base s); Ok (settle (set_base c s)).

(** ** The life of a session *)

Inductive event : Type :=
| EConnect (h token : U)
| EDisconnect (u : U)
| ESend (rq : request) (u : U)
| EPing (u : U)
| ESettingsTimer (ec : boost_error)
| EStreamTimer (p : ptr) (ec : boost_error)
| ERun (token : U)
| EConnected (token : U) (ec : boost_error)
| EReadDone (ec : boost_error) (chunk : list Z)
| ETransmit
| EWriteDone (buffers : list buffer) (ec : boost_error)
| EDisconnected.

(** A timer of a stream. *)
Definition on_stream_timer (p : ptr) (ec : boost_error) (s : session) : session :=
  let r := registry (base s) in
  match store r !! p with
  | None => s
  | Some x =>
      let '(x, eff) := Stream.on_timer moved_response ec x in
      let c := set_registry (Registry (stream_map r) (queue r) (<[p := x]> (store r))) (base s) in
      settle (set_base (emit (map (fun e => StreamEffect p e) eff) c) s)
  end.

(** The task an event completes. *)
Definition completes (ev : event) : option task :=
  match ev with
  | ERun token => Some (TInit token)
  | EConnected token _ => Some (TConnect token)
  | EReadDone _ _ => Some TRead
  | ETransmit => Some TTransmit
  | EWriteDone buffers _ => Some (TWrite buffers)
  | EDisconnected => Some TDisconnect
  | _ => None
  end.

(** What an event does; the task it completes is not pending any more. *)
Definition run_event (ev : event) (s : session) : outcome session :=
  match ev with
  | EConnect h token => Ok (async_connect h token s)
  | EDisconnect u => Ok (async_disconnect u s)
  | ESend rq u => async_send rq u s
  | EPing u => async_ping u s
  | ESettingsTimer ec => Ok (settle (set_base (on_settings_timer fresh ec (base s)) s))
  | EStreamTimer p ec => Ok (on_stream_timer p ec s)
  | ERun token => Ok (co_init token s)
  | EConnected token ec => Ok (on_connected token ec s)
  | EReadDone ec chunk => on_data_read ec chunk s
  | ETransmit => transmit s
  | EWriteDone _ ec => Ok (on_data_write ec s)
  | EDisconnected => on_disconnected s
  end.

Inductive session_step : event -> session -> session -> Prop :=
| Spontaneous ev s s' : completes ev = None -> run_event ev s = Ok s' -> session_step ev s s'
| Completion ev t p1 p2 s s' :
    completes ev = Some t -> pending s = p1 ++ t :: p2 ->
    run_event ev (set_pending (p1 ++ p2) s) = Ok s' -> session_step ev s s'.

(** ** Carrying out the log *)

(** What [settle] can change: a write is started if none is running, the connection may be
    established, and handlers are called. *)
Record settled (s s' : session) : Prop := {
  st_queue : tx_command_queue (base s') = tx_command_queue (base s);
  st_registry : registry (base s') = registry (base s);
  st_connected : is_connected_flag (base s) = true -> is_connected_flag (base s') = true;
  st_disconnect : start_disconnect_flag (base s') = start_disconnect_flag (base s);
  st_connecting : start_connecting_flag (base s') = start_connecting_flag (base s);
  st_done : tx_routine_done s' = tx_routine_done s;
  st_sent : tx_queue_sent s' = tx_queue_sent s;
  st_written : written s' = written s;
  st_pending :
    (tx_running_flag s' = tx_running_flag s /\ pending s' = pending s) \/
    (tx_running_flag s = false /\ tx_running_flag s' = true /\ pending s' = pending s ++ [TTransmit]);
}.

#[local] Instance settled_preorder : PreOrder settled.
Proof.
  split; [intros s; split; auto|].
  intros s1 s2 s3 [A1 A2 A3 A4 A4' A5 A6 A7 A8] [B1 B2 B3 B4 B4' B5 B6 B7 B8]. split; try congruence; [auto|].
  destruct A8 as [[Ar Ap]|(Ar & Ar' & Ap)], B8 as [[Br Bp]|(Br & Br' & Bp)]; rewrite Bp, Ap;
    (left + right); split_and?; congruence.
Qed.

Lemma init_write_settled s : settled s (init_write s).
Proof. unfold init_write. destruct (tx_running_flag s) eqn:E; [done|]. split; try done. by right. Qed.

Lemma notify_settled n s : settled s (notify n s).
Proof. split; auto. Qed.

Lemma perform_settled s a : settled s (perform s a).
Proof.
  destruct a as [| | |h ec| |]; try apply notify_settled; [apply init_write_settled|].
  destruct h as [u|token]; [apply notify_settled|]. cbn [perform]. unfold resume_init.
  destruct (failed ec); [apply notify_settled|]. split; auto.
Qed.

Lemma settle_settled s : settled s (settle s).
Proof.
  unfold settle. transitivity (set_base (clear_log (base s)) s); [split; auto|].
  generalize (log (base s)). intros l. generalize (set_base (clear_log (base s)) s). clear s.
  induction l as [|a l IH]; intros s; [done|]. cbn [foldl].
  transitivity (perform s a); [apply perform_settled|apply IH].
Qed.

(** ** Writing *)

Definition is_writer (t : task) : Prop := match t with TTransmit | TWrite _ => True | _ => False end.
#[local] Instance is_writer_dec t : Decision (is_writer t).
Proof. destruct t; simpl; apply _. Defined.
Definition writers (p : list task) : list task := filter is_writer p.

(** The flag says whether something writes, and the buffers of a write are still there. *)
Record writing_ok (s : session) : Prop := {
  wr_one : length (writers (pending s)) = (if tx_running_flag s then 1 else 0)%nat;
  wr_alive : forall bs, TWrite bs ∈ pending s -> bs `suffix_of` tx_queue_sent s;
}.

Lemma writers_app p q : writers (p ++ q) = writers p ++ writers q.
Proof. apply filter_app. Qed.

Lemma writing_same s s' :
  tx_running_flag s' = tx_running_flag s -> pending s' = pending s -> tx_queue_sent s' = tx_queue_sent s ->
  writing_ok s -> writing_ok s'.
Proof. intros H1 H2 H3 [W1 W2]. split; rewrite H2, ?H1, ?H3; auto. Qed.

Lemma settled_writing s s' : settled s s' -> writing_ok s -> writing_ok s'.
Proof.
  intros Hs [W1 W2]. pose proof (st_sent _ _ Hs) as Hq.
  destruct (st_pending _ _ Hs) as [[H1 H2]|(H1 & H2 & H3)]; split; rewrite ?Hq.
  - by rewrite H1, H2.
  - by rewrite H2.
  - rewrite H3, writers_app, length_app, W1, H1, H2. done.
  - rewrite H3. intros bs [Hb|Hb]%elem_of_app; [auto|]. by apply list_elem_of_singleton in Hb.
Qed.

(** A base operation, then its log. *)
Lemma settle_base_writing c s : writing_ok s -> writing_ok (settle (set_base c s)).
Proof. intros W. eapply settled_writing; [apply settle_settled|]. by eapply writing_same, W. Qed.

Lemma start_writing t s : ~ is_writer t -> writing_ok s -> writing_ok (start t s).
Proof.
  intros Ht [W1 W2]. split; cbn [start set_pending pending tx_running_flag tx_queue_sent].
  - rewrite writers_app, length_app, W1. unfold writers. rewrite filter_cons_False by done. simpl. lia.
  - intros bs [Hb|Hb]%elem_of_app; [auto|]. apply list_elem_of_singleton in Hb as <-. by destruct Ht.
Qed.

Lemma init_read_writing s : writing_ok s -> writing_ok (init_read s).
Proof. unfold init_read. destruct (start_disconnect_flag _); [done|]. apply start_writing. by intros []. Qed.

Lemma set_input_writing b s : writing_ok s -> writing_ok (set_input b s).
Proof. intros W. by eapply writing_same, W. Qed.

(** A task is taken out. *)
Lemma take_other p1 t p2 s :
  pending s = p1 ++ t :: p2 -> ~ is_writer t -> writing_ok s -> writing_ok (set_pending (p1 ++ p2) s).
Proof.
  intros Hp Ht [W1 W2]. split; cbn [set_pending pending tx_running_flag tx_queue_sent].
  - rewrite <- W1, Hp, !writers_app. unfold writers at 4. by rewrite filter_cons_False.
  - intros bs Hb. apply W2. rewrite Hp. apply elem_of_app in Hb as [Hb|Hb]; apply elem_of_app; [by left|right; by right].
Qed.

Lemma take_writer p1 t p2 s :
  pending s = p1 ++ t :: p2 -> is_writer t -> writing_ok s -> tx_running_flag s = true /\ writers (p1 ++ p2) = [].
Proof.
  intros Hp Ht [W1 _]. rewrite Hp, writers_app, length_app in W1. unfold writers at 2 in W1.
  rewrite filter_cons_True in W1 by done. cbn [length] in W1.
  destruct (tx_running_flag s); [|lia]. split; [done|]. apply length_zero_iff_nil.
  rewrite writers_app, length_app. unfold writers at 2. lia.
Qed.

Lemma no_writers_alive p bs : writers p = [] -> TWrite bs ∉ p.
Proof.
  intros Hp Hb. assert (Hf : TWrite bs ∈ writers p) by (by apply list_elem_of_filter).
  rewrite Hp in Hf. by apply not_elem_of_nil in Hf.
Qed.

Lemma idle_writing s : tx_running_flag s = false -> writers (pending s) = [] -> writing_ok s.
Proof. intros H1 H2. split; [by rewrite H1, H2|]. intros bs Hb. by eapply no_writers_alive in Hb. Qed.

Lemma transmit_writing s s' :
  tx_running_flag s = true -> writers (pending s) = [] -> transmit s = Ok s' -> writing_ok s'.
Proof.
  intros Hr Hw Ht. unfold transmit in Ht. apply outcome_bind_ok in Ht as ([c q] & _ & Ht).
  pose proof (settle_settled (set_base c s)) as Hs. set (s1 := settle (set_base c s)) in *.
  assert (Hp : pending s1 = pending s).
  { destruct (st_pending _ _ Hs) as [[_ Hp]|(Hf & _)]; [done|]. cbn in Hf. congruence. }
  destruct q as [|b q].
  - assert (W : writing_ok (set_tx_flags false (tx_routine_done s1) s1)) by (apply idle_writing; [done|by rewrite <- Hp in Hw]).
    destruct (start_disconnect_flag _); injection Ht as <-; [|done]. cbn. apply start_writing; [by intros []|].
    by eapply writing_same, W.
  - injection Ht as <-. assert (Hr1 : tx_running_flag s1 = true).
    { destruct (st_pending _ _ Hs) as [[H1 _]|(_ & H1 & _)]; [by rewrite H1|done]. }
    split; cbn [start set_pending set_written set_sent pending tx_running_flag tx_queue_sent]; rewrite Hp.
    + rewrite writers_app, Hw, Hr1. unfold writers. by rewrite filter_cons_True.
    + intros bs [Hb|Hb]%elem_of_app; [by eapply no_writers_alive in Hb|].
      apply list_elem_of_singleton in Hb as [= ->]. by apply suffix_app_r.
Qed.

(** The session is used as intended: the user disconnects it only when it is connected. Without this the order
    of writes breaks ([session_connect_race]). *)
Definition allowed (ev : event) (s : session) : Prop :=
  match ev with EDisconnect _ => is_connected_flag (base s) = true | _ => True end.

Inductive orderly : session -> Prop :=
| OrderlyNew : orderly new_session
| OrderlyStep ev s s' : orderly s -> allowed ev s -> session_step ev s s' -> orderly s'.

(** ** The tasks of each phase *)

Inductive task_kind : Type := Connect | Read | Write | Close.

Definition is_kind (k : task_kind) (t : task) : bool :=
  match k, t with
  | Connect, TConnect _ | Read, TRead | Write, TTransmit | Write, TWrite _ | Close, TDisconnect => true
  | _, _ => false
  end.
Fixpoint count (k : task_kind) (p : list task) : nat :=
  match p with [] => 0 | t :: p => (if is_kind k t then 1 else 0) + count k p end%nat.

Lemma count_app k p q : count k (p ++ q) = (count k p + count k q)%nat.
Proof. induction p as [|t p IH]; [done|]. cbn [app count]. rewrite IH. lia. Qed.

Lemma count_take k p1 t p2 : count k (p1 ++ t :: p2) = count k ([t] ++ (p1 ++ p2)).
Proof. rewrite !count_app. cbn [count]. lia. Qed.

Lemma count_writers p : count Write p = length (writers p).
Proof.
  induction p as [|t p IH]; [done|]. cbn [count]. rewrite IH. unfold writers. rewrite filter_cons. by destruct t.
Qed.

Lemma writing_count s : writing_ok s -> (count Write (pending s) <= 1)%nat.
Proof. intros [W _]. rewrite count_writers, W. destruct (tx_running_flag s); lia. Qed.

(** While a session is not connected, at most one attempt to connect is made at a time; until its transport has
    connected nothing is read, written or closed, also when there has been a connection before; and once a
    disconnection has been started, there is one reader, writer or closing at most. *)
Definition phase_ok (connected connecting disconnecting : bool) (connects reads writes closes : nat) : Prop :=
  let busy := (reads + writes + closes)%nat in
  if connected then connects = 0%nat
  else
    (connects <= if connecting then 1 else 0)%nat /\
    (connecting = false \/ connects <> 0%nat -> busy = 0%nat) /\
    (if disconnecting then busy <= 1 else closes = 0 /\ reads <= 1)%nat.

(** A session whose log has been carried out, counting an [extra] task. *)
Record phased (extra : list task) (s : session) : Prop := {
  ph_log : log (base s) = [];
  ph_ok : phase_ok (is_connected_flag (base s)) (start_connecting_flag (base s)) (start_disconnect_flag (base s))
    (count Connect (extra ++ pending s)) (count Read (extra ++ pending s))
    (count Write (extra ++ pending s)) (count Close (extra ++ pending s));
}.

(** Carrying out the log. *)
Lemma settle_log s : log (base (settle s)) = [].
Proof.
  unfold settle. cut (forall l s0, log (base s0) = [] -> log (base (foldl perform s0 l)) = []); [intros Hc; by apply Hc|].
  induction l as [|a l IH]; intros s0 Hs; [done|]. cbn [foldl]. apply IH.
  destruct a as [| | |[u|token] ec| |]; cbn [perform]; try done.
  - unfold init_write. by destruct (tx_running_flag s0).
  - unfold resume_init. by destruct (failed ec).
Qed.

Lemma settled_count k s s' :
  settled s s' -> k <> Write -> count k (pending s') = count k (pending s).
Proof.
  intros Hs Hk. destruct (st_pending _ _ Hs) as [[_ ->]|(_ & _ & ->)]; [done|]. rewrite count_app.
  destruct k; (done || cbn; lia).
Qed.

(** Handlers of streams and failures of the settings exchange neither write nor connect. *)
Definition harmless (a : action handler) : Prop :=
  match a with InitWrite => False | CallSettings _ ec => failed ec = true | _ => True end.

Lemma settle_harmless s :
  Forall harmless (log (base s)) ->
  pending (settle s) = pending s /\ is_connected_flag (base (settle s)) = is_connected_flag (base s) /\
  start_connecting_flag (base (settle s)) = start_connecting_flag (base s) /\
  start_disconnect_flag (base (settle s)) = start_disconnect_flag (base s).
Proof.
  intros Hl. unfold settle. cut (forall s0, pending (foldl perform s0 (log (base s))) = pending s0 /\
    is_connected_flag (base (foldl perform s0 (log (base s)))) = is_connected_flag (base s0) /\
    start_connecting_flag (base (foldl perform s0 (log (base s)))) = start_connecting_flag (base s0) /\
    start_disconnect_flag (base (foldl perform s0 (log (base s)))) = start_disconnect_flag (base s0)).
  { intros Hc. apply (Hc (set_base (clear_log (base s)) s)). }
  induction Hl as [|a l Ha _ IH]; intros s0; [done|]. cbn [foldl].
  destruct (IH (perform s0 a)) as (-> & -> & -> & ->).
  destruct a as [| | |[u|token] ec| |]; cbn [harmless perform] in *; try done. unfold resume_init. by rewrite Ha.
Qed.

Lemma harmless_phased extra c s :
  phased extra s -> Forall harmless (log c) -> is_connected_flag c = is_connected_flag (base s) ->
  start_connecting_flag c = start_connecting_flag (base s) -> start_disconnect_flag c = start_disconnect_flag (base s) ->
  phased extra (settle (set_base c s)).
Proof.
  intros [H1 H2] Hl E1 E2 E3. destruct (settle_harmless (set_base c s) Hl) as (Q0 & Q1 & Q2 & Q3).
  split; [apply settle_log|]. rewrite Q0, Q1, Q2, Q3. cbn [base set_base pending]. by rewrite E1, E2, E3.
Qed.

(** A connected session stays connected and does not connect again. *)
Lemma connected_phased s c :
  phased [] s -> is_connected_flag (base s) = true -> is_connected_flag c = true -> phased [] (settle (set_base c s)).
Proof.
  intros [H1 H2] Hc Hc'. pose proof (settle_settled (set_base c s)) as Hs. split; [apply settle_log|].
  rewrite (st_connected _ _ Hs Hc'). cbn [app]. rewrite (settled_count Connect _ _ Hs) by done.
  rewrite Hc in H2. exact H2.
Qed.

Lemma taken_phased t p1 p2 s :
  pending s = p1 ++ t :: p2 -> phased [] s -> phased [t] (set_pending (p1 ++ p2) s).
Proof. intros Hp [H1 H2]. split; [done|]. cbn [set_pending pending base]. by rewrite <- !count_take, <- Hp. Qed.

(** A task that connects is only there before anything is read or written. *)
Lemma connecting_idle token s :
  phased [TConnect token] s ->
  count Connect (pending s) = 0%nat /\ count Read (pending s) = 0%nat /\ count Write (pending s) = 0%nat /\
  count Close (pending s) = 0%nat /\ is_connected_flag (base s) = false /\ start_connecting_flag (base s) = true.
Proof.
  intros [_ H]. unfold phase_ok in H. cbn [app count is_kind] in H.
  destruct (is_connected_flag _), (start_connecting_flag _); lia.
Qed.

(** A task that reads, writes or closes is only there when no attempt to connect is made. *)
Lemma busy_phase t s :
  phased [t] s -> is_kind Read t || is_kind Write t || is_kind Close t = true ->
  count Connect (pending s) = 0%nat /\ (is_connected_flag (base s) = false -> start_connecting_flag (base s) = true).
Proof.
  intros [_ H] Ht. unfold phase_ok in H. cbn [app count] in H.
  destruct t; try done; cbn [is_kind] in H; destruct (is_connected_flag _), (start_connecting_flag _); lia.
Qed.

Lemma co_init_phased token s : phased [] s -> phased [] (co_init token s).
Proof.
  intros [H1 H2]. unfold co_init. destruct (is_connected_flag (base s)) eqn:Ec; [split; cbn; by rewrite ?Ec|].
  destruct (start_connecting_flag (base s)) eqn:Eg; [split; cbn; by rewrite ?Ec, ?Eg|].
  split; [done|]. cbn. rewrite Ec, !count_app. cbn in *. destruct (start_disconnect_flag (base s)); lia.
Qed.

Lemma initiate_sync_settings_flags rs h (c c' : base_client handler) :
  initiate_sync_settings fresh rs h c = Ok c' ->
  start_connecting_flag c' = start_connecting_flag c /\ start_disconnect_flag c' = start_disconnect_flag c.
Proof.
  unfold initiate_sync_settings, SettingsManager.initiate_sync_settings.
  destruct (SettingsManager.settings_handler _); [done|]. by intros [= <-].
Qed.

(** Reading starts when the transport has connected, and at most one transmission. *)
Lemma opened_phased s s3 s' :
  settled s3 s' -> log (base s') = [] -> start_connecting_flag (base s3) = true ->
  pending s3 = pending s ++ (if start_disconnect_flag (base s3) then [] else [TRead]) ->
  count Connect (pending s) = 0%nat -> count Read (pending s) = 0%nat -> count Write (pending s) = 0%nat ->
  count Close (pending s) = 0%nat -> phased [] s'.
Proof.
  intros Hs Hl Hg Hp N1 N2 N3 N4. split; [done|]. cbn [app]. rewrite (st_connecting _ _ Hs), (st_disconnect _ _ Hs), Hg.
  rewrite (settled_count Connect _ _ Hs), (settled_count Read _ _ Hs), (settled_count Close _ _ Hs) by done.
  rewrite Hp, !count_app, N1, N2, N4.
  assert (Hw : (count Write (pending s') <= 1)%nat).
  { destruct (st_pending _ _ Hs) as [[_ ->]|(_ & _ & ->)]; rewrite ?count_app, Hp, ?count_app, N3;
      destruct (start_disconnect_flag (base s3)); cbn; lia. }
  unfold phase_ok. destruct (is_connected_flag _), (start_disconnect_flag (base s3)); cbn; lia.
Qed.

Lemma on_connected_phased token ec s :
  phased [TConnect token] s -> phased [] (on_connected token ec s).
Proof.
  intros Hp. destruct (connecting_idle token s Hp) as (N1 & N2 & N3 & N4 & Hc & Hg). pose proof (ph_log _ _ Hp) as Hl.
  unfold on_connected. destruct (failed ec).
  { split; [done|]. cbn. rewrite Hc, Hg, N1, N2, N3, N4. destruct (start_disconnect_flag _); cbn; lia. }
  set (s1 := set_base _ _). set (s2 := init_read s1).
  assert (E : base s2 = base s1 /\ (pending s2 = pending s ++ if start_disconnect_flag (base s) then [] else [TRead])).
  { unfold s2, init_read. change (start_disconnect_flag (base s1)) with (start_disconnect_flag (base s)).
    destruct (start_disconnect_flag (base s)); split; try done. by rewrite app_nil_r. }
  destruct E as [E1 E2]. rewrite E1.
  destruct (initiate_sync_settings _ _ _ _) as [c| | |] eqn:Es.
  - destruct (initiate_sync_settings_flags _ _ _ _ Es) as [F1 F2].
    apply (opened_phased s (set_base c s2)); cbn [set_base base pending]; [apply settle_settled|apply settle_log|by rewrite F1|by rewrite F2|done..].
  - apply (opened_phased s s2); cbn [notify base pending]; rewrite ?E1; [apply notify_settled|done..].
  - apply (opened_phased s s2); rewrite ?E1; done.
  - apply (opened_phased s s2); rewrite ?E1; done.
Qed.

(** A read has completed; another is started unless the session is being disconnected. *)
Lemma phase_read cn cn' cg dc dc' C R W W' D :
  phase_ok cn cg dc C (S R) W D -> (cn = true -> cn' = true) -> (dc = true -> dc' = true) -> (W' <= 1)%nat ->
  phase_ok cn' cg dc' C (R + if dc' then 0 else 1) W' D.
Proof.
  unfold phase_ok. intros H Hc Hd Hw. destruct cn, cn', dc, dc', cg;
    try (specialize (Hc eq_refl); discriminate); try (specialize (Hd eq_refl); discriminate); lia.
Qed.

Lemma on_data_read_phased ec chunk s s' :
  phased [TRead] s -> writing_ok s' -> on_data_read ec chunk s = Ok s' -> phased [] s'.
Proof.
  intros [Hl Hp] W%writing_count Hr. unfold on_data_read in Hr. destruct (negb (failed ec)).
  - apply outcome_bind_ok in Hr as ([b c] & Hb & Hr). pose proof (on_read_calm _ _ _ _ _ _ _ _ Hb) as [C1 C2 C3].
    pose proof (settle_settled (set_base c s)) as Hs1. set (s1 := settle (set_base c s)) in *.
    assert (Hs2 : exists s2, settled s1 s2 /\ log (base s2) = [] /\ s' = init_read (set_input b s2)).
    { destruct (_ <? min_size); injection Hr as <-; eexists; (split; [|split; [|reflexivity]]).
      - done.
      - apply settle_log.
      - apply init_write_settled.
      - unfold init_write. destruct (tx_running_flag s1); apply settle_log. }
    destruct Hs2 as (s2 & Hs2 & Hl2 & ->). clear Hr Hb. pose proof (transitivity Hs1 Hs2 : settled (set_base c s) s2) as Hs.
    assert (Hbase : base (init_read (set_input b s2)) = base s2).
    { unfold init_read. destruct (start_disconnect_flag (base (set_input b s2))); reflexivity. }
    assert (K : forall k, k <> Write -> count k (pending (init_read (set_input b s2))) =
      (count k (pending s) + if is_kind k TRead && negb (start_disconnect_flag c) then 1 else 0)%nat).
    { intros k Hk. pose proof (settled_count k _ _ Hs Hk) as Hn. cbn [pending set_base] in Hn. rewrite <- Hn. unfold init_read. cbn [base set_input].
      rewrite (st_disconnect _ _ Hs). cbn [base set_base]. destruct (start_disconnect_flag c); cbn; rewrite ?count_app; cbn;
        destruct (is_kind k TRead); cbn; lia. }
    split; rewrite Hbase; [done|]. cbn [app]. rewrite (K Connect), (K Read), (K Close) by done. cbn [is_kind andb]. rewrite !Nat.add_0_r.
    rewrite (st_connecting _ _ Hs), (st_disconnect _ _ Hs). cbn [base set_base]. rewrite C2.
    cbn [app count is_kind Nat.add] in Hp. replace (if negb (start_disconnect_flag c) then 1%nat else 0%nat)
      with (if start_disconnect_flag c then 0%nat else 1%nat) by (by destruct (start_disconnect_flag c)).
    eapply phase_read; [exact Hp| |exact C3|exact W]. intros E. apply (st_connected _ _ Hs). cbn. congruence.
  - assert (E : s' = (if start_disconnect_flag (base s) then s else set_error ec (set_disconnecting s))).
    { destruct (start_disconnect_flag (base s)); by injection Hr. }
    assert (B : is_connected_flag (base s') = is_connected_flag (base s) /\ start_connecting_flag (base s') =
      start_connecting_flag (base s) /\ start_disconnect_flag (base s') = true /\ log (base s') = log (base s) /\
      pending s' = pending s).
    { rewrite E. by destruct (start_disconnect_flag (base s)) eqn:Ed. }
    destruct B as (B1 & B2 & B3 & B4 & B5). split; [by rewrite B4|]. cbn [app]. rewrite B1, B2, B3, B5. rewrite B5 in W.
    rewrite <- (Nat.add_0_r (count Read _)). by eapply (phase_read _ _ _ _ true), W.
Qed.

Lemma transmit_phased s s' :
  tx_running_flag s = true -> phased [TTransmit] s -> transmit s = Ok s' -> phased [] s'.
Proof.
  intros Hrun [_ Hp] Ht. unfold transmit in Ht. apply outcome_bind_ok in Ht as ([c q] & Hg & Ht).
  destruct (get_tx_data_queue _ _ _ _ Hg) as (C1 & C2 & _ & C3).
  pose proof (settle_settled (set_base c s)) as Hs. pose proof (settle_log (set_base c s)) as Hl.
  set (s1 := settle (set_base c s)) in *.
  assert (Hp1 : pending s1 = pending s).
  { destruct (st_pending _ _ Hs) as [[_ Hp1]|(Hf & _)]; [done|]. cbn in Hf. congruence. }
  assert (Hcn : is_connected_flag (base s) = true -> is_connected_flag (base s1) = true).
  { intros E. apply (st_connected _ _ Hs). cbn. congruence. }
  pose proof (st_disconnect _ _ Hs) as D1. pose proof (st_connecting _ _ Hs) as D2. cbn [base set_base] in D1, D2.
  rewrite <- C2, <- D1, <- C3, <- D2, <- Hp1 in Hp. cbn [app count is_kind Nat.add] in Hp.
  assert (Hend : base s' = base s1 /\ pending s' = pending s1 ++
    match q with [] => if start_disconnect_flag (base s1) then [TDisconnect] else [] | _ => [TWrite q] end).
  { destruct q as [|b q]; [|by injection Ht as <-]. cbn [base set_tx_flags] in Ht.
    destruct (start_disconnect_flag (base s1)); injection Ht as <-; [done|]. by rewrite app_nil_r. }
  destruct Hend as [E1 E2]. split; rewrite ?E1; [done|]. cbn [app]. rewrite E2, !count_app. unfold phase_ok in *.
  destruct (is_connected_flag (base s)); [rewrite Hcn by done|destruct (is_connected_flag (base s1))];
    destruct q, (start_connecting_flag (base s1)), (start_disconnect_flag (base s1)); cbn in *; lia.
Qed.

Lemma on_data_write_phased ec bs s :
  writers (pending s) = [] -> phased [TWrite bs] s -> phased [] (on_data_write ec s).
Proof.
  intros Hw [Hl Hp]. assert (W : count Write (pending s) = 0%nat) by (by rewrite count_writers, Hw).
  unfold on_data_write. destruct (negb (failed ec)).
  - split; [done|]. unfold phase_ok in *. cbn in *. rewrite !count_app. cbn.
    destruct (is_connected_flag (base s)), (start_connecting_flag (base s)), (start_disconnect_flag (base s)); lia.
  - assert (E : forall c, log c = log (base s) -> is_connected_flag c = is_connected_flag (base s) ->
      start_connecting_flag c = start_connecting_flag (base s) -> start_disconnect_flag c = true ->
      phased [] (set_tx_flags false true (set_base c s))).
    { intros c L E1 E2 E3. split; [by cbn; rewrite L|]. unfold phase_ok in *. cbn in *. rewrite E1, E2, E3.
      destruct (is_connected_flag (base s)), (start_connecting_flag (base s)), (start_disconnect_flag (base s)); lia. }
    destruct (start_disconnect_flag (base s)) eqn:Ed; cbn [negb]; [|by apply E].
    replace s with (set_base (base s) s) by (by destruct s). by apply E.
Qed.

Lemma on_disconnected_phased s s' : phased [TDisconnect] s -> on_disconnected s = Ok s' -> phased [] s'.
Proof.
  intros [Hl Hp] Hr. unfold on_disconnected in Hr. apply outcome_bind_ok in Hr as (c & Hc & Hr).
  unfold cleanup_after_disconnect in Hc. apply outcome_bind_ok in Hc as ([r eff] & _ & [= Hc]).
  destruct (settle_harmless (set_base c s)) as (S1 & S2 & S3 & S4).
  { cbn [base set_base]. rewrite <- Hc. cbn. rewrite Hl. apply Forall_app. split; [by apply Forall_nil|].
    apply Forall_forall. intros a (x & -> & _)%list_elem_of_fmap. by destruct x. }
  pose proof (settle_log (set_base c s)) as Hl1. set (s1 := settle (set_base c s)) in *. cbn [base set_base pending] in *.
  assert (E : log (base s') = [] /\ is_connected_flag (base s') = is_connected_flag (base s) /\
    start_connecting_flag (base s') = false /\ start_disconnect_flag (base s') = start_disconnect_flag (base s) /\
    pending s' = pending s).
  { rewrite <- Hc in S2, S3, S4. cbn in S2, S3, S4. rewrite <- S2, <- S3, <- S4, <- S1.
    destruct (shutdown_handler s1); destruct (disconnect_handler _); by injection Hr as <-. }
  destruct E as (L & E1 & E2 & E3 & E4). split; [done|]. rewrite E1, E2, E3, E4. unfold phase_ok in *. cbn in *.
  destruct (is_connected_flag (base s)), (start_connecting_flag (base s)), (start_disconnect_flag (base s)); lia.
Qed.

Lemma settings_timer_phased ec s : phased [] s -> phased [] (settle (set_base (on_settings_timer fresh ec (base s)) s)).
Proof.
  intros Hp. pose proof (ph_log _ _ Hp) as Hl. unfold on_settings_timer, SettingsManager.on_timer, SettingsManager.finished.
  destruct (decide _); [apply harmless_phased; try done; by cbn; rewrite Hl|].
  destruct (SettingsManager.settings_handler _) as [h|]; cbn [run_settings];
    [rewrite on_settings_synced_failed by done|]; (apply harmless_phased; [done|cbn; rewrite Hl; cbn; by repeat constructor|done..]).
Qed.

Lemma stream_timer_phased p ec s : phased [] s -> phased [] (on_stream_timer p ec s).
Proof.
  intros Hp. unfold on_stream_timer. destruct (store _ !! p) as [x|]; [|done].
  destruct (Stream.on_timer _ _ _) as [x' eff]. apply harmless_phased; try done.
  cbn. rewrite (ph_log _ _ Hp). apply Forall_forall. intros a (e & -> & _)%list_elem_of_fmap. done.
Qed.

(** Operations of the user on a connected session. *)
Lemma user_phased ev s s' :
  match ev with ESend _ _ | EPing _ | EDisconnect _ => True | _ => False end ->
  allowed ev s -> phased [] s -> run_event ev s = Ok s' -> phased [] s'.
Proof.
  intros Hev Ha Hp Hr. destruct ev; try done; cbn [run_event allowed] in *.
  - injection Hr as <-. apply connected_phased; [done..|].
    by rewrite (calm_connected _ _ (quiet_calm _ _ (initiate_disconnect_quiet _ _ _ _))).
  - apply outcome_bind_ok in Hr as (c & Hc & [= <-]). unfold initiate_send in Hc.
    destruct (is_connected_flag (base s)) eqn:Ec; [|done]. cbn [negb] in Hc.
    destruct (get_next_stream_id _) as [c1 id] eqn:E. injection E as <- <-.
    destruct (new_stream _ _). injection Hc as <-. by apply connected_phased.
  - apply outcome_bind_ok in Hr as (c & Hc & [= <-]). unfold initiate_ping in Hc.
    destruct (is_connected_flag (base s)) eqn:Ec; [|done]. cbn [negb] in Hc.
    destruct (ping_handler _); [done|]. injection Hc as <-. by apply connected_phased.
Qed.

Lemma event_phased ev s s' :
  allowed ev s -> phased (option_list (completes ev)) s ->
  (forall t, completes ev = Some t -> is_writer t -> tx_running_flag s = true /\ writers (pending s) = []) ->
  run_event ev s = Ok s' -> writing_ok s' -> phased [] s'.
Proof.
  intros Ha Hp Hw Hr W. destruct ev; cbn [completes option_list] in *.
  - injection Hr as <-. destruct Hp as [Hl Hp]. split; [done|]. cbn in *. rewrite !count_app. cbn. by rewrite !Nat.add_0_r.
  - by eapply user_phased, Hr.
  - by eapply user_phased, Hr.
  - by eapply user_phased, Hr.
  - injection Hr as <-. by apply settings_timer_phased.
  - injection Hr as <-. by apply stream_timer_phased.
  - injection Hr as <-. apply co_init_phased. by destruct Hp.
  - injection Hr as <-. by apply on_connected_phased.
  - by eapply on_data_read_phased, Hr.
  - eapply transmit_phased, Hr; [by apply (Hw TTransmit)|done].
  - injection Hr as <-. eapply on_data_write_phased, Hp. by apply (Hw (TWrite buffers)).
  - by eapply on_disconnected_phased, Hr.
Qed.

Lemma on_connected_writing token ec s :
  writers (pending s) = [] -> writing_ok s -> writing_ok (on_connected token ec s).
Proof.
  intros Ha W. unfold on_connected. destruct (failed ec); [by eapply writing_same, W|]. set (s1 := init_read _).
  assert (W1 : writing_ok s1) by (apply init_read_writing; by apply idle_writing).
  destruct (initiate_sync_settings _ _ _ _); [by apply settle_base_writing|by eapply writing_same, W1|done..].
Qed.

Lemma on_data_read_writing ec chunk s s' : on_data_read ec chunk s = Ok s' -> writing_ok s -> writing_ok s'.
Proof.
  intros Hr W. unfold on_data_read in Hr. destruct (negb (failed ec)).
  - apply outcome_bind_ok in Hr as ([b c] & _ & [= <-]). apply init_read_writing.
    apply set_input_writing. destruct (_ <? min_size); [by apply settle_base_writing|].
    eapply settled_writing; [apply init_write_settled|by apply settle_base_writing].
  - destruct (negb _); injection Hr as <-; [by eapply writing_same, W|done].
Qed.

Lemma on_disconnected_writing s s' : on_disconnected s = Ok s' -> writing_ok s -> writing_ok s'.
Proof.
  intros Hr W. unfold on_disconnected in Hr. apply outcome_bind_ok in Hr as (c & _ & Hr).
  pose proof (settle_base_writing c s W) as W1. set (s1 := settle (set_base c s)) in *.
  destruct (shutdown_handler s1) as [h|]; destruct (disconnect_handler _); injection Hr as <-; by eapply writing_same, W1.
Qed.

(** An event that writes nothing, on the session without the task it completes. *)
Lemma other_event_writing ev s s' :
  (forall t, completes ev = Some t -> ~ is_writer t) -> phased (option_list (completes ev)) s ->
  run_event ev s = Ok s' -> writing_ok s -> writing_ok s'.
Proof.
  intros Hw Ha Hr W. destruct ev; cbn [run_event] in Hr.
  - injection Hr as <-. apply start_writing; [by intros []|by eapply writing_same, W].
  - injection Hr as <-. by apply settle_base_writing.
  - apply outcome_bind_ok in Hr as (c & _ & [= <-]). by apply settle_base_writing.
  - apply outcome_bind_ok in Hr as (c & _ & [= <-]). by apply settle_base_writing.
  - injection Hr as <-. by apply settle_base_writing.
  - injection Hr as <-. unfold on_stream_timer. destruct (_ !! _) as [x|]; [|done].
    destruct (Stream.on_timer _ _ _). by apply settle_base_writing.
  - injection Hr as <-. unfold co_init.
    destruct (is_connected_flag (base s)), (start_connecting_flag (base s)); try (by eapply writing_same, W).
    apply start_writing; [by intros []|by eapply writing_same, W].
  - injection Hr as <-. apply on_connected_writing; [|done]. destruct (connecting_idle _ _ Ha) as (_ & _ & Hn & _).
    rewrite count_writers in Hn. by apply length_zero_iff_nil.
  - by eapply on_data_read_writing.
  - by destruct (Hw TTransmit eq_refl).
  - by destruct (Hw (TWrite buffers) eq_refl).
  - by eapply on_disconnected_writing.
Qed.

Lemma step_writing ev s s' :
  session_step ev s s' -> allowed ev s -> phased [] s -> writing_ok s -> writing_ok s' /\ phased [] s'.
Proof.
  intros Hs Ha Hp W. destruct Hs as [ev s s' Hc Hr|ev t p1 p2 s s' Hc Ht Hr].
  { assert (W' : writing_ok s').
    { eapply other_event_writing, W; [|by rewrite Hc|exact Hr]. intros t Ht. congruence. }
    split; [done|]. eapply event_phased, W'; [done|by rewrite Hc| |exact Hr]. intros t Ht. congruence. }
  pose proof (taken_phased _ _ _ _ Ht Hp) as Hp0. set (s0 := set_pending (p1 ++ p2) s) in *.
  assert (Hw : forall t', completes ev = Some t' -> is_writer t' -> tx_running_flag s0 = true /\ writers (pending s0) = []).
  { intros t' Ht' Hw. rewrite Hc in Ht'. injection Ht' as <-. exact (take_writer _ _ _ _ Ht Hw W). }
  assert (W' : writing_ok s').
  { destruct (decide (is_writer t)) as [Hi|Hi].
    - destruct (Hw t Hc Hi) as [Hrun Hnone].
      destruct ev as [| | | | | | | | | |bs ec|]; simplify_eq/=; try done; [by eapply transmit_writing, Hr|].
      unfold on_data_write. destruct (negb (failed ec)); [|apply idle_writing; [done|by destruct (negb _)]].
      eapply settled_writing; [apply init_write_settled|]. by apply idle_writing.
    - eapply (other_event_writing ev s0); [|by rewrite Hc|exact Hr|by eapply take_other].
      intros t' Ht'. congruence. }
  split; [done|]. apply (event_phased ev s0 s'); [exact Ha|by rewrite Hc|done|exact Hr|done].
Qed.

(** C14: There is at most one write at a time. In every session whose user calls [async_disconnect] only when it is
    connected, whatever else is called, connected, answered or lost in any order, [tx_running_flag] is set exactly
    while a transmission is scheduled or a write is in progress, there is never a second one, and the
    buffers a write uses stay alive until it has completed. In particular [co_init], which clears the flag when the transport
    has connected, never does so while something is written: no attempt to connect is made once the session
    is connected, nor a second one beside the first. Without the condition two transmissions can run ([session_connect_race]). *)
Theorem session_single_writer s :
  orderly s ->
  length (writers (pending s)) = (if tx_running_flag s then 1 else 0)%nat /\
  (forall bs, TWrite bs ∈ pending s -> exists rest, tx_queue_sent s = rest ++ bs) /\
  (forall token, TConnect token ∈ pending s -> tx_running_flag s = false /\ is_connected_flag (base s) = false).
Proof.
  intros Ho. assert (W : writing_ok s /\ phased [] s).
  { induction Ho as [|ev s s' _ [IH1 IH2] Ha Hs]; [split; [by apply idle_writing|split; [done|cbn; lia]]|by eapply step_writing]. }
  destruct W as [W P]. split; [apply W|]. split.
  - intros bs Hb. by destruct (wr_alive _ W bs Hb) as [rest ->]; exists rest.
  - intros token (p1 & p2 & Hp)%list_elem_of_split.
    destruct (connecting_idle _ _ (taken_phased _ _ _ _ Hp P)) as (_ & _ & Hn & _ & Hc & _).
    cbn [set_pending pending base] in *. split; [|done].
    pose proof (wr_one _ W) as H1. rewrite <- count_writers, Hp, count_take, count_app, Hn in H1.
    destruct (tx_running_flag s); [done|done].
Qed.

(** ** What never goes back *)

Definition bytes_of (q : list buffer) : list Z := concat (data_view <$> q).

(** The bytes handed to the transport, and then those of the queued frames. *)
Definition wire (s : session) : list Z := bytes_of (written s) ++ bytes_of (tx_command_queue (base s)).

#[local] Instance is_read_dec t : Decision (t = TRead).
Proof. destruct t; (by left) || (by right). Defined.
Definition reads (p : list task) : list task := filter (fun t => t = TRead) p.

Record onward (s s' : session) : Prop := {
  on_wire : wire s `prefix_of` wire s';
  on_connected_flag : is_connected_flag (base s) = true -> is_connected_flag (base s') = true;
  on_disconnect_flag : start_disconnect_flag (base s) = true -> start_disconnect_flag (base s') = true;
  on_reads : start_disconnect_flag (base s) = true -> (length (reads (pending s')) <= length (reads (pending s)))%nat;
}.

#[local] Instance onward_preorder : PreOrder onward.
Proof.
  split; [by intros s; split|].
  intros s1 s2 s3 [A1 A2 A3 A4] [B1 B2 B3 B4]. split; [by etransitivity|auto|auto|].
  intros Hd. etransitivity; [apply B4|apply A4]; auto.
Qed.

Lemma bytes_of_app q q' : bytes_of (q ++ q') = bytes_of q ++ bytes_of q'.
Proof. unfold bytes_of. by rewrite fmap_app, concat_app. Qed.

Lemma bytes_of_prefix q q' : q `prefix_of` q' -> bytes_of q `prefix_of` bytes_of q'.
Proof. intros [k ->]. rewrite bytes_of_app. by apply prefix_app_r. Qed.

Lemma settled_onward s s' : settled s s' -> onward s s'.
Proof.
  intros Hs. split.
  - unfold wire. by rewrite (st_written _ _ Hs), (st_queue _ _ Hs).
  - apply Hs.
  - by rewrite (st_disconnect _ _ Hs).
  - intros _. destruct (st_pending _ _ Hs) as [[_ ->]|(_ & _ & ->)]; [done|].
    unfold reads. rewrite filter_app, length_app. simpl. lia.
Qed.

Lemma base_onward c s : steady (base s) c -> onward s (set_base c s).
Proof. intros [H1 H2 H3]. split; [|done..]. by apply prefix_app, bytes_of_prefix. Qed.

Lemma settle_onward c s : steady (base s) c -> onward s (settle (set_base c s)).
Proof. intros Hc. transitivity (set_base c s); [by apply base_onward|apply settled_onward, settle_settled]. Qed.

Lemma start_onward t s : t <> TRead -> onward s (start t s).
Proof.
  intros Ht. split; [done..|]. intros _. cbn [start set_pending pending]. unfold reads.
  rewrite filter_app, length_app, filter_cons_False by done. simpl. lia.
Qed.

Lemma init_read_onward s : onward s (init_read s).
Proof. unfold init_read. destruct (start_disconnect_flag (base s)) eqn:E; [done|]. split; try done. congruence. Qed.

Lemma take_onward p1 t p2 s : pending s = p1 ++ t :: p2 -> onward s (set_pending (p1 ++ p2) s).
Proof.
  intros Hp. split; [done..|]. intros _. cbn [set_pending pending]. rewrite Hp. unfold reads.
  rewrite !filter_app, !length_app, filter_cons. destruct (decide _); simpl; lia.
Qed.

Lemma on_connected_onward token ec s : onward s (on_connected token ec s).
Proof.
  unfold on_connected. destruct (failed ec); [by split|].
  set (s1 := set_error NoError (set_tx_flags false false s)).
  transitivity s1; [by split|]. set (s2 := set_base (write_initial_frames fresh (base s1)) s1).
  transitivity s2; [apply base_onward; split; [by apply prefix_app_r|done..]|].
  transitivity (init_read s2); [apply init_read_onward|].
  destruct (initiate_sync_settings _ _ _ _) eqn:Es; [|by split|done..].
  by eapply settle_onward, quiet_steady, initiate_sync_settings_quiet.
Qed.

Lemma on_data_read_onward ec chunk s s' : on_data_read ec chunk s = Ok s' -> onward s s'.
Proof.
  unfold on_data_read. destruct (negb (failed ec)).
  - intros Hr. apply outcome_bind_ok in Hr as ([b c] & Hb & [= <-]).
    etransitivity; [|apply init_read_onward]. apply on_read_steady in Hb.
    transitivity (settle (set_base c s)); [by apply settle_onward|].
    destruct (_ <? min_size); [by split|].
    transitivity (init_write (settle (set_base c s))); [apply settled_onward, init_write_settled|by split].
  - destruct (negb _); intros [= <-]; [by split|done].
Qed.

Lemma transmit_onward s s' : transmit s = Ok s' -> onward s s'.
Proof.
  unfold transmit. intros Hr. apply outcome_bind_ok in Hr as ([c q] & Hg & Hr).
  destruct (get_tx_data_queue _ _ _ _ Hg) as (H1 & H2 & H3 & _).
  pose proof (settle_settled (set_base c s)) as Hs. set (s1 := settle (set_base c s)) in *.
  pose proof (settled_onward _ _ Hs) as [_ O2 O3 O4]. cbn [base set_base pending] in O2, O3, O4. rewrite H1 in O2. rewrite H2 in O3, O4.
  assert (Hw : wire s `prefix_of` bytes_of (written s1 ++ q) ++ bytes_of (tx_command_queue (base s1))).
  { rewrite (st_written _ _ Hs), (st_queue _ _ Hs), bytes_of_app, <- app_assoc, <- bytes_of_app.
    by apply prefix_app, bytes_of_prefix. }
  destruct q as [|b q].
  - rewrite app_nil_r in Hw. assert (O : onward s (set_tx_flags false (tx_routine_done s1) s1)) by (by split).
    destruct (start_disconnect_flag _); injection Hr as <-; [|done]. etransitivity; [exact O|].
    unfold check_shutdown. cbn [tx_routine_done set_tx_flags].
    etransitivity; [|by apply start_onward]. by split.
  - injection Hr as <-. etransitivity; [|by apply start_onward]. by split.
Qed.

Lemma on_disconnected_onward s s' : on_disconnected s = Ok s' -> onward s s'.
Proof.
  unfold on_disconnected. intros Hr. apply outcome_bind_ok in Hr as (c & Hc & Hr).
  transitivity (settle (set_base c s)).
  { apply settle_onward. unfold cleanup_after_disconnect in Hc. apply outcome_bind_ok in Hc as ([r eff] & _ & [= <-]). by split. }
  destruct (shutdown_handler _); destruct (disconnect_handler _); injection Hr as <-; by split.
Qed.

Lemma event_onward ev s s' : run_event ev s = Ok s' -> onward s s'.
Proof.
  intros Hr. destruct ev; cbn [run_event] in Hr.
  - injection Hr as <-. by transitivity (set_shutdown (Some h) s); [split|apply start_onward].
  - injection Hr as <-. eapply settle_onward, quiet_steady, initiate_disconnect_quiet.
  - apply outcome_bind_ok in Hr as (c & Hc & [= <-]). apply settle_onward. unfold initiate_send in Hc.
    destruct (negb _); [done|]. destruct (get_next_stream_id _) as [c1 id] eqn:E. injection E as <- <-.
    destruct (new_stream _ _). injection Hc as <-. by split.
  - apply outcome_bind_ok in Hr as (c & Hc & [= <-]). apply settle_onward. unfold initiate_ping in Hc.
    destruct (negb _); [done|]. destruct (ping_handler _); [done|]. injection Hc as <-.
    split; [by apply prefix_app_r|done..].
  - injection Hr as <-. eapply settle_onward, quiet_steady, on_settings_timer_quiet.
  - injection Hr as <-. unfold on_stream_timer. destruct (_ !! _); [|done]. destruct (Stream.on_timer _ _ _).
    apply settle_onward. by split.
  - injection Hr as <-. unfold co_init. destruct (is_connected_flag (base s)) eqn:E1; [by split|].
    destruct (start_connecting_flag (base s)); [by split|].
    transitivity (set_connecting s); [by split|by apply start_onward].
  - injection Hr as <-. apply on_connected_onward.
  - by eapply on_data_read_onward.
  - by apply transmit_onward.
  - injection Hr as <-. unfold on_data_write. destruct (negb (failed ec)).
    + etransitivity; [|apply settled_onward, init_write_settled]. by split.
    + destruct (negb _); by split.
  - by apply on_disconnected_onward.
Qed.

Lemma step_onward ev s s' : session_step ev s s' -> onward s s'.
Proof.
  intros [ev0 s0 s1 _ Hr|ev0 t p1 p2 s0 s1 _ Hp Hr]; [by eapply event_onward|].
  etransitivity; [by eapply take_onward|by eapply event_onward].
Qed.

(** ** The connection preface *)

(** RFC 7540 3.5, with the settings of the client. *)
Definition preface : list Z :=
  preambula ++ rfc_frame 4 0 0 ([(1, 4096); (2, 0); (3, 100); (4, 65535); (5, 16384); (6, 2 ^ 32 - 1)]
    ≫= SettingsManager.rfc_param).

Lemma preface_frames :
  bytes_of [(commit_span preambula (buffer_new fresh (Z.of_nat (length preambula)))).1;
    settings_frame fresh (SettingsManager.settings_items default_settings)] = preface.
Proof.
  unfold bytes_of. cbn [fmap list_fmap concat]. rewrite copied_buffer, app_nil_r. unfold preface.
  rewrite settings_bytes by (cbn; lia). reflexivity.
Qed.

(** Nothing has happened but attempts to connect. *)
Record unopened (s : session) : Prop := {
  un_pending : Forall (fun t => exists token, t = TInit token \/ t = TConnect token) (pending s);
  un_store : store (registry (base s)) = [];
  un_settings : SettingsManager.settings_handler (settings (base s)) = None;
  un_queue : tx_command_queue (base s) = [];
  un_written : written s = [];
  un_connected : is_connected_flag (base s) = false;
  un_log : log (base s) = [];
}.

Lemma unopened_same s s' :
  base s' = base s -> written s' = written s ->
  Forall (fun t => exists token, t = TInit token \/ t = TConnect token) (pending s') -> unopened s -> unopened s'.
Proof. intros H1 H2 H3 [U1 U2 U3 U4 U5 U6 U7]. split; rewrite ?H1, ?H2; done. Qed.

Lemma unopened_start token t s : t = TInit token \/ t = TConnect token -> unopened s -> unopened (start t s).
Proof.
  intros Ht Hu. eapply unopened_same, Hu; [done..|]. cbn [start set_pending pending].
  apply Forall_app. split; [apply Hu|]. repeat constructor. eauto.
Qed.

Lemma settle_nothing s : log (base s) = [] -> settle s = s.
Proof. intros Hl. unfold settle. rewrite Hl. destruct s as [[]]. simpl in *. by subst. Qed.

(** The transport connects for the first time. *)
Lemma on_connected_opens token ec s :
  unopened s -> unopened (on_connected token ec s) \/ wire (on_connected token ec s) = preface.
Proof.
  intros Hu. unfold on_connected. destruct (failed ec); [left; eapply unopened_same, Hu; [done..|apply Hu]|]. right.
  set (s1 := set_base _ _). set (s2 := init_read s1).
  assert (E : base s2 = base s1 /\ written s2 = []).
  { unfold s2, init_read. destruct (start_disconnect_flag (base s1)); split; (done || apply Hu). }
  destruct E as [E1 E2]. rewrite E1. unfold initiate_sync_settings, SettingsManager.initiate_sync_settings.
  change (settings (base s1)) with (settings (base s)).
  rewrite (un_settings _ Hu). cbn [mbind outcome_bind].
  match goal with |- wire (settle ?x) = _ => pose proof (settle_settled x) as Hs; set (s3 := x) in * end.
  unfold wire. rewrite (st_written _ _ Hs), (st_queue _ _ Hs). change (written s3) with (written s2). rewrite E2.
  unfold s3. cbn -[commit_span settings_frame bytes_of preambula]. rewrite (un_queue _ Hu). cbn [app]. apply preface_frames.
Qed.

Lemma unopened_event ev s s' :
  match completes ev with Some t => exists token, t = TInit token \/ t = TConnect token | None => True end ->
  allowed ev s -> run_event ev s = Ok s' -> unopened s -> unopened s' \/ wire s' = preface.
Proof.
  intros Hc Ha Hr Hu. destruct ev; cbn [run_event completes] in *;
    try (lazymatch type of Hc with ex _ => by destruct Hc as (? & [?|?]) end).
  - injection Hr as <-. left. eapply (unopened_start token); [by left|]. eapply unopened_same, Hu; [done..|apply Hu].
  - cbn in Ha. rewrite (un_connected _ Hu) in Ha. done.
  - unfold async_send, initiate_send in Hr. by rewrite (un_connected _ Hu) in Hr.
  - unfold async_ping, initiate_ping in Hr. by rewrite (un_connected _ Hu) in Hr.
  - injection Hr as <-. left. unfold on_settings_timer, SettingsManager.on_timer, SettingsManager.finished.
    rewrite (un_settings _ Hu). destruct (decide _); cbn [run_settings];
      (rewrite settle_nothing; [|cbn; apply Hu]); destruct Hu; by split.
  - injection Hr as <-. left. unfold on_stream_timer. by rewrite (un_store _ Hu).
  - injection Hr as <-. left. unfold co_init. rewrite (un_connected _ Hu). destruct (start_connecting_flag (base s)).
    + eapply unopened_same, Hu; [done..|apply Hu].
    + apply (unopened_start token); [by right|]. destruct Hu. by split.
  - injection Hr as <-. by apply on_connected_opens.
Qed.

Lemma orderly_opened s : orderly s -> unopened s \/ preface `prefix_of` wire s.
Proof.
  intros Ho. induction Ho as [|ev s s' _ IH Ha Hs].
  { left. split; try done. }
  destruct IH as [Hu|Hp]; [|right; transitivity (wire s); [done|apply (step_onward _ _ _ Hs)]].
  assert (H' : unopened s' \/ wire s' = preface); [|destruct H' as [H'|H']; [by left|right; by rewrite H']].
  destruct Hs as [ev s s' Hc Hr|ev t p1 p2 s s' Hc Hp Hr].
  - eapply unopened_event; [|done..]. by rewrite Hc.
  - pose proof (un_pending _ Hu) as Hf. rewrite Hp in Hf. apply Forall_app in Hf as [Hf1 Hf2].
    apply Forall_cons in Hf2 as [Ht Hf2].
    eapply (unopened_event ev); [by rewrite Hc| |exact Hr|].
    + by destruct ev.
    + eapply unopened_same, Hu; [done..|]. by apply Forall_app.
Qed.

(** C15: The bytes of a connection start with the connection preface of RFC 7540 3.5: the magic string and a
    SETTINGS frame with the settings of the client. In every state of a session whose user calls [async_disconnect]
    only when it is connected, what has been handed to the transport is a beginning of the preface, or goes on after it.
    A session that is disconnected while it connects writes a GOAWAY frame first ([session_connect_race]). *)
Theorem session_preface s :
  orderly s -> bytes_of (written s) `prefix_of` preface \/ preface `prefix_of` bytes_of (written s).
Proof.
  intros [Hu|Hp]%orderly_opened.
  - left. rewrite (un_written _ Hu). apply prefix_nil.
  - unfold wire in Hp. eapply prefix_weak_total; [|exact Hp]. by apply prefix_app_r.
Qed.

(** C40: A session can be used once. When it is connected, it stays marked as connected for ever, so that every later
    attempt to connect ends with [already_connected]; and once a disconnection or an error has
    marked it as disconnecting, the mark is never taken back and no read is started any more,
    so that a new connection would never receive anything. *)
Theorem session_single_use s s' token :
  rtc (fun s s' => exists ev, session_step ev s s') s s' ->
  (is_connected_flag (base s) = true -> co_init token s' = notify (Connected token (AsioError already_connected)) s') /\
  (start_disconnect_flag (base s) = true ->
    start_disconnect_flag (base s') = true /\ (length (reads (pending s')) <= length (reads (pending s)))%nat /\
    init_read s' = s').
Proof.
  intros Hr. assert (O : onward s s').
  { induction Hr as [|s1 s2 s3 [ev H12] _ IH]; [done|]. by transitivity s2; [eapply step_onward|]. }
  split.
  - intros Hc. unfold co_init. by rewrite (on_connected_flag _ _ O Hc).
  - intros Hd. pose proof (on_disconnect_flag _ _ O Hd) as Hd'. split; [done|]. split; [by apply O|].
    unfold init_read. by rewrite Hd'.
Qed.

(** ** Losing the connection *)

Definition user_event (ev : event) : bool :=
  match ev with EConnect _ _ | EDisconnect _ | ESend _ _ | EPing _ => true | _ => false end.

(** The calls of the handler given to [async_connect]. *)
Definition shutdowns (l : list notice) : list (U * boost_error) :=
  omap (fun n => match n with Shutdown h ec => Some (h, ec) | _ => None end) l.

Record dead (s s' : session) : Prop := {
  dead_pending : pending s' = [];
  dead_log : log (base s') = [];
  dead_shutdowns : shutdowns (notices s') = shutdowns (notices s);
  dead_flag : start_disconnect_flag (base s') = true;
}.

Lemma perform_no_write a s :
  a <> InitWrite ->
  pending (perform s a) = pending s /\ log (base (perform s a)) = log (base s) /\
  shutdowns (notices (perform s a)) = shutdowns (notices s).
Proof.
  assert (Hn : forall n s, (forall h ec, n <> Shutdown h ec) -> shutdowns (notices (notify n s)) = shutdowns (notices s)).
  { intros n s0 Hn. unfold shutdowns. cbn [notices notify]. rewrite omap_app. cbn [omap list_omap].
    destruct n; try (by rewrite app_nil_r). by destruct (Hn h ec). }
  intros Ha. destruct a as [| | |h ec| |]; try done; try (split_and!; [done..|by apply Hn]).
  destruct h as [u|token]; cbn [perform]; [split_and!; [done..|by apply Hn]|].
  unfold resume_init. destruct (failed ec); (split_and!; [done..|]); [by apply Hn|].
  by apply (Hn (Connected token NoError) (set_error NoError (set_connected s))).
Qed.

Lemma settle_no_write s :
  InitWrite ∉ log (base s) ->
  pending (settle s) = pending s /\ log (base (settle s)) = [] /\
  shutdowns (notices (settle s)) = shutdowns (notices s).
Proof.
  intros Hl. unfold settle. cut (forall l s0, InitWrite ∉ l -> pending (foldl perform s0 l) = pending s0 /\
    log (base (foldl perform s0 l)) = log (base s0) /\
    shutdowns (notices (foldl perform s0 l)) = shutdowns (notices s0)).
  { intros Hc. by destruct (Hc (log (base s)) (set_base (clear_log (base s)) s) Hl) as (-> & -> & ->). }
  clear. induction l as [|a l IH]; intros s Hl; [done|]. apply not_elem_of_cons in Hl as [Ha Hl].
  cbn [foldl]. destruct (IH (perform s a) Hl) as (-> & -> & ->). by apply perform_no_write.
Qed.

Lemma dead_step ev s0 s s' : user_event ev = false -> session_step ev s s' -> dead s0 s -> dead s0 s'.
Proof.
  intros Hu Hs [D1 D2 D3 D4]. pose proof (on_disconnect_flag _ _ (step_onward _ _ _ Hs) D4) as Hd.
  destruct Hs as [ev s s' Hc Hr|ev t p1 p2 s s' Hc Hp Hr].
  2: { rewrite D1 in Hp. by destruct p1. }
  cut (s' = s \/ exists c, (InitWrite ∉ log c) /\ s' = settle (set_base c s)).
  { intros [->|(c & Hl & ->)]; [by split|]. destruct (settle_no_write (set_base c s) Hl) as (E1 & E2 & E3).
    split; [by rewrite E1|done|by rewrite E3|done]. }
  destruct ev; try done; cbn [run_event] in Hr; injection Hr as <-.
  - right. eexists. split; [|reflexivity]. unfold on_settings_timer, SettingsManager.on_timer, SettingsManager.finished.
    destruct (decide _); [cbn; rewrite D2; apply not_elem_of_nil|].
    destruct (SettingsManager.settings_handler _) as [h|]; cbn [run_settings]; [|cbn; rewrite D2; apply not_elem_of_nil].
    rewrite on_settings_synced_failed by done. cbn [log emit set_settings]. rewrite D2. cbn [app].
    by intros Hi%list_elem_of_singleton.
  - unfold on_stream_timer. destruct (_ !! p) as [x|]; [|by left].
    destruct (Stream.on_timer _ _ _) as [x' eff]. right. eexists. split; [|reflexivity].
    cbn [log emit set_registry]. rewrite D2. cbn [app]. intros (e & He & _)%list_elem_of_fmap. done.
Qed.

(** C39: A lost connection is not reported. When the last pending operation of a session is a read or a write and it
    fails, the session is marked as disconnecting, but nothing is pending any more: unless the user
    starts another operation, the shutdown handler is never called, whatever timers expire. *)
Theorem session_connection_lost s s1 s2 ev t ec chunk bs :
  (ev = EReadDone ec chunk \/ ev = EWriteDone bs ec) -> failed ec = true ->
  pending s = [t] -> log (base s) = [] -> session_step ev s s1 ->
  rtc (fun a b => exists ev, user_event ev = false /\ session_step ev a b) s1 s2 ->
  start_disconnect_flag (base s2) = true /\ pending s2 = [] /\ shutdowns (notices s2) = shutdowns (notices s).
Proof.
  intros Hev Hf Hp Hl Hs Hr. assert (Hd : dead s s1).
  { destruct Hs as [ev s s1 Hc _|ev t' p1 p2 s s1 Hc Hp' He]; [by destruct Hev as [->| ->]|].
    assert (Hpp : p1 ++ p2 = []).
    { rewrite Hp' in Hp. destruct p1 as [|x p1]; [by injection Hp|]. injection Hp as _ Hp. by destruct p1. }
    rewrite Hpp in He. destruct Hev as [->| ->]; cbn [run_event] in He.
    - unfold on_data_read in He. rewrite Hf in He. cbn [negb base set_pending] in He.
      destruct (start_disconnect_flag (base s)) eqn:Ed; cbn [negb] in He; injection He as <-; by split.
    - injection He as <-. unfold on_data_write. rewrite Hf. cbn [negb base set_pending].
      destruct (start_disconnect_flag (base s)) eqn:Ed; cbn [negb]; by split. }
  assert (Hd2 : dead s s2).
  { clear Hs. induction Hr as [|a b c [ev' [Hu Hab]] _ IH]; [done|]. apply IH. by eapply dead_step. }
  by destruct Hd2.
Qed.

(** ** Disconnecting *)

Inductive run : list event -> session -> session -> Prop :=
| RunNil s : run [] s s
| RunCons ev evs s s1 s2 : session_step ev s s1 -> run evs s1 s2 -> run (ev :: evs) s s2.

Lemma run_completion ev t evs p s s' s2 :
  completes ev = Some t -> pending s = p ++ [t] -> run_event ev (set_pending p s) = Ok s' -> run evs s' s2 ->
  run (ev :: evs) s s2.
Proof.
  intros Hc Hp He Hr. eapply RunCons; [|exact Hr]. apply (Completion ev t p []); [done|done|by rewrite app_nil_r].
Qed.

(** A log of calls of streams' handlers only. *)
Definition stream_action (x : ptr * effect handler) : action handler := let '(p, e) := x in StreamEffect p e.

Definition add_notices (l : list notice) (s : session) : session :=
  Session (base s) (input_buffer s) (tx_running_flag s) (tx_routine_done s) (tx_queue_sent s) (shutdown_handler s)
    (pending s) (notices s ++ l) (written s).

Lemma settle_effects s eff :
  log (base s) = map stream_action eff ->
  settle s = add_notices (map (fun x => ClientAction (stream_action x)) eff) (set_base (clear_log (base s)) s).
Proof.
  intros Hl. unfold settle. rewrite Hl. generalize (set_base (clear_log (base s)) s). clear Hl s.
  induction eff as [|[p e] eff IH]; intros s; cbn [map foldl].
  - unfold add_notices. rewrite app_nil_r. by destruct s.
  - rewrite IH. unfold add_notices. cbn. by rewrite <- app_assoc.
Qed.

Lemma on_disconnected_spec s h d r eff :
  let ec := connection_error_code (base s) in
  shutdown_handler s = Some h -> disconnect_handler (base s) = Some d -> log (base s) = [] ->
  reset_registry moved_response ec (registry (base s)) = Ok (r, eff) ->
  exists s', on_disconnected s = Ok s' /\ pending s' = pending s /\ written s' = written s /\ registry (base s') = r /\
    notices s' = notices s ++ map (fun x => ClientAction (stream_action x)) eff ++
      [Shutdown h ec; ClientAction (CallDisconnect d)].
Proof.
  intros ec Hh Hd Hl Hr. unfold on_disconnected, cleanup_after_disconnect. fold ec. rewrite Hr. cbn [mbind outcome_bind].
  rewrite (settle_effects _ eff).
  - cbn [add_notices shutdown_handler set_base base]. rewrite Hh.
    match goal with |- context [match ?x with Some _ => _ | None => _ end] =>
      change x with (disconnect_handler (base s)) end.
    rewrite Hd.
    eexists. split; [reflexivity|]. cbn. by rewrite <- !app_assoc.
  - cbn [base set_base log set_flags emit set_registry]. by rewrite Hl.
Qed.

(** The last frames of a session that is being disconnected are written, then the transport is closed. *)
Lemma last_frames s frame p :
  let c := base s in
  tx_command_queue c = [frame] -> queue (registry c) = [] -> log c = [] -> start_disconnect_flag c = true ->
  tx_running_flag s = true -> pending s = p ++ [TTransmit] -> fits 64 (server_window_size c) ->
  frame_bytes_total [frame] <= server_window_size c ->
  exists s', (forall evs s2, run evs s' s2 -> run (ETransmit :: EWriteDone [frame] NoError :: ETransmit :: evs) s s2) /\
    pending s' = p ++ [TDisconnect] /\ written s' = written s ++ [frame] /\ notices s' = notices s /\
    shutdown_handler s' = shutdown_handler s /\ log (base s') = [] /\ registry (base s') = registry c /\
    disconnect_handler (base s') = disconnect_handler c /\ connection_error_code (base s') = connection_error_code c.
Proof.
  intros c Hq Hrq Hl Hd Hrun Hp Hw Ht. subst c.
  destruct s as [[d e m reg lw sw q o ph cf nf df er dh lg] inp rn dn snt sd pe no wr].
  cbn [base start_disconnect_flag tx_running_flag log tx_command_queue registry server_window_size pending] in *. subst.
  pose proof (get_tx_data_idle fresh (BaseClient d e m reg lw sw [frame] o ph cf nf true er dh []) Hw Hrq Ht) as Hg1.
  cbn [server_window_size tx_command_queue] in Hg1. set (sw' := sw - frame_bytes_total [frame]) in *.
  assert (Hf' : fits 64 sw') by (unfold sw', fits, frame_bytes_total in *; lia).
  pose proof (get_tx_data_idle fresh (BaseClient d e m reg lw sw' [] o ph cf nf true er dh []) Hf' Hrq ltac:(by destruct Hf')) as Hg2.
  cbn [server_window_size tx_command_queue] in Hg2.
  pose (st window q running done sent pe w :=
    Session (BaseClient d e m reg lw window q o ph cf nf true er dh []) inp running done sent sd pe no w).
  change (Session _ _ _ _ _ _ _ _ _) with (st sw [frame] true dn snt (p ++ [TTransmit]) wr).
  exists (st sw' [] false true [] (p ++ [TDisconnect]) (wr ++ [frame])). split; [|done].
  intros evs s2 Hr.
  apply (run_completion ETransmit TTransmit _ p _ (st sw' [] true dn (snt ++ [frame]) (p ++ [TWrite [frame]]) (wr ++ [frame])));
    [reflexivity|reflexivity| |].
  { cbn [run_event]. unfold transmit, st. cbn [base set_pending]. rewrite Hg1. reflexivity. }
  apply (run_completion (EWriteDone [frame] NoError) (TWrite [frame]) _ p _
    (st sw' [] true dn [] (p ++ [TTransmit]) (wr ++ [frame]))); [reflexivity|reflexivity|reflexivity|].
  apply (run_completion ETransmit TTransmit _ p _ (st sw' [] false true [] (p ++ [TDisconnect]) (wr ++ [frame])));
    [reflexivity|reflexivity| |exact Hr].
  cbn [run_event]. unfold transmit, st. cbn [base set_pending]. rewrite Hg2. rewrite Z.sub_0_r. reflexivity.
Qed.

(** C21: Disconnecting an idle session. After the request of the user, a GOAWAY frame is written; when the transport has
    written it, the transport is closed; when that is done, every request that is still open is completed, in the
    order of the identifiers, each with one call of its own handler without an error and with what has been received of its
    response; then the shutdown handler is called without an error and then the handler of the request to disconnect, each
    once. No stream is left, and no handler of a stream. (The registry satisfies its invariant, as it does in every reachable
    state of a client, and the window of the peer has room for the GOAWAY frame.) *)
Theorem session_disconnect s u h :
  let c := base s in
  start_disconnect_flag c = false -> SettingsManager.settings_handler (settings c) = None ->
  tx_running_flag s = false -> log c = [] -> tx_command_queue c = [] -> queue (registry c) = [] ->
  17 <= server_window_size c < 2 ^ 64 -> shutdown_handler s = Some h ->
  rg_inv (stream_map (registry c)) (queue (registry c)) (store (registry c)) ->
  let frame := goaway fresh IS_OK 1 [] in
  exists s', run [EDisconnect u; ETransmit; EWriteDone [frame] NoError; ETransmit; EDisconnected] s s' /\
    pending s' = pending s /\ written s' = written s ++ [frame] /\
    stream_map (registry (base s')) = [] /\
    (forall id p, get_stream id (registry c) = Some p ->
      exists x, store (registry (base s')) !! p = Some x /\ http_state x = CLOSED /\ respone_handler x = None) /\
    notices s' = notices s ++ [ClientAction (SettingsTimer SettingsManager.CancelTimer)] ++
      (stream_map (registry c) ≫= fun '(_, p) =>
        match store (registry c) !! p with
        | Some x => ClientAction (StreamEffect p CancelTimer) ::
            match respone_handler x with
            | Some k => [ClientAction (StreamEffect p (Invoke k NoError (m_response x)))]
            | None => []
            end
        | None => []
        end) ++
      [Shutdown h NoError; ClientAction (CallDisconnect (User u))].
Proof.
  intros c Hd Hh Hrun Hl Hq Hrq Hw Hsh Hi frame.
  destruct (reset_registry_spec moved_response NoError (registry c) Hi) as (r & Hr & Hmap & _ & Hclosed). clear Hi.
  assert (Hft : frame_bytes_total [frame] = 17).
  { unfold frame_bytes_total. cbn [fmap list_fmap concat]. rewrite app_nil_r. unfold frame.
    by rewrite goaway_bytes. }
  assert (H1 : exists s1, async_disconnect u s = s1 /\ tx_command_queue (base s1) = [frame] /\
    registry (base s1) = registry c /\ log (base s1) = [] /\ start_disconnect_flag (base s1) = true /\
    tx_running_flag s1 = true /\ pending s1 = pending s ++ [TTransmit] /\
    server_window_size (base s1) = server_window_size c /\ written s1 = written s /\
    notices s1 = notices s ++ [ClientAction (SettingsTimer SettingsManager.CancelTimer)] /\
    shutdown_handler s1 = Some h /\ disconnect_handler (base s1) = Some (User u) /\
    connection_error_code (base s1) = NoError).
  { clear Hr Hrq Hw Hmap Hclosed. unfold async_disconnect, initiate_disconnect. fold frame. clearbody frame. subst c.
    destruct s as [[d e [ls rs nr la rg sh'] reg lw sw q o ph cf nf df er dh lg] inp rn dn snt sd pe no wr].
    cbn [base start_disconnect_flag tx_running_flag log tx_command_queue settings SettingsManager.settings_handler
      shutdown_handler] in *. subst. eexists. split; [reflexivity|]. done. }
  destruct H1 as (s1 & E1 & Q1 & Q2 & Q3 & Q4 & Q5 & Q6 & Q7 & Q8 & Q9 & Q10 & Q11 & Q12).
  destruct (last_frames s1 frame (pending s)) as (s2 & R2 & P1 & P2 & P3 & P4 & P5 & P6 & P7 & P8);
    try done; [by rewrite Q2|rewrite Q7; split; lia|rewrite Q7, Hft; lia|].
  destruct (on_disconnected_spec (set_pending (pending s) s2) h (User u) r
    (stream_map (registry c) ≫= (fun kp => reset_calls NoError (store (registry c)) kp.2))) as (s' & Hds & Hp & Hwr & Hreg & Hn);
    cbn [set_pending base shutdown_handler]; [congruence|congruence|done|rewrite P6, Q2, P8, Q12; exact Hr|].
  exists s'. split_and!.
  - eapply RunCons; [apply Spontaneous; [reflexivity|cbn [run_event]; by rewrite E1]|]. apply R2.
    eapply (run_completion EDisconnected TDisconnect); [reflexivity|exact P1|exact Hds|apply RunNil].
  - by rewrite Hp.
  - rewrite Hwr. cbn [set_pending written]. by rewrite P2, Q8.
  - by rewrite Hreg.
  - by rewrite Hreg.
  - rewrite Hn. cbn [set_pending notices base]. rewrite P3, Q9, P8, Q12, <- app_assoc. do 3 f_equal.
    generalize (stream_map (registry c)). intros m. induction m as [|[id p] m IH]; [done|].
    rewrite !bind_cons, map_app, IH. f_equal. unfold reset_calls. cbn [snd].
    destruct (store (registry c) !! p) as [x|]; [|done]. by destruct (respone_handler x).
Qed.
End session.
Arguments session : clear implicits.
Arguments handler : clear implicits.
Arguments task : clear implicits.
Arguments notice : clear implicits.
Arguments event : clear implicits.

(** ** Examples *)

Section examples.
#[local] Existing Instance IndexedDynamicTable.linear_search.
#[local] Abbreviation fresh := (fun _ : Z => 7).
#[local] Abbreviation heap := (fun _ : Z => 0).
#[local] Abbreviation moved := (fun r : response => r).
#[local] Abbreviation steps := (run fresh heap 0 moved).
#[local] Abbreviation good := (orderly fresh heap 0 moved).
#[local] Abbreviation new := (new_session (U := nat) fresh).

(** The session when a task completes, and the frames of a connection attempt. *)
Definition after (ev : event nat) (p : list (task nat)) (s : session nat) : session nat :=
  match run_event fresh heap 0 moved ev (set_pending p s) with Ok s' => s' | _ => s end.
Definition asked : session nat := async_connect 1%nat 2%nat new.
Definition connecting : session nat := after (ERun 2%nat) [] asked.
Definition opened : session nat := after (EConnected 2%nat NoError) [] connecting.
Definition first_write : list buffer := (tx_command_queue (base opened)).
Definition writing : session nat := after ETransmit [TRead] opened.

Lemma asked_good : good asked.
Proof. eapply (OrderlyStep _ _ _ _ (EConnect 1%nat 2%nat)); [apply OrderlyNew|done|]. by apply Spontaneous. Qed.
Lemma connecting_good : good connecting.
Proof.
  eapply (OrderlyStep _ _ _ _ (ERun 2%nat)); [exact asked_good|done|].
  apply (Completion _ _ _ _ _ (TInit 2%nat) [] []); by vm_compute.
Qed.
Lemma opened_good : good opened.
Proof.
  eapply (OrderlyStep _ _ _ _ (EConnected 2%nat NoError)); [exact connecting_good|done|].
  apply (Completion _ _ _ _ _ (TConnect 2%nat) [] []); by vm_compute.
Qed.
Lemma writing_good : good writing.
Proof.
  eapply (OrderlyStep _ _ _ _ ETransmit); [exact opened_good|done|].
  apply (Completion _ _ _ _ _ TTransmit [TRead] []); by vm_compute.
Qed.

Lemma session_single_writer_witness :
  length (writers (pending writing)) = 1%nat /\ exists rest, tx_queue_sent writing = rest ++ first_write.
Proof.
  destruct (session_single_writer fresh heap 0 moved writing writing_good) as (H1 & H2 & _).
  split; [exact H1|]. apply H2. vm_compute. apply elem_of_cons. right. by apply list_elem_of_singleton.
Defined.

Lemma session_preface_witness : preface `prefix_of` bytes_of (written writing).
Proof.
  destruct (session_preface fresh heap 0 moved writing writing_good) as [[k Hk]|Hp]; [|exact Hp].
  apply (f_equal (@length Z)) in Hk. vm_compute in Hk. exists []. vm_compute. reflexivity.
Defined.

(** A connected session with a read pending, and one that has been told to disconnect. *)
Definition idle : session nat := set_shutdown (Some 1%nat) (set_pending [TRead] (set_connected new)).
Definition leaving : session nat := async_disconnect fresh 5%nat idle.

Lemma session_single_use_witness :
  co_init 9%nat (async_connect 3%nat 9%nat leaving) =
    notify (Connected 9%nat (AsioError already_connected)) (async_connect 3%nat 9%nat leaving) /\
  init_read (async_connect 3%nat 9%nat leaving) = async_connect 3%nat 9%nat leaving.
Proof.
  destruct (session_single_use fresh heap 0 moved leaving (async_connect 3%nat 9%nat leaving) 9%nat) as [H1 H2].
  - apply rtc_once. exists (EConnect 3%nat 9%nat). by apply Spontaneous.
  - split; [by apply H1|]. by destruct (H2 eq_refl) as (_ & _ & H3).
Defined.

(** The peer closes the connection. *)
Definition lost : session nat := after (EReadDone (TransportError 2) []) [] idle.

Lemma session_connection_lost_witness :
  shutdown_handler lost = Some 1%nat /\
  pending (settle (set_base (on_settings_timer fresh NoError (base lost)) lost)) = [] /\
  shutdowns (notices (settle (set_base (on_settings_timer fresh NoError (base lost)) lost))) = [].
Proof.
  split; [reflexivity|].
  destruct (session_connection_lost fresh heap 0 moved idle lost
    (settle (set_base (on_settings_timer fresh NoError (base lost)) lost))
    (EReadDone (TransportError 2) []) TRead (TransportError 2) [] []) as (_ & H1 & H2).
  - by left.
  - reflexivity.
  - reflexivity.
  - reflexivity.
  - by apply (Completion _ _ _ _ _ TRead [] []).
  - apply rtc_once. exists (ESettingsTimer NoError). split; [done|]. by apply Spontaneous.
  - split; [exact H1|exact H2].
Defined.

(** A session that waits for the response of a request. *)
Definition open_request : request := Request [HeaderField (str ":method") (str "GET") DEFAULT] [] [] 0 30000.
Definition sending : session nat :=
  match async_send open_request 7%nat idle with Ok s => s | _ => idle end.
Definition sent : session nat := after ETransmit [TRead] sending.
Definition waiting : session nat :=
  after ETransmit [TRead] (after (EWriteDone (written sent) NoError) [TRead] sent).

Lemma waiting_registry :
  rg_inv (stream_map (registry (base waiting))) (queue (registry (base waiting))) (store (registry (base waiting))).
Proof.
  set (m := stream_map _). set (q := queue _). set (st := store _). vm_compute in m, q, st. subst m q st. split.
  - constructor.
  - intros p Hp. by apply not_elem_of_nil in Hp.
  - apply NoDup_singleton.
  - intros id p [= -> ->]%list_elem_of_singleton. by eexists.
  - intros id p s [= -> ->]%list_elem_of_singleton [= <-]. by vm_compute.
Qed.

Lemma session_disconnect_witness :
  exists s, steps [EDisconnect 5%nat; ETransmit; EWriteDone [goaway fresh IS_OK 1 []] NoError; ETransmit; EDisconnected] waiting s /\
    notices s = notices waiting ++ [ClientAction (SettingsTimer SettingsManager.CancelTimer);
      ClientAction (StreamEffect 0%nat CancelTimer); ClientAction (StreamEffect 0%nat (Invoke (User 7%nat) NoError empty_response));
      Shutdown 1%nat NoError; ClientAction (CallDisconnect (User 5%nat))].
Proof.
  destruct (session_disconnect fresh heap 0 moved waiting 5%nat 1%nat) as (s & H1 & _ & _ & _ & _ & H2);
    [by vm_compute..|by vm_compute|by vm_compute|exact waiting_registry|].
  exists s. split; [exact H1|]. rewrite H2. by vm_compute.
Defined.

(** Disconnecting before the transport has connected breaks the order of writes: when it connects,
    [co_init] clears [tx_running_flag] although a transmission is scheduled, a second one is scheduled
    beside it, and the transport is closed while the first write, with the GOAWAY frame in front of the connection
    preface, is still in progress. *)
Theorem session_connect_race :
  exists s, steps [EConnect 1%nat 2%nat; ERun 2%nat; EDisconnect 5%nat; EConnected 2%nat NoError; ETransmit; ETransmit] new s /\
    exists frames, pending s = [TWrite frames; TDisconnect] /\
      bytes_of frames = data_view (goaway fresh IS_OK 1 []) ++ preface.
Proof.
  pose (s3 := async_disconnect fresh 5%nat connecting).
  pose (s4 := after (EConnected 2%nat NoError) [TTransmit] s3).
  pose (s5 := after ETransmit [TTransmit] s4). pose (s6 := after ETransmit (take 1 (drop 1 (pending s5)) ++ []) s5).
  exists s6. split.
  - eapply RunCons; [by apply (Spontaneous _ _ _ _ (EConnect 1%nat 2%nat))|].
    eapply (RunCons _ _ _ _ _ _ _ connecting); [apply (Completion _ _ _ _ _ (TInit 2%nat) [] []); by vm_compute|].
    eapply (RunCons _ _ _ _ _ _ _ s3); [by apply Spontaneous|].
    eapply (RunCons _ _ _ _ _ _ _ s4); [apply (Completion _ _ _ _ _ (TConnect 2%nat) [] [TTransmit]); by vm_compute|].
    eapply (RunCons _ _ _ _ _ _ _ s5); [apply (Completion _ _ _ _ _ TTransmit [] [TTransmit]); by vm_compute|].
    eapply (RunCons _ _ _ _ _ _ _ s6); [|apply RunNil].
    apply (Completion _ _ _ _ _ TTransmit [] (drop 1 (pending s5))); by vm_compute.
  - eexists. split; vm_compute; reflexivity.
Qed.
End examples.
