(* ===== verification/SessionExchange.v ===== *)
(** * A request and its response over a session (client_session.h)

    The parts together: the user sends a request on a session, the session posts a turn to send, hands the
    frames to the transport and reads what the peer answers, and calls the user's handler. The peer is
    an encoder and a decoder that agree with those of the client, and RFC 7540 frames. *)
From S2P Require Import Prelude Memory Utils Buffer HeaderField Protocol Frame FrameBuilder.
From S2P Require Import Request Response Stream IndexedDynamicTable HpackSync HpackCodec StreamHeaders StreamRegistry.
From S2P Require Import Reassembly BaseClient ClientReading ClientSending ClientUpload ClientReceiving ResponseReading ClientSession.
From S2P Require Streambuf Encoder Decoder Window SettingsManager.
Import Streambuf (contents).

Section exchange.
Context {SS : SetSearch} {U : Type} (fresh : Z -> Z) (heap : Z -> Z) (addr : Z) (moved_response : response -> response).
Context (Hfresh : forall i, is_byte (fresh i)) (Hheap : forall i, is_byte (heap i)).
Context (m : Z -> Z) (Hm : forall x, is_byte (m x)) (a : Z).
Implicit Types s : session U.

#[local] Abbreviation session_run := (run fresh heap addr moved_response).

Lemma session_run_app evs evs' s1 s2 s3 :
  session_run evs s1 s2 -> session_run evs' s2 s3 -> session_run (evs ++ evs') s1 s3.
Proof. induction 1 as [|ev evs s s1 s2 Hs _ IH]; [done|]. intros Hr. econstructor; [exact Hs|]. by apply IH. Qed.

(** ** Carrying out the log *)

Lemma clear_log_nil (c : base_client (handler U)) : log c = [] -> clear_log c = c.
Proof. destruct c. cbn. by intros ->. Qed.

Lemma settle_nil s : log (base s) = [] -> settle s = s.
Proof. intros Hl. unfold settle. rewrite Hl, clear_log_nil by done. by destruct s. Qed.

(** Nothing but the log is cleared. *)
Lemma clear_log_fields (c : base_client (handler U)) :
  registry (clear_log c) = registry c /\ settings (clear_log c) = settings c /\
  encoder (clear_log c) = encoder c /\ decoder (clear_log c) = decoder c /\
  start_disconnect_flag (clear_log c) = start_disconnect_flag c /\ log (clear_log c) = [] /\
  tx_command_queue (clear_log c) = tx_command_queue c /\ server_window_size (clear_log c) = server_window_size c.
Proof. by destruct c. Qed.

(** Effects of streams are notices. *)
Definition stream_notices (eff : list (ptr * effect (handler U))) : list (notice U) :=
  map (fun x => ClientAction (stream_action x)) eff.

Lemma settle_stream s eff :
  log (base s) = map stream_action eff ->
  let s' := settle s in
  base s' = clear_log (base s) /\ notices s' = notices s ++ stream_notices eff /\
  input_buffer s' = input_buffer s /\ pending s' = pending s /\ tx_running_flag s' = tx_running_flag s /\
  tx_routine_done s' = tx_routine_done s /\ tx_queue_sent s' = tx_queue_sent s /\ written s' = written s.
Proof.
  intros Hl. cbv zeta. rewrite (settle_effects s eff) by done. by split_and!.
Qed.

(** ** The request *)

(** A connected session with nothing under way but a read. *)
Record ready s : Prop := {
  rd_connected : is_connected_flag (base s) = true;
  rd_open : start_disconnect_flag (base s) = false;
  rd_client : client_inv (base s);
  rd_log : log (base s) = [];
  rd_streams : queue (registry (base s)) = [];
  rd_commands : tx_command_queue (base s) = [];
  rd_window : fits 64 (server_window_size (base s));
  rd_running : tx_running_flag s = false;
  rd_pending : pending s = [TRead];
  rd_input : rx_ready [] (input_buffer s);
}.

(** The client with a new request. *)
Definition requested (rq : request) (u : U) (c : base_client (handler U)) : base_client (handler U) :=
  let id := client_id (client_id_order c) in
  let s := make_stream id (initial_window_size (SettingsManager.remote_settings (settings c)))
             (initial_window_size (SettingsManager.local_settings (settings c))) rq (User u) in
  let '(r, p) := new_stream s (registry c) in
  set_registry (add_stream id p r) (set_id_order (client_id_order c + 1) c).

Lemma send_step s rq u :
  ready s -> client_id_order (base s) < 2 ^ 31 ->
  session_step fresh heap addr moved_response (ESend rq u) s
    (start TTransmit (set_tx_flags true (tx_routine_done s) (set_base (requested rq u (base s)) s))).
Proof.
  intros Hs Hk. pose proof (ci_order _ (rd_client _ Hs)) as Ho. apply Spontaneous; [done|]. cbn [run_event].
  unfold async_send, initiate_send. rewrite (rd_connected _ Hs). cbn [negb]. rewrite get_next_stream_id_eq by lia.
  unfold requested, new_stream. cbn [settings set_id_order registry mbind outcome_bind]. unfold settle.
  cbn [base set_base log BaseClient.init_write emit set_registry set_id_order]. rewrite (rd_log _ Hs). cbn [app foldl perform].
  unfold ClientSession.init_write. cbn [tx_running_flag set_base]. rewrite (rd_running _ Hs).
  do 2 f_equal. unfold clear_log. cbn. pose proof (rd_log _ Hs) as Hl. destruct s as [c]. destruct c. cbn in *. by rewrite Hl.
Qed.

(** The conditions under which a request is sent in one turn and the peer can decode it. *)
Record sendable (c : base_client (handler U)) (rq : request) (d : Decoder.decoder) (room : Z) : Prop := {
  sb_order : client_id_order c < 2 ^ 31;
  sb_request : request_ok (Encoder.config (encoder c)) rq;
  sb_room : request_room rq <= Z.min (turn_limit c) (initial_window_size (SettingsManager.remote_settings (settings c))) < 2 ^ 23;
  sb_local : 4 <= initial_window_size (SettingsManager.local_settings (settings c)) < 2 ^ 32;
  sb_codec : codec_sync room (encoder c) d;
  sb_table : FIELD_ROOM * Z.of_nat (length (raw_headers rq)) <= room;
}.

(** The turn in which the request is sent. *)
Lemma requested_turn c rq u d room :
  client_inv c -> fits 64 (server_window_size c) -> queue (registry c) = [] -> sendable c rq d room ->
  let p := length (store (registry c)) in
  let id := 2 * client_id_order c - 1 in
  let c1 := requested rq u c in
  exists x block d', get_tx_data fresh c1 = Ok (served c1 p x, tx_command_queue c ++ sent_out x) /\
    contents (sent_out x) = request_frames id rq block /\
    Decoder.decode d (span_of m a block) = Ok (d', raw_headers rq) /\
    codec_sync (room - FIELD_ROOM * Z.of_nat (length (raw_headers rq))) (sent_encoder x) d' /\
    queue (registry (served c1 p x)) = [] /\ sent_effects x = [ExpiresAfter (timeout_value rq)] /\
    awaiting (served c1 p x) p id (User u) (eq empty_response).
Proof.
  intros Hc Hw Hq [Ho Hok Hroom Hloc Hsync Htab] p id c1. pose proof (ci_order _ Hc) as Hk.
  assert (Hf : fits 32 id) by (unfold fits, id; lia).
  set (s := make_stream (client_id (client_id_order c)) (initial_window_size (SettingsManager.remote_settings (settings c)))
    (initial_window_size (SettingsManager.local_settings (settings c))) rq (User u)).
  assert (Hu : unsent_request s id rq) by (by apply new_request_unsent).
  assert (Hp : store (registry c1) !! p = Some s) by (by apply list_lookup_middle).
  assert (Hq1 : queue (registry c1) = [Some p]) by (cbn; by rewrite Hq).
  pose proof (request_room_headers _ _ Hok) as H25.
  destruct (request_turn fresh Hfresh m Hm a (encoder c) d (turn_limit c) s id rq room Hu Hok Hsync Htab Hroom)
    as (x & block & d' & Hx & Hd & Hs' & _ & Hout & Hused & Hbl & Hidle & (W1 & W2 & W3) & Heff).
  pose proof (wire_bounds_nonneg (raw_headers rq)) as Hwb. pose proof (request_room_bounds rq) as Hrb.
  assert (Htx : has_tx_data s = true).
  { unfold has_tx_data. rewrite (ur_request _ _ _ Hu), (bool_decide_eq_false_2 (header_list rq = [])) by apply (ro_headers _ _ Hok).
    cbn [negb]. by rewrite orb_true_r. }
  exists x, block, d'. rewrite (get_tx_data_served fresh c1 p s x); try done;
    [|change (turn_limit c1) with (turn_limit c); lia|rewrite Hused; unfold fits; lia].
  unfold served, served_registry, check_tx_data. rewrite Hidle, andb_false_r.
  split_and!; try done. split.
  - apply (map_find_emplace (client_id (client_id_order c))), client_inv_fresh; [done|lia].
  - exists (sent_stream x). cbn [registry set_tx emit set_codec set_registry store].
    split; [apply list_lookup_insert_eq; by eapply lookup_lt_Some|]. by rewrite W1, W2, W3.
Qed.

(** A posted turn whose client sends the frames [out] with effects of the stream [p]. *)
Lemma transmit_step s c out eff :
  pending s = [TRead; TTransmit] -> get_tx_data fresh (base s) = Ok (c, out) -> out <> [] ->
  log c = map stream_action eff ->
  exists s', session_step fresh heap addr moved_response ETransmit s s' /\ base s' = clear_log c /\
    notices s' = notices s ++ stream_notices eff /\ input_buffer s' = input_buffer s /\
    pending s' = [TRead; TWrite out] /\ written s' = written s ++ out.
Proof.
  intros Hp Hg Hne Hl. set (s1 := set_base c (set_pending [TRead] s)).
  destruct (settle_stream s1 eff Hl) as (H1 & H2 & H3 & H4 & H5 & H6 & H7 & H8).
  exists (start (TWrite out) (set_written (written (settle s1) ++ out) (set_sent (tx_queue_sent (settle s1) ++ out) (settle s1)))).
  split.
  - apply (Completion _ _ _ _ ETransmit TTransmit [TRead] []); [done|done|]. cbn [run_event app]. unfold transmit.
    cbn [base set_pending]. rewrite Hg. cbn [mbind outcome_bind]. destruct out as [|b out]; [done|]. reflexivity.
  - cbn [base notices input_buffer pending written start set_pending set_written set_sent].
    rewrite H1, H2, H3, H4, H8. done.
Qed.

(** The write completes, and a turn finds nothing more to send. *)
Lemma written_steps s bs :
  pending s = [TRead; TWrite bs] -> log (base s) = [] -> start_disconnect_flag (base s) = false ->
  get_tx_data fresh (base s) = Ok (base s, []) ->
  exists s', session_run [EWriteDone bs NoError; ETransmit] s s' /\ base s' = base s /\ notices s' = notices s /\
    input_buffer s' = input_buffer s /\ pending s' = [TRead] /\ written s' = written s.
Proof.
  intros Hp Hl Ho Hg. eexists. split.
  - econstructor; [apply (Completion _ _ _ _ (EWriteDone bs NoError) (TWrite bs) [TRead] []); [done|done|reflexivity]|].
    econstructor; [|apply RunNil]. eapply (Completion _ _ _ _ ETransmit TTransmit [TRead] []); [done|done|].
    cbn [run_event app]. unfold transmit. cbn [base set_pending start on_data_write failed negb ClientSession.init_write
      set_tx_flags set_sent tx_running_flag]. rewrite Hg. cbn [mbind outcome_bind]. rewrite settle_nil by done.
    cbn [base set_base set_tx_flags set_pending]. rewrite Ho. reflexivity.
  - done.
Qed.

(** Sending a request and having it written. *)
Definition request_events (rq : request) (u : U) (out : list buffer) : list (event U) :=
  [ESend rq u; ETransmit; EWriteDone out NoError; ETransmit].

Lemma request_sent s rq u d room :
  ready s -> sendable (base s) rq d room ->
  let p := length (store (registry (base s))) in
  let id := 2 * client_id_order (base s) - 1 in
  exists s1 out block d', session_run (request_events rq u out) s s1 /\
    written s1 = written s ++ out /\ contents out = request_frames id rq block /\
    Decoder.decode d (span_of m a block) = Ok (d', raw_headers rq) /\
    codec_sync (room - FIELD_ROOM * Z.of_nat (length (raw_headers rq))) (encoder (base s1)) d' /\
    notices s1 = notices s ++ [ClientAction (StreamEffect p (ExpiresAfter (timeout_value rq)))] /\
    awaiting (base s1) p id (User u) (eq empty_response) /\ same_setup (base s) (base s1) /\
    decoder (base s1) = decoder (base s) /\ log (base s1) = [] /\ pending s1 = [TRead] /\ input_buffer s1 = input_buffer s.
Proof.
  intros Hs Hsend p id.
  destruct (requested_turn (base s) rq u d room (rd_client _ Hs) (rd_window _ Hs) (rd_streams _ Hs) Hsend)
    as (x & block & d' & Hg & Hout & Hd & Hsync & Hq & Heff & Hwait). fold p id in Hg, Hout, Hq, Hwait.
  pose proof (send_step s rq u Hs (sb_order _ _ _ _ Hsend)) as Hstep. set (s1 := start TTransmit _) in Hstep.
  rewrite (rd_commands _ Hs) in Hg. set (c := served _ p x) in *.
  assert (Hlog : log c = map stream_action [(p, ExpiresAfter (timeout_value rq))]).
  { unfold c, served. cbn [log set_tx emit set_codec set_registry]. rewrite Heff. cbn. by rewrite (rd_log _ Hs). }
  destruct (transmit_step s1 c (sent_out x) [(p, ExpiresAfter (timeout_value rq))]) as (s2 & Hstep2 & B1 & B2 & B3 & B4 & B5);
    [cbn; by rewrite (rd_pending _ Hs)|done| |done|].
  { intros Hn. rewrite Hn in Hout. apply (f_equal length) in Hout. unfold request_frames in Hout.
    destruct (request_body rq); rewrite ?length_app, length_rfc_frame in Hout; cbn in Hout; lia. }
  pose proof (clear_log_fields c) as (F1 & F2 & F3 & F4 & F5 & F6 & F7 & F8). rewrite <- B1 in *.
  assert (Hc : settings c = settings (base s) /\ start_disconnect_flag c = false /\ decoder c = decoder (base s) /\
    encoder c = sent_encoder x /\ tx_command_queue c = [] /\
    server_window_size c = u64 (turn_window (requested rq u (base s)) - sent_used x))
    by (rewrite <- (rd_open _ Hs); by unfold c, served).
  destruct Hc as (E1 & E2 & E3 & E4 & E5 & E6). clearbody c.
  destruct (written_steps s2 (sent_out x)) as (s3 & Hrun & C1 & C2 & C3 & C4 & C5); [done|done|by rewrite F5| |].
  { apply get_tx_data_nothing; [rewrite F8, E6; apply wrap_fits; lia|by rewrite F7|by rewrite F1]. }
  exists s3, (sent_out x), block, d'. rewrite C1, C2, C3, C4, C5, B2, B3, B5, F3, E4, F4, F6.
  split_and!; try done.
  - econstructor; [exact Hstep|]. econstructor; [exact Hstep2|exact Hrun].
  - unfold awaiting. by rewrite F1.
  - split; [by rewrite F2|]. by rewrite F5, E2, (rd_open _ Hs).
Qed.

(** ** The response *)

(** A read completes: its bytes are handled, and the next read is started. *)
Lemma read_step s chunk b c eff :
  TRead ∈ pending s -> start_disconnect_flag c = false ->
  Reassembly.on_data_read (Sink := client_handlers fresh heap addr moved_response) fresh heap addr chunk (input_buffer s) (base s)
    = Ok (b, c) ->
  log c = map stream_action eff ->
  exists s', session_step fresh heap addr moved_response (EReadDone NoError chunk) s s' /\ base s' = clear_log c /\
    notices s' = notices s ++ stream_notices eff /\ input_buffer s' = b /\
    TRead ∈ pending s'.
Proof.
  intros (p1 & p2 & Hp)%list_elem_of_split Ho Hr Hl. set (s0 := set_pending (p1 ++ p2) s). set (s1 := set_base c s0).
  destruct (settle_stream s1 eff Hl) as (H1 & H2 & _). set (s2 := settle s1) in *. change (base s1) with c in H1.
  unfold Reassembly.on_data_read in Hr. set (b0 := (commit _ _).1) in Hr.
  set (s3 := if b_offset b0 <? min_size then s2 else ClientSession.init_write s2).
  assert (H3 : base s3 = base s2 /\ notices s3 = notices s2).
  { unfold s3. destruct (_ <? _); [done|]. unfold ClientSession.init_write. by destruct (tx_running_flag s2). }
  destruct H3 as [H3 H4]. exists (start TRead (set_input b s3)). split.
  - apply (Completion _ _ _ _ (EReadDone NoError chunk) TRead p1 p2); [done|done|]. cbn [run_event]. unfold ClientSession.on_data_read.
    cbn [failed negb input_buffer set_pending base]. fold b0.
    change (session_sink fresh heap addr moved_response) with (client_handlers (H := handler U) fresh heap addr moved_response).
    rewrite Hr. cbn [mbind outcome_bind]. change (settle (set_base c (set_pending (p1 ++ p2) s))) with s2. fold s3.
    unfold init_read. cbn [base set_input]. rewrite H3, H1. destruct (clear_log_fields c) as (_ & _ & _ & _ & -> & _). by rewrite Ho.
  - cbn [start set_pending set_input base notices input_buffer pending]. rewrite H3, H4, H1, H2. split_and!; try done.
    apply elem_of_app. right. by left.
Qed.

(** Each read fits the free part of the buffer it is read into, whatever the session does. *)
Fixpoint reads_fit (chunks : list (list Z)) s : Prop :=
  match chunks with
  | [] => True
  | chunk :: chunks =>
      Z.of_nat (length chunk) <= prepare_size (input_buffer s) /\
      forall s', session_step fresh heap addr moved_response (EReadDone NoError chunk) s s' -> reads_fit chunks s'
  end.

(** The last frame belongs to the response. *)
Definition ends_response (items : list item) : Prop :=
  match list.last items with Some (Control _) | None => False | _ => True end.

(** Once the response is complete only connection frames follow. *)
Lemma complete_ends limit block body body' items :
  in_order limit block (Complete body) items body' -> ends_response items -> False.
Proof.
  unfold ends_response. induction items as [|it items IH]; [done|]. intros [Hok Hin].
  destruct it as [k|flags blk|flags pad d]; [|by destruct Hok|by destruct Hok as ((? & ? & _) & _)].
  destruct items as [|it items]; [done|]. by apply IH.
Qed.

(** What the user gets. *)
Definition delivered (p : ptr) (u : U) (fs : header) (body : list Z) (ns : list (notice U)) : Prop :=
  exists r, ns = [ClientAction (StreamEffect p CancelTimer); ClientAction (StreamEffect p (Invoke (User u) NoError r))] /\
    response_headers r = fs /\ body_as r = body /\
    status r = match List.find is_status fs with Some hf => m_value hf | None => [] end.

Section response.
Context (c0 : base_client (handler U)) (p : ptr) (id : Z) (u : U) (limit : Z) (block : list Z) (fs : header)
  (d' : Decoder.decoder).
Context (Hid : fits 32 id) (Hlimit : limit < 2 ^ 24).
Context (Hdec : forall src, span_ok src -> sp_bytes src = block -> Decoder.decode (decoder c0) src = Ok (d', fs)).
Context (Hlog : log c0 = []) (Hopen : start_disconnect_flag c0 = false).
Context (Hmax : limit = max_frame_size (SettingsManager.local_settings (settings c0))).

Lemma response_reads chunks : forall s ph items w body,
  TRead ∈ pending s -> rx_ready w (input_buffer s) -> in_phase c0 p id (User u) fs d' (base s) ph ->
  in_order limit block ph items body -> ends_response items ->
  w ++ concat chunks = concat (item_bytes id <$> items) -> Forall (fun chunk => chunk <> []) chunks -> reads_fit chunks s ->
  incomplete w = true ->
  exists s' ns, session_run (EReadDone NoError <$> chunks) s s' /\ notices s' = notices s ++ ns /\
    delivered p u fs body ns /\ decoder (base s') = d'.
Proof.
  induction chunks as [|chunk chunks IH]; intros s ph items w body Hp Hb Hph Hin Hends Hw Hne Hfit Hinc.
  { exfalso. destruct (items_good id limit block Hlimit items body ph Hin) as (_ & _ & I3 & _).
    destruct (frames_whole _ I3) as [Hfs _]. cbn [concat] in Hw. rewrite app_nil_r in Hw. rewrite <- Hw in Hfs.
    destruct (frames_step w) as [Hf _].
    { rewrite Hw. apply Forall_concat. eapply Forall_impl; [exact I3|]. by intros f [Hf _]. }
    rewrite Hinc in Hf. rewrite Hf in Hfs. by destruct items. }
  apply Forall_cons in Hne as [_ Hne]. cbn [concat reads_fit] in *. destruct Hfit as [Hfit Hfits].
  destruct (read_part fresh heap addr moved_response Hfresh Hheap c0 p id (User u) limit block fs d' Hid Hlimit Hdec
    items body ph w chunk (concat chunks) (input_buffer s) (base s)) as (b & c & items1 & items2 & w' & -> & Hr & Hph' & Hb' & Hinc' & Hw');
    try done.
  apply in_order_app in Hin. set (ph' := foldl advance ph items1) in *.
  assert (Ho : start_disconnect_flag c = false) by (destruct Hph' as ((_ & Hs) & _); by rewrite Hs).
  destruct items2 as [|it items2].
  - apply app_eq_nil in Hw' as [_ Hnil]. change (ph' = Complete body) in Hin. rewrite Hin in Hph'.
    assert (chunks = []) as ->.
    { destruct chunks as [|x chunks]; [done|]. apply Forall_cons in Hne as [Hx _]. by apply app_eq_nil in Hnil as [? _]. }
    destruct Hph' as (_ & _ & (r & Hl & R1 & _ & R3 & R4 & _) & Hd). rewrite Hlog in Hl.
    destruct (read_step s chunk b c [(p, CancelTimer); (p, Invoke (User u) NoError r)]) as (s' & Hstep & B1 & B2 & _); try done.
    exists s', [ClientAction (StreamEffect p CancelTimer); ClientAction (StreamEffect p (Invoke (User u) NoError r))].
    split; [econstructor; [exact Hstep|apply RunNil]|]. split; [done|]. split; [by exists r|].
    rewrite B1. by destruct (clear_log_fields c) as (_ & _ & _ & -> & _).
  - assert (Hends' : ends_response (it :: items2)).
    { unfold ends_response in Hends |- *. by rewrite last_app_cons in Hends. }
    assert (Hl : log c = map stream_action []).
    { destruct Hph' as (_ & _ & Hph'). destruct ph' as [|bd|bd]; [by destruct Hph' as (_ & -> & _)..|].
      by destruct (complete_ends _ _ _ _ _ Hin). }
    destruct (read_step s chunk b c []) as (s1 & Hstep & B1 & B2 & B3 & B4); try done.
    rewrite clear_log_nil in B1 by done. rewrite <- B1 in Hph'. rewrite <- B3 in Hb'.
    destruct (IH s1 ph' (it :: items2) w' body) as (s' & ns & Hrun & Hns & Hdel & Hd); try done.
    { by apply Hfits. }
    exists s', ns. split; [econstructor; [exact Hstep|exact Hrun]|]. rewrite Hns, B2, app_nil_r. done.
Qed.
End response.

(** A request and its response, end to end. On a connected session with nothing under way but a read, and
    with encoders and decoders of both sides that agree: the user sends a request that fits the windows, and the posted turn, the
    write and the turn after it complete. Then the bytes written are the HEADERS and DATA frames of
    RFC 7540 of the request on the next odd stream, from which the peer decodes exactly its fields.
    Let the peer answer with a HEADERS frame, DATA frames, padded or not, and any connection frames between
    them, in reads cut in any way. Then every read is handled and followed by another one, the timer of
    the request is started and cancelled, and the user's handler is called exactly once, without an error,
    with exactly the fields, the status and the body; encoders and decoders agree again. *)
Theorem session_exchange s rq u d room e fs size room' :
  let c := base s in
  let p := length (store (registry c)) in
  let id := 2 * client_id_order c - 1 in
  let limit := max_frame_size (SettingsManager.local_settings (settings c)) in
  ready s -> sendable c rq d room -> codec_sync room' e (decoder c) -> FIELD_ROOM * Z.of_nat (length fs) <= room' ->
  Forall (field_wf (Encoder.config e)) fs -> wire_bounds fs <= size < 2 ^ 24 -> limit < 2 ^ 24 ->
  exists s1 out block d' e' bufs,
    session_run (request_events rq u out) s s1 /\ written s1 = written s ++ out /\ input_buffer s1 = input_buffer s /\
    contents out = request_frames id rq block /\ Decoder.decode d (span_of m a block) = Ok (d', raw_headers rq) /\
    codec_sync (room - FIELD_ROOM * Z.of_nat (length (raw_headers rq))) (encoder (base s1)) d' /\
    Encoder.encode fresh e fs size = Ok (e', (bufs, Z.of_nat (length fs))) /\
    forall items body chunks,
      in_order limit (contents bufs) Waiting items body -> ends_response items ->
      concat chunks = concat (item_bytes id <$> items) -> Forall (fun chunk => chunk <> []) chunks -> reads_fit chunks s1 ->
      exists s2 ns, session_run (EReadDone NoError <$> chunks) s1 s2 /\
        notices s2 = notices s ++ ClientAction (StreamEffect p (ExpiresAfter (timeout_value rq))) :: ns /\
        delivered p u fs body ns /\
        codec_sync (room' - FIELD_ROOM * Z.of_nat (length fs)) e' (decoder (base s2)).
Proof.
  intros c p id limit Hs Hsend Hsync Hroom Hwf Hsize Hl24. pose proof (wire_bounds_count fs) as Hcount.
  destruct (request_sent s rq u d room Hs Hsend)
    as (s1 & out & block & d' & Hrun & W1 & W2 & W3 & W4 & W5 & Hwait & Hset & Hdec & Hlog & Hpend & Hin1).
  fold c p id in W2, W5, Hwait.
  destruct (encode_decode_any fresh Hfresh e (decoder c) fs size room')
    as (e' & bufs & n & d2 & He & _ & Hde & _ & Hs' & _ & _ & _ & Hall & _); [done|done|done|lia|lia|].
  rewrite Hall in * by lia. rewrite Nat2Z.id, firstn_all in Hde.
  exists s1, out, block, d', e', bufs. split_and!; try done. intros items body chunks Hin Hends Hc Hne Hfit.
  pose proof (ci_order _ (rd_client _ Hs)) as Ho. pose proof (sb_order _ _ _ _ Hsend) as Ho2. fold c in Ho, Ho2.
  destruct Hset as [E1 E2].
  destruct (response_reads (base s1) p id u limit (contents bufs) fs d2) with (chunks := chunks) (s := s1) (ph := Waiting)
    (items := items) (w := @nil Z) (body := body) as (s2 & ns & Hrun2 & Hns & Hdel & Hd2); try done.
  - unfold fits, id. lia.
  - by rewrite Hdec.
  - by rewrite E2, (rd_open _ Hs).
  - by rewrite E1.
  - rewrite Hpend. by left.
  - rewrite Hin1. apply Hs.
  - exists s2, ns. rewrite Hns, W5, <- app_assoc, Hd2. done.
Qed.
End exchange.

(** ** Example *)

(** A session that has connected, a GET request, and a response of two fields and five bytes after a PING. *)
Definition example_session : session nat :=
  Session (set_flags true true false make_client) (buffer_new zero_memory 64) false false [] None [TRead] [] [].
Definition example_get : request := Request request3 [] [] 0 30000.
Definition short_items : list item :=
  [Control (Ping 0 [1; 2; 3; 4; 5; 6; 7; 8]); Headers END_HEADERS example_block; Data END_STREAM None (str "world")].

Lemma example_session_ready : ready example_session.
Proof.
  split; try done.
  - apply (kept_client_inv make_client); [by split|apply make_client_inv].
  - split; [apply buffer_new_ok; [exact zero_memory_ok|lia]|done].
Qed.

Lemma example_get_sendable : sendable (base example_session) example_get Decoder.make_decoder (2 ^ 40).
Proof.
  pose proof example_requests_ok as Hok. apply Forall_cons in Hok as [Hok _].
  split; [done|exact Hok|split; [by vm_compute|done]|by vm_compute|exact new_codec_sync|by vm_compute].
Qed.

Lemma session_exchange_witness :
  exists s2 evs ns, run zero_memory zero_memory 100 (fun r => r) evs example_session s2 /\
    notices s2 = ClientAction (StreamEffect 0 (ExpiresAfter 30000)) :: ns /\
    delivered 0 7%nat example_fields (str "world") ns.
Proof.
  destruct (session_exchange zero_memory zero_memory 100 (fun r => r) zero_memory_ok zero_memory_ok zero_memory zero_memory_ok 0
    example_session example_get 7%nat Decoder.make_decoder (2 ^ 40) Encoder.make_encoder example_fields 1000 (2 ^ 40))
    as (s1 & out & block & d' & e' & bufs & Hrun & _ & Hin & _ & _ & _ & He & Hr).
  - exact example_session_ready.
  - exact example_get_sendable.
  - exact new_codec_sync.
  - by vm_compute.
  - apply fields_wfb_ok. vm_compute. reflexivity.
  - by vm_compute.
  - by vm_compute.
  - assert (Hb : contents bufs = example_block) by (vm_compute in He; by injection He as _ <-). clear He.
    rewrite Hb in Hr. destruct (Hr short_items (str "world") [concat (item_bytes 1 <$> short_items)]) as (s2 & ns & Hrun2 & Hns & Hdel & _).
    + unfold short_items. repeat (split; [cbn [item_ok advance control_ok]; decide_item|]). vm_compute. reflexivity.
    + done.
    + apply app_nil_r.
    + by apply Forall_singleton.
    + split; [|done]. rewrite Hin. by vm_compute.
    + eexists s2, _, ns. split; [exact (session_run_app _ _ _ _ _ _ _ _ _ Hrun Hrun2)|]. split; [exact Hns|exact Hdel].
Defined.
