(* ===== verification/SessionMultiplex.v ===== *)
(** * Requests side by side over a session (client_session.h)

    The user sends any number of requests on a session at once; the session posts one turn, which sends all of
    them, and reads what the peer answers: the responses in any order, their frames interleaved in any
    way, cut into reads in any way. Every handler of the user gets the response to its request. *)
From S2P Require Import Prelude Memory Utils Buffer HeaderField Protocol Frame FrameBuilder.
From S2P Require Import Request Response Stream IndexedDynamicTable HpackSync HpackCodec StreamHeaders StreamRegistry.
From S2P Require Import Reassembly BaseClient ClientReading ClientSending ClientUpload ClientReceiving ResponseReading ClientMultiplex.
From S2P Require Import ClientSession SessionExchange.
From S2P Require Streambuf Encoder Decoder Window SettingsManager.
Import Streambuf (contents).

Section sends.
Context {SS : SetSearch} {U : Type}.
Implicit Types c : base_client (handler U).

(** What the client registers for requests: streams with consecutive identifiers, and their handlers. *)
Lemma send_requests_streams rqs : forall c c',
  client_inv c -> client_id_order c + Z.of_nat (length rqs) <= 2 ^ 31 -> Forall (fun rq => header_list rq <> []) rqs.*1 ->
  send_requests rqs c = Ok c' ->
  store (registry c) `prefix_of` store (registry c') /\
  (forall id p, get_stream id (registry c) = Some p -> get_stream id (registry c') = Some p) /\
  start_disconnect_flag c' = start_disconnect_flag c /\
  forall i rq h, rqs !! i = Some (rq, h) ->
    let p := (length (store (registry c)) + i)%nat in
    get_stream (client_id (client_id_order c + Z.of_nat i)) (registry c') = Some p /\
    exists s, store (registry c') !! p = Some s /\ respone_handler s = Some h /\ m_response s = empty_response.
Proof.
  induction rqs as [|[rq h] rqs IH]; intros c c' Hc Hk Hne.
  { intros [= <-]. split_and!; [done|done|done|]. by intros i rq h. }
  rewrite fmap_cons in Hne. apply Forall_cons in Hne as [Hrq Hne]. cbn [length fst] in Hk, Hrq. cbn [send_requests].
  intros (c1 & H1 & H2)%outcome_bind_ok.
  pose proof (client_inv_fresh c Hc ltac:(lia)) as Hf. pose proof (ci_order _ Hc) as Ho.
  assert (Hc1 : client_inv c1) by (apply (initiate_send_inv zero_memory zero_memory 0 (fun r => r) rq h c); [done|lia|done|done]).
  unfold initiate_send in H1. destruct (negb (is_connected_flag c)); [done|]. rewrite get_next_stream_id_eq in H1 by lia.
  unfold new_stream in H1. cbn [settings set_id_order registry mbind outcome_bind] in H1. set (s := make_stream _ _ _ _ _) in H1.
  injection H1 as E1. set (k := client_id (client_id_order c)) in *.
  assert (R1 : store (registry c1) = store (registry c) ++ [s]) by (by rewrite <- E1).
  assert (R2 : forall id, get_stream id (registry c1) = map_find id (map_emplace k (length (store (registry c))) (stream_map (registry c))))
    by (intros id; by rewrite <- E1).
  assert (R3 : client_id_order c1 = client_id_order c + 1) by (by rewrite <- E1).
  assert (R4 : start_disconnect_flag c1 = start_disconnect_flag c) by (by rewrite <- E1).
  destruct (IH c1 c' Hc1 ltac:(rewrite R3; lia) Hne H2) as (P1 & P2 & P3 & P4).
  split_and!.
  - etrans; [|exact P1]. rewrite R1. by exists [s].
  - intros id p Hp. apply P2. rewrite R2. unfold get_stream in Hp. rewrite map_find_emplace_ne; [done|]. intros ->. by rewrite Hf in Hp.
  - by rewrite P3.
  - intros [|i] rq' h' Hi.
    + injection Hi as <- <-. cbv zeta. rewrite Nat.add_0_r, Z.add_0_r. split.
      * apply P2. rewrite R2. by apply map_find_emplace.
      * exists s. split; [|done]. eapply prefix_lookup_Some; [|exact P1]. rewrite R1. by apply list_lookup_middle.
    + destruct (P4 i rq' h' Hi) as [Q1 Q2]. rewrite R1, length_app in Q1, Q2. cbn [length] in Q1, Q2. rewrite R3 in Q1.
      replace (length (store (registry c)) + S i)%nat with (length (store (registry c)) + 1 + i)%nat by lia.
      replace (client_id_order c + Z.of_nat (S i)) with (client_id_order c + 1 + Z.of_nat i) by lia. done.
Qed.

(** Sending does not look at the log. *)
Lemma initiate_send_log c1 c2 rq h c1' :
  clear_log c1 = clear_log c2 -> initiate_send rq h c1 = Ok c1' ->
  exists c2', initiate_send rq h c2 = Ok c2' /\ clear_log c1' = clear_log c2'.
Proof.
  destruct c1, c2. intros He. injection He. intros. subst. unfold initiate_send in *. cbn [is_connected_flag] in *.
  destruct (negb _); [done|]. destruct (get_next_stream_id _) as [c id] eqn:E. cbn in E. injection E as <- <-.
  match goal with H : _ = Ok c1' |- _ => injection H as <- end. eexists. split; [reflexivity|]. done.
Qed.

Lemma send_requests_log rqs : forall c1 c2 c1',
  clear_log c1 = clear_log c2 -> send_requests rqs c1 = Ok c1' ->
  exists c2', send_requests rqs c2 = Ok c2' /\ clear_log c1' = clear_log c2'.
Proof.
  induction rqs as [|[rq h] rqs IH]; intros c1 c2 c1' He; cbn [send_requests]; [intros [= <-]; by exists c2|].
  intros (c & H1 & H2)%outcome_bind_ok. destruct (initiate_send_log _ _ _ _ _ He H1) as (d & -> & He'). cbn [mbind outcome_bind].
  by apply (IH c d).
Qed.
End sends.

Section multiplex.
Context {SS : SetSearch} {U : Type} (fresh : Z -> Z) (heap : Z -> Z) (addr : Z) (moved_response : response -> response).
Context (Hfresh : forall i, is_byte (fresh i)) (Hheap : forall i, is_byte (heap i)).
Context (m : Z -> Z) (Hm : forall x, is_byte (m x)) (a : Z).
Implicit Types (s : session U) (c : base_client (handler U)).

#[local] Abbreviation session_run := (run fresh heap addr moved_response).
#[local] Abbreviation session_step := (session_step fresh heap addr moved_response).

(** ** The requests *)

(** Requests of the user. *)
Definition user_requests (rqs : list (request * U)) : list (request * handler U) := map (fun '(rq, u) => (rq, User u)) rqs.

Lemma user_requests_fst rqs : (user_requests rqs).*1 = rqs.*1.
Proof. induction rqs as [|[rq u] rqs IH]; [done|]. cbn. by rewrite <- IH. Qed.

Lemma settle_sent s c c1 rq h :
  log c = [] -> initiate_send rq h c = Ok c1 -> settle (set_base c1 s) = init_write (set_base (clear_log c1) s).
Proof.
  intros Hl Hs. unfold settle. assert (Hl1 : log c1 = [InitWrite]).
  { unfold initiate_send in Hs. destruct (negb _); [done|]. destruct (get_next_stream_id c) as [c2 id] eqn:E.
    unfold get_next_stream_id in E. injection E as <- <-. injection Hs as <-. cbn. by rewrite Hl. }
  cbn [base set_base]. rewrite Hl1. done.
Qed.

(** More requests while a turn is posted: they are registered, and nothing else happens. *)
Lemma sends_running rqs : forall s c,
  tx_running_flag s = true -> log (base s) = [] -> send_requests (user_requests rqs) (base s) = Ok c ->
  session_run (map (fun '(rq, u) => ESend rq u) rqs) s (set_base (clear_log c) s).
Proof.
  induction rqs as [|[rq u] rqs IH]; intros s c Hrun Hl.
  { intros [= <-]. rewrite clear_log_nil by done. destruct s. apply RunNil. }
  cbn [user_requests map send_requests]. intros (c1 & H1 & H2)%outcome_bind_ok. fold (user_requests rqs) in H2.
  destruct (send_requests_log _ c1 (clear_log c1) c eq_refl H2) as (c' & H3 & ->).
  econstructor; [apply (Spontaneous _ _ _ _ _ _ (set_base (clear_log c1) s)); [done|]|].
  - cbn [run_event]. unfold async_send. rewrite H1. cbn [mbind outcome_bind]. rewrite (settle_sent _ _ _ _ _ Hl H1).
    unfold init_write. cbn [tx_running_flag set_base]. by rewrite Hrun.
  - exact (IH (set_base (clear_log c1) s) c' Hrun eq_refl H3).
Qed.

(** Requests on a session with nothing under way but a read: one turn is posted for all of them. *)
Lemma sends_ready rqs s c :
  ready s -> rqs <> [] -> send_requests (user_requests rqs) (base s) = Ok c ->
  exists s', session_run (map (fun '(rq, u) => ESend rq u) rqs) s s' /\ base s' = clear_log c /\ notices s' = notices s /\
    input_buffer s' = input_buffer s /\ pending s' = [TRead; TTransmit] /\ written s' = written s.
Proof.
  intros Hs Hne. destruct rqs as [|[rq u] rqs]; [done|].
  cbn [user_requests map send_requests]. intros (c1 & H1 & H2)%outcome_bind_ok. fold (user_requests rqs) in H2.
  destruct (send_requests_log _ c1 (clear_log c1) c eq_refl H2) as (c' & H3 & ->). pose proof (rd_log _ Hs) as Hl.
  set (s1 := start TTransmit (set_tx_flags true (tx_routine_done s) (set_base (clear_log c1) s))).
  exists (set_base (clear_log c') s1). split; [econstructor; [apply (Spontaneous _ _ _ _ _ _ s1); [done|]|]|].
  - cbn [run_event]. unfold async_send. rewrite H1. cbn [mbind outcome_bind]. rewrite (settle_sent _ _ _ _ _ Hl H1).
    unfold init_write. cbn [tx_running_flag set_base]. by rewrite (rd_running _ Hs).
  - by apply sends_running.
  - split_and!; try done. cbn. by rewrite (rd_pending _ Hs).
Qed.

(** The conditions under which requests are sent in one turn and the peer can decode them. *)
Record all_sendable c (rqs : list request) (d : Decoder.decoder) (room : Z) : Prop := {
  as_order : client_id_order c + Z.of_nat (length rqs) <= 2 ^ 31;
  as_windows : windows_ok c rqs;
  as_requests : Forall (request_ok (Encoder.config (encoder c))) rqs;
  as_room : total_room rqs <= turn_limit c < 2 ^ 23;
  as_codec : codec_sync room (encoder c) d;
  as_table : FIELD_ROOM * total_headers rqs <= room;
}.

Lemma requests_frames_some k rqs blocks : rqs <> [] -> length blocks = length rqs -> requests_frames k rqs blocks <> [].
Proof.
  destruct rqs as [|rq rqs], blocks as [|block blocks]; try done. intros _ _ Hn.
  apply (f_equal length) in Hn. cbn [requests_frames] in Hn. unfold request_frames in Hn.
  destruct (request_body rq); rewrite ?length_app, length_rfc_frame in Hn; cbn in Hn; lia.
Qed.

(** Sending the requests, the turn, and its write. *)
Definition requests_events (rqs : list (request * U)) (out : list buffer) : list (event U) :=
  map (fun '(rq, u) => ESend rq u) rqs ++ [ETransmit; EWriteDone out NoError; ETransmit].

(** The streams of the requests. *)
Definition new_ptr c (i : nat) : ptr := (length (store (registry c)) + i)%nat.
Definition new_id c (i : nat) : Z := 2 * (client_id_order c + Z.of_nat i) - 1.
Definition new_ptrs c (n : nat) : list ptr := seq (length (store (registry c))) n.

Lemma requests_sent s rqs d room :
  ready s -> rqs <> [] -> all_sendable (base s) rqs.*1 d room ->
  let c := base s in
  exists s1 out blocks d', session_run (requests_events rqs out) s s1 /\
    written s1 = written s ++ out /\ contents out = requests_frames (client_id_order c) rqs.*1 blocks /\
    decode_blocks m a d blocks = Ok (d', raw_headers <$> rqs.*1) /\
    codec_sync (room - FIELD_ROOM * total_headers rqs.*1) (encoder (base s1)) d' /\
    notices s1 = notices s ++ stream_notices (timers (new_ptrs c (length rqs)) rqs.*1) /\
    (forall i rq u, rqs !! i = Some (rq, u) -> awaiting (base s1) (new_ptr c i) (new_id c i) (User u) (eq empty_response)) /\
    same_setup c (base s1) /\ decoder (base s1) = decoder c /\ log (base s1) = [] /\ pending s1 = [TRead] /\
    input_buffer s1 = input_buffer s.
Proof.
  intros Hs Hne [Ho Hwin Hok Hroom Hsync Htab] c. pose proof (rd_client _ Hs) as Hc. pose proof (ci_order _ Hc) as Hk.
  rewrite <- user_requests_fst in Hwin. rewrite length_fmap in Ho.
  assert (Hul : length (user_requests rqs) = length rqs) by apply length_map.
  destruct (send_requests_spec (user_requests rqs) c) as (c1 & H1 & (E1 & E2 & E3 & E4 & E5) & _ & Hq1 & Hwait);
    [apply Hs|apply Hk|by rewrite Hul|done|].
  destruct (send_requests_streams (user_requests rqs) c c1 Hc) as (_ & _ & Hflag & Hstr); [by rewrite Hul| |done|].
  { rewrite user_requests_fst. eapply Forall_impl; [exact Hok|]. intros rq. apply ro_headers. }
  rewrite Hul, (rd_streams _ Hs : queue (registry c) = []), app_nil_l in Hq1. rewrite Hul, user_requests_fst in Hwait.
  destruct (sends_ready rqs s c1 Hs Hne H1) as (s2 & Hrun2 & B1 & B2 & B3 & B4 & B5).
  pose proof (clear_log_fields c1) as (F1 & F2 & F3 & F4 & F5 & F6 & F7 & F8). rewrite <- B1 in *.
  unfold turn_limit, turn_window in Hroom. fold c in Hroom, Hsync, Hok.
  rewrite <- E1, <- E4, <- E5, <- F2, <- F7, <- F8 in Hroom. rewrite <- E2, <- F3 in Hok, Hsync.
  rewrite <- F1 in Hq1, Hwait, Hstr.
  destruct (requests_turn fresh Hfresh m Hm a (base s2) (client_id_order c) (new_ptrs c (length rqs)) rqs.*1 d room)
    as (c2 & out & blocks & d' & Hg & R1 & R2 & R3 & R4 & R5 & R6 & R7 & R8 & R9 & [R10 _] & R11 & R12 & R13 & R14); try done;
    [apply NoDup_seq|by destruct rqs|rewrite F8, E4; apply Hs|].
  rewrite F7, E5, (rd_commands _ Hs : tx_command_queue c = []) in R1.
  destruct (transmit_step fresh heap addr moved_response s2 c2 out (timers (new_ptrs c (length rqs)) rqs.*1) B4 Hg)
    as (s3 & Hstep & C1 & C2 & C3 & C4 & C5).
  { intros ->. by apply (requests_frames_some (client_id_order c) rqs.*1 blocks); [destruct rqs| |]. }
  { by rewrite R11, F6. }
  pose proof (clear_log_fields c2) as (G1 & G2 & G3 & G4 & G5 & G6 & G7 & G8). rewrite <- C1 in *.
  destruct (written_steps fresh heap addr moved_response s3 out) as (s4 & Hrun4 & D1 & D2 & D3 & D4 & D5); [done|done| | |].
  { rewrite G5, R14, F5, Hflag. apply Hs. }
  { apply get_tx_data_nothing; [by rewrite G8|by rewrite G7|by rewrite G1]. }
  exists s4, out, blocks, d'. rewrite D1, D2, D3, D4, D5, C2, C3, C5, B2, B3, B5, G3, G4, R13, F4, G6.
  split_and!; try done.
  - eapply session_run_app; [exact Hrun2|]. econstructor; [exact Hstep|exact Hrun4].
  - intros i rq u Hi. destruct (Hstr i rq (User u)) as [S1 (st & S2 & S3 & S4)].
    { unfold user_requests. by rewrite list_lookup_fmap, Hi. }
    assert (Hp : new_ptr c i ∈ new_ptrs c (length rqs)).
    { apply elem_of_seq. unfold new_ptr. apply lookup_lt_Some in Hi. lia. }
    destruct (R10 _ Hp) as (st1 & st2 & T1 & T2 & T3 & T4 & T5). unfold awaiting. rewrite G1. split.
    + unfold get_stream in *. rewrite R9. exact S1.
    + unfold new_ptr in *. rewrite S2 in T1. injection T1 as <-. exists st2. by rewrite T3, T4, T5.
  - split; [by rewrite G2, R12, F2|]. by rewrite G5, R14, F5.
Qed.

(** ** The responses *)

(** The calls of the handlers, as effects of streams. *)
Definition call_effects (xr : exchange (handler U) * response) : list (ptr * effect (handler U)) :=
  [(x_ptr xr.1, CancelTimer); (x_ptr xr.1, Invoke (x_handler xr.1) NoError xr.2)].

Lemma calls_effects calls : calls ≫= call = map stream_action (calls ≫= call_effects).
Proof. induction calls as [|xr calls IH]; [done|]. rewrite !bind_cons, map_app, <- IH. done. Qed.

(** Once a response is complete, its body does not change. *)
Lemma complete_body limit block body body' items : in_order limit block (Complete body) items body' -> body' = body.
Proof.
  induction items as [|it items IH]; cbn [in_order]; [by intros [= ->]|]. intros [Hok Hin].
  destruct it as [k|flags blk|flags pad d]; [by apply IH|by destruct Hok|by destruct Hok as ((? & ? & _) & _)].
Qed.

Section responses.
Context (c0 : base_client (handler U)) (xs : list (exchange (handler U))) (limit : Z) (blocks : list (list Z)) (d' : Decoder.decoder).
Context (Hlimit : limit < 2 ^ 24) (Hids : Forall (fun x => fits 32 (x_id x)) xs) (Hptrs : NoDup (x_ptr <$> xs)).
Context (Hblocks : length blocks = length xs).
Context (Hlog : log c0 = []) (Hopen : start_disconnect_flag c0 = false).
Context (Hmax : limit = max_frame_size (SettingsManager.local_settings (settings c0))).

#[local] Abbreviation phases_of := (in_phases c0 xs blocks d').

(** Clearing the log forgets the calls. *)
Lemma in_phases_clear c phs n fin : phases_of c phs n fin -> phases_of (clear_log c) phs n [].
Proof.
  intros [[I1 I1'] I2 I3 _ I5]. destruct (clear_log_fields c) as (F1 & F2 & F3 & F4 & F5 & F6 & _).
  split; [by split; congruence|by rewrite F3|by rewrite F4|exists []; by rewrite F6, Hlog|].
  eapply Forall2_impl; [exact I5|]. intros x ph. destruct ph; unfold stream_phase, awaiting, half_closed; by rewrite F1.
Qed.

Lemma answered_final phs n items bodies fin calls :
  interleaved limit blocks phs n items bodies -> Forall2 (answered xs phs) fin calls ->
  Forall2 (answered xs (Complete <$> bodies)) fin calls.
Proof.
  intros [_ Hst _] Hf. eapply Forall2_impl; [exact Hf|]. intros i xr [Hx (body & Hp & Ha)]. split; [done|]. exists body.
  split; [|done]. destruct (lookup_lt_is_Some_2 blocks i) as [block Hb]; [rewrite Hblocks; by eapply lookup_lt_Some|].
  destruct (Hst i block Hb) as (ph & body' & E1 & E2 & E3). rewrite Hp in E1. injection E1 as <-.
  apply complete_body in E3 as ->. by rewrite list_lookup_fmap, E2.
Qed.

Lemma responses_read chunks : forall s phs n items bodies w,
  TRead ∈ pending s -> rx_ready w (input_buffer s) -> phases_of (base s) phs n [] ->
  length phs = length blocks -> length bodies = length blocks -> interleaved limit blocks phs n items bodies ->
  w ++ concat chunks = concat (tagged_bytes xs <$> items) -> reads_fit fresh heap addr moved_response chunks s ->
  incomplete w = true ->
  exists s' calls n', session_run (EReadDone NoError <$> chunks) s s' /\
    notices s' = notices s ++ stream_notices (calls ≫= call_effects) /\
    Forall2 (answered xs (Complete <$> bodies)) (ended items) calls /\
    phases_of (base s') (Complete <$> bodies) n' [] /\ (length blocks <= n')%nat.
Proof.
  induction chunks as [|chunk chunks IH]; intros s phs n items bodies w Hp Hb Hph Hl Hlb Hin Hw Hfit Hinc.
  { cbn [concat] in Hw. rewrite app_nil_r in Hw.
    destruct (mx_items xs limit blocks Hlimit Hblocks items bodies phs n [] Hl Hlb Hin) as (_ & _ & I3 & _).
    destruct (frames_whole _ I3) as [Hfs _]. rewrite <- Hw in Hfs. destruct (frames_step w) as [Hf _].
    { rewrite Hw. apply Forall_concat. eapply Forall_impl; [exact I3|]. by intros f [Hf _]. }
    rewrite Hinc in Hf. rewrite Hf in Hfs. destruct items; [|done].
    pose proof (interleaved_nil_heads _ _ _ _ _ Hin) as Hn. apply interleaved_nil in Hin as ->; [|done..].
    exists s, [], n. split; [apply RunNil|]. split; [by rewrite app_nil_r|]. split; [constructor|]. done. }
  cbn [concat reads_fit] in *. destruct Hfit as [Hfit Hfits].
  destruct (read_multiplexed_part fresh heap addr moved_response Hfresh Hheap c0 xs limit blocks d' Hlimit Hids Hptrs Hblocks
    items bodies phs n [] w chunk (concat chunks) (input_buffer s) (base s))
    as (b & c & items1 & items2 & w' & phs' & n' & -> & Hr & Hph' & Hl' & Hin' & Hb' & Hinc' & Hw'); try done.
  rewrite app_nil_l in Hph'. pose proof (ip_log _ _ _ _ _ _ _ _ Hph') as (calls & Hlc & Hcalls).
  rewrite Hlog, app_nil_l, calls_effects in Hlc.
  assert (Ho : start_disconnect_flag c = false) by (rewrite (proj2 (ip_setup _ _ _ _ _ _ _ _ Hph')); exact Hopen).
  destruct (read_step fresh heap addr moved_response s chunk b c (calls ≫= call_effects) Hp Ho Hr Hlc)
    as (s1 & Hstep & B1 & B2 & B3 & B4).
  apply in_phases_clear in Hph'. rewrite <- B1 in Hph'. rewrite <- B3 in Hb'.
  destruct (IH s1 phs' n' items2 bodies w') as (s' & calls' & n2 & Hrun & Hns & Hc2 & Hph2 & Hn2); try done; [by apply Hfits|].
  exists s', (calls ++ calls'), n2. split; [econstructor; [exact Hstep|exact Hrun]|]. split.
  { rewrite Hns, B2, <- app_assoc. unfold stream_notices. by rewrite <- map_app, bind_app. }
  split; [|done]. unfold ended. rewrite filter_app, fmap_app. apply Forall2_app; [|exact Hc2].
  by eapply answered_final.
Qed.
End responses.

(** The responses the peer will send, in the order of their HEADERS frames: one for each request. *)
Definition answers_to c (rqs : list (request * U)) (xs : list (exchange (handler U))) : Prop :=
  x_ptr <$> xs ≡ₚ new_ptrs c (length rqs) /\
  Forall (fun x => exists i rq u, rqs !! i = Some (rq, u) /\
    x_ptr x = new_ptr c i /\ x_id x = new_id c i /\ x_handler x = User u) xs.

End multiplex.

(** ** Example *)

(** The session of [SessionExchange] with a larger buffer. *)
Definition wide_session : session nat :=
  Session (set_flags true true false make_client) (buffer_new zero_memory 512) false false [] None [TRead] [] [].

Lemma wide_session_ready : ready wide_session.
Proof.
  split; try done.
  - apply (kept_client_inv make_client); [by split|apply make_client_inv].
  - split; [apply buffer_new_ok; [exact zero_memory_ok|lia]|done].
Qed.

(** Two requests of a session that has connected, and their responses in the opposite order. *)
Definition session_requests : list (request * nat) := zip example_requests.*1 [7%nat; 8%nat].
Definition session_exchanges : list (exchange (handler nat)) :=
  [Exchange 1 3 (User 8%nat) example_fields; Exchange 0 1 (User 7%nat) more_fields].
Definition session_read : list Z := concat (tagged_bytes session_exchanges <$> example_tagged).

Lemma session_requests_sendable :
  all_sendable (base wide_session) session_requests.*1 Decoder.make_decoder (2 ^ 40).
Proof.
  split; [by vm_compute|split; [by repeat constructor|by vm_compute]|exact example_requests_ok|split; by vm_compute
    |exact new_codec_sync|by vm_compute].
Qed.

Lemma session_exchanges_answer : answers_to (base wide_session) session_requests session_exchanges.
Proof.
  split; [by apply Permutation_swap|].
  apply Forall_cons; split; [|apply Forall_cons; split; [|by apply Forall_nil]].
  - by eexists 1%nat, _, 8%nat.
  - by eexists 0%nat, _, 7%nat.
Qed.

