(* ===== verification/Calls.v ===== *)
(** * Programs that call libraries

    Code that is mostly calls of libraries which are not under src/ is modelled as a finite tree: a
    call and, for each answer, the rest of the program. Nothing is assumed about the answers: [run]
    lets an environment with a state of its own give them, and records the calls. *)
From S2P Require Import Prelude.

Section calls.
Context {C : Type} {R : C -> Type}.

(** A program that makes calls and returns a value. *)
Inductive free (A : Type) : Type :=
| Return (x : A)
| Call (c : C) (k : R c -> free A).
Arguments Return {_}.
Arguments Call {_}.

Fixpoint free_bind {A B} (p : free A) (f : A -> free B) : free B :=
  match p with
  | Return x => f x
  | Call c k => Call c (fun x => free_bind (k x) f)
  end.

(** A call and its answer. *)
Definition event : Type := { c : C & R c }.

Definition calls (tr : list event) : list C := map (@projT1 C R) tr.

Lemma calls_cons ev tr : calls (ev :: tr) = projT1 ev :: calls tr.
Proof. done. Qed.

Lemma calls_app tr tr' : calls (tr ++ tr') = calls tr ++ calls tr'.
Proof. apply map_app. Qed.

Section run.
Context {W : Type} (env : forall c : C, W -> R c * W).

Fixpoint run {A} (p : free A) (w : W) : A * W * list event :=
  match p with
  | Return x => (x, w, [])
  | Call c k =>
      let '(x, w) := env c w in
      let '(r, w, tr) := run (k x) w in
      (r, w, existT c x :: tr)
  end.

(** The calls of a sequence are those of the first program and then those of the second. *)
Lemma run_bind {A B} (p : free A) (f : A -> free B) w :
  run (free_bind p f) w =
    let '(x, w, tr) := run p w in let '(y, w, tr') := run (f x) w in (y, w, tr ++ tr').
Proof.
  revert w. induction p as [x|c k IH]; intros w; cbn [free_bind run].
  - by destruct (run (f x) w) as [[y w'] tr'].
  - destruct (env c w) as [x w1]. rewrite IH. destruct (run (k x) w1) as [[y w2] tr].
    by destruct (run (f y) w2) as [[z w3] tr'].
Qed.
End run.
End calls.
Arguments free {C} R A.
Arguments Return {C R A} x.
Arguments Call {C R A} c k.
Arguments event {C} R.
