(* ===== verification/Connection.v ===== *)
(** * TLS connections (connection.h)

    The transport of a session: a coroutine and a few functions that call Boost.Asio and OpenSSL. The
    libraries are not under src/: a member function is a tree of library calls ([Calls.free]) whose
    answers are left open. A call that throws answers with the error. *)
From S2P Require Import Prelude Protocol Calls.

Section connection.
Context {Endpoint : Type}.

(** ** Library calls *)

Inductive call : Type :=
| NewContext
| NewSocket
| SetDefaultVerifyPaths
| SetAlpnProtos (protos : list Z)
| SetTlsextHostName (host : string)
| ErrGetError
| SetVerifyPeer
| SetVerifyCallback
| AsyncResolve (host service : string)
| AsyncConnect (endpoints : list Endpoint)
| AsyncHandshake
| Close
| AsyncShutdown
| AsyncRead (size at_least : Z)
| AsyncWrite (buffers : list (list Z)).

Definition answer (c : call) : Type :=
  match c with
  | SetAlpnProtos _ | SetTlsextHostName _ | ErrGetError => Z
  | AsyncResolve _ _ => boost_error + list Endpoint
  | AsyncConnect _ => boost_error + Endpoint
  | AsyncRead _ _ => boost_error * list Z
  | AsyncWrite _ => boost_error * Z
  | _ => boost_error
  end.

(** The member that is changed ([None] is the endpoint it is initialised with); an exception or a value. *)
Record connection : Type := Connection { connected_epoint : option Endpoint }.

Definition conn (A : Type) : Type := connection -> free answer (connection * (boost_error + A)).

Definition throw {A} (ec : boost_error) : conn A := fun c => Return (c, inl ec).
#[local] Instance conn_ret : MRet conn := fun A x c => Return (c, inr x).
#[local] Instance conn_bind : MBind conn := fun A B f p c =>
  free_bind (p c) (fun r => match r.2 with inl ec => Return (r.1, inl ec) | inr x => f x r.1 end).

Definition call_library (l : call) : conn (answer l) := fun c => Call l (fun x => Return (c, inr x)).
(** The overloads that throw. *)
Definition throw_if (ec : boost_error) : conn unit := if failed ec then throw ec else mret tt.
Definition value_or_throw {A} (r : boost_error + A) : conn A :=
  match r with inl ec => throw ec | inr x => mret x end.
Definition set_connected_epoint (e : Endpoint) : conn unit := fun _ => Return (Connection (Some e), inr tt).

(** ** Member functions *)

Definition connected_point (c : connection) : option Endpoint := connected_epoint c.

(** The callback of certificate verification, for a certificate that OpenSSL has found valid or not. *)
Definition verify_certificate (preverified : bool) : bool := true.

Definition HTTP2_PROTO : list Z := [2; 104; 50].

(** [error_code{static_cast<int>(ERR_get_error()), get_ssl_category()}]. *)
Definition ssl_error (e : Z) : boost_error := TransportError (let x := u32 e in if x <? 2 ^ 31 then x else x - 2 ^ 32).

Definition prepare_ssl (host : string) : conn unit :=
  ec ← call_library SetDefaultVerifyPaths;
  _ ← throw_if ec;
  r ← call_library (SetAlpnProtos HTTP2_PROTO);
  _ ← (if negb (r =? 0) then e ← call_library ErrGetError; throw (ssl_error e) else mret tt);
  r ← call_library (SetTlsextHostName host);
  _ ← (if r =? 0 then e ← call_library ErrGetError; throw (ssl_error e) else mret tt);
  ec ← call_library SetVerifyPeer;
  _ ← throw_if ec;
  ec ← call_library SetVerifyCallback;
  throw_if ec.

Definition co_connect (host service : string) : conn unit :=
  r ← call_library (AsyncResolve host service);
  endpoints ← value_or_throw r;
  r ← call_library (AsyncConnect endpoints);
  e ← value_or_throw r;
  _ ← set_connected_epoint e;
  ec ← call_library AsyncHandshake;
  throw_if ec.

(** [prepare_ssl] throws at once, [co_connect] through the completion token. *)
Definition async_connect (host service : string) : conn unit :=
  ec ← call_library NewContext;
  _ ← throw_if ec;
  ec ← call_library NewSocket;
  _ ← throw_if ec;
  _ ← prepare_ssl host;
  co_connect host service.

(** The error of [close] is dropped; the handler gets that of the shutdown. *)
Definition async_disconnect : conn boost_error :=
  _ ← call_library Close;
  call_library AsyncShutdown.

Definition async_read (size : Z) : conn (boost_error * list Z) := call_library (AsyncRead size 1).
Definition async_write (buffers : list (list Z)) : conn (boost_error * Z) := call_library (AsyncWrite buffers).

(** ** Running against an environment *)

Abbreviation event := (event answer).

Section run.
Context {W : Type} (env : forall c : call, W -> answer c * W).

(** Whether a call has done what it is for. *)
Definition succeeded (ev : event) : bool :=
  match ev with
  | existT c x =>
      match c return answer c -> bool with
      | SetAlpnProtos _ => fun r => r =? 0
      | SetTlsextHostName _ => fun r => negb (r =? 0)
      | ErrGetError => fun _ => true
      | AsyncResolve _ _ => fun r => match r with inl _ => false | inr _ => true end
      | AsyncConnect _ => fun r => match r with inl _ => false | inr _ => true end
      | AsyncRead _ _ => fun r => negb (failed r.1)
      | AsyncWrite _ => fun r => negb (failed r.1)
      | _ => fun ec => negb (failed ec)
      end x
  end.

(** The error that a failed call, followed by the calls [rest], stands for. *)
Definition reported (ev : event) (rest : list event) (ec : boost_error) : Prop :=
  match ev with
  | existT c x =>
      match c return answer c -> Prop with
      | SetAlpnProtos _ | SetTlsextHostName _ =>
          fun _ => exists e, rest = [existT ErrGetError e] /\ ec = ssl_error e
      | AsyncResolve _ _ => fun r => rest = [] /\ r = inl ec
      | AsyncConnect _ => fun r => rest = [] /\ r = inl ec
      | ErrGetError | AsyncRead _ _ | AsyncWrite _ => fun _ => False
      | _ => fun r => rest = [] /\ r = ec
      end x
  end.

(** The calls of a connection: a new socket that offers HTTP/2 only, names the host and verifies the
    peer, before anything is sent; then the handshake with one of the host's endpoints. *)
Definition connect_calls (host service : string) (endpoints : list Endpoint) : list call :=
  [NewContext; NewSocket; SetDefaultVerifyPaths; SetAlpnProtos HTTP2_PROTO; SetTlsextHostName host; SetVerifyPeer;
   SetVerifyCallback; AsyncResolve host service; AsyncConnect endpoints; AsyncHandshake].

(** What a run of [async_connect] is: everything succeeded, or it stopped at the first failure. *)
Definition connect_result (host service : string) (c c' : connection) (r : boost_error + unit) (tr : list event) : Prop :=
  match r with
  | inr _ => exists endpoints e,
      calls tr = connect_calls host service endpoints /\ Forall (fun ev => succeeded ev = true) tr /\
      existT (AsyncResolve host service) (inr endpoints) ∈ tr /\ existT (AsyncConnect endpoints) (inr e) ∈ tr /\
      connected_point c' = Some e
  | inl ec => exists endpoints before ev rest,
      tr = before ++ ev :: rest /\ Forall (fun ev => succeeded ev = true) before /\ succeeded ev = false /\
      reported ev rest ec /\ calls (before ++ [ev]) `prefix_of` connect_calls host service endpoints /\
      (projT1 ev <> AsyncHandshake -> c' = c) /\
      (projT1 ev = AsyncHandshake -> exists e, connected_point c' = Some e)
  end.

(** One step of a run, and the two ways it can end. *)
Ltac run_step :=
  match goal with
  | |- context [env ?c ?w] => destruct (env c w) as [? ?]
  | |- context [if failed ?x then _ else _] => destruct (failed x) eqn:?
  | |- context [if negb (?x =? 0) then _ else _] => destruct (x =? 0) eqn:?
  | |- context [if ?x =? 0 then _ else _] => destruct (x =? 0) eqn:?
  | x : answer (AsyncResolve _ _) |- _ => destruct x as [|?endpoints]
  | x : answer (AsyncConnect _) |- _ => destruct x as [|?endpoint]
  end.

Ltac split_last l :=
  lazymatch l with
  | [?x] => constr:((@nil event, x))
  | ?y :: ?l => lazymatch split_last l with (?b, ?x) => constr:((y :: b, x)) end
  end.

Ltac succeeded_all :=
  repeat (apply Forall_cons; split; [cbn -[failed Z.eqb]; repeat match goal with E : _ = _ |- _ => rewrite E end; reflexivity|]);
  apply Forall_nil; done.

Ltac stopped before ev rest :=
  let eps := lazymatch before with context [inr ?l] => constr:(l) | _ => constr:(@nil Endpoint) end in
  exists eps, before, ev, rest; split; [reflexivity|]; split; [succeeded_all|];
  split; [cbn -[failed Z.eqb]; repeat match goal with E : _ = _ |- _ => rewrite E end; reflexivity|];
  split; [cbn; eauto|]; split; [cbn; by repeat apply prefix_cons, prefix_nil || apply prefix_cons|];
  split; [done|cbn; eauto; discriminate].

Ltac connect_stopped :=
  match goal with
  | |- connect_result _ _ _ _ (inl _) ?tr =>
      lazymatch split_last tr with
      | (?before, existT ErrGetError ?e) =>
          lazymatch split_last before with (?b, ?ev) => stopped b ev [existT ErrGetError e : event] end
      | (?before, ?ev) => stopped before ev (@nil event)
      end
  end.

(** C37: Connecting, whatever the libraries answer. On success exactly the calls of [connect_calls] have been made, in
    this order, and all have succeeded: a new TLS socket that offers [h2] as its only protocol, names the
    host and verifies the peer, connected to an endpoint the host resolves to, with a completed handshake;
    [connected_point] is that endpoint. Otherwise the calls stop at the first that fails, so that no
    handshake is started on a socket that is not set up, and its error is thrown (for OpenSSL, the one
    [ERR_get_error] gives). [connected_point] is set however before the handshake, also if that fails. *)
Theorem connection_connect host service c w :
  let '((c', r), _, tr) := run env (async_connect host service c) w in connect_result host service c c' r tr.
Proof.
  unfold async_connect, prepare_ssl, co_connect, throw_if, value_or_throw, mbind, mret, conn_bind, conn_ret, throw,
    call_library, set_connected_epoint.
  repeat (cbn -[Z.eqb failed connect_result]; run_step); cbn -[Z.eqb failed connect_result]; try connect_stopped.
  exists endpoints, endpoint. split; [done|]. split; [succeeded_all|]. split_and!; [| |done].
  - do 7 right. left.
  - do 8 right. left.
Qed.
End run.

(** ** Certificates *)

Section certificates.
Context {W : Type} (env : forall c : call, W -> answer c * W).

(** A handshake in mode [verify_peer] as OpenSSL documents it: the callback is called for each
    certificate of the chain with the result of the library's own verification, and the
    handshake fails when it returns false. *)
Definition verifies (chain : list bool) : Prop :=
  forall w, (env AsyncHandshake w).1 = if forallb verify_certificate chain then NoError else TransportError 1.

(** The handshake accepts every certificate chain. *)
Theorem connection_any_certificate chain w :
  verifies chain -> (env AsyncHandshake w).1 = NoError.
Proof.
  intros Hv. rewrite Hv. assert (forallb verify_certificate chain = true) as ->; [|done].
  clear. induction chain as [|x chain IH]; [done|exact IH].
Qed.
End certificates.

(** ** Disconnecting *)

Section disconnecting.
Context {W : Type} (env : forall c : call, W -> answer c * W) (is_open : W -> bool).

(** A socket that has been closed cannot be used. *)
Hypothesis close_closes : forall w, is_open (env Close w).2 = false.
Hypothesis shutdown_needs_open : forall w, is_open w = false -> failed (env AsyncShutdown w).1 = true.

(** The socket is closed first, so the TLS shutdown always fails and the peer never gets a [close_notify]. *)
Theorem connection_disconnect c w :
  let '((c', r), _, tr) := run env (async_disconnect c) w in
  calls tr = [Close; AsyncShutdown] /\ c' = c /\ exists ec, r = inr ec /\ failed ec = true.
Proof.
  unfold async_disconnect, mbind, conn_bind, call_library. cbn.
  pose proof (close_closes w) as Hc. destruct (env Close w) as [x w1].
  pose proof (shutdown_needs_open w1 Hc) as Hs. destruct (env AsyncShutdown w1) as [y w2]. cbn. eauto.
Qed.
End disconnecting.
End connection.

(** ** Examples *)

(** A host with one endpoint, whose handshake fails or not; the world counts the calls. *)
Definition example_env (handshake : boost_error) (c : call (Endpoint := nat)) (w : nat) : answer c * nat :=
  (match c return answer c with
   | SetAlpnProtos _ => 0
   | SetTlsextHostName _ => 1
   | ErrGetError => 0
   | AsyncResolve _ _ => inr [7%nat]
   | AsyncConnect _ => inr 7%nat
   | AsyncHandshake => handshake
   | AsyncRead _ _ => (NoError, [])
   | AsyncWrite _ => (NoError, 0)
   | _ => NoError
   end, S w).

Example example_connects :
  run (example_env NoError) (async_connect "example.com" "443" (Connection None)) 0%nat =
    (Connection (Some 7%nat), inr tt, 10%nat,
     (run (example_env NoError) (async_connect "example.com" "443" (Connection None)) 0%nat).2) /\
  (run (example_env (TransportError 1)) (async_connect "example.com" "443" (Connection None)) 0%nat).1 =
    (Connection (Some 7%nat), inl (TransportError 1), 10%nat).
Proof. by split. Qed.
