(* ===== verification/ExampleClient.v ===== *)
(** * The example program (examples/client.cpp)

    [main] gets one URL with a GET request and prints the response. It uses the library through futures
    and runs the I/O context in a thread of its own. It is a tree of calls ([Calls.free]): of
    Boost.URL, of the session's operations with [get()] on their futures, of the output streams, and of
    the I/O thread. [get()] answers with an exception or a value. *)
From S2P Require Import Prelude Protocol Calls HeaderField Method Request Response.

(** What [main] asks of the URL it is given. *)
Record uri : Type := Uri { uri_host_name : list Z; uri_port : list Z }.

Inductive call : Type :=
| PrintUsage
| StartIoThread
| ParseUri (s : list Z)
| Connect (host service : list Z)
| ViewUri (s : list Z)
| Send (rq : request)
| PrintField (name value : list Z)
| PrintBody (body : list Z)
| Disconnect
| PrintException (e : exn)
| StopContext
| JoinIoThread.

(** [async_connect(...).get()] returns the error code of [co_init]; a join returns or does not. *)
Definition answer (c : call) : Type :=
  match c with
  | ParseUri _ => option uri
  | Connect _ _ => exn + boost_error
  | ViewUri _ => exn + url_view
  | Send _ => exn + response
  | Disconnect => option exn
  | JoinIoThread => bool
  | _ => unit
  end.

Definition EXIT_SUCCESS : Z := 0.
Definition EXIT_FAILURE : Z := 1.

(** How the [try] block ends, other than at its end: an exception, a [return], or undefined behaviour. *)
Inductive signal : Type := Thrown (e : exn) | Returned (code : Z) | Broken.

Definition prog (A : Type) : Type := free answer (signal + A).
#[local] Instance prog_ret : MRet prog := fun A x => Return (inr x).
#[local] Instance prog_bind : MBind prog := fun A B f p =>
  free_bind p (fun r => match r with inl s => Return (inl s) | inr x => f x end).

Definition perform (c : call) : prog (answer c) := Call c (fun x => Return (inr x)).
Definition raise {A} (s : signal) : prog A := Return (inl s).
Definition value_or_throw {A} (r : exn + A) : prog A := match r with inl e => raise (Thrown e) | inr x => mret x end.
Definition attempt {A} (o : outcome A) : prog A :=
  match o with Ok x => mret x | Throw e => raise (Thrown e) | _ => raise Broken end.

(** The request; its URL is parsed once more, by the conversion to [url_view]. *)
Definition get_request (view : url_view) : outcome request :=
  request ← make_request view GET;
  accept ← make_header_field (str "accept") (str "*/*") DEFAULT;
  agent ← make_header_field (str "user-agent") (str "h2pp/0.0.1") DEFAULT;
  Ok (add_headers [accept; agent] request).

Definition service_of (u : uri) : list Z :=
  match uri_port u with [] => str "443" | port => port end.

(** The loop over the header fields of the response. *)
Fixpoint print_fields (fields : list header_field) : prog unit :=
  match fields with
  | [] => mret tt
  | h :: fields => _ ← perform (PrintField (m_name h) (m_value h)); print_fields fields
  end.

(** The [try] block. *)
Definition session (url : list Z) : prog unit :=
  u ← perform (ParseUri url);
  match u with
  | None => raise (Returned EXIT_FAILURE)
  | Some u =>
      r ← perform (Connect (uri_host_name u) (service_of u));
      _ ← value_or_throw r;
      v ← perform (ViewUri url);
      view ← value_or_throw v;
      rq ← attempt (get_request view);
      r ← perform (Send rq);
      response ← value_or_throw r;
      _ ← print_fields (response_headers response);
      _ ← perform (PrintBody (body_as response));
      e ← perform Disconnect;
      match e with Some e => raise (Thrown e) | None => mret tt end
  end.

Inductive result : Type := Exited (code : Z) | Blocked | Crashed.

(** The thread is joined, by [join()] or by its destructor, before [main] returns [code]. *)
Definition join_and_exit (code : Z) : free answer result :=
  Call JoinIoThread (fun joined : bool => Return (if joined then Exited code else Blocked)).

Definition finish : free answer result := Call StopContext (fun _ => join_and_exit EXIT_SUCCESS).

Definition main (argv : list (list Z)) : free answer result :=
  match argv with
  | [_; url] =>
      Call StartIoThread (fun _ =>
        free_bind (session url) (fun r =>
          match r with
          | inr _ => finish
          | inl (Thrown e) => Call (PrintException e) (fun _ => finish)
          | inl (Returned code) => join_and_exit code
          | inl Broken => Return Crashed
          end))
  | _ => Call PrintUsage (fun _ => Return (Exited EXIT_FAILURE))
  end.

(** The handler given to [async_connect]: whether it prints that the session stopped. *)
Definition reports_stop (ec : boost_error) : bool := failed ec.

(** ** What the program does *)

(** The calls of the [try] block for a URL that could be parsed: everything, or an exception at one of the
    operations, which is printed. *)
Definition response_calls (r : response) : list call :=
  ((fun h => PrintField (m_name h) (m_value h)) <$> response_headers r) ++ [PrintBody (body_as r); Disconnect].

Inductive session_calls (url : list Z) (u : uri) : list call -> Prop :=
| NoConnection e : session_calls url u [Connect (uri_host_name u) (service_of u); PrintException e]
| NoView e : session_calls url u [Connect (uri_host_name u) (service_of u); ViewUri url; PrintException e]
| Refused view e : get_request view = Throw e ->
    session_calls url u [Connect (uri_host_name u) (service_of u); ViewUri url; PrintException e]
| NoResponse view rq e : get_request view = Ok rq ->
    session_calls url u [Connect (uri_host_name u) (service_of u); ViewUri url; Send rq; PrintException e]
| BadEnd view rq r e : get_request view = Ok rq ->
    session_calls url u ([Connect (uri_host_name u) (service_of u); ViewUri url; Send rq] ++ response_calls r ++ [PrintException e])
| Complete view rq r : get_request view = Ok rq ->
    session_calls url u ([Connect (uri_host_name u) (service_of u); ViewUri url; Send rq] ++ response_calls r).

(** Building a request returns or throws. *)
Definition returns {A} (o : outcome A) : Prop := (exists x, o = Ok x) \/ (exists e, o = Throw e).

Lemma returns_bind {A B} (o : outcome A) (f : A -> outcome B) :
  returns o -> (forall x, returns (f x)) -> returns (o ≫= f).
Proof. intros [[x ->]|[e ->]] Hf; [apply Hf|by right; exists e]. Qed.

Lemma returns_ok {A} (x : A) : returns (Ok x).
Proof. by left; exists x. Qed.

Lemma returns_throw {A} e : returns (A := A) (Throw e).
Proof. by right; exists e. Qed.

Lemma make_header_field_returns n v t : returns (make_header_field n v t).
Proof.
  unfold make_header_field, check_max_size. apply returns_bind; [|intros; apply returns_ok].
  destruct (_ <=? _); [apply returns_throw|apply returns_ok].
Qed.

#[local] Hint Resolve returns_ok returns_throw make_header_field_returns : h2pp.

Lemma get_request_returns view : returns (get_request view).
Proof.
  unfold get_request, make_request, generic_url. destruct (to_string_total GET) as (s & _ & ->).
  repeat first [progress (repeat (apply returns_bind; [solve [auto with h2pp]|intros ?])) | apply returns_bind; [|intros ?]
    | progress auto with h2pp
    | match goal with |- returns (match ?l with _ => _ end) => destruct l end].
Qed.

Section running.
Context {W : Type} (env : forall c : call, W -> answer c * W) (stopped : W -> bool).

(** Printing cannot fail. *)
Lemma print_fields_run fields : forall w,
  exists w' tr, run env (print_fields fields) w = (inr tt, w', tr) /\
    calls tr = (fun h => PrintField (m_name h) (m_value h)) <$> fields.
Proof.
  induction fields as [|h fields IH]; intros w; [by exists w, []|]. cbn [print_fields].
  unfold mbind, prog_bind. rewrite run_bind. cbn [perform run]. destruct (env _ w) as [x w1].
  destruct (IH w1) as (w' & tr & -> & Hc). eexists w', _. split; [reflexivity|].
  cbn [fmap list_fmap]. by rewrite <- Hc.
Qed.

(** The [try] block returns without undefined behaviour. *)
Lemma session_run url w :
  let '(r, w', tr) := run env (session url) w in
  match (env (ParseUri url) w).1 with
  | None => r = inl (Returned EXIT_FAILURE) /\ calls tr = [ParseUri url]
  | Some u =>
      exists steps, calls tr = ParseUri url :: steps /\
        match r with
        | inl (Thrown e) => session_calls url u (steps ++ [PrintException e])
        | inr _ => session_calls url u steps
        | _ => False
        end
  end.
Proof.
  unfold session, mbind, prog_bind. cbn [perform free_bind run]. destruct (env (ParseUri url) w) as [[u|] w1]; [|done].
  cbn [fst free_bind run]. destruct (env (Connect _ _) w1) as [[e|ec] w2]; cbn [value_or_throw raise mret prog_ret free_bind run].
  { eexists. split; [reflexivity|]. apply NoConnection. }
  destruct (env (ViewUri url) w2) as [[e|view] w3]; cbn [value_or_throw raise mret prog_ret free_bind run].
  { eexists. split; [reflexivity|]. apply NoView. }
  destruct (get_request_returns view) as [[rq Hrq]|[e He]].
  2: { rewrite He. cbn [attempt raise free_bind run]. eexists. split; [reflexivity|]. by apply (Refused _ _ view). }
  rewrite Hrq. cbn [attempt mret prog_ret free_bind run].
  destruct (env (Send rq) w3) as [[e|resp] w4]; cbn [value_or_throw raise mret prog_ret free_bind run].
  { eexists. split; [reflexivity|]. by apply (NoResponse _ _ view). }
  rewrite run_bind. destruct (print_fields_run (response_headers resp) w4) as (w5 & tr & -> & Htr).
  cbn [free_bind run perform]. destruct (env (PrintBody _) w5) as [x w6]. cbn [free_bind run].
  destruct (env Disconnect w6) as [e w7]. cbn [answer] in e. set (tail := [existT (PrintBody (body_as resp)) x; existT Disconnect e] : list (event answer)).
  assert (Htail : calls (tr ++ tail) = response_calls resp) by (by rewrite calls_app, Htr).
  destruct e as [e|]; cbn [raise mret prog_ret free_bind run];
    exists ([Connect (uri_host_name u) (service_of u); ViewUri url; Send rq] ++ response_calls resp);
    (split; [by rewrite <- Htail|]).
  - rewrite <- app_assoc. exact (BadEnd _ _ view rq resp e Hrq).
  - exact (Complete _ _ view rq resp Hrq).
Qed.

(** The I/O context as Boost.Asio documents it: its thread, which runs it with a work object, ends exactly
    when the context has been stopped, and nothing but [stop] stops it. *)
Hypothesis join_waits : forall w, (env JoinIoThread w).1 = stopped w.
Hypothesis stop_stops : forall w, stopped (env StopContext w).2 = true.
Hypothesis others_do_not : forall c w, c <> StopContext -> stopped (env c w).2 = stopped w.

Lemma run_not_stopped {A} (p : free answer A) w :
  let '(_, w', tr) := run env p w in StopContext ∉ calls tr -> stopped w' = stopped w.
Proof.
  revert w. induction p as [x|c k IH]; intros w; cbn [run]; [done|].
  destruct (env c w) as [x w1] eqn:Hc. specialize (IH x w1). destruct (run env (k x) w1) as [[y w2] tr].
  intros Hn. apply not_elem_of_cons in Hn as [Hne Hn]. rewrite IH by done.
  pose proof (others_do_not c w ltac:(done)) as Ho. by rewrite Hc in Ho.
Qed.

Lemma finish_run w :
  let '(r, _, tr) := run env finish w in r = Exited EXIT_SUCCESS /\ calls tr = [StopContext; JoinIoThread].
Proof.
  unfold finish, join_and_exit. cbn [run]. pose proof (stop_stops w) as Hs. destruct (env StopContext w) as [x w1].
  pose proof (join_waits w1) as Hj. cbn in Hs. rewrite Hs in Hj. destruct (env JoinIoThread w1) as [y w2]. cbn in Hj. by subst.
Qed.

(** C38: The example program, whatever the libraries answer. Without exactly one argument it prints its usage and fails.
    For a URL that can be parsed it connects to the host, on port 443 if the URL names none, sends a GET
    request with two more header fields, prints the fields and the body of the response and disconnects,
    in this order; the first exception, also one for a URL that is refused by the request, is
    printed and nothing more is done; in the end it stops the I/O thread and always exits successfully. For a URL that
    cannot be parsed it returns without stopping the I/O context, so that it waits for its thread forever. *)
Theorem example_main argv w :
  stopped w = false ->
  let '(r, _, tr) := run env (main argv) w in
  match argv with
  | [_; url] =>
      match (env (ParseUri url) (env StartIoThread w).2).1 with
      | None => r = Blocked /\ calls tr = [StartIoThread; ParseUri url; JoinIoThread]
      | Some u =>
          r = Exited EXIT_SUCCESS /\
          exists steps, session_calls url u steps /\
            calls tr = [StartIoThread; ParseUri url] ++ steps ++ [StopContext; JoinIoThread]
      end
  | _ => r = Exited EXIT_FAILURE /\ calls tr = [PrintUsage]
  end.
Proof.
  intros Hw. destruct argv as [|prog [|url [|]]]; cbn [main run]; try (by destruct (env PrintUsage w)).
  pose proof (others_do_not StartIoThread w ltac:(done)) as Hs. destruct (env StartIoThread w) as [x w1].
  cbn [snd] in *. rewrite run_bind. pose proof (session_run url w1) as Hr. pose proof (run_not_stopped (session url) w1) as Hn.
  destruct (run env (session url) w1) as [[r w2] tr]. destruct (env (ParseUri url) w1).1 as [u|].
  - destruct Hr as (steps & Htr & Hc). destruct r as [[e| |]|t]; try done.
    + cbn [run]. destruct (env (PrintException e) w2) as [y w3]. pose proof (finish_run w3) as Hf.
      destruct (run env finish w3) as [[r' w4] tr']. destruct Hf as [-> Hf]. split; [done|].
      exists (steps ++ [PrintException e]). split; [done|]. rewrite calls_cons, calls_app, Htr, calls_cons, Hf.
      by rewrite <- app_assoc.
    + pose proof (finish_run w2) as Hf. destruct (run env finish w2) as [[r' w4] tr']. destruct Hf as [-> Hf]. split; [done|].
      exists steps. split; [done|]. by rewrite calls_cons, calls_app, Htr, Hf.
  - destruct Hr as [-> Htr]. unfold join_and_exit. cbn [run]. pose proof (join_waits w2) as Hj.
    destruct (env JoinIoThread w2) as [y w3]. cbn in Hj. rewrite Hn in Hj.
    + rewrite Hs, Hw in Hj. subst y. split; [done|]. by rewrite calls_cons, calls_app, Htr.
    + rewrite Htr. intros Hin. by apply list_elem_of_singleton in Hin.
Qed.
End running.

(** ** Examples *)

(** A world in which everything succeeds: the state says whether the context is stopped. *)
Definition example_world (parsed : option uri) (view : url_view) (c : call) (w : bool) : answer c * bool :=
  (match c return answer c with
   | ParseUri _ => parsed
   | Connect _ _ => inr NoError
   | ViewUri _ => inr view
   | Send _ => inr (Response [HeaderField (str ":status") (str "200") DEFAULT] (str "200") [] 0)
   | Disconnect => None
   | JoinIoThread => w
   | _ => tt
   end, match c with StopContext => true | _ => w end).

Lemma example_main_witness :
  let run_main parsed view := run (example_world parsed view) (main [str "client"; str "https://a.org"]) false in
  let u := Uri (str "a.org") [] in
  (run_main None (UrlView [] [] [] [] [])).1.1 = Blocked /\
  (run_main (Some u) (UrlView (str "https") (str "a.org") [] (str "a.org") [])).1.1 = Exited EXIT_SUCCESS /\
  calls (run_main (Some u) (UrlView (str "https") (str "a.org") [] (str "a.org") [])).2 =
    [StartIoThread; ParseUri (str "https://a.org"); Connect (str "a.org") (str "443"); ViewUri (str "https://a.org");
     PrintException (invalid_argument "Empty path"); StopContext; JoinIoThread].
Proof.
  cbv zeta. split; [|split; [|vm_compute; reflexivity]].
  - pose proof (example_main (example_world None (UrlView [] [] [] [] [])) id
      (fun _ => eq_refl) (fun _ => eq_refl) ltac:(by intros []) [str "client"; str "https://a.org"] false eq_refl) as Hm.
    destruct (run _ _ _) as [[r w] tr]. exact (proj1 Hm).
  - pose proof (example_main (example_world (Some (Uri (str "a.org") []))
      (UrlView (str "https") (str "a.org") [] (str "a.org") [])) id
      (fun _ => eq_refl) (fun _ => eq_refl) ltac:(by intros []) [str "client"; str "https://a.org"] false eq_refl) as Hm.
    destruct (run _ _ _) as [[r w] tr]. exact (proj1 Hm).
Defined.
